(* ===== verification/_CoqProject ===== *)
-Q . S2P
Prelude.v
GoData.v
GoStrings.v
Json.v
V1alpha1.v
Models.v
Env.v
GoTime.v
Testbed.v
ApiServer.v
Labels.v
Utils.v
Repository.v
Hardware.v
ConfigSources.v
Storage.v
Facade.v
Assembler.v
Heartbeat.v
BackendApi.v
Backend.v
Crypto.v
MTLS.v
Yggdrasil.v
Controller.v
EdgeWorkload.v
Rollout.v
Ownership.v
Placement.v
EdgeDeviceLabels.v
SignedRequest.v
EdgeDeviceController.v
PlaybookControllers.v
Reconcilers.v
Onboarding.v
RemoteBackend.v
HttpServer.v
Metrics.v
Wireless.v
Webhooks.v
Watchers.v
Manager.v
Cluster.v
ClusterRules.v
ClusterSafety.v
ClusterIsolation.v
ClusterAssignments.v
ClusterAnswers.v
