(* ===== verification/Prelude.v ===== *)
(** * Flotta operator: verification library (root)

    The flotta operator manages edge devices from a Kubernetes cluster.  It runs
    as two programs that share nothing but the objects of the cluster:
    - the manager (src/cmd/manager), whose reconcilers (src/controllers) bring
      devices in line with workloads, configurations and requests;
    - the HTTP server (src/cmd/httpapi), which authenticates devices (pkg/mtls),
      answers their messages (internal/edgeapi/yggdrasil) and records what they
      report through a backend (internal/edgeapi/backend/k8s or remote).

    ** How code becomes definitions

    A Go function that talks to the outside is a value of [prog Resp A]: a tree
    of calls ([Env.Req]) whose answers ([Env.Resp]) select the rest.  The calls
    are the operations of the Kubernetes client, the clock, random values,
    events, counters, the remote backend, and the choices of the Go runtime
    (the order of a map, the schedule of goroutines, whether a context is
    cancelled).  [exec p t o] says that [p] may make exactly the exchanges [t]
    and end with [o]; the answers are unconstrained, so a theorem about every
    [exec] holds whatever the API server, the clock and the scheduler do.  A nil
    dereference, a write to a nil map and an index out of range are the outcome
    [Panicked].  Pure functions are Rocq functions; a loop over a list is
    [for_range] or [for_each]; goroutines are [par2] and [par_list], whose
    schedule the environment chooses.  Errors are values of [Env.error], the
    sum of the errors the code creates, wraps or tests.  Slices and maps tell
    nil from empty (GoData.v); int32 and uint32 conversions are written out.

    ** The files

    - Prelude.v: programs, executions and their rules (sequences, loops,
      goroutines), the predicates [calls] and [no_panic] with their tactics;
      GoData.v, GoStrings.v, Json.v, GoTime.v: what the code uses of Go and its
      standard library; V1alpha1.v: the custom resources (api/v1alpha1);
      Models.v: the wire messages (models); Env.v: errors and calls; Testbed.v:
      an in-memory cluster on which examples are evaluated; ApiServer.v: one
      that works as an API server without faults does, and the runs of programs
      against it, for the properties about progress.
    - Labels.v, Utils.v, Repository.v, Facade.v: internal/common and the
      repositories; Hardware.v, ConfigSources.v, Storage.v, Assembler.v: what a
      device is sent (internal/edgeapi/hardware, configmaps, devicemetrics,
      images, internal/common/storage, k8s/configuration-assembler.go);
      Heartbeat.v: k8s/heartbeat-updater.go, heartbeat-handler.go and the
      retries of yggdrasil/heartbeat-handler.go.
    - BackendApi.v: the interface of a backend, a class with laws; Backend.v and
      RemoteBackend.v: its two implementations (k8s/backend.go,
      remote/backend.go, factory/factory.go), which discharge the laws.
    - Crypto.v: the operations of the crypto packages as a class with laws, and
      a symbolic instance; MTLS.v: pkg/mtls; Yggdrasil.v: the handlers and the
      middleware of the HTTP server, over any backend and any authority.
    - Controller.v: splitting and running work concurrently; EdgeWorkload.v,
      EdgeDeviceLabels.v, SignedRequest.v, EdgeDeviceController.v,
      PlaybookControllers.v: the reconcilers; Reconcilers.v: all of them as one
      operation with the manager's configuration.
    - Onboarding.v: the HTTP server and the reconciler of requests against the
      server of ApiServer.v; Rollout.v: the reconciler of workloads and the
      configuration of a device against the same.  Ownership.v: a weakest
      precondition for programs in a cluster that may answer in more than one
      way, and goroutines that own the devices they work on; Placement.v: the
      reconciler of workloads with it, for all schedules and orders.
    - Metrics.v: the device counters (internal/common/metrics,
      internal/operator/informers), sequentially and as a step relation of
      goroutines; Wireless.v: the MQTT handler of cmd/httpapi; Webhooks.v:
      admission (api/v1alpha1 webhooks); Watchers.v: internal/operator/watchers.
    - HttpServer.v and Manager.v: the start of the two programs, from the
      environment to a server that answers ([HttpServer.Server]) and a manager
      that runs ([Manager.Manager]), whose fields are what the calls of its
      start leave behind.
    - Cluster.v: both programs on one cluster.  A state is the past of the
      devices and requests of the API server and the activities under way, each
      a program of the files above (a request to a reconciler, a request of a
      device, an MQTT message); a step is one exchange of one of them, a start,
      or a change from outside; schedules can be played.  ClusterRules.v: what
      each activity may ask for, given what it was shown before.
      ClusterSafety.v, ClusterIsolation.v, ClusterAssignments.v,
      ClusterAnswers.v: invariants of the reachable states.

    ** What the theorems show

    - Registration and identity: what the middleware accepts and whom it takes a
      request to come from ([Yggdrasil.InnerMiddleware_gate],
      [Yggdrasil.impersonation], [MTLS.GetCACertificate_spec]), that a
      certificate is handed out only to an approved device, for the key it sent
      and in its own name ([Yggdrasil.k8s_registration_approved]), where a
      device registers and what that changes, retries included
      ([Backend.GetTargetNamespace_spec], [Backend.Register_spec],
      [Backend.Enrol_spec]), and that an unknown device gets in
      ([Onboarding.device_joins]); the remote backend checks less
      ([RemoteBackend.remote_registration_ignores_owner]), and the authority
      signs no request whose algorithm does not fit its own key
      ([MTLS.SignCSR_needs_fitting_algorithm]).
    - The system: whatever is interleaved, and although reads come from a cache
      that may be behind, registration is final
      ([ClusterSafety.registration_is_final]), devices exist only by an approval
      ([ClusterSafety.devices_are_approved]), a request changes nothing of
      other devices ([ClusterIsolation.requests_are_isolated]), a device is
      given a workload only on the word of a specification or a label
      ([ClusterAssignments.workloads_are_assigned_for_a_reason]) and a
      configuration only goes to its own device
      ([ClusterAnswers.configurations_are_the_devices_own]); what such
      interleavings do allow is shown by runs
      ([ClusterSafety.registration_accepted_again],
      [ClusterSafety.registration_races],
      [ClusterAssignments.assignment_is_lost_to_a_heartbeat]).
    - Starting: certificates outlive restarts
      ([HttpServer.certificates_survive_restart]); when each program starts and
      with what ([HttpServer.main_running], [Manager.main_spec]).
    - Handlers: isolation of devices, queries that change nothing, the answer to
      every outcome of a heartbeat (Yggdrasil.v).
    - Workloads: one that names a device reaches it and is in its configuration
      ([Rollout.workload_rolls_out]); one that names or selects devices reaches
      exactly these and leaves them again, for every schedule
      ([Placement.workload_reaches_selected],
      [Placement.workload_leaves_selected]).
    - Configurations: they are complete, their secrets decode to what was
      stored, config maps are all sent (Assembler.v, ConfigSources.v); a
      workload that passes the webhook can nevertheless break them
      ([Webhooks.accepted_workload_panics]).
    - Heartbeats: workloads are neither added nor lost, histories only grow,
      events are emitted once, retries end (Heartbeat.v).
    - Hardware: a report is shown field by field
      ([Hardware.MapHardware_total]) and as labels ([Hardware.MapLabels_spec]).
    - Reconcilers: devices are brought in line, finalizers go last, requests are
      approved before devices exist, lookups find what they should or not, every
      request returns and writes only its own kinds (EdgeWorkload.v to
      Reconcilers.v).
    - Counters: interleaved heartbeats count once each, the registry follows the
      informer (Metrics.v).  End nodes: one device per message, one entry per
      LoRa node (Wireless.v).

    ** Bounds and fuel

    Loops over lists are structural.  The loop of [splitEdgeDevices] has as much
    fuel as there are devices, and [Controller.splitEdgeDevices_partition] shows
    that it is enough; decoders of strings have the length of the string, and
    every step consumes a byte.  Retry loops have the bounds of the code (three
    retries).  The concurrency of a reconciler is a Z; theorems ask for
    [0 < Concurrency < 2 ^ 63], which int(uint) can hold.

    ** Abstractions

    Log lines are left out.  Times are instants (a Z of nanoseconds), compared
    as such where the code compares with DeepEqual.  An object is a value: where
    the code changes an object another variable points to, the model returns it.
    The answer to a patch or an update is any object, as the client overwrites
    the object sent.  In Cluster.v the API server is the largest relation its
    documentation allows for devices and requests (any call may fail, before or
    after its change; a read may be answered with any earlier state; a patch is
    a merge patch, and a version it names has to be the current one), so that
    what is shown holds for every server within it; of everybody else it is
    assumed that nobody marks an existing device as never registered.  Parts of Kubernetes
    types that the code never looks into are opaque.  Parameters stand for code that is not in the repository: label
    selectors and YAML ([Env.Libs]), Unicode tables, decoding of message
    contents ([Yggdrasil.Wire], [Wireless.MessageDecoder]), crypto
    ([Crypto.Crypto], with the laws [Crypto.CryptoLaws]: a parent certificate
    has to be an authority whose key usage allows signing, and the signature
    algorithm one that fits its key and is still accepted), the Prometheus registry ([Metrics.Registry]), URL
    parsing, and the verbs of a format string made from error texts
    ([Controller.Formatter]).

    ** Not modelled

    Generated code is left out, which is most of what the development does not
    cover: the go-swagger servers, clients, embedded documents and validation
    methods of src/restapi, src/client, src/models and their counterparts under
    src/backend, the deep copies of src/api, the clientsets, informers and
    listers of src/generated.  Its behaviour is that of the generators, it holds
    no decision of the operator, and the records of Models.v and V1alpha1.v are
    its data.  The validation methods only run in the request binding of the
    generated server, before the handlers of Yggdrasil.v are called.
    The libraries the two programs start with (reading the environment, building
    clients, the controller runtime, listening) are parameters that say which
    calls fail; the wrapper of the Kubernetes client (internal/common/k8sclient)
    only forwards.  The connection to the MQTT broker and the MQTT test client,
    the tools, the tests with their mocks and vendored code are left out.
    ApiServer.v merges a status patch field by field; an object nested in a
    field is replaced as a whole. *)
From stdpp Require Export base tactics option list strings gmap fin_maps sorting.
From Stdlib Require Export ZArith Lia.

#[global] Set Default Proof Using "Type".
#[global] Open Scope string_scope.
#[global] Open Scope list_scope.

(** ** Go programs as trees of calls to their environment *)

(** What a Go function does when it runs: it finishes with a value, or it
    panics (nil dereference, write to a nil map, index out of range). *)
Inductive outcome (A : Type) : Type :=
  | Done (a : A)
  | Panicked.
Arguments Done {A} a.
Arguments Panicked {A}.

#[export] Instance outcome_mret : MRet outcome := @Done.
#[export] Instance outcome_mbind : MBind outcome := fun A B f o =>
  match o with Done a => f a | Panicked => Panicked end.

(** [*p]: a nil pointer panics. *)
Definition deref {A} (p : option A) : outcome A :=
  match p with Some a => Done a | None => Panicked end.

(** A pure loop over pointers that reads each of them: it panics at the first
    nil one. *)
Lemma mapM_deref_Done {A B} (f : A -> B) (l : list (option A)) :
  Forall is_Some l ->
  mapM (fun p => a ← deref p; mret (f a)) l = Done (f <$> omap id l).
Proof.
  induction 1 as [|p l [a ->] _ IH]; [done|]. simpl. rewrite IH. done.
Qed.

Lemma mapM_deref_Panicked {A B} (f : A -> B) (l : list (option A)) :
  None ∈ l -> mapM (fun p => a ← deref p; mret (f a)) l = Panicked.
Proof.
  induction l as [|[a|] l IH]; intros Hl; [by apply elem_of_nil in Hl| |done].
  simpl. apply elem_of_cons in Hl as [?|Hl]; [done|]. by rewrite IH.
Qed.

Lemma elem_of_concat {A} (x : A) (ls : list (list A)) : x ∈ concat ls <-> exists l, x ∈ l /\ l ∈ ls.
Proof.
  rewrite list_elem_of_In, in_concat. setoid_rewrite list_elem_of_In. naive_solver.
Qed.

(** Filtering by what holds of every element. *)
Lemma filter_all {A} (P : A -> Prop) `{forall x, Decision (P x)} l :
  Forall P l -> filter P l = l.
Proof.
  induction 1 as [|x l Hx _ IH]; [done|]. rewrite filter_cons_True by done. by f_equal.
Qed.

(** A list of pointers holds a nil one or none. *)
Lemma None_in_dec {A} (l : list (option A)) : None ∈ l \/ Forall is_Some l.
Proof.
  induction l as [|[a|] l [IH|IH]]; [by right|left; by right|right; by constructor|left; left..].
Qed.

Section Prog.
(** The calls a program can make and the type of the answer of each. *)
Context {Req : Type} {Resp : Req -> Type}.

(** A program: a value, a panic, or a call whose answer selects the rest. *)
Inductive prog (A : Type) : Type :=
  | Ret (a : A)
  | Panic
  | Call (c : Req) (k : Resp c -> prog A).
Arguments Ret {A} a.
Arguments Panic {A}.
Arguments Call {A} c k.

Fixpoint prog_bind {A B} (f : A -> prog B) (p : prog A) : prog B :=
  match p with
  | Ret a => f a
  | Panic => Panic
  | Call c k => Call c (fun r => prog_bind f (k r))
  end.

(** One exchange with the environment. *)
Record event := Ev { ev_req : Req; ev_resp : Resp ev_req }.

(** [exec p t o]: the environment may answer so that [p] makes exactly the
    exchanges [t] and ends with [o].  The answers are unconstrained: a
    statement about every [exec] holds for every behaviour of the API
    server, the clock and the scheduler. *)
Inductive exec {A} : prog A -> list event -> outcome A -> Prop :=
  | exec_Ret a : exec (Ret a) [] (Done a)
  | exec_Panic : exec Panic [] Panicked
  | exec_Call c k r t o :
      exec (k r) t o -> exec (Call c k) (Ev c r :: t) o.

(** Running a program against a concrete environment with state [W]. *)
Fixpoint run {A W} (h : forall c : Req, W -> W * Resp c) (p : prog A) (w : W)
  : W * list event * outcome A :=
  match p with
  | Ret a => (w, [], Done a)
  | Panic => (w, [], Panicked)
  | Call c k =>
      let (w1, r) := h c w in
      let '(w2, t, o) := run h (k r) w1 in (w2, Ev c r :: t, o)
  end.
End Prog.

Arguments prog {Req} Resp A.
Arguments Ret {Req Resp A} a.
Arguments Panic {Req Resp A}.
Arguments Call {Req Resp A} c k.
Arguments event {Req} Resp.
Arguments Ev {Req Resp} ev_req ev_resp.
Arguments ev_req {Req Resp} _.
Arguments ev_resp {Req Resp} _.

#[export] Instance prog_mret {Req} {Resp : Req -> Type} : MRet (prog Resp) :=
  fun A a => Ret a.
#[export] Instance prog_mbind {Req} {Resp : Req -> Type} : MBind (prog Resp) :=
  fun A B f p => prog_bind f p.
#[export] Instance prog_fmap {Req} {Resp : Req -> Type} : FMap (prog Resp) :=
  fun A B f p => prog_bind (fun a => Ret (f a)) p.

(** The program that makes one call and returns the answer. *)
Definition call {Req} {Resp : Req -> Type} (c : Req) : prog Resp (Resp c) :=
  Call c (fun r => Ret r).

Section ExecLemmas.
Context {Req : Type} {Resp : Req -> Type}.
Implicit Types t : list (event Resp).

Lemma exec_Ret_inv {A} (a : A) t o :
  exec (Ret a : prog Resp A) t o <-> t = [] /\ o = Done a.
Proof. split; [inversion 1; auto | intros [-> ->]; constructor]. Qed.

Lemma exec_Panic_inv {A} t (o : outcome A) :
  exec (Panic : prog Resp A) t o <-> t = [] /\ o = Panicked.
Proof. split; [inversion 1; auto | intros [-> ->]; constructor]. Qed.

Lemma exec_Call_inv {A} c (k : Resp c -> prog Resp A) t o :
  exec (Call c k) t o <-> exists r t', t = Ev c r :: t' /\ exec (k r) t' o.
Proof.
  split.
  - intros H.
    refine (match H in exec p' t0 o0
      return match p' with
             | Call c' k' => exists r t', t0 = Ev c' r :: t' /\ exec (k' r) t' o0
             | _ => True
             end
      with exec_Call _ _ r t' o' H' => _ | _ => I end).
    exists r, t'. auto.
  - intros (r & t' & -> & H). by constructor.
Qed.

(** With decidable calls, the answer in the trace is the one the program got. *)
Lemma exec_Call_resp `{EqDecision Req} {A} c (k : Resp c -> prog Resp A) r t o :
  exec (Call c k) (Ev c r :: t) o <-> exec (k r) t o.
Proof.
  split; [|by constructor]. intros (r' & t' & E & He)%exec_Call_inv.
  pose proof (f_equal (@tail _) E) as E1. simpl in E1. subst t'.
  pose proof (f_equal (fun e => existT (ev_req e) (ev_resp e)) (f_equal (hd (Ev c r)) E)) as E'.
  simpl in E'. apply Eqdep_dec.inj_pair2_eq_dec in E'; [by subst r'|exact EqDecision0].
Qed.

(** Executions of a sequence are sequences of executions. *)
Lemma exec_bind_inv {A B} (p : prog Resp A) (f : A -> prog Resp B) t o :
  exec (p ≫= f) t o <->
    (exec p t Panicked /\ o = Panicked) \/
    (exists a t1 t2, t = t1 ++ t2 /\ exec p t1 (Done a) /\ exec (f a) t2 o).
Proof.
  revert t o. induction p as [a| |c k IH]; intros t o.
  - split.
    + intros H. right. exists a, [], t. repeat split; [constructor | done].
    + intros [[H _]|(a' & t1 & t2 & -> & H1 & H2)].
      * by apply exec_Ret_inv in H as [_ ?].
      * apply exec_Ret_inv in H1 as [-> [= ->]]. done.
  - split.
    + intros [-> ->]%exec_Panic_inv. left. split; [constructor | done].
    + intros [[H ->]|(a' & t1 & t2 & -> & H1 & H2)].
      * apply exec_Panic_inv in H as [-> _]. constructor.
      * by apply exec_Panic_inv in H1 as [_ ?].
  - split.
    + intros (r & t' & -> & H)%exec_Call_inv.
      apply IH in H as [[H ->]|(a & t1 & t2 & -> & H1 & H2)].
      * left. split; [by constructor | done].
      * right. exists a, (Ev c r :: t1), t2.
        repeat split; [by constructor | done].
    + intros [[H ->]|(a & t1 & t2 & -> & H1 & H2)].
      * apply exec_Call_inv in H as (r & t' & -> & H).
        apply exec_Call_inv. exists r, t'. split; [done|]. apply IH. auto.
      * apply exec_Call_inv in H1 as (r & t' & -> & H1).
        apply exec_Call_inv. exists r, (t' ++ t2). split; [done|].
        apply IH. right. eauto 10.
Qed.

Lemma exec_fmap_inv {A B} (f : A -> B) (p : prog Resp A) t o :
  exec (f <$> p) t o <->
    (exec p t Panicked /\ o = Panicked) \/
    (exists a, exec p t (Done a) /\ o = Done (f a)).
Proof.
  change (f <$> p) with (p ≫= (fun a => Ret (f a) : prog Resp B)).
  rewrite exec_bind_inv. split; intros [?|H]; auto; right.
  - destruct H as (a & t1 & t2 & -> & H1 & [-> ->]%exec_Ret_inv).
    rewrite app_nil_r. eauto.
  - destruct H as (a & H & ->). exists a, t, [].
    rewrite app_nil_r. repeat split; [done | constructor].
Qed.

Lemma exec_call_inv c t o :
  exec (call c : prog Resp (Resp c)) t o <-> exists r, t = [Ev c r] /\ o = Done r.
Proof.
  unfold call. rewrite exec_Call_inv. split.
  - intros (r & t' & -> & [-> ->]%exec_Ret_inv). eauto.
  - intros (r & -> & ->). exists r, []. split; [done | constructor].
Qed.

Lemma exec_bind_call c {B} (f : Resp c -> prog Resp B) t o :
  exec (call c ≫= f) t o <-> exists r t', t = Ev c r :: t' /\ exec (f r) t' o.
Proof. exact (exec_Call_inv c f t o). Qed.

Lemma exec_bind_call_resp `{EqDecision Req} c {B} (f : Resp c -> prog Resp B) r t o :
  exec (call c ≫= f) (Ev c r :: t) o <-> exec (f r) t o.
Proof. exact (exec_Call_resp c f r t o). Qed.

Lemma bind_ret_l {A B} (a : A) (f : A -> prog Resp B) : (mret a ≫= f) = f a.
Proof. done. Qed.

(** Every run is an execution, so what holds of all executions holds of the
    runs against any concrete environment. *)
Lemma run_exec {A W} (h : forall c : Req, W -> W * Resp c) (p : prog Resp A) w w' t o :
  run h p w = (w', t, o) -> exec p t o.
Proof.
  revert w w' t o. induction p as [a| |c k IH]; simpl; intros w w' t o H.
  - simplify_eq. constructor.
  - simplify_eq. constructor.
  - destruct (h c w) as [w1 r].
    destruct (run h (k r) w1) as [[w2 t2] o2] eqn:E. simplify_eq.
    constructor. eauto.
Qed.

Lemma run_bind {A B W} (h : forall c : Req, W -> W * Resp c)
    (p : prog Resp A) (f : A -> prog Resp B) w :
  run h (p ≫= f) w =
    match run h p w with
    | (w1, t1, Done a) => let '(w2, t2, o) := run h (f a) w1 in (w2, t1 ++ t2, o)
    | (w1, t1, Panicked) => (w1, t1, Panicked)
    end.
Proof.
  unfold mbind, prog_mbind. revert w.
  induction p as [a| |c k IH]; cbn; intros w.
  - by destruct (run h (f a) w) as [[w2 t2] o].
  - done.
  - destruct (h c w) as [w1 r]. rewrite IH.
    destruct (run h (k r) w1) as [[w2 t2] [a|]]; [|done].
    by destruct (run h (f a) w2) as [[w3 t3] o].
Qed.
End ExecLemmas.

Create HintDb exec.
Create HintDb no_panic.
#[export] Hint Constructors exec : exec.

(** ** Loops with [continue] and early [return] *)

(** How the body of a [for] statement ends: the loop goes on with new values
    of the variables it assigns, or the function returns. *)
Inductive ctl (S R : Type) : Type :=
  | Next (s : S)
  | Return (r : R).
Arguments Next {S R} s.
Arguments Return {S R} r.

(** [for _, x := range l { body }] over the assigned variables [s]. *)
Fixpoint for_range {Req} {Resp : Req -> Type} {X S R}
    (l : list X) (s : S) (body : S -> X -> prog Resp (ctl S R)) : prog Resp (ctl S R) :=
  match l with
  | [] => mret (Next s)
  | x :: l' =>
      c ← body s x;
      match c with
      | Next s' => for_range l' s' body
      | Return r => mret (Return r)
      end
  end.

(** A loop whose body never returns from the function. *)
Fixpoint for_each {Req} {Resp : Req -> Type} {X S}
    (l : list X) (s : S) (body : S -> X -> prog Resp S) : prog Resp S :=
  match l with
  | [] => mret s
  | x :: l' => s' ← body s x; for_each l' s' body
  end.

Section LoopRules.
Context {Req : Type} {Resp : Req -> Type} {X S : Type}.
Implicit Types t : list (event Resp).

(** The invariant rule of [for_range]: [I pre s t] relates the elements
    already visited, the variables and the exchanges made so far. *)
Lemma for_range_rule {R} (I : list X -> S -> list (event Resp) -> Prop)
    (Q : R -> list (event Resp) -> Prop) (P : list (event Resp) -> Prop)
    (body : S -> X -> prog Resp (ctl S R)) l :
  (forall pre x post s t t' o, l = pre ++ x :: post -> I pre s t ->
     exec (body s x) t' o ->
     match o with
     | Done (Next s') => I (pre ++ [x]) s' (t ++ t')
     | Done (Return r) => Q r (t ++ t')
     | Panicked => P (t ++ t')
     end) ->
  forall s t o, I [] s [] -> exec (for_range l s body) t o ->
    match o with
    | Done (Next s') => I l s' t
    | Done (Return r) => Q r t
    | Panicked => P t
    end.
Proof.
  intros Hbody.
  enough (forall post pre s t0 t o, l = pre ++ post -> I pre s t0 ->
    exec (for_range post s body) t o ->
    match o with
    | Done (Next s') => I l s' (t0 ++ t)
    | Done (Return r) => Q r (t0 ++ t)
    | Panicked => P (t0 ++ t)
    end) as Hgen.
  { intros s t o HI Ho. exact (Hgen l [] s [] t o eq_refl HI Ho). }
  induction post as [|x post IH]; intros pre s t0 t o Hl HI Ho; simpl in Ho.
  - apply exec_Ret_inv in Ho as [-> ->]. rewrite app_nil_r in Hl.
    rewrite app_nil_r. by subst.
  - apply exec_bind_inv in Ho as [[H ->]|(c & t1 & t2 & -> & H1 & H2)].
    + exact (Hbody pre x post s t0 t Panicked Hl HI H).
    + pose proof (Hbody pre x post s t0 t1 (Done c) Hl HI H1) as Hc.
      destruct c as [s'|r].
      * rewrite app_assoc. apply (IH (pre ++ [x]) s' (t0 ++ t1) t2 o); [|done..].
        by rewrite <-app_assoc.
      * apply exec_Ret_inv in H2 as [-> ->]. by rewrite app_nil_r.
Qed.

Lemma for_each_rule (I : list X -> S -> list (event Resp) -> Prop)
    (P : list (event Resp) -> Prop)
    (body : S -> X -> prog Resp S) l :
  (forall pre x post s t t' o, l = pre ++ x :: post -> I pre s t ->
     exec (body s x) t' o ->
     match o with
     | Done s' => I (pre ++ [x]) s' (t ++ t')
     | Panicked => P (t ++ t')
     end) ->
  forall s t o, I [] s [] -> exec (for_each l s body) t o ->
    match o with Done s' => I l s' t | Panicked => P t end.
Proof.
  intros Hbody.
  enough (forall post pre s t0 t o, l = pre ++ post -> I pre s t0 ->
    exec (for_each post s body) t o ->
    match o with Done s' => I l s' (t0 ++ t) | Panicked => P (t0 ++ t) end) as Hgen.
  { intros s t o HI Ho. exact (Hgen l [] s [] t o eq_refl HI Ho). }
  induction post as [|x post IH]; intros pre s t0 t o Hl HI Ho; simpl in Ho.
  - apply exec_Ret_inv in Ho as [-> ->]. rewrite app_nil_r in Hl.
    rewrite app_nil_r. by subst.
  - apply exec_bind_inv in Ho as [[H ->]|(c & t1 & t2 & -> & H1 & H2)].
    + exact (Hbody pre x post s t0 t Panicked Hl HI H).
    + pose proof (Hbody pre x post s t0 t1 (Done c) Hl HI H1) as Hc.
      rewrite app_assoc. apply (IH (pre ++ [x]) c (t0 ++ t1) t2 o); [|done..].
      by rewrite <-app_assoc.
Qed.
End LoopRules.

(** A loop that visits [order] and appends what it emits for an element, or
    nothing.  [Got x y t]: for [x] it obtained [y] through the exchanges [t]. *)
Section CollectRule.
Context {Req : Type} {Resp : Req -> Type} {X Y Z R : Type}.
Context (Got : X -> option Y -> list (event Resp) -> Prop) (emit : X -> Y -> Z).
Context (Q : R -> list (event Resp) -> Prop) (P : list (event Resp) -> Prop).

Definition collected (order : list X) (acc : list Z) (t : list (event Resp)) : Prop :=
  exists l : list (X * option Y),
    l.*1 = order /\ acc = omap (fun '(x, y) => emit x <$> y) l /\
    Forall (fun '(x, y) => exists t', t' ⊆ t /\ Got x y t') l.

Lemma collected_elem order acc t x :
  collected order acc t -> x ∈ order ->
  exists y t', t' ⊆ t /\ Got x y t' /\ forall b, y = Some b -> emit x b ∈ acc.
Proof.
  intros (l & <- & -> & HF) ([x' y] & -> & Hin)%list_elem_of_fmap.
  rewrite Forall_forall in HF. destruct (HF _ Hin) as (t' & Ht & Hg). exists y, t'.
  split_and!; [done..|]. intros b ->. apply list_elem_of_omap. eexists. split; [exact Hin|done].
Qed.

Lemma for_range_collect (body : list Z -> X -> prog Resp (ctl (list Z) R)) order t o :
  (forall acc x t1 t o, x ∈ order -> exec (body acc x) t o ->
     match o with
     | Done (Next acc') => exists y, Got x y t /\ acc' = acc ++ option_list (emit x <$> y)
     | Done (Return r) => Q r (t1 ++ t)
     | Panicked => P (t1 ++ t)
     end) ->
  exec (for_range order [] body) t o ->
  match o with
  | Done (Next acc) => collected order acc t
  | Done (Return r) => Q r t
  | Panicked => P t
  end.
Proof.
  intros Hbody. apply (for_range_rule collected Q P); [|by exists []].
  intros pre x post acc t1 t' o' -> (l & Hl & -> & HF) He.
  apply (Hbody _ _ t1) in He; [|set_solver].
  destruct o' as [[acc'|r]|]; [|done..]. destruct He as (y & Hg & ->).
  exists (l ++ [(x, y)]). rewrite fmap_app, Hl. split; [done|]. split.
  { rewrite omap_app. f_equal. }
  apply Forall_app. split.
  - eapply Forall_impl; [exact HF|]. intros [x' y'] (t2 & Hs & ?). exists t2.
    split; [|done]. set_solver.
  - apply Forall_singleton. exists t'. split; [set_solver|done].
Qed.
End CollectRule.

(** ** The calls a program may make *)

Section Calls.
Context {Req : Type} {Resp : Req -> Type}.

(** [calls P p]: whatever the environment answers, [p] only makes calls
    that satisfy [P]. *)
Fixpoint calls {A} (P : Req -> Prop) (p : prog Resp A) : Prop :=
  match p with
  | Ret _ => True
  | Panic => True
  | Call c k => P c /\ forall r, calls P (k r)
  end.

Lemma calls_bind {A B} (P : Req -> Prop) (p : prog Resp A) (f : A -> prog Resp B) :
  calls P p -> (forall a, calls P (f a)) -> calls P (p ≫= f).
Proof.
  intros Hp Hf. induction p as [a| |c k IH]; [exact (Hf a)|done|].
  destruct Hp as [Hc Hk]. split; [done|]. intros r. exact (IH r (Hk r)).
Qed.

Lemma calls_fmap {A B} (P : Req -> Prop) (p : prog Resp A) (f : A -> B) :
  calls P p -> calls P (f <$> p).
Proof. intros Hp. apply (calls_bind P p (fun a => Ret (f a))); [done|by intros]. Qed.

Lemma calls_call (P : Req -> Prop) c : P c -> calls P (call c : prog Resp (Resp c)).
Proof. split; [done|by intros]. Qed.

Lemma calls_ret {A} (P : Req -> Prop) (a : A) : calls P (mret a : prog Resp A).
Proof. done. Qed.

Lemma calls_weaken {A} (P Q : Req -> Prop) (p : prog Resp A) :
  (forall c, P c -> Q c) -> calls P p -> calls Q p.
Proof.
  intros HPQ. induction p as [| |c k IH]; simpl; [done..|]. intros [Hc Hk].
  split; [by apply HPQ|]. intros r. apply IH, Hk.
Qed.

Lemma calls_for_range_in {X S R} (P : Req -> Prop) (l : list X) (s : S)
    (body : S -> X -> prog Resp (ctl S R)) :
  (forall s x, x ∈ l -> calls P (body s x)) -> calls P (for_range l s body).
Proof.
  revert s. induction l as [|x l IH]; intros s Hb; simpl; [done|].
  apply calls_bind; [apply Hb; left|]. intros [s'|r]; [|done]. apply IH. intros s1 y Hy.
  apply Hb. by right.
Qed.

Lemma calls_for_each_in {X S} (P : Req -> Prop) (l : list X) (s : S)
    (body : S -> X -> prog Resp S) :
  (forall s x, x ∈ l -> calls P (body s x)) -> calls P (for_each l s body).
Proof.
  revert s. induction l as [|x l IH]; intros s Hb; simpl; [done|].
  apply calls_bind; [apply Hb; left|]. intros s'. apply IH. intros s1 y Hy. apply Hb. by right.
Qed.

Lemma calls_for_range {X S R} (P : Req -> Prop) (l : list X) (s : S)
    (body : S -> X -> prog Resp (ctl S R)) :
  (forall s x, calls P (body s x)) -> calls P (for_range l s body).
Proof. intros Hb. by apply calls_for_range_in. Qed.

Lemma calls_for_each {X S} (P : Req -> Prop) (l : list X) (s : S)
    (body : S -> X -> prog Resp S) :
  (forall s x, calls P (body s x)) -> calls P (for_each l s body).
Proof. intros Hb. by apply calls_for_each_in. Qed.

Lemma calls_exec {A} (P : Req -> Prop) (p : prog Resp A) t o :
  calls P p -> exec p t o -> Forall (fun e => P (ev_req e)) t.
Proof.
  intros Hp He. induction He as [a| |c k r t o He IH]; [constructor..|].
  destruct Hp as [Hc Hk]. constructor; [exact Hc|]. apply IH, Hk.
Qed.
End Calls.

#[export] Hint Resolve calls_bind calls_fmap calls_call calls_ret
  calls_for_range calls_for_each : exec.

(** ** The calls a program may make after what it has been told *)

Section Follows.
Context {Req : Type} {Resp : Req -> Type}.
Implicit Types (t h : list (event Resp)).

(** [follows P h p]: after the exchanges [h], whatever the environment answers,
    every call of [p] satisfies [P] of the exchanges before it. *)
Fixpoint follows {A} (P : list (event Resp) -> Req -> Prop) h (p : prog Resp A) : Prop :=
  match p with
  | Ret _ => True
  | Panic => True
  | Call c k => P h c /\ forall r, follows P (h ++ [Ev c r]) (k r)
  end.

Context (P : list (event Resp) -> Req -> Prop).

Lemma follows_bind {A B} h (p : prog Resp A) (f : A -> prog Resp B) :
  follows P h p -> (forall t a, exec p t (Done a) -> follows P (h ++ t) (f a)) ->
  follows P h (p ≫= f).
Proof.
  revert h. induction p as [a| |c k IH]; intros h Hp Hf; [|done|].
  - specialize (Hf [] a). rewrite app_nil_r in Hf. apply Hf. constructor.
  - destruct Hp as [Hc Hk]. split; [done|]. intros r. apply IH; [apply Hk|].
    intros t a He. rewrite <-(assoc_L (++)). apply Hf. by constructor.
Qed.

Lemma follows_fmap {A B} h (p : prog Resp A) (f : A -> B) :
  follows P h p -> follows P h (f <$> p).
Proof. intros Hp. by apply (follows_bind h p (fun a => Ret (f a))). Qed.

(** A rule that does not look at the past. *)
Lemma follows_calls {A} (Q : Req -> Prop) h (p : prog Resp A) :
  (forall h c, Q c -> P h c) -> calls Q p -> follows P h p.
Proof.
  intros HQ. revert h. induction p as [a| |c k IH]; intros h; [done..|].
  intros [Hc Hk]. split; [by apply HQ|]. intros r. by apply IH.
Qed.

(** A loop that keeps [I]. *)
Lemma follows_for_each {X S} (I : list (event Resp) -> S -> Prop) h (l : list X) (s : S)
    (body : S -> X -> prog Resp S) :
  I h s ->
  (forall h s x, x ∈ l -> I h s -> follows P h (body s x) /\
     forall t s', exec (body s x) t (Done s') -> I (h ++ t) s') ->
  follows P h (for_each l s body).
Proof.
  revert h s. induction l as [|x l IH]; intros h s Hs Hb; simpl; [done|].
  destruct (Hb h s x) as [Hx HI]; [left|done|].
  apply follows_bind; [done|]. intros t s' He. apply IH; [by apply HI|].
  intros h' s1 y Hy. apply Hb. by right.
Qed.

Lemma follows_for_range {X S R} h (l : list X) (s : S) (body : S -> X -> prog Resp (ctl S R)) :
  (forall h s x, follows P h (body s x)) -> follows P h (for_range l s body).
Proof.
  intros Hb. revert h s. induction l as [|x l IH]; intros h s; simpl; [done|].
  apply follows_bind; [done|]. by intros t [s'|r] _.
Qed.
End Follows.

(** ** The calls a program may make of an honest environment *)

Section Safe.
Context {Req : Type} {Resp : Req -> Type}.
Context (honest : forall c, Resp c -> Prop) (P : Req -> Prop).

(** [safe Q p]: as long as every answer is [honest], [p] only makes calls that
    satisfy [P], and what it returns satisfies [Q]. *)
Fixpoint safe {A} (Q : A -> Prop) (p : prog Resp A) : Prop :=
  match p with
  | Ret a => Q a
  | Panic => True
  | Call c k => P c /\ forall r, honest c r -> safe Q (k r)
  end.

Lemma safe_bind {A B} (R : A -> Prop) (Q : B -> Prop) (p : prog Resp A) (f : A -> prog Resp B) :
  safe R p -> (forall a, R a -> safe Q (f a)) -> safe Q (p ≫= f).
Proof.
  intros Hp Hf. induction p as [a| |c k IH]; [by apply Hf|done|].
  destruct Hp as [Hc Hk]. split; [done|]. intros r Hr. exact (IH r (Hk r Hr)).
Qed.

Lemma safe_weaken {A} (R Q : A -> Prop) (p : prog Resp A) :
  (forall a, R a -> Q a) -> safe R p -> safe Q p.
Proof.
  intros HRQ. induction p as [a| |c k IH]; simpl; [apply HRQ|done|].
  intros [Hc Hk]. split; [done|]. intros r Hr. by apply IH, Hk.
Qed.

Lemma safe_fmap {A B} (p : prog Resp A) (f : A -> B) :
  safe (fun _ => True) p -> safe (fun _ => True) (f <$> p).
Proof. intros Hp. by apply (safe_bind (fun _ => True) _ p (fun a => Ret (f a))). Qed.

Lemma safe_calls {A} (p : prog Resp A) : calls P p -> safe (fun _ => True) p.
Proof.
  induction p as [a| |c k IH]; [done..|]. intros [Hc Hk]. split; [done|]. intros r _. by apply IH.
Qed.

Lemma safe_for_range {X S R} (I : S -> Prop) (Q : R -> Prop) (l : list X) (s : S)
    (body : S -> X -> prog Resp (ctl S R)) :
  I s ->
  (forall s x, I s -> safe (fun c => match c with Next s => I s | Return r => Q r end) (body s x)) ->
  safe (fun c => match c with Next s => I s | Return r => Q r end) (for_range l s body).
Proof.
  intros Hs Hb. revert s Hs. induction l as [|x l IH]; intros s Hs; simpl; [done|].
  eapply safe_bind; [by apply Hb|]. intros [s'|r]; [by apply IH|done].
Qed.

Lemma safe_for_each {X S} (I : S -> Prop) (l : list X) (s : S) (body : S -> X -> prog Resp S) :
  I s -> (forall s x, I s -> safe I (body s x)) -> safe I (for_each l s body).
Proof.
  intros Hs Hb. revert s Hs. induction l as [|x l IH]; intros s Hs; simpl; [done|].
  eapply safe_bind; [by apply Hb|]. intros s'. apply IH.
Qed.
End Safe.

(** Every program can run to an end, if every call can be answered; so what
    holds of the calls of every execution holds of the program. *)
Section ExecCalls.
Context {Req : Type} {Resp : Req -> Type} (some_answer : forall c : Req, Resp c).

Lemma exec_exists {A} (p : prog Resp A) : exists t o, exec p t o.
Proof using Type*.
  induction p as [a| |c k IH]; [by repeat econstructor..|].
  destruct (IH (some_answer c)) as (t & o & He). exists (Ev c (some_answer c) :: t), o.
  by constructor.
Qed.

Lemma exec_calls {A} (P : Req -> Prop) (p : prog Resp A) :
  (forall t o, exec p t o -> Forall (fun e => P (ev_req e)) t) -> calls P p.
Proof using Type*.
  induction p as [a| |c k IH]; intros He; [done..|]. split.
  - destruct (exec_exists (Call c k)) as (t & o & Hx). apply He in Hx as Hf.
    apply exec_Call_inv in Hx as (r & t' & -> & _). by apply Forall_cons in Hf as [? _].
  - intros r. apply IH. intros t o Hx.
    assert (exec (Call c k) (Ev c r :: t) o) as Hf%He by by constructor.
    by apply Forall_cons in Hf as [_ ?].
Qed.
End ExecCalls.

(** ** Goroutines *)

Section Par.
Context {Req : Type} {Resp : Req -> Type}.
(** The scheduler is part of the environment: [sched] asks it which of two
    goroutines makes its next call. *)
Context (sched : Req) (pick : Resp sched -> bool).
Implicit Types t : list (event Resp).

(** Two goroutines that run until both have finished; a panic in either
    ends the process. *)
Fixpoint par2 {A B} (p : prog Resp A) : prog Resp B -> prog Resp (A * B) :=
  fix go (q : prog Resp B) : prog Resp (A * B) :=
    match p, q with
    | Ret a, _ => prog_bind (fun b => Ret (a, b)) q
    | _, Ret b => prog_bind (fun a => Ret (a, b)) p
    | Panic, Panic => Panic
    | Panic, Call d l =>
        Call sched (fun s => if pick s then Panic else Call d (fun r => go (l r)))
    | Call c k, Panic =>
        Call sched (fun s => if pick s then Call c (fun r => par2 (k r) q) else Panic)
    | Call c k, Call d l =>
        Call sched (fun s =>
          if pick s then Call c (fun r => par2 (k r) q)
          else Call d (fun r => go (l r)))
    end.

(** [for i := range ps { go ps[i]() }; wg.Wait()], each result at its index. *)
Fixpoint par_list {A} (ps : list (prog Resp A)) : prog Resp (list A) :=
  match ps with
  | [] => mret []
  | p :: ps' => (fun '(a, l) => a :: l) <$> par2 p (par_list ps')
  end.

(** [interleave t1 t2 t]: up to scheduler exchanges, [t] is an
    interleaving of [t1] and [t2]. *)
Inductive interleave : list (event Resp) -> list (event Resp) -> list (event Resp) -> Prop :=
  | il_nil : interleave [] [] []
  | il_l e t1 t2 t : interleave t1 t2 t -> interleave (e :: t1) t2 (e :: t)
  | il_r e t1 t2 t : interleave t1 t2 t -> interleave t1 (e :: t2) (e :: t)
  | il_sched r t1 t2 t : interleave t1 t2 t -> interleave t1 t2 (Ev sched r :: t).

Lemma interleave_left t : interleave t [] t.
Proof. induction t; by constructor. Qed.
Lemma interleave_right t : interleave [] t t.
Proof. induction t; by constructor. Qed.

Lemma interleave_app_left t0 t1 t2 t :
  interleave t1 t2 t -> interleave (t0 ++ t1) t2 (t0 ++ t).
Proof. intros H. induction t0; [done|]. by constructor. Qed.

Lemma par2_Ret_l {A B} (a : A) (q : prog Resp B) :
  par2 (Ret a) q = prog_bind (fun b => Ret (a, b)) q.
Proof. by destruct q. Qed.

Lemma par2_Ret_r {A B} (p : prog Resp A) (b : B) :
  par2 p (Ret b) = prog_bind (fun a => Ret (a, b)) p.
Proof. by destruct p. Qed.

Lemma exec_bind_Ret_inv {A B} (f : A -> B) (p : prog Resp A) t b :
  exec (prog_bind (fun a => Ret (f a)) p) t (Done b) ->
  exists a, exec p t (Done a) /\ b = f a.
Proof.
  intros H. apply (exec_fmap_inv f p) in H as [[_ ?]|(a & H & [= ->])]; eauto.
  done.
Qed.

(** What two goroutines return and the calls they make are an interleaving
    of an execution of each. *)
Lemma exec_par2 {A B} (p : prog Resp A) (q : prog Resp B) t a b :
  exec (par2 p q) t (Done (a, b)) ->
  exists t1 t2, exec p t1 (Done a) /\ exec q t2 (Done b) /\ interleave t1 t2 t.
Proof.
  revert q t. induction p as [a'| |c k IHp]; intros q t H.
  - rewrite par2_Ret_l in H. apply exec_bind_Ret_inv in H as (b' & H & [= -> ->]).
    exists [], t. repeat split; [constructor | done | apply interleave_right].
  - exfalso. revert t H. induction q as [b'| |d l IHq]; intros t H; simpl in H.
    + by apply exec_Panic_inv in H as [_ ?].
    + by apply exec_Panic_inv in H as [_ ?].
    + apply exec_Call_inv in H as (s & t' & -> & H). destruct (pick s).
      * by apply exec_Panic_inv in H as [_ ?].
      * apply exec_Call_inv in H as (r & t'' & -> & H). by apply (IHq r t'').
  - revert t H. induction q as [b'| |d l IHq]; intros t H.
    + simpl in H. change (exec (prog_bind (fun a => Ret (a, b')) (Call c k)) t (Done (a, b))) in H.
      apply exec_bind_Ret_inv in H as (a' & H & [= -> ->]).
      exists t, []. repeat split; [done | constructor | apply interleave_left].
    + simpl in H. apply exec_Call_inv in H as (s & t' & -> & H). destruct (pick s).
      * apply exec_Call_inv in H as (r & t'' & -> & H).
        apply IHp in H as (t1 & t2 & H1 & H2 & H3).
        by apply exec_Panic_inv in H2 as [_ ?].
      * by apply exec_Panic_inv in H as [_ ?].
    + simpl in H. apply exec_Call_inv in H as (s & t' & -> & H). destruct (pick s).
      * apply exec_Call_inv in H as (r & t'' & -> & H).
        apply IHp in H as (t1 & t2 & H1 & H2 & H3).
        exists (Ev c r :: t1), t2. repeat split; [by constructor | done |].
        by do 2 constructor.
      * apply exec_Call_inv in H as (r & t'' & -> & H).
        apply IHq in H as (t1 & t2 & H1 & H2 & H3).
        exists t1, (Ev d r :: t2). repeat split; [done | by constructor |].
        by do 2 constructor.
Qed.

Lemma interleave_Permutation t1 t2 t :
  interleave t1 t2 t ->
  exists t0, t ≡ₚ t0 ++ t1 ++ t2 /\ Forall (fun e => ev_req e = sched) t0.
Proof.
  induction 1 as [|e t1 t2 t _ (t0 & IH & Hs)|e t1 t2 t _ (t0 & IH & Hs)
                 |r t1 t2 t _ (t0 & IH & Hs)].
  - exists []. auto.
  - exists t0. split; [|done]. rewrite IH. simpl. by apply Permutation_middle.
  - exists t0. split; [|done]. rewrite IH. rewrite !(assoc_L (++)).
    by apply Permutation_middle.
  - exists (Ev sched r :: t0). split; [by rewrite IH|]. by constructor.
Qed.

(** All goroutines: each runs to its end, its result is at its index, and
    the exchanges are those of the goroutines plus the scheduler's. *)
Lemma exec_par_list {A} (ps : list (prog Resp A)) t rs :
  exec (par_list ps) t (Done rs) ->
  exists ts t0, Forall2 (fun p '(t, r) => exec p t (Done r)) ps (zip ts rs) /\
    length ts = length rs /\
    t ≡ₚ t0 ++ concat ts /\ Forall (fun e => ev_req e = sched) t0.
Proof.
  revert t rs. induction ps as [|p ps IH]; intros t rs H; simpl in H.
  - apply exec_Ret_inv in H as [-> [= ->]]. exists [], []. simpl. auto.
  - apply exec_fmap_inv in H as [[_ ?]|([a l] & H & [= ->])]; [done|].
    apply exec_par2 in H as (t1 & t2 & H1 & H2 & H3).
    apply IH in H2 as (ts & t0 & HF & Hlen & HP & Hs).
    apply interleave_Permutation in H3 as (t0' & HP' & Hs').
    exists (t1 :: ts), (t0' ++ t0). simpl. repeat split.
    + by constructor.
    + lia.
    + rewrite HP', HP. rewrite <-(assoc_L (++)). apply Permutation_app_head.
      rewrite !(assoc_L (++)). apply Permutation_app_tail. apply Permutation_app_comm.
    + by apply Forall_app.
Qed.
End Par.

(** What goroutines call is what each of them calls. *)
Lemma calls_par2 {Req} {Resp : Req -> Type} (P : Req -> Prop) sched (pick : Resp sched -> bool)
    {A B} (p : prog Resp A) (q : prog Resp B) :
  P sched -> calls P p -> calls P q -> calls P (par2 sched pick p q).
Proof.
  intros Hs. revert q. induction p as [a| |c k IHp]; intros q Hp Hq.
  - rewrite par2_Ret_l. by apply (calls_bind P q (fun b => Ret (a, b))).
  - induction q as [b| |d l IHq]; [done|done|]. destruct Hq as [Hd Hq]. split; [done|].
    intros s. destruct (pick s); [done|]. split; [done|]. intros r. apply IHq, Hq.
  - destruct Hp as [Hc Hk]. induction q as [b| |d l IHq].
    + by apply (calls_bind P (Call c k) (fun a => Ret (a, b))).
    + split; [done|]. intros s. destruct (pick s); [|done]. split; [done|]. intros r. by apply IHp.
    + destruct Hq as [Hd Hl]. split; [done|]. intros s. destruct (pick s); (split; [done|]);
        intros r; [by apply IHp|by apply IHq].
Qed.

Lemma calls_par_list {Req} {Resp : Req -> Type} (P : Req -> Prop) sched (pick : Resp sched -> bool)
    {A} (ps : list (prog Resp A)) :
  P sched -> Forall (calls P) ps -> calls P (par_list sched pick ps).
Proof.
  intros Hs. induction 1 as [|p ps Hp HF IH]; [done|]. cbn [par_list].
  apply calls_fmap. by apply calls_par2.
Qed.

(** A rule that more exchanges do not break: what goroutines follow, they
    follow together. *)
Section FollowsPar.
Context {Req : Type} {Resp : Req -> Type} (P : list (event Resp) -> Req -> Prop).
Context (P_mono : forall h h' c, h ⊆ h' -> P h c -> P h' c).

Lemma follows_mono {A} h h' (p : prog Resp A) : h ⊆ h' -> follows P h p -> follows P h' p.
Proof using Type*.
  revert h h'. induction p as [a| |c k IH]; intros h h' Hs; [done..|].
  intros [Hc Hk]. split; [exact (P_mono _ _ _ Hs Hc)|]. intros r. eapply IH; [|apply Hk].
  intros e. rewrite !elem_of_app. intros [?|?]; [left; by apply Hs|by right].
Qed.

Lemma follows_kept {A} h (p : prog Resp A) : calls (P h) p -> follows P h p.
Proof using Type*.
  intros Hp. assert (forall h', h ⊆ h' -> follows P h' p) as Hall; [|by apply Hall].
  induction p as [a| |c k IH]; intros h' Hs; [done..|]. destruct Hp as [Hc Hk].
  split; [exact (P_mono _ _ _ Hs Hc)|]. intros r. apply IH; [done|]. by apply list_subseteq_app_l.
Qed.

Lemma follows_for_range_kept {X S R} h (l : list X) (s : S) (body : S -> X -> prog Resp (ctl S R)) :
  (forall s x, x ∈ l -> follows P h (body s x)) -> follows P h (for_range l s body).
Proof using Type*.
  intros Hb. assert (forall h', h ⊆ h' -> follows P h' (for_range l s body)) as Hall; [|by apply Hall].
  revert s. induction l as [|x l IH]; intros s h' Hs; simpl; [done|].
  apply follows_bind; [eapply follows_mono; [exact Hs|apply Hb; left]|].
  intros t [s'|r] _; [|done]. apply IH; [|by apply list_subseteq_app_l].
  intros s1 y Hy. apply Hb. by right.
Qed.

Lemma rule_later h e c : P h c -> P (h ++ [e]) c.
Proof using Type*. apply P_mono. by apply list_subseteq_app_l. Qed.

Lemma follows_later {A} h e (p : prog Resp A) : follows P h p -> follows P (h ++ [e]) p.
Proof using Type*. apply follows_mono. by apply list_subseteq_app_l. Qed.

Lemma follows_skip {A} h e e' (p : prog Resp A) :
  follows P (h ++ [e']) p -> follows P ((h ++ [e]) ++ [e']) p.
Proof using Type*. apply follows_mono. intros x. rewrite !elem_of_app. tauto. Qed.

Hint Resolve rule_later follows_later follows_skip : core.

Lemma follows_par2 sched (pick : Resp sched -> bool) {A B} h (p : prog Resp A) (q : prog Resp B) :
  P h sched -> follows P h p -> follows P h q -> follows P h (par2 sched pick p q).
Proof using Type*.
  revert h q. induction p as [a| |c k IHp]; intros h q Hs Hp Hq.
  - rewrite par2_Ret_l. by apply (follows_bind P h q (fun b => Ret (a, b))).
  - revert h Hs Hp Hq. induction q as [b| |d l IHq]; intros h Hs Hp Hq; [done|done|].
    destruct Hq as [Hd Hq]. split; [done|]. intros s. destruct (pick s); [done|]. split; auto.
  - revert h Hs Hp Hq. induction q as [b| |d l IHq]; intros h Hs Hp Hq.
    + by apply (follows_bind P h (Call c k) (fun a => Ret (a, b))).
    + destruct Hp as [Hc Hk]. split; [done|]. intros s. destruct (pick s); [|done]. split; auto.
    + pose proof Hp as [Hc Hk]. pose proof Hq as [Hd Hl]. split; [done|].
      intros s. destruct (pick s).
      * split; [by apply rule_later|]. intros r. apply IHp; auto.
      * split; [by apply rule_later|]. intros r. apply IHq; auto.
Qed.

Lemma follows_par_list sched (pick : Resp sched -> bool) {A} h (ps : list (prog Resp A)) :
  P h sched -> Forall (follows P h) ps -> follows P h (par_list sched pick ps).
Proof using Type*.
  intros Hs. induction 1 as [|p ps Hp HF IH]; [done|]. cbn [par_list].
  apply follows_fmap. by apply follows_par2.
Qed.
End FollowsPar.

(** ** Programs that cannot panic *)

Section NoPanic.
Context {Req : Type} {Resp : Req -> Type}.

(** Whatever the environment answers, [p] runs to an end without a panic. *)
Fixpoint no_panic {A} (p : prog Resp A) : Prop :=
  match p with
  | Ret _ => True
  | Panic => False
  | Call c k => forall r, no_panic (k r)
  end.

Lemma no_panic_exec {A} (p : prog Resp A) t o :
  no_panic p -> exec p t o -> exists a, o = Done a.
Proof.
  intros Hp He. induction He as [a| |c k r t o He IH]; [by eexists|done|]. apply IH, Hp.
Qed.

Lemma no_panic_bind {A B} (p : prog Resp A) (f : A -> prog Resp B) :
  no_panic p -> (forall a, no_panic (f a)) -> no_panic (p ≫= f).
Proof.
  intros Hp Hf. induction p as [a| |c k IH]; [exact (Hf a)|done|]. intros r. exact (IH r (Hp r)).
Qed.

Lemma no_panic_for_range {X S R} (l : list X) (s : S) (body : S -> X -> prog Resp (ctl S R)) :
  (forall s x, no_panic (body s x)) -> no_panic (for_range l s body).
Proof.
  intros Hb. revert s. induction l as [|x l IH]; intros s; simpl; [done|].
  apply no_panic_bind; [done|]. by intros [s'|r].
Qed.

Lemma no_panic_for_each {X S} (l : list X) (s : S) (body : S -> X -> prog Resp S) :
  (forall s x, no_panic (body s x)) -> no_panic (for_each l s body).
Proof.
  intros Hb. revert s. induction l as [|x l IH]; intros s; simpl; [done|]. by apply no_panic_bind.
Qed.

Lemma no_panic_par2 sched pick {A B} (p : prog Resp A) (q : prog Resp B) :
  no_panic p -> no_panic q -> no_panic (par2 sched pick p q).
Proof.
  revert q. induction p as [a| |c k IHp]; intros q Hp Hq.
  - rewrite par2_Ret_l. by apply (no_panic_bind q (fun b => Ret (a, b))).
  - done.
  - induction q as [b| |d l IHq]; [|done|].
    + by apply (no_panic_bind (Call c k) (fun a => Ret (a, b))).
    + intros s. destruct (pick s); intros r; [by apply IHp|by apply IHq].
Qed.

Lemma no_panic_par_list sched pick {A} (ps : list (prog Resp A)) :
  Forall no_panic ps -> no_panic (par_list sched pick ps).
Proof.
  induction 1 as [|p ps Hp HF IH]; [done|]. simpl.
  apply (no_panic_bind _ (fun a => Ret _)); [by apply no_panic_par2|by intros [a l]].
Qed.
End NoPanic.

(** ** Tactics *)

(** Names the parts of the answer to a call that returns an object and an error. *)
Ltac destruct_resp r :=
  let T := type of r in
  let T' := eval hnf in T in
  lazymatch T' with
  | prod _ _ => let obj := fresh "obj" in let err := fresh "err" in destruct r as [obj err]
  | _ => idtac
  end.

(** Takes the next step of an execution in the hypotheses apart. *)
Ltac exec_step :=
  match goal with
  | H : exec (mret _) _ _ |- _ => apply exec_Ret_inv in H as [? ?]
  | H : exec (Ret _) _ _ |- _ => apply exec_Ret_inv in H as [? ?]
  | H : exec Panic _ _ |- _ => apply exec_Panic_inv in H as [? ?]
  | H : exec (Call _ _) _ _ |- _ =>
      let r := fresh "r" in let t := fresh "t" in
      apply exec_Call_inv in H as (r & t & ? & H); destruct_resp r
  | H : exec (mbind ?f (call ?c)) _ _ |- _ =>
      let r := fresh "r" in let t := fresh "t" in
      apply (exec_bind_call c f) in H as (r & t & ? & H); destruct_resp r
  | H : exec (@call _ ?Rs ?c) _ _ |- _ =>
      let r := fresh "r" in apply (exec_call_inv (Resp:=Rs) c) in H as (r & ? & ?); destruct_resp r
  | H : exec (mret _ ≫= _) _ _ |- _ => rewrite bind_ret_l in H
  | H : exec (_ <$> _) _ _ |- _ =>
      let a := fresh "a" in
      apply exec_fmap_inv in H as [[H ?]|(a & H & ?)]
  | H : exec (prog_fmap _ _ ?f ?p) _ _ |- _ =>
      let a := fresh "a" in
      apply (exec_fmap_inv f p) in H as [[H ?]|(a & H & ?)]
  | H : exec (match ?x with _ => _ end) _ _ |- _ => destruct x eqn:?
  end; simplify_eq/=.

(** The same for a first call in [H], without simplification. *)
Tactic Notation "exec_call" hyp(H) "as" simple_intropattern(pat) :=
  lazymatch type of H with
  | exec (mbind ?f (call ?c)) _ _ => apply (exec_bind_call c f) in H as pat
  end.

Ltac exec_bind H :=
  let a := fresh "a" in let t1 := fresh "t" in let t2 := fresh "t" in
  let H1 := fresh H in
  apply exec_bind_inv in H as [[H ?]|(a & t1 & t2 & ? & H1 & H)]; simplify_eq/=.

(** Shows that a program only makes calls of a certain kind. *)
Ltac calls_step :=
  match goal with
  | |- calls _ (mret _) => exact I
  | |- calls _ (Ret _) => exact I
  | |- calls _ Panic => exact I
  | |- calls _ (call _) => apply calls_call
  | |- calls _ (Call _ _) => split; [|intros ?]
  | |- _ /\ (forall _, calls _ _) => split; [|intros ?]
  | |- calls _ (_ <$> _) => apply calls_fmap
  | |- calls _ (_ ≫= _) => apply calls_bind; [|intros ?]
  | |- calls _ (for_range _ _ _) => apply calls_for_range; intros ? ?
  | |- calls _ (for_each _ _ _) => apply calls_for_each; intros ? ?
  | |- calls _ (match ?x with _ => _ end) => destruct x eqn:?
  end.
Ltac calls_tac := repeat (calls_step; simpl); try exact I; auto with exec.

(** A single call under a name of its own. *)
#[export] Hint Extern 2 (no_panic _) => (intros ?; exact I) : no_panic.

(** Shows that a program cannot panic. *)
Ltac no_panic_step :=
  match goal with
  | |- no_panic (mret _) => exact I
  | |- no_panic (Ret _) => exact I
  | |- no_panic (call _) => intros ?; exact I
  | |- no_panic (Call _ _) => intros ?
  | |- no_panic (_ ≫= _) => apply no_panic_bind; [|intros ?]
  | |- no_panic (for_range _ _ _) => apply no_panic_for_range; intros ? ?
  | |- no_panic (for_each _ _ _) => apply no_panic_for_each; intros ? ?
  | |- no_panic (match ?x with _ => _ end) => destruct x eqn:?
  end.
Ltac no_panic_tac := repeat no_panic_step; auto with no_panic.
