(* ===== verification/GoData.v ===== *)
(** * Go data: slices, maps and their iteration order, integers, floats

    The parts of the Go language and of its standard library the operator's
    code uses.  A nil slice and an empty slice, a nil map and an empty map are
    different values; writing to a nil map panics; the order in which a map is
    visited is not specified. *)
From S2P Require Import Prelude.

(** ** Slices *)

(** [None] is the nil slice. *)
Definition slice (A : Type) : Type := option (list A).

(** The elements of a slice: what [range], [len] and indexing see. *)
Definition elems {A} (s : slice A) : list A := default [] s.

(** [append(s, x)]. *)
Definition append {A} (s : slice A) (x : A) : slice A := Some (elems s ++ [x]).

(** [append(s, l...)]: appending nothing to a nil slice gives a nil slice. *)
Definition append_all {A} (s : slice A) (l : list A) : slice A :=
  match s, l with
  | None, [] => None
  | _, _ => Some (elems s ++ l)
  end.

Lemma elems_append {A} (s : slice A) x : elems (append s x) = elems s ++ [x].
Proof. done. Qed.
Lemma elems_append_all {A} (s : slice A) l : elems (append_all s l) = elems s ++ l.
Proof. destruct s, l; simpl; by rewrite ?app_nil_r. Qed.

(** ** Maps with string keys *)

(** [None] is the nil map. *)
Definition gomap (V : Type) : Type := option (gmap string V).

(** The entries of a map: what lookups, [len] and [range] see. *)
Definition entries {V} (m : gomap V) : gmap string V := default ∅ m.

(** [v, ok := m[k]]. *)
Definition map_get {V} (m : gomap V) (k : string) : option V := entries m !! k.

(** [delete(m, k)]: does nothing on a nil map. *)
Definition map_delete {V} (k : string) (m : gomap V) : gomap V :=
  match m with Some e => Some (delete k e) | None => None end.

(** [m[k] = v]: [None] is the panic of a write to a nil map. *)
Definition map_set {V} (k : string) (v : V) (m : gomap V) : option (gomap V) :=
  match m with Some e => Some (Some (<[k := v]> e)) | None => None end.

(** [if m == nil { m = map[string]T{} }]. *)
Definition map_make_if_nil {V} (m : gomap V) : gmap string V := entries m.

Definition len {V} (m : gomap V) : nat := size (entries m).

Lemma entries_map_delete {V} k (m : gomap V) :
  entries (map_delete k m) = delete k (entries m).
Proof. destruct m; simpl; [done|]. by rewrite delete_empty. Qed.

Lemma map_get_delete {V} k k' (m : gomap V) :
  map_get (map_delete k m) k' = if decide (k = k') then None else map_get m k'.
Proof. unfold map_get. rewrite entries_map_delete. apply lookup_delete. Qed.

(** ** Iteration order

    [shuffle seed l] is the permutation of [l] that [seed] selects.  Every
    permutation has a seed, so a statement about all seeds is a statement
    about all orders the runtime may choose. *)

Definition insert_at {A} (i : nat) (x : A) (l : list A) : list A :=
  take i l ++ x :: drop i l.

Fixpoint shuffle {A} (seed : nat) (l : list A) : list A :=
  match l with
  | [] => []
  | x :: l' =>
      insert_at (seed mod S (length l')) x (shuffle (seed / S (length l')) l')
  end.

Lemma insert_at_Permutation {A} i (x : A) l : insert_at i x l ≡ₚ x :: l.
Proof.
  unfold insert_at. rewrite <-Permutation_middle.
  by rewrite take_drop.
Qed.

Lemma shuffle_Permutation {A} seed (l : list A) : shuffle seed l ≡ₚ l.
Proof.
  revert seed. induction l as [|x l IH]; intros seed; simpl; [done|].
  by rewrite insert_at_Permutation, IH.
Qed.

(** Every permutation is the one of some seed. *)
Lemma shuffle_surjective {A} (l l' : list A) :
  l' ≡ₚ l -> exists seed, shuffle seed l = l'.
Proof.
  revert l'. induction l as [|x l IH]; intros l' HP.
  - apply Permutation_nil_r in HP as ->. by exists 0.
  - destruct (list_elem_of_split l' x) as (l1 & l2 & ->).
    { rewrite HP. constructor. }
    assert (l1 ++ l2 ≡ₚ l) as HP'.
    { apply (Permutation_cons_inv (a:=x)). rewrite <-HP. by rewrite Permutation_middle. }
    destruct (IH _ HP') as [seed Hs].
    assert (length l1 <= length l) as Hlen.
    { rewrite <-HP', length_app. lia. }
    set (n := S (length l)).
    assert ((length l1 + seed * n) mod n = length l1) as Hmod.
    { rewrite Nat.Div0.mod_add. apply Nat.mod_small. unfold n. lia. }
    assert ((length l1 + seed * n) / n = seed) as Hdiv.
    { rewrite Nat.div_add by done. rewrite Nat.div_small; unfold n; lia. }
    exists (length l1 + seed * n). unfold shuffle; fold (@shuffle A).
    fold n. rewrite Hmod, Hdiv, Hs.
    unfold insert_at. by rewrite take_app_length, drop_app_length.
Qed.

Lemma elem_of_shuffle {A} seed (l : list A) x : x ∈ shuffle seed l <-> x ∈ l.
Proof. by rewrite shuffle_Permutation. Qed.

(** [for k, v := range m], in the order of [seed]. *)
Definition range {V} (seed : nat) (m : gomap V) : list (string * V) :=
  shuffle seed (map_to_list (entries m)).

Lemma range_Permutation {V} seed (m : gomap V) :
  range seed m ≡ₚ map_to_list (entries m).
Proof. apply shuffle_Permutation. Qed.

Lemma elem_of_range {V} seed (m : gomap V) k v :
  (k, v) ∈ range seed m <-> map_get m k = Some v.
Proof. unfold range. rewrite elem_of_shuffle. apply elem_of_map_to_list. Qed.

Lemma NoDup_fst_range {V} seed (m : gomap V) : NoDup (range seed m).*1.
Proof. unfold range. rewrite shuffle_Permutation. apply NoDup_fst_map_to_list. Qed.

Lemma NoDup_range {V} seed (m : gomap V) : NoDup (range seed m).
Proof. unfold range. rewrite shuffle_Permutation. apply NoDup_map_to_list. Qed.

Lemma range_nil {V} seed : range seed (None : gomap V) = [].
Proof.
  unfold range. simpl.
  assert (map_to_list (∅ : gmap string V) = []) as -> by apply map_to_list_empty.
  done.
Qed.

(** A map filled from a list of pairs with distinct keys does not depend on
    the order in which the pairs come. *)
Lemma list_to_map_range {V} seed (m : gomap V) :
  (list_to_map (range seed m) : gmap string V) = entries m.
Proof.
  rewrite <-(list_to_map_to_list (entries m)).
  apply list_to_map_proper; [apply NoDup_fst_range | apply range_Permutation].
Qed.

Lemma foldl_insert_union {V} (l : list (string * V)) (m : gmap string V) :
  NoDup l.*1 ->
  foldl (fun acc '(k, v) => <[k := v]> acc) m l = (list_to_map l : gmap string V) ∪ m.
Proof.
  revert m. induction l as [|[k v] l IH]; intros m Hnd; cbn [foldl].
  - simpl. by rewrite (left_id_L ∅ (∪)).
  - cbn in Hnd. apply NoDup_cons in Hnd as [Hk Hnd]. rewrite IH by done.
    cbn [list_to_map foldr fst snd]. rewrite <-insert_union_l.
    rewrite insert_union_r; [done|]. by apply not_elem_of_list_to_map_1.
Qed.

(** Copying a map into another one, entry by entry in any order: the copied
    entries win. *)
Lemma foldl_insert_range {V} seed (l : gomap V) (m : gmap string V) :
  foldl (fun acc '(k, v) => <[k := v]> acc) m (range seed l) = entries l ∪ m.
Proof.
  rewrite foldl_insert_union by apply NoDup_fst_range. by rewrite list_to_map_range.
Qed.

(** Deleting from a map, among the keys visited, those that satisfy a predicate. *)
Lemma foldl_delete_lookup {V W} (f : string -> bool) (l : list (string * W)) (m : gmap string V) k :
  foldl (fun acc '(k, _) => if f k then delete k acc else acc) m l !! k =
  if decide (f k = true /\ k ∈ l.*1) then None else m !! k.
Proof.
  revert m. induction l as [|[k' v] l IH]; intros m; cbn [foldl].
  - rewrite decide_False; [done|]. intros [_ Hin]. by apply not_elem_of_nil in Hin.
  - rewrite IH. change ((k', v) :: l).*1 with (k' :: l.*1).
    destruct (decide (f k = true /\ k ∈ l.*1)) as [[Hk Hin]|Hn].
    + rewrite decide_True; [done|]. split; [done|by right].
    + destruct (decide (f k = true /\ k ∈ k' :: l.*1)) as [[Hk [->|?]%elem_of_cons]|Hn'].
      * rewrite Hk. apply lookup_delete_eq.
      * by destruct Hn.
      * destruct (f k') eqn:Hf; [|done]. apply lookup_delete_ne. intros ->.
        apply Hn'. split; [done|left].
Qed.

Lemma foldl_delete_range {V} seed (f : string -> bool) (m : gmap string V) :
  foldl (fun acc '(k, _) => if f k then delete k acc else acc) m (range seed (Some m)) =
  filter (fun '(k, _) => f k = false) m.
Proof.
  apply map_eq. intros k. rewrite foldl_delete_lookup, map_lookup_filter.
  destruct (decide (f k = true /\ k ∈ (range seed (Some m)).*1)) as [[Hf _]|Hn].
  - destruct (m !! k); [|done]. cbn [mbind option_bind].
    rewrite option_guard_False by congruence. done.
  - destruct (m !! k) as [v|] eqn:Hk; [|done]. cbn [mbind option_bind].
    rewrite option_guard_True; [done|]. destruct (f k) eqn:Hf; [|done]. destruct Hn.
    split; [done|]. apply list_elem_of_fmap. exists (k, v). split; [done|]. by apply elem_of_range.
Qed.

(** Storing one value under the keys computed from the elements of a list. *)
Lemma foldl_insert_const {V A} (f : A -> string) (v : V) (l : list A) (m : gmap string V) :
  foldl (fun acc x => <[f x := v]> acc) m l =
  gset_to_gmap v (list_to_set (f <$> l)) ∪ m.
Proof.
  revert m. induction l as [|x l IH]; intros m; cbn [foldl].
  - simpl. rewrite gset_to_gmap_empty. by rewrite (left_id_L ∅ (∪)).
  - rewrite IH. cbn [fmap list_fmap list_to_set].
    cbn [list_to_set]. rewrite gset_to_gmap_union_singleton. apply map_eq. intros k.
    rewrite !lookup_union. destruct (decide (f x = k)) as [<-|Hne].
    + rewrite !lookup_insert_eq, lookup_gset_to_gmap. case_guard; simpl; by destruct (m !! f x).
    + by rewrite !lookup_insert_ne by done.
Qed.

#[export] Instance slice_eq_dec {A} `{EqDecision A} : EqDecision (slice A) :=
  option_eq_dec.
#[export] Instance gomap_eq_dec {V} `{EqDecision V} : EqDecision (gomap V) :=
  option_eq_dec.

(** ** Integers of a fixed width *)

(** The conversion [uint32(x)] of an int64 keeps the low 32 bits. *)
Definition to_uint32 (x : Z) : Z := (x mod 2 ^ 32)%Z.

(** The conversion [int(x)] of an unsigned 64-bit integer. *)
Definition to_int64 (x : Z) : Z :=
  let r := (x mod 2 ^ 64)%Z in if (r <? 2 ^ 63)%Z then r else (r - 2 ^ 64)%Z.

(** The conversion [int32(x)]. *)
Definition to_int32 (x : Z) : Z :=
  let r := (x mod 2 ^ 32)%Z in if (r <? 2 ^ 31)%Z then r else (r - 2 ^ 32)%Z.

Lemma to_int32_id x : (0 <= x < 2 ^ 31)%Z -> to_int32 x = x.
Proof.
  intros. unfold to_int32. rewrite Z.mod_small by lia.
  destruct (Z.ltb_spec x (2 ^ 31)); lia.
Qed.

Lemma to_uint32_range x : (0 <= to_uint32 x < 2 ^ 32)%Z.
Proof. unfold to_uint32. by apply Z.mod_pos_bound. Qed.
Lemma to_uint32_id x : (0 <= x < 2 ^ 32)%Z -> to_uint32 x = x.
Proof. intros. by apply Z.mod_small. Qed.
Lemma to_int64_id x : (0 <= x < 2 ^ 63)%Z -> to_int64 x = x.
Proof.
  intros. unfold to_int64. rewrite Z.mod_small by lia.
  destruct (Z.ltb_spec x (2 ^ 63)); lia.
Qed.

(** ** Finite float64 values *)

(** [(-1)^f_neg * f_man * 2^f_exp]. *)
Record float64 := Float64 { f_neg : bool; f_man : N; f_exp : Z }.
#[export] Instance float64_eq_dec : EqDecision float64.
Proof. solve_decision. Defined.

(** Nearest integer to [n / d], ties to even. *)
Definition round_half_even (n d : Z) : Z :=
  let q := (n / d)%Z in
  let r := (2 * (n mod d))%Z in
  if (r <? d)%Z then q
  else if (d <? r)%Z then (q + 1)%Z
  else if Z.even q then q else (q + 1)%Z.

(** The value times 100, rounded to an integer, without its sign. *)
Definition float_cents (f : float64) : Z :=
  let m := (100 * Z.of_N (f_man f))%Z in
  if (0 <=? f_exp f)%Z then (m * 2 ^ f_exp f)%Z
  else round_half_even m (2 ^ (- f_exp f)).
