(* ===== verification/GoStrings.v ===== *)
(** * Go strings: bytes, UTF-8, prefixes, base64, number formatting

    A Go string is a sequence of bytes; the functions of packages [strings],
    [unicode/utf8], [encoding/base64], [fmt] and [strconv] that the operator
    calls.  The Unicode tables beyond ASCII are a parameter. *)
From stdpp Require Import pretty.
From S2P Require Import Prelude GoData.
From Stdlib Require Import Ascii.

(** ** Bytes *)

Definition bytes (s : string) : list N := N_of_ascii <$> String.list_ascii_of_string s.
Definition of_bytes (l : list N) : string := String.string_of_list_ascii (ascii_of_N <$> l).

Definition is_byte (b : N) : Prop := (b < 256)%N.

Lemma bytes_bounded s : Forall is_byte (bytes s).
Proof.
  unfold bytes. induction (String.list_ascii_of_string s); simpl; constructor; [|done].
  apply N_ascii_bounded.
Qed.

Lemma of_bytes_bytes s : of_bytes (bytes s) = s.
Proof.
  unfold of_bytes, bytes. rewrite <-list_fmap_compose.
  rewrite (list_fmap_ext _ id).
  - rewrite list_fmap_id. apply String.string_of_list_ascii_of_string.
  - intros ? x _. apply ascii_N_embedding.
Qed.

Lemma bytes_of_bytes l : Forall is_byte l -> bytes (of_bytes l) = l.
Proof.
  intros Hl. unfold bytes, of_bytes. rewrite String.list_ascii_of_string_of_list_ascii.
  rewrite <-list_fmap_compose. induction Hl as [|b l Hb _ IH]; simpl; [done|].
  f_equal; [|done]. by apply N_ascii_embedding.
Qed.

Lemma bytes_app s1 s2 : bytes (s1 +:+ s2) = bytes s1 ++ bytes s2.
Proof.
  unfold bytes. induction s1 as [|a s1 IH]; [done|].
  change (String.list_ascii_of_string (String a s1 +:+ s2))
    with (a :: String.list_ascii_of_string (s1 +:+ s2)).
  simpl. by f_equal.
Qed.

(** ** Prefixes *)

Fixpoint HasPrefix (s p : string) {struct p} : bool :=
  match p, s with
  | EmptyString, _ => true
  | String a p', String b s' => if Ascii.eqb a b then HasPrefix s' p' else false
  | String _ _, EmptyString => false
  end.

Fixpoint drop_chars (n : nat) (s : string) : string :=
  match n, s with
  | O, _ => s
  | S n', String _ s' => drop_chars n' s'
  | S _, EmptyString => EmptyString
  end.

(** [strings.TrimPrefix]. *)
Definition TrimPrefix (s p : string) : string :=
  if HasPrefix s p then drop_chars (String.length p) s else s.

Lemma string_app_cons a s s' : String a s +:+ s' = String a (s +:+ s').
Proof. reflexivity. Qed.
Lemma string_app_nil s : "" +:+ s = s.
Proof. reflexivity. Qed.

Lemma HasPrefix_spec s p : HasPrefix s p = true <-> exists s', s = p +:+ s'.
Proof.
  revert s. induction p as [|a p IH]; intros s; simpl.
  - split; [intros _; by exists s|done].
  - destruct s as [|b s]; [split; [done|intros [? H]; discriminate H]|].
    destruct (Ascii.eqb_spec a b) as [->|Hne].
    + rewrite IH. split; intros [s' H]; exists s'; rewrite string_app_cons in *; congruence.
    + split; [done|]. intros [s' H]. rewrite string_app_cons in H. congruence.
Qed.

Lemma HasPrefix_app p s : HasPrefix (p +:+ s) p = true.
Proof. apply HasPrefix_spec. eauto. Qed.

Lemma drop_chars_app p s : drop_chars (String.length p) (p +:+ s) = s.
Proof. induction p as [|a p IH]; [done|exact IH]. Qed.

Lemma TrimPrefix_app p s : TrimPrefix (p +:+ s) p = s.
Proof. unfold TrimPrefix. by rewrite HasPrefix_app, drop_chars_app. Qed.

Lemma TrimPrefix_other s p : HasPrefix s p = false -> TrimPrefix s p = s.
Proof. unfold TrimPrefix. by intros ->. Qed.

Lemma string_app_inj_l p s1 s2 : p +:+ s1 = p +:+ s2 -> s1 = s2.
Proof. induction p as [|a p IH]; [done|]. rewrite !string_app_cons. intros [= H]. auto. Qed.

(** [strings.Join]. *)
Fixpoint Join (l : list string) (sep : string) : string :=
  match l with
  | [] => ""
  | [s] => s
  | s :: l' => s +:+ sep +:+ Join l' sep
  end.

(** ** Runes *)

Definition RuneError : N := 65533.

Definition in_range (lo hi b : N) : bool := (lo <=? b)%N && (b <=? hi)%N.

(** [utf8.DecodeRune]: the first rune and its width; a byte that starts no
    valid encoding is a [RuneError] of width 1. *)
Definition decode_first (l : list N) : N * nat :=
  match l with
  | [] => (RuneError, 1)
  | b0 :: l0 =>
    if (b0 <? 128)%N then (b0, 1)
    else if in_range 194 223 b0 then
      match l0 with
      | b1 :: _ =>
        if in_range 128 191 b1 then (((b0 - 192) * 64 + (b1 - 128))%N, 2)
        else (RuneError, 1)
      | _ => (RuneError, 1)
      end
    else if in_range 224 239 b0 then
      match l0 with
      | b1 :: b2 :: _ =>
        if in_range (if (b0 =? 224)%N then 160 else 128) (if (b0 =? 237)%N then 159 else 191) b1
           && in_range 128 191 b2
        then (((b0 - 224) * 4096 + (b1 - 128) * 64 + (b2 - 128))%N, 3)
        else (RuneError, 1)
      | _ => (RuneError, 1)
      end
    else if in_range 240 244 b0 then
      match l0 with
      | b1 :: b2 :: b3 :: _ =>
        if in_range (if (b0 =? 240)%N then 144 else 128) (if (b0 =? 244)%N then 143 else 191) b1
           && in_range 128 191 b2 && in_range 128 191 b3
        then (((b0 - 240) * 262144 + (b1 - 128) * 4096 + (b2 - 128) * 64 + (b3 - 128))%N, 4)
        else (RuneError, 1)
      | _ => (RuneError, 1)
      end
    else (RuneError, 1)
  end.

(** [for i, r := range s]: byte offsets and runes.  A rune is at least one
    byte wide, so the number of bytes is enough fuel. *)
Fixpoint spans_from (fuel : nat) (off : nat) (l : list N) : list (nat * N) :=
  match fuel, l with
  | S fuel', _ :: _ =>
      let '(r, w) := decode_first l in (off, r) :: spans_from fuel' (off + w) (drop w l)
  | _, _ => []
  end.
Definition spans (l : list N) : list (nat * N) := spans_from (length l) 0 l.
Definition decode_runes (l : list N) : list N := (spans l).*2.

(** The UTF-8 encoding of a rune; an invalid rune is encoded as [RuneError]. *)
Definition encode_rune (r : N) : list N :=
  (if r <? 128 then [r]
   else if r <? 2048 then [192 + r / 64; 128 + r mod 64]
   else if ((55296 <=? r) && (r <=? 57343)) || (1114111 <? r) then [239; 191; 189]
   else if r <? 65536 then [224 + r / 4096; 128 + r / 64 mod 64; 128 + r mod 64]
   else [240 + r / 262144; 128 + r / 4096 mod 64; 128 + r / 64 mod 64; 128 + r mod 64])%N.

Definition runes (s : string) : list N := decode_runes (bytes s).

(** The tables of package [unicode] for the code points from 128 on. *)
Class Unicode := {
  uni_to_lower : N -> N;
  uni_is_lower : N -> bool;
  uni_is_digit : N -> bool;
}.

Section WithUnicode.
Context `{Unicode}.

Definition rune_to_lower (r : N) : N :=
  if (r <? 128)%N then (if in_range 65 90 r then (r + 32)%N else r) else uni_to_lower r.

(** [unicode.IsLower]. *)
Definition IsLower (r : N) : bool :=
  if (r <? 128)%N then in_range 97 122 r else uni_is_lower r.

(** [unicode.IsDigit]. *)
Definition IsDigit (r : N) : bool :=
  if (r <? 128)%N then in_range 48 57 r else uni_is_digit r.

(** [strings.ToLower]. *)
Definition ToLower (s : string) : string :=
  of_bytes (concat (encode_rune <$> (rune_to_lower <$> runes s))).
End WithUnicode.

(** The tables restricted to ASCII: every other rune is unchanged and is
    neither a letter nor a digit. *)
Definition ascii_tables : Unicode := {|
  uni_to_lower := fun r => r;
  uni_is_lower := fun _ => false;
  uni_is_digit := fun _ => false;
|}.

Definition is_ascii (s : string) : Prop := Forall (fun b => (b < 128)%N) (bytes s).

Lemma spans_from_ascii off l :
  Forall (fun b => (b < 128)%N) l ->
  spans_from (length l) off l = imap (fun i b => (off + i, b)) l.
Proof.
  intros Hl. revert off. induction Hl as [|b l Hb _ IH]; intros off; simpl; [done|].
  apply N.ltb_lt in Hb. rewrite Hb. cbn [drop]. rewrite drop_0, IH. f_equal.
  - f_equal. lia.
  - apply imap_ext. intros i x _. simpl. f_equal. lia.
Qed.

Lemma spans_ascii l :
  Forall (fun b => (b < 128)%N) l -> spans l = imap (fun i b => (i, b)) l.
Proof. apply spans_from_ascii. Qed.

Lemma decode_runes_ascii l :
  Forall (fun b => (b < 128)%N) l -> decode_runes l = l.
Proof.
  intros Hl. unfold decode_runes. rewrite spans_ascii by done.
  rewrite fmap_imap. rewrite (imap_ext _ (const id)) by done.
  rewrite imap_const. apply list_fmap_id.
Qed.

Lemma rune_to_lower_ascii `{Unicode} r : (r < 128)%N -> (rune_to_lower r < 128)%N.
Proof.
  intros Hr. unfold rune_to_lower, in_range.
  rewrite (proj2 (N.ltb_lt r 128) Hr).
  destruct (N.leb_spec 65 r), (N.leb_spec r 90); simpl; lia.
Qed.

Lemma rune_to_lower_idemp_ascii `{Unicode} r :
  (r < 128)%N -> rune_to_lower (rune_to_lower r) = rune_to_lower r.
Proof.
  intros Hr. unfold rune_to_lower at 1.
  rewrite (proj2 (N.ltb_lt _ 128) (rune_to_lower_ascii r Hr)).
  unfold rune_to_lower, in_range. rewrite (proj2 (N.ltb_lt r 128) Hr).
  destruct (N.leb_spec 65 r), (N.leb_spec r 90); simpl;
    repeat match goal with |- context [(?a <=? ?b)%N] => destruct (N.leb_spec a b) end;
    simpl; lia.
Qed.

Lemma encode_ascii l :
  Forall (fun b => (b < 128)%N) l -> concat (encode_rune <$> l) = l.
Proof.
  induction 1 as [|b l Hb _ IH]; simpl; [done|].
  unfold encode_rune at 1. rewrite (proj2 (N.ltb_lt b 128) Hb). simpl. by f_equal.
Qed.

(** On ASCII names [ToLower] works byte by byte. *)
Lemma bytes_ToLower_ascii `{Unicode} s :
  is_ascii s -> bytes (ToLower s) = rune_to_lower <$> bytes s.
Proof.
  intros Hs. unfold ToLower, runes. rewrite (decode_runes_ascii _ Hs).
  assert (Forall (fun b => (b < 128)%N) (rune_to_lower <$> bytes s)) as Hl.
  { apply Forall_fmap. eapply Forall_impl; [exact Hs|]. intros r Hr.
    by apply rune_to_lower_ascii. }
  rewrite encode_ascii by done. apply bytes_of_bytes.
  eapply Forall_impl; [exact Hl|]. unfold is_byte. simpl. lia.
Qed.

Lemma ToLower_ascii `{Unicode} s : is_ascii s -> is_ascii (ToLower s).
Proof.
  intros Hs. unfold is_ascii. rewrite bytes_ToLower_ascii by done.
  apply Forall_fmap. eapply Forall_impl; [exact Hs|]. intros r Hr.
  by apply rune_to_lower_ascii.
Qed.

Lemma bytes_inj s1 s2 : bytes s1 = bytes s2 -> s1 = s2.
Proof. intros E. by rewrite <-(of_bytes_bytes s1), E, of_bytes_bytes. Qed.

Lemma ToLower_idemp_ascii `{Unicode} s :
  is_ascii s -> ToLower (ToLower s) = ToLower s.
Proof.
  intros Hs. apply bytes_inj.
  rewrite bytes_ToLower_ascii by by apply ToLower_ascii.
  rewrite bytes_ToLower_ascii by done.
  rewrite <-list_fmap_compose. apply list_fmap_ext. intros i r Hr.
  simpl. apply rune_to_lower_idemp_ascii.
  unfold is_ascii in Hs. rewrite Forall_lookup in Hs. exact (Hs i r Hr).
Qed.

(** ** Numbers *)

(** [fmt.Sprintf("%.2f", f)]. *)
Definition sprintf_2f (f : float64) : string :=
  let c := Z.to_N (float_cents f) in
  (if f_neg f then "-" else "") +:+ pretty (c / 100)%N +:+ "." +:+
  pretty (c mod 100 / 10)%N +:+ pretty (c mod 10)%N.

Example sprintf_2f_ex1 : sprintf_2f (Float64 false 5 (-1)) = "2.50".
Proof. vm_compute. reflexivity. Qed.
Example sprintf_2f_ex2 : sprintf_2f (Float64 true 1 (-10)) = "-0.00".
Proof. vm_compute. reflexivity. Qed.
Example sprintf_2f_ex3 : sprintf_2f (Float64 false 3600 0) = "3600.00".
Proof. vm_compute. reflexivity. Qed.
(* 0.125 is halfway between 0.12 and 0.13: ties go to the even digit. *)
Example sprintf_2f_ex4 : sprintf_2f (Float64 false 1 (-3)) = "0.12".
Proof. vm_compute. reflexivity. Qed.

(** ** Base64 *)

(** The standard alphabet. *)
Definition b64_alphabet : list N :=
  bytes "ABCDEFGHIJKLMNOPQRSTUVWXYZabcdefghijklmnopqrstuvwxyz0123456789+/".
Definition b64_char (i : N) : N := default 61%N (b64_alphabet !! N.to_nat i).
Definition b64_pad : N := 61.

Fixpoint b64_encode_bytes (l : list N) : list N :=
  (match l with
   | b0 :: b1 :: b2 :: l' =>
       b64_char (b0 / 4) :: b64_char (b0 mod 4 * 16 + b1 / 16)
       :: b64_char (b1 mod 16 * 4 + b2 / 64) :: b64_char (b2 mod 64)
       :: b64_encode_bytes l'
   | [b0; b1] =>
       [b64_char (b0 / 4); b64_char (b0 mod 4 * 16 + b1 / 16);
        b64_char (b1 mod 16 * 4); b64_pad]
   | [b0] => [b64_char (b0 / 4); b64_char (b0 mod 4 * 16); b64_pad; b64_pad]
   | [] => []
   end)%N.

(** [base64.StdEncoding.EncodeToString]; [strfmt.Base64(b).String()]. *)
Definition b64_encode (s : string) : string := of_bytes (b64_encode_bytes (bytes s)).

(** The value of a character of the alphabet. *)
Definition b64_value (c : N) : N :=
  (if in_range 65 90 c then c - 65
   else if in_range 97 122 c then c - 71
   else if in_range 48 57 c then c + 4
   else if c =? 43 then 62 else 63)%N.

(** The reference decoder the receiver of a message applies. *)
Fixpoint b64_decode_bytes (l : list N) : list N :=
  (match l with
   | c0 :: c1 :: c2 :: c3 :: l' =>
       let v0 := b64_value c0 in let v1 := b64_value c1 in
       let v2 := b64_value c2 in let v3 := b64_value c3 in
       if c2 =? b64_pad then [v0 * 4 + v1 / 16]
       else if c3 =? b64_pad then [v0 * 4 + v1 / 16; v1 mod 16 * 16 + v2 / 4]
       else v0 * 4 + v1 / 16 :: v1 mod 16 * 16 + v2 / 4 :: v2 mod 4 * 64 + v3
            :: b64_decode_bytes l'
   | _ => []
   end)%N.
Definition b64_decode (s : string) : string := of_bytes (b64_decode_bytes (bytes s)).

#[global] Arguments b64_encode : simpl never.
#[global] Arguments b64_decode : simpl never.

Example b64_encode_ex : b64_encode "secret" = "c2VjcmV0".
Proof. vm_compute. reflexivity. Qed.

Definition b64_char_ok (i : N) : bool :=
  (b64_value (b64_char i) =? i)%N && negb (b64_char i =? b64_pad)%N
  && (b64_char i <? 128)%N.

Lemma b64_char_spec i :
  (i < 64)%N ->
  b64_value (b64_char i) = i /\ b64_char i <> b64_pad /\ (b64_char i < 128)%N.
Proof.
  intros Hi.
  assert (forallb b64_char_ok (N.of_nat <$> seq 0 64) = true) as Hall
    by (vm_compute; reflexivity).
  rewrite forallb_forall in Hall.
  assert (In i (N.of_nat <$> seq 0 64)) as Hin.
  { apply list_elem_of_In, list_elem_of_fmap. exists (N.to_nat i).
    split; [lia|]. apply elem_of_seq. lia. }
  specialize (Hall i Hin). unfold b64_char_ok in Hall.
  apply andb_prop in Hall as [[H1 H2]%andb_prop H3].
  apply N.eqb_eq in H1. apply negb_true_iff, N.eqb_neq in H2. apply N.ltb_lt in H3.
  done.
Qed.

Lemma b64_encode_bytes_bounded l :
  Forall is_byte l -> Forall is_byte (b64_encode_bytes l).
Proof.
  remember (length l) as n eqn:Hn. revert l Hn.
  induction n as [n IH] using lt_wf_ind. intros l Hn Hl.
  assert (forall i, (i < 64)%N -> is_byte (b64_char i)) as Hc.
  { intros i Hi. destruct (b64_char_spec i Hi) as (_ & _ & ?). unfold is_byte. lia. }
  destruct l as [|b0 [|b1 [|b2 l]]]; simpl; [constructor|..];
    repeat match goal with H : Forall _ (_ :: _) |- _ => inversion_clear H end;
    unfold is_byte in *;
    repeat (apply Forall_cons; split; [first [apply Hc | unfold b64_pad]|]); try done;
    try (zify; Z.to_euclidean_division_equations; lia).
  apply (IH (length l)); [simpl in *; lia|done|done].
Qed.

Lemma b64_decode_encode_bytes l :
  Forall is_byte l -> b64_decode_bytes (b64_encode_bytes l) = l.
Proof.
  remember (length l) as n eqn:Hn. revert l Hn.
  induction n as [n IH] using lt_wf_ind. intros l Hn Hl.
  destruct l as [|b0 [|b1 [|b2 l]]]; [done|..];
    repeat match goal with H : Forall _ (_ :: _) |- _ => inversion_clear H end;
    unfold is_byte in *; cbn [b64_encode_bytes b64_decode_bytes].
  - destruct (b64_char_spec (b0 / 4)) as (-> & _ & _);
      [zify; Z.to_euclidean_division_equations; lia|].
    destruct (b64_char_spec (b0 mod 4 * 16)) as (-> & _ & _);
      [zify; Z.to_euclidean_division_equations; lia|].
    rewrite N.eqb_refl. f_equal. zify; Z.to_euclidean_division_equations; lia.
  - destruct (b64_char_spec (b0 / 4)) as (-> & _ & _);
      [zify; Z.to_euclidean_division_equations; lia|].
    destruct (b64_char_spec (b0 mod 4 * 16 + b1 / 16)) as (-> & _ & _);
      [zify; Z.to_euclidean_division_equations; lia|].
    destruct (b64_char_spec (b1 mod 16 * 4)) as (-> & Hp & _);
      [zify; Z.to_euclidean_division_equations; lia|].
    apply N.eqb_neq in Hp. rewrite Hp, N.eqb_refl.
    f_equal; [|f_equal]; zify; Z.to_euclidean_division_equations; lia.
  - destruct (b64_char_spec (b0 / 4)) as (-> & _ & _);
      [zify; Z.to_euclidean_division_equations; lia|].
    destruct (b64_char_spec (b0 mod 4 * 16 + b1 / 16)) as (-> & _ & _);
      [zify; Z.to_euclidean_division_equations; lia|].
    destruct (b64_char_spec (b1 mod 16 * 4 + b2 / 64)) as (-> & Hp & _);
      [zify; Z.to_euclidean_division_equations; lia|].
    destruct (b64_char_spec (b2 mod 64)) as (-> & Hp' & _);
      [zify; Z.to_euclidean_division_equations; lia|].
    apply N.eqb_neq in Hp, Hp'. rewrite Hp, Hp'.
    f_equal; [|f_equal; [|f_equal]];
      [zify; Z.to_euclidean_division_equations; lia..|].
    apply (IH (length l)); [simpl in *; lia|done|done].
Qed.

(** Decoding an encoded value gives it back. *)
Lemma b64_decode_encode s : b64_decode (b64_encode s) = s.
Proof.
  unfold b64_decode, b64_encode.
  rewrite bytes_of_bytes by apply b64_encode_bytes_bounded, bytes_bounded.
  rewrite b64_decode_encode_bytes by apply bytes_bounded.
  apply of_bytes_bytes.
Qed.

Lemma b64_encode_inj s1 s2 : b64_encode s1 = b64_encode s2 -> s1 = s2.
Proof. intros E. by rewrite <-(b64_decode_encode s1), E, b64_decode_encode. Qed.

Create Rewrite HintDb go_strings.
#[export] Hint Rewrite TrimPrefix_app HasPrefix_app : go_strings.
