(* ===== verification/Json.v ===== *)
(** * JSON: [json.Marshal] of a string-to-string map

    The encoder of encoding/json for [map[string]string] (keys sorted byte by
    byte, HTML characters escaped), and the reference reader the round trip of
    secrets is stated with. *)
From S2P Require Import Prelude GoData GoStrings.

Definition hex_digit (d : N) : N := if (d <? 10)%N then (48 + d)%N else (87 + d)%N.

(** [\uXXXX], for the code points the encoder escapes that way. *)
Definition json_unicode (r : N) : list N :=
  [92; 117; hex_digit (r / 4096); hex_digit (r / 256 mod 16); hex_digit (r / 16 mod 16);
   hex_digit (r mod 16)]%N.

(** An ASCII character as the encoder writes it inside a string. *)
Definition json_ascii (b : N) : list N :=
  (if (b =? 34) || (b =? 92) then [92; b]
   else if b =? 10 then [92; 110]
   else if b =? 13 then [92; 114]
   else if b =? 9 then [92; 116]
   else if (b <? 32) || (b =? 60) || (b =? 62) || (b =? 38) then json_unicode b
   else [b])%N.

Fixpoint json_chars (fuel : nat) (l : list N) : list N :=
  match fuel, l with
  | S fuel', b :: _ =>
      let '(r, w) := decode_first l in
      (if (b <? 128)%N then json_ascii b
       else if (r =? RuneError)%N && (w =? 1)%nat then json_unicode RuneError
       else if (r =? 8232)%N || (r =? 8233)%N then json_unicode r
       else take w l) ++ json_chars fuel' (drop w l)
  | _, _ => []
  end.

(** A rune is at least one byte wide: the length is enough fuel. *)
Definition json_string (s : string) : list N :=
  [34%N] ++ json_chars (length (bytes s)) (bytes s) ++ [34%N].

(** Go's order of strings. *)
Fixpoint bytes_leb (a b : list N) : bool :=
  match a, b with
  | [], _ => true
  | _ :: _, [] => false
  | x :: a', y :: b' => if (x <? y)%N then true else if (y <? x)%N then false else bytes_leb a' b'
  end.
Definition key_le (a b : string * string) : Prop := bytes_leb (bytes a.1) (bytes b.1) = true.
#[export] Instance key_le_dec : RelDecision key_le.
Proof. intros a b. unfold key_le. apply _. Defined.

Definition json_member (kv : string * string) : list N :=
  json_string kv.1 ++ [58%N] ++ json_string kv.2.

Fixpoint json_members (l : list (string * string)) : list N :=
  match l with
  | [] => []
  | [kv] => json_member kv
  | kv :: l' => json_member kv ++ [44%N] ++ json_members l'
  end.

(** [json.Marshal(m)]; it does not fail on such a map. *)
Definition json_StringMap (m : gmap string string) : string :=
  of_bytes ([123%N] ++ json_members (merge_sort key_le (map_to_list m)) ++ [125%N]).

Example json_StringMap_ex :
  json_StringMap (<["tls.key" := "Yg=="]> {["tls.crt" := "YQ=="]}) =
    "{" +:+ of_bytes [34%N] +:+ "tls.crt" +:+ of_bytes [34; 58; 34]%N +:+ "YQ==" +:+
    of_bytes [34; 44; 34]%N +:+ "tls.key" +:+ of_bytes [34; 58; 34]%N +:+ "Yg==" +:+
    of_bytes [34]%N +:+ "}".
Proof. vm_compute. reflexivity. Qed.

(** ** A reader of objects whose strings need no escape *)

(** The text up to a double quote, and what follows it. *)
Fixpoint read_chars (l : list N) : list N * list N :=
  match l with
  | [] => ([], [])
  | b :: l' => if (b =? 34)%N then ([], l') else let '(s, r) := read_chars l' in (b :: s, r)
  end.

Fixpoint read_members (fuel : nat) (l : list N) : list (string * string) :=
  match fuel, l with
  | S fuel', 34%N :: l' =>
      let '(k, r) := read_chars l' in
      let '(v, r) := read_chars (drop 2 r) in
      (of_bytes k, of_bytes v) ::
      match r with 44%N :: r' => read_members fuel' r' | _ => [] end
  | _, _ => []
  end.
Definition read_StringMap (s : string) : gmap string string :=
  list_to_map (read_members (length (bytes s)) (drop 1 (bytes s))).

(** A character the encoder writes as it is. *)
Definition plain (b : N) : Prop :=
  (32 <= b < 128 /\ b <> 34 /\ b <> 92 /\ b <> 60 /\ b <> 62 /\ b <> 38)%N.
Definition plain_text (s : string) : Prop := Forall plain (bytes s).

Lemma json_ascii_plain b : plain b -> json_ascii b = [b].
Proof.
  intros (Hb & H34 & H92 & H60 & H62 & H38). unfold json_ascii.
  destruct (N.eqb_spec b 34); [done|]. destruct (N.eqb_spec b 92); [done|]. simpl.
  destruct (N.eqb_spec b 10); [lia|]. destruct (N.eqb_spec b 13); [lia|].
  destruct (N.eqb_spec b 9); [lia|]. destruct (N.ltb_spec b 32); [lia|].
  destruct (N.eqb_spec b 60); [done|]. destruct (N.eqb_spec b 62); [done|].
  by destruct (N.eqb_spec b 38).
Qed.

Lemma json_chars_plain l : Forall plain l -> json_chars (length l) l = l.
Proof.
  induction 1 as [|b l Hb _ IH]; [done|]. cbn [length json_chars].
  unfold decode_first. assert ((b <? 128)%N = true) as -> by (apply N.ltb_lt, Hb).
  rewrite json_ascii_plain by done. cbn [drop]. rewrite drop_0, IH. done.
Qed.

Lemma json_string_plain s : plain_text s -> json_string s = 34%N :: bytes s ++ [34%N].
Proof. intros Hs. unfold json_string. by rewrite json_chars_plain. Qed.

Lemma read_chars_plain s r : plain_text s -> read_chars (bytes s ++ 34%N :: r) = (bytes s, r).
Proof.
  unfold plain_text. induction 1 as [|b l Hb _ IH]; [done|]. simpl. rewrite IH.
  destruct (N.eqb_spec b 34); [|done]. by destruct Hb as (_ & ? & _).
Qed.

Lemma json_member_plain k v r :
  plain_text k -> plain_text v ->
  json_member (k, v) ++ r = 34%N :: bytes k ++ 34%N :: 58%N :: 34%N :: bytes v ++ 34%N :: r.
Proof.
  intros Hk Hv. unfold json_member. cbn [fst snd]. rewrite !json_string_plain by done.
  cbn [app]. f_equal. rewrite <-!(assoc_L (++)). cbn [app]. do 4 f_equal.
  by rewrite <-(assoc_L (++)).
Qed.

Lemma read_json_members l fuel :
  Forall (fun kv => plain_text kv.1 /\ plain_text kv.2) l -> length l <= fuel ->
  read_members fuel (json_members l ++ [125%N]) = l.
Proof.
  intros Hl. revert fuel. induction Hl as [|[k v] l [Hk Hv] Hl IH]; intros fuel Hf.
  - by destruct fuel.
  - destruct fuel as [|fuel]; [simpl in Hf; lia|]. simpl in Hk, Hv, Hf.
    assert (exists r, json_members ((k, v) :: l) ++ [125%N] =
              34%N :: (bytes k ++ 34%N :: 58%N :: 34%N :: bytes v ++ 34%N :: r) /\
              r = match l with [] => [125%N] | _ => 44%N :: json_members l ++ [125%N] end)
      as (r & -> & Hr).
    { eexists. split; [|reflexivity]. destruct l as [|kv l'].
      - by apply (json_member_plain k v [125%N]).
      - change (json_members ((k, v) :: kv :: l')) with
          (json_member (k, v) ++ 44%N :: json_members (kv :: l')).
        rewrite <-(assoc_L (++)). by rewrite json_member_plain. }
    cbn [read_members]. rewrite read_chars_plain by done. cbn [drop]. rewrite drop_0.
    rewrite read_chars_plain by done. rewrite !of_bytes_bytes. f_equal. rewrite Hr.
    destruct l as [|kv l']; [done|]. apply IH. lia.
Qed.

Lemma json_members_length l : length l <= length (json_members l).
Proof.
  induction l as [|kv l IH]; [done|]. destruct l as [|kv' l].
  - simpl. unfold json_member, json_string. rewrite !length_app. simpl. lia.
  - change (json_members (kv :: kv' :: l)) with
      (json_member kv ++ [44%N] ++ json_members (kv' :: l)).
    rewrite !length_app. simpl length in *. lia.
Qed.

Lemma json_members_is_byte l :
  Forall (fun kv => plain_text kv.1 /\ plain_text kv.2) l -> Forall is_byte (json_members l).
Proof.
  assert (forall s, plain_text s -> Forall is_byte (json_string s)) as Hs.
  { intros s Hp. rewrite json_string_plain by done. constructor; [unfold is_byte; lia|].
    apply Forall_app. split; [|by repeat constructor]. eapply Forall_impl; [exact Hp|].
    unfold plain, is_byte. simpl. lia. }
  assert (forall kv, plain_text kv.1 /\ plain_text kv.2 -> Forall is_byte (json_member kv)) as Hm.
  { intros kv [Hk Hv]. unfold json_member. rewrite !Forall_app.
    split_and!; [by apply Hs|by repeat constructor|by apply Hs]. }
  induction 1 as [|kv l Hkv Hl IH]; [constructor|]. destruct l as [|kv' l].
  - by apply Hm.
  - change (json_members (kv :: kv' :: l)) with
      (json_member kv ++ [44%N] ++ json_members (kv' :: l)).
    rewrite !Forall_app. split_and!; [by apply Hm|by repeat constructor|done].
Qed.

(** Reading what the encoder writes gives the map back. *)
Lemma read_json_StringMap m :
  map_Forall (fun k v => plain_text k /\ plain_text v) m -> read_StringMap (json_StringMap m) = m.
Proof.
  intros Hm. unfold json_StringMap. set (l := merge_sort key_le (map_to_list m)).
  assert (l ≡ₚ map_to_list m) as Hp by apply merge_sort_Permutation.
  assert (Forall (fun kv => plain_text kv.1 /\ plain_text kv.2) l) as Hl.
  { rewrite Hp. rewrite Forall_forall. intros [k v] ?%elem_of_map_to_list. by apply Hm. }
  unfold read_StringMap. rewrite bytes_of_bytes.
  2:{ rewrite !Forall_app. split_and!; [by repeat constructor| |by repeat constructor].
      by apply json_members_is_byte. }
  cbn [app drop]. rewrite drop_0, read_json_members; [|done|].
  - rewrite <-(list_to_map_to_list m). apply list_to_map_proper; [|done].
    rewrite Hp. apply NoDup_fst_map_to_list.
  - simpl. rewrite length_app. pose proof (json_members_length l). simpl. lia.
Qed.

(** Base64 text needs no escape. *)
Lemma plain_b64 s : plain_text (b64_encode s).
Proof.
  unfold plain_text, b64_encode. rewrite bytes_of_bytes by apply b64_encode_bytes_bounded, bytes_bounded.
  assert (forall i, plain (b64_char i)) as Hc.
  { intros i. unfold b64_char. destruct (b64_alphabet !! N.to_nat i) as [b|] eqn:E; simpl;
      [|unfold plain; lia].
    apply list_elem_of_lookup_2 in E.
    assert (Forall (fun b => (32 <=? b) && (b <? 128) && negb (b =? 34) && negb (b =? 92) &&
              negb (b =? 60) && negb (b =? 62) && negb (b =? 38) = true)%N b64_alphabet) as Hf
      by (vm_compute; repeat constructor).
    rewrite Forall_forall in Hf. specialize (Hf b E). rewrite !andb_true_iff in Hf.
    unfold plain. rewrite !negb_true_iff, !N.eqb_neq, N.leb_le, N.ltb_lt in Hf. tauto. }
  assert (plain b64_pad) as Hp by (unfold plain, b64_pad; lia).
  generalize (bytes s). intros l. remember (length l) as n eqn:Hn. revert l Hn.
  induction n as [n IH] using lt_wf_ind. intros l Hn.
  destruct l as [|b0 [|b1 [|b2 l]]]; simpl; repeat (apply Forall_cons; split; [done|]);
    try apply Forall_nil_2. apply (IH (length l)); [simpl in *; lia|done].
Qed.
