(* ===== verification/V1alpha1.v ===== *)
(** * Resource types: the Kubernetes objects and the operator's custom resources

    Module [metav1] and module [corev1] hold the Kubernetes types with the
    fields the operator reads or writes; a field whose value the code only
    tests for presence or hands on is kept as an uninterpreted [blob].
    Module [v1alpha1] holds every struct of api/v1alpha1, field by field: a
    pointer is an [option], a slice a [slice], a map a [gomap], a string type
    a [string] with its constants as definitions. *)
From S2P Require Import Prelude GoData.

(** A point in time; [0] is Go's zero [time.Time]. *)
Abbreviation Time := Z.

(** The uninterpreted value of a field the code never looks into. *)
Definition blob : Type := string.

Module metav1.
Record TypeMeta := mkTypeMeta { Kind : string; APIVersion : string }.
#[global] Instance TypeMeta_eq_dec : EqDecision TypeMeta.
Proof. solve_decision. Defined.

Record OwnerReference := mkOwnerReference {
  OwnerReference_APIVersion : string;
  OwnerReference_Kind : string;
  OwnerReference_Name : string;
  OwnerReference_UID : string;
}.
#[global] Instance OwnerReference_eq_dec : EqDecision OwnerReference.
Proof. solve_decision. Defined.

Record ObjectMeta := mkObjectMeta {
  Name : string;
  Namespace : string;
  UID : string;
  ResourceVersion : string;
  DeletionTimestamp : option Time;
  Labels : gomap string;
  Annotations : gomap string;
  OwnerReferences : slice OwnerReference;
  Finalizers : slice string;
}.
#[global] Instance ObjectMeta_eq_dec : EqDecision ObjectMeta.
Proof. solve_decision. Defined.

Record LabelSelectorRequirement := mkLabelSelectorRequirement {
  Requirement_Key : string;
  Requirement_Operator : string;
  Requirement_Values : slice string;
}.
#[global] Instance LabelSelectorRequirement_eq_dec : EqDecision LabelSelectorRequirement.
Proof. solve_decision. Defined.

Record LabelSelector := mkLabelSelector {
  MatchLabels : gomap string;
  MatchExpressions : slice LabelSelectorRequirement;
}.
#[global] Instance LabelSelector_eq_dec : EqDecision LabelSelector.
Proof. solve_decision. Defined.

Definition LabelSelectorOpDoesNotExist : string := "DoesNotExist".
Definition ConditionTrue : string := "True".
Definition ConditionFalse : string := "False".

Definition empty_TypeMeta : TypeMeta := mkTypeMeta "" "".

(** [metav1.ObjectMeta{Name: n, Namespace: ns}]. *)
Definition named (n ns : string) : ObjectMeta :=
  mkObjectMeta n ns "" "" None None None None None.

Definition set_Labels (l : gomap string) (m : ObjectMeta) : ObjectMeta :=
  mkObjectMeta (Name m) (Namespace m) (UID m) (ResourceVersion m)
    (DeletionTimestamp m) l (Annotations m) (OwnerReferences m) (Finalizers m).
Definition set_Finalizers (f : slice string) (m : ObjectMeta) : ObjectMeta :=
  mkObjectMeta (Name m) (Namespace m) (UID m) (ResourceVersion m)
    (DeletionTimestamp m) (Labels m) (Annotations m) (OwnerReferences m) f.
Definition set_OwnerReferences (r : slice OwnerReference) (m : ObjectMeta) : ObjectMeta :=
  mkObjectMeta (Name m) (Namespace m) (UID m) (ResourceVersion m)
    (DeletionTimestamp m) (Labels m) (Annotations m) r (Finalizers m).
Definition set_Name (n : string) (m : ObjectMeta) : ObjectMeta :=
  mkObjectMeta n (Namespace m) (UID m) (ResourceVersion m)
    (DeletionTimestamp m) (Labels m) (Annotations m) (OwnerReferences m) (Finalizers m).
End metav1.
Export metav1.

Module corev1.
(** [SecretKeySelector] and [ConfigMapKeySelector]. *)
Record KeySelector := mkKeySelector {
  KeySelector_Name : string; KeySelector_Key : string; KeySelector_Optional : option bool }.
#[global] Instance KeySelector_eq_dec : EqDecision KeySelector.
Proof. solve_decision. Defined.

Record EnvVarSource := mkEnvVarSource {
  FieldRef : option blob; ResourceFieldRef : option blob;
  ConfigMapKeyRef : option KeySelector; SecretKeyRef : option KeySelector }.
#[global] Instance EnvVarSource_eq_dec : EqDecision EnvVarSource.
Proof. solve_decision. Defined.

Record EnvVar := mkEnvVar {
  EnvVar_Name : string; EnvVar_Value : string; EnvVar_ValueFrom : option EnvVarSource }.
#[global] Instance EnvVar_eq_dec : EqDecision EnvVar.
Proof. solve_decision. Defined.

(** [SecretEnvSource], [ConfigMapEnvSource] and [ConfigMapVolumeSource]. *)
Record OptionalRef := mkOptionalRef { Ref_Name : string; Ref_Optional : option bool }.
#[global] Instance OptionalRef_eq_dec : EqDecision OptionalRef.
Proof. solve_decision. Defined.

Record EnvFromSource := mkEnvFromSource {
  ConfigMapRef : option OptionalRef; SecretRef : option OptionalRef }.
#[global] Instance EnvFromSource_eq_dec : EqDecision EnvFromSource.
Proof. solve_decision. Defined.

Record ContainerPort := mkContainerPort { HostPort : Z; ContainerPort_ContainerPort : Z }.
#[global] Instance ContainerPort_eq_dec : EqDecision ContainerPort.
Proof. solve_decision. Defined.

Record Container := mkContainer {
  Container_Name : string;
  Container_Ports : slice ContainerPort;
  Container_EnvFrom : slice EnvFromSource;
  Container_Env : slice EnvVar;
  Resources_Limits : gomap blob;
  Resources_Requests : gomap blob;
  VolumeDevices : slice blob;
  LivenessProbe : option blob;
  ReadinessProbe : option blob;
  StartupProbe : option blob;
  Lifecycle : option blob;
  Container_rest : blob;
}.
#[global] Instance Container_eq_dec : EqDecision Container.
Proof. solve_decision. Defined.

Record Volume := mkVolume {
  Volume_Name : string; Volume_HostPath : option blob; Volume_ConfigMap : option OptionalRef;
  Volume_rest : blob }.
#[global] Instance Volume_eq_dec : EqDecision Volume.
Proof. solve_decision. Defined.

Record PodSpec := mkPodSpec {
  Volumes : slice Volume; InitContainers : slice Container; Containers : slice Container;
  PodSpec_rest : blob }.
#[global] Instance PodSpec_eq_dec : EqDecision PodSpec.
Proof. solve_decision. Defined.

(** [append(podSpec.InitContainers, podSpec.Containers...)]. *)
Definition allContainers (p : PodSpec) : list Container :=
  elems (InitContainers p) ++ elems (Containers p).

Record Secret := mkSecret {
  Secret_ObjectMeta : ObjectMeta; Secret_Data : gomap string }.
#[global] Instance Secret_eq_dec : EqDecision Secret.
Proof. solve_decision. Defined.

Record ConfigMap := mkConfigMap {
  ConfigMap_TypeMeta : TypeMeta; ConfigMap_ObjectMeta : ObjectMeta;
  ConfigMap_Data : gomap string; ConfigMap_BinaryData : gomap string;
  ConfigMap_Immutable : option bool }.
#[global] Instance ConfigMap_eq_dec : EqDecision ConfigMap.
Proof. solve_decision. Defined.

Definition EventTypeNormal : string := "Normal".
Definition EventTypeWarning : string := "Warning".
End corev1.

Module v1alpha1.
Record MetricsReceiverConfiguration := mkMetricsReceiverConfiguration {
  MetricsReceiverConfiguration_RequestNumSamples : Z;
  MetricsReceiverConfiguration_TimeoutSeconds : Z;
  MetricsReceiverConfiguration_URL : string;
  MetricsReceiverConfiguration_CaSecretName : string;
}.
#[global] Instance MetricsReceiverConfiguration_eq_dec : EqDecision MetricsReceiverConfiguration.
Proof. solve_decision. Defined.

Record Retention := mkRetention {
  Retention_MaxMiB : Z;
  Retention_MaxHours : Z;
}.
#[global] Instance Retention_eq_dec : EqDecision Retention.
Proof. solve_decision. Defined.

Record OsInformation := mkOsInformation {
  OsInformation_AutomaticallyUpgrade : bool;
  OsInformation_CommitID : string;
  OsInformation_HostedObjectsURL : string;
}.
#[global] Instance OsInformation_eq_dec : EqDecision OsInformation.
Proof. solve_decision. Defined.

Record S3Storage := mkS3Storage {
  S3Storage_SecretName : string;
  S3Storage_ConfigMapName : string;
  S3Storage_CreateOBC : bool;
}.
#[global] Instance S3Storage_eq_dec : EqDecision S3Storage.
Proof. solve_decision. Defined.

Record HardwareProfileConfiguration := mkHardwareProfileConfiguration {
  HardwareProfileConfiguration_Include : bool;
  HardwareProfileConfiguration_Scope : string;
}.
#[global] Instance HardwareProfileConfiguration_eq_dec : EqDecision HardwareProfileConfiguration.
Proof. solve_decision. Defined.

Record Workload := mkWorkload {
  Workload_Name : string;
  Workload_Phase : string;
  Workload_LastTransitionTime : Time;
  Workload_LastDataUpload : Time;
}.
#[global] Instance Workload_eq_dec : EqDecision Workload.
Proof. solve_decision. Defined.

Record UpgradeInformation := mkUpgradeInformation {
  UpgradeInformation_CurrentCommitID : string;
  UpgradeInformation_LastUpgradeStatus : string;
  UpgradeInformation_LastUpgradeTime : string;
}.
#[global] Instance UpgradeInformation_eq_dec : EqDecision UpgradeInformation.
Proof. solve_decision. Defined.

Record Boot := mkBoot {
  Boot_CurrentBootMode : string;
  Boot_PxeInterface : string;
}.
#[global] Instance Boot_eq_dec : EqDecision Boot.
Proof. solve_decision. Defined.

Record CPU := mkCPU {
  CPU_Architecture : string;
  CPU_Count : Z;
  CPU_Flags : slice string;
  CPU_Frequency : string;
  CPU_ModelName : string;
}.
#[global] Instance CPU_eq_dec : EqDecision CPU.
Proof. solve_decision. Defined.

Record Gpu := mkGpu {
  Gpu_Address : string;
  Gpu_DeviceID : string;
  Gpu_Name : string;
  Gpu_Vendor : string;
  Gpu_VendorID : string;
}.
#[global] Instance Gpu_eq_dec : EqDecision Gpu.
Proof. solve_decision. Defined.

Record IoPerf := mkIoPerf {
  IoPerf_SyncDuration : Z;
}.
#[global] Instance IoPerf_eq_dec : EqDecision IoPerf.
Proof. solve_decision. Defined.

Record Interface := mkInterface {
  Interface_Biosdevname : string;
  Interface_ClientID : string;
  Interface_Flags : slice string;
  Interface_HasCarrier : bool;
  Interface_IPV4Addresses : slice string;
  Interface_IPV6Addresses : slice string;
  Interface_MacAddress : string;
  Interface_Mtu : Z;
  Interface_Name : string;
  Interface_Product : string;
  Interface_SpeedMbps : Z;
  Interface_Vendor : string;
}.
#[global] Instance Interface_eq_dec : EqDecision Interface.
Proof. solve_decision. Defined.

Record Memory := mkMemory {
  Memory_PhysicalBytes : Z;
  Memory_UsableBytes : Z;
}.
#[global] Instance Memory_eq_dec : EqDecision Memory.
Proof. solve_decision. Defined.

Record Route := mkRoute {
  Route_Destination : string;
  Route_Family : Z;
  Route_Gateway : string;
  Route_Interface : string;
}.
#[global] Instance Route_eq_dec : EqDecision Route.
Proof. solve_decision. Defined.

Record SystemVendor := mkSystemVendor {
  SystemVendor_Manufacturer : string;
  SystemVendor_ProductName : string;
  SystemVendor_SerialNumber : string;
  SystemVendor_Virtual : bool;
}.
#[global] Instance SystemVendor_eq_dec : EqDecision SystemVendor.
Proof. solve_decision. Defined.

Record HostDevice := mkHostDevice {
  HostDevice_Path : string;
  HostDevice_DeviceType : string;
  HostDevice_UID : Z;
  HostDevice_GID : Z;
  HostDevice_Major : Z;
  HostDevice_Minor : Z;
}.
#[global] Instance HostDevice_eq_dec : EqDecision HostDevice.
Proof. solve_decision. Defined.

Record Mount := mkMount {
  Mount_Device : string;
  Mount_Directory : string;
  Mount_Type : string;
  Mount_Options : string;
}.
#[global] Instance Mount_eq_dec : EqDecision Mount.
Proof. solve_decision. Defined.

Record TagsArray := mkTagsArray {
  TagsArray_Name : string;
  TagsArray_Value : string;
}.
#[global] Instance TagsArray_eq_dec : EqDecision TagsArray.
Proof. solve_decision. Defined.

Record DataArray := mkDataArray {
  DataArray_Name : string;
  DataArray_Value : string;
}.
#[global] Instance DataArray_eq_dec : EqDecision DataArray.
Proof. solve_decision. Defined.

Record Location := mkLocation {
  Location_Longitude : string;
  Location_Latitude : string;
  Location_LocationSource : string;
}.
#[global] Instance Location_eq_dec : EqDecision Location.
Proof. solve_decision. Defined.

Record Region := mkRegion {
  Region_RegionName : string;
  Region_Bandwidth : Z;
}.
#[global] Instance Region_eq_dec : EqDecision Region.
Proof. solve_decision. Defined.

Record TransmitInfo := mkTransmitInfo {
  TransmitInfo_Frequency : Z;
  TransmitInfo_Power : string;
  TransmitInfo_SpreadingFactor : Z;
  TransmitInfo_CodeRate : string;
  TransmitInfo_PolarizationInversion : bool;
}.
#[global] Instance TransmitInfo_eq_dec : EqDecision TransmitInfo.
Proof. solve_decision. Defined.

Record EdgeDeviceSetStatus := mkEdgeDeviceSetStatus {
}.
#[global] Instance EdgeDeviceSetStatus_eq_dec : EqDecision EdgeDeviceSetStatus.
Proof. solve_decision. Defined.

Record MetricsConfigEntity := mkMetricsConfigEntity {
  MetricsConfigEntity_Path : string;
  MetricsConfigEntity_Port : Z;
  MetricsConfigEntity_Disabled : bool;
}.
#[global] Instance MetricsConfigEntity_eq_dec : EqDecision MetricsConfigEntity.
Proof. solve_decision. Defined.

Record NameRef := mkNameRef {
  NameRef_Name : string;
}.
#[global] Instance NameRef_eq_dec : EqDecision NameRef.
Proof. solve_decision. Defined.

Record DataPath := mkDataPath {
  DataPath_Source : string;
  DataPath_Target : string;
}.
#[global] Instance DataPath_eq_dec : EqDecision DataPath.
Proof. solve_decision. Defined.

Record Pod := mkPod {
  Pod_Spec : corev1.PodSpec;
}.
#[global] Instance Pod_eq_dec : EqDecision Pod.
Proof. solve_decision. Defined.

Record EdgeWorkloadStatus := mkEdgeWorkloadStatus {
}.
#[global] Instance EdgeWorkloadStatus_eq_dec : EqDecision EdgeWorkloadStatus.
Proof. solve_decision. Defined.

Record EdgeDeviceSignedRequestCondition := mkEdgeDeviceSignedRequestCondition {
  EdgeDeviceSignedRequestCondition_Type : string;
  EdgeDeviceSignedRequestCondition_Status : string;
  EdgeDeviceSignedRequestCondition_Message : option string;
  EdgeDeviceSignedRequestCondition_LastTransitionTime : option Time;
}.
#[global] Instance EdgeDeviceSignedRequestCondition_eq_dec : EqDecision EdgeDeviceSignedRequestCondition.
Proof. solve_decision. Defined.

Record EdgeDeviceSignedRequestStatus := mkEdgeDeviceSignedRequestStatus {
  EdgeDeviceSignedRequestStatus_Conditions : slice EdgeDeviceSignedRequestCondition;
}.
#[global] Instance EdgeDeviceSignedRequestStatus_eq_dec : EqDecision EdgeDeviceSignedRequestStatus.
Proof. solve_decision. Defined.

Record AnsibleOptions := mkAnsibleOptions {
  AnsibleOptions_Check : bool;
}.
#[global] Instance AnsibleOptions_eq_dec : EqDecision AnsibleOptions.
Proof. solve_decision. Defined.

Record RequiredPrivilegeLevel := mkRequiredPrivilegeLevel {
  RequiredPrivilegeLevel_CapAdd : slice Z;
  RequiredPrivilegeLevel_CapDrop : slice Z;
}.
#[global] Instance RequiredPrivilegeLevel_eq_dec : EqDecision RequiredPrivilegeLevel.
Proof. solve_decision. Defined.

Record PrivilegeEscalationOptions := mkPrivilegeEscalationOptions {
  PrivilegeEscalationOptions_Become : bool;
  PrivilegeEscalationOptions_BecomeMethod : string;
  PrivilegeEscalationOptions_BecomeUser : string;
}.
#[global] Instance PrivilegeEscalationOptions_eq_dec : EqDecision PrivilegeEscalationOptions.
Proof. solve_decision. Defined.

Record EdgePlaybookCondition := mkEdgePlaybookCondition {
  EdgePlaybookCondition_Type : string;
  EdgePlaybookCondition_Status : string;
  EdgePlaybookCondition_Reason : option string;
  EdgePlaybookCondition_Message : option string;
  EdgePlaybookCondition_LastTransitionTime : option Time;
}.
#[global] Instance EdgePlaybookCondition_eq_dec : EqDecision EdgePlaybookCondition.
Proof. solve_decision. Defined.

Record PlaybookExecutionCondition := mkPlaybookExecutionCondition {
  PlaybookExecutionCondition_Type : string;
  PlaybookExecutionCondition_Status : string;
  PlaybookExecutionCondition_Reason : option string;
  PlaybookExecutionCondition_Message : option string;
  PlaybookExecutionCondition_LastTransitionTime : option Time;
}.
#[global] Instance PlaybookExecutionCondition_eq_dec : EqDecision PlaybookExecutionCondition.
Proof. solve_decision. Defined.

Record LogCollectionConfig := mkLogCollectionConfig {
  LogCollectionConfig_Kind : string;
  LogCollectionConfig_BufferSize : Z;
  LogCollectionConfig_SyslogConfig : option NameRef;
}.
#[global] Instance LogCollectionConfig_eq_dec : EqDecision LogCollectionConfig.
Proof. solve_decision. Defined.

Record ComponentMetricsConfiguration := mkComponentMetricsConfiguration {
  ComponentMetricsConfiguration_Interval : Z;
  ComponentMetricsConfiguration_AllowList : option NameRef;
  ComponentMetricsConfiguration_Disabled : bool;
}.
#[global] Instance ComponentMetricsConfiguration_eq_dec : EqDecision ComponentMetricsConfiguration.
Proof. solve_decision. Defined.

Record Storage := mkStorage {
  Storage_S3 : option S3Storage;
}.
#[global] Instance Storage_eq_dec : EqDecision Storage.
Proof. solve_decision. Defined.

Record HeartbeatConfiguration := mkHeartbeatConfiguration {
  HeartbeatConfiguration_HardwareProfile : option HardwareProfileConfiguration;
  HeartbeatConfiguration_PeriodSeconds : Z;
}.
#[global] Instance HeartbeatConfiguration_eq_dec : EqDecision HeartbeatConfiguration.
Proof. solve_decision. Defined.

Record Disk := mkDisk {
  Disk_Bootable : bool;
  Disk_ByID : string;
  Disk_ByPath : string;
  Disk_DriveType : string;
  Disk_Hctl : string;
  Disk_ID : string;
  Disk_IoPerf : option IoPerf;
  Disk_IsInstallationMedia : bool;
  Disk_Model : string;
  Disk_Name : string;
  Disk_Path : string;
  Disk_Serial : string;
  Disk_SizeBytes : Z;
  Disk_Smart : string;
  Disk_Vendor : string;
  Disk_Wwn : string;
}.
#[global] Instance Disk_eq_dec : EqDecision Disk.
Proof. solve_decision. Defined.

Record WirelessDeviceInfo := mkWirelessDeviceInfo {
  WirelessDeviceInfo_TenantId : string;
  WirelessDeviceInfo_TenantName : string;
  WirelessDeviceInfo_ApplicationId : string;
  WirelessDeviceInfo_ApplicationName : string;
  WirelessDeviceInfo_DeviceProfileId : string;
  WirelessDeviceInfo_DeviceProfileName : string;
  WirelessDeviceInfo_DeviceName : string;
  WirelessDeviceInfo_DevEui : string;
  WirelessDeviceInfo_DevAddr : string;
  WirelessDeviceInfo_Location : Location;
  WirelessDeviceInfo_Region : Region;
  WirelessDeviceInfo_TransmitInfo : TransmitInfo;
  WirelessDeviceInfo_BatteryLevel : string;
  WirelessDeviceInfo_Data : slice DataArray;
  WirelessDeviceInfo_Confirmed : bool;
  WirelessDeviceInfo_LastSeen : string;
  WirelessDeviceInfo_Tags : slice TagsArray;
  WirelessDeviceInfo_EventType : string;
}.
#[global] Instance WirelessDeviceInfo_eq_dec : EqDecision WirelessDeviceInfo.
Proof. solve_decision. Defined.

Record ImageRegistriesConfiguration := mkImageRegistriesConfiguration {
  ImageRegistriesConfiguration_AuthFileSecret : option NameRef;
}.
#[global] Instance ImageRegistriesConfiguration_eq_dec : EqDecision ImageRegistriesConfiguration.
Proof. solve_decision. Defined.

Record ContainerMetricsConfiguration := mkContainerMetricsConfiguration {
  ContainerMetricsConfiguration_Path : string;
  ContainerMetricsConfiguration_Port : Z;
  ContainerMetricsConfiguration_Interval : Z;
  ContainerMetricsConfiguration_AllowList : option NameRef;
  ContainerMetricsConfiguration_Containers : gomap (option MetricsConfigEntity);
}.
#[global] Instance ContainerMetricsConfiguration_eq_dec : EqDecision ContainerMetricsConfiguration.
Proof. solve_decision. Defined.

Record DataConfiguration := mkDataConfiguration {
  DataConfiguration_Ingress : slice DataPath;
  DataConfiguration_Egress : slice DataPath;
}.
#[global] Instance DataConfiguration_eq_dec : EqDecision DataConfiguration.
Proof. solve_decision. Defined.

Record EdgePlaybookStatus := mkEdgePlaybookStatus {
  EdgePlaybookStatus_Conditions : slice EdgePlaybookCondition;
}.
#[global] Instance EdgePlaybookStatus_eq_dec : EqDecision EdgePlaybookStatus.
Proof. solve_decision. Defined.

Record Playbook := mkPlaybook {
  Playbook_Content : string;
  Playbook_TimeoutSeconds : Z;
  Playbook_RequiredPrivilegeLevel : option RequiredPrivilegeLevel;
  Playbook_Options : option AnsibleOptions;
  Playbook_PrivilegeEscalationOptions : option PrivilegeEscalationOptions;
  Playbook_ExecutionStrategy : string;
}.
#[global] Instance Playbook_eq_dec : EqDecision Playbook.
Proof. solve_decision. Defined.

Record PlaybookExecutionSpec := mkPlaybookExecutionSpec {
  PlaybookExecutionSpec_Playbook : Playbook;
  PlaybookExecutionSpec_ExecutionAttempt : Z;
}.
#[global] Instance PlaybookExecutionSpec_eq_dec : EqDecision PlaybookExecutionSpec.
Proof. solve_decision. Defined.

Record PlaybookExecutionStatus := mkPlaybookExecutionStatus {
  PlaybookExecutionStatus_Conditions : slice PlaybookExecutionCondition;
}.
#[global] Instance PlaybookExecutionStatus_eq_dec : EqDecision PlaybookExecutionStatus.
Proof. solve_decision. Defined.

Record PlaybookExecution := mkPlaybookExecution {
  PlaybookExecution_TypeMeta : TypeMeta;
  PlaybookExecution_ObjectMeta : ObjectMeta;
  PlaybookExecution_Spec : PlaybookExecutionSpec;
  PlaybookExecution_Status : PlaybookExecutionStatus;
}.
#[global] Instance PlaybookExecution_eq_dec : EqDecision PlaybookExecution.
Proof. solve_decision. Defined.

Record MetricsConfiguration := mkMetricsConfiguration {
  MetricsConfiguration_Retention : option Retention;
  MetricsConfiguration_SystemMetrics : option ComponentMetricsConfiguration;
  MetricsConfiguration_DataTransferMetrics : option ComponentMetricsConfiguration;
  MetricsConfiguration_ReceiverConfiguration : option MetricsReceiverConfiguration;
}.
#[global] Instance MetricsConfiguration_eq_dec : EqDecision MetricsConfiguration.
Proof. solve_decision. Defined.

Record PlaybookExec := mkPlaybookExec {
  PlaybookExec_Name : string;
  PlaybookExec_PlaybookExecutionStatus : PlaybookExecutionStatus;
}.
#[global] Instance PlaybookExec_eq_dec : EqDecision PlaybookExec.
Proof. solve_decision. Defined.

Record Hardware := mkHardware {
  Hardware_Boot : option Boot;
  Hardware_CPU : option CPU;
  Hardware_Disks : slice (option Disk);
  Hardware_Gpus : slice (option Gpu);
  Hardware_Hostname : string;
  Hardware_Interfaces : slice (option Interface);
  Hardware_Memory : option Memory;
  Hardware_SystemVendor : option SystemVendor;
  Hardware_HostDevices : slice (option HostDevice);
  Hardware_Mounts : slice (option Mount);
}.
#[global] Instance Hardware_eq_dec : EqDecision Hardware.
Proof. solve_decision. Defined.

Record WirelessDevices := mkWirelessDevices {
  WirelessDevices_WirelessInterfaceType : string;
  WirelessDevices_WirelessDeviceInfo : WirelessDeviceInfo;
}.
#[global] Instance WirelessDevices_eq_dec : EqDecision WirelessDevices.
Proof. solve_decision. Defined.

Record EdgeDeviceSetSpec := mkEdgeDeviceSetSpec {
  EdgeDeviceSetSpec_Heartbeat : option HeartbeatConfiguration;
  EdgeDeviceSetSpec_Storage : option Storage;
  EdgeDeviceSetSpec_Metrics : option MetricsConfiguration;
  EdgeDeviceSetSpec_LogCollection : gomap (option LogCollectionConfig);
  EdgeDeviceSetSpec_OsInformation : option OsInformation;
  EdgeDeviceSetSpec_Mounts : slice (option Mount);
}.
#[global] Instance EdgeDeviceSetSpec_eq_dec : EqDecision EdgeDeviceSetSpec.
Proof. solve_decision. Defined.

Record EdgeDeviceSet := mkEdgeDeviceSet {
  EdgeDeviceSet_TypeMeta : TypeMeta;
  EdgeDeviceSet_ObjectMeta : ObjectMeta;
  EdgeDeviceSet_Spec : EdgeDeviceSetSpec;
  EdgeDeviceSet_Status : EdgeDeviceSetStatus;
}.
#[global] Instance EdgeDeviceSet_eq_dec : EqDecision EdgeDeviceSet.
Proof. solve_decision. Defined.

Record EdgeWorkloadSpec := mkEdgeWorkloadSpec {
  EdgeWorkloadSpec_DeviceSelector : option LabelSelector;
  EdgeWorkloadSpec_Device : string;
  EdgeWorkloadSpec_Type : string;
  EdgeWorkloadSpec_Pod : Pod;
  EdgeWorkloadSpec_Data : option DataConfiguration;
  EdgeWorkloadSpec_ImageRegistries : option ImageRegistriesConfiguration;
  EdgeWorkloadSpec_Metrics : option ContainerMetricsConfiguration;
  EdgeWorkloadSpec_LogCollection : string;
}.
#[global] Instance EdgeWorkloadSpec_eq_dec : EqDecision EdgeWorkloadSpec.
Proof. solve_decision. Defined.

Record EdgeWorkload := mkEdgeWorkload {
  EdgeWorkload_TypeMeta : TypeMeta;
  EdgeWorkload_ObjectMeta : ObjectMeta;
  EdgeWorkload_Spec : EdgeWorkloadSpec;
  EdgeWorkload_Status : EdgeWorkloadStatus;
}.
#[global] Instance EdgeWorkload_eq_dec : EqDecision EdgeWorkload.
Proof. solve_decision. Defined.

Record Features := mkFeatures {
  Features_ModelName : string;
  Features_Hardware : option Hardware;
}.
#[global] Instance Features_eq_dec : EqDecision Features.
Proof. solve_decision. Defined.

Record EdgeConfigStatus := mkEdgeConfigStatus {
  EdgeConfigStatus_EdgePlaybookStatus : option EdgePlaybookStatus;
}.
#[global] Instance EdgeConfigStatus_eq_dec : EqDecision EdgeConfigStatus.
Proof. solve_decision. Defined.

Record EdgePlaybookSpec := mkEdgePlaybookSpec {
  EdgePlaybookSpec_User : string;
  EdgePlaybookSpec_Playbooks : slice Playbook;
}.
#[global] Instance EdgePlaybookSpec_eq_dec : EqDecision EdgePlaybookSpec.
Proof. solve_decision. Defined.

Record EdgeDeviceSpec := mkEdgeDeviceSpec {
  EdgeDeviceSpec_OsInformation : option OsInformation;
  EdgeDeviceSpec_WirelessDevices : slice (option WirelessDevices);
  EdgeDeviceSpec_RequestTime : option Time;
  EdgeDeviceSpec_Heartbeat : option HeartbeatConfiguration;
  EdgeDeviceSpec_Storage : option Storage;
  EdgeDeviceSpec_Metrics : option MetricsConfiguration;
  EdgeDeviceSpec_LogCollection : gomap (option LogCollectionConfig);
  EdgeDeviceSpec_Mounts : slice (option Mount);
}.
#[global] Instance EdgeDeviceSpec_eq_dec : EqDecision EdgeDeviceSpec.
Proof. solve_decision. Defined.

Record EdgeDeviceStatus := mkEdgeDeviceStatus {
  EdgeDeviceStatus_Phase : string;
  EdgeDeviceStatus_LastSyncedResourceVersion : string;
  EdgeDeviceStatus_Hardware : option Hardware;
  EdgeDeviceStatus_Workloads : slice Workload;
  EdgeDeviceStatus_PlaybookExecutions : slice PlaybookExec;
  EdgeDeviceStatus_DataOBC : option string;
  EdgeDeviceStatus_UpgradeInformation : option UpgradeInformation;
  EdgeDeviceStatus_WirelessDevices : slice (option WirelessDevices);
}.
#[global] Instance EdgeDeviceStatus_eq_dec : EqDecision EdgeDeviceStatus.
Proof. solve_decision. Defined.

Record EdgeDevice := mkEdgeDevice {
  EdgeDevice_TypeMeta : TypeMeta;
  EdgeDevice_ObjectMeta : ObjectMeta;
  EdgeDevice_Spec : EdgeDeviceSpec;
  EdgeDevice_Status : EdgeDeviceStatus;
}.
#[global] Instance EdgeDevice_eq_dec : EqDecision EdgeDevice.
Proof. solve_decision. Defined.

Record EdgeDeviceSignedRequestSpec := mkEdgeDeviceSignedRequestSpec {
  EdgeDeviceSignedRequestSpec_TargetNamespace : string;
  EdgeDeviceSignedRequestSpec_TargetSet : string;
  EdgeDeviceSignedRequestSpec_Approved : bool;
  EdgeDeviceSignedRequestSpec_Features : option Features;
}.
#[global] Instance EdgeDeviceSignedRequestSpec_eq_dec : EqDecision EdgeDeviceSignedRequestSpec.
Proof. solve_decision. Defined.

Record EdgeDeviceSignedRequest := mkEdgeDeviceSignedRequest {
  EdgeDeviceSignedRequest_TypeMeta : TypeMeta;
  EdgeDeviceSignedRequest_ObjectMeta : ObjectMeta;
  EdgeDeviceSignedRequest_Spec : EdgeDeviceSignedRequestSpec;
  EdgeDeviceSignedRequest_Status : EdgeDeviceSignedRequestStatus;
}.
#[global] Instance EdgeDeviceSignedRequest_eq_dec : EqDecision EdgeDeviceSignedRequest.
Proof. solve_decision. Defined.

Record EdgeConfigSpec := mkEdgeConfigSpec {
  EdgeConfigSpec_EdgePlaybook : option EdgePlaybookSpec;
}.
#[global] Instance EdgeConfigSpec_eq_dec : EqDecision EdgeConfigSpec.
Proof. solve_decision. Defined.

Record EdgeConfig := mkEdgeConfig {
  EdgeConfig_TypeMeta : TypeMeta;
  EdgeConfig_ObjectMeta : ObjectMeta;
  EdgeConfig_Spec : EdgeConfigSpec;
  EdgeConfig_Status : EdgeConfigStatus;
}.
#[global] Instance EdgeConfig_eq_dec : EqDecision EdgeConfig.
Proof. solve_decision. Defined.

(** ** Constants *)
Definition Deploying : string := "Deploying".
Definition Running : string := "Running".
Definition Exited : string := "Exited".

Definition EdgedeviceSetLabel : string := "flotta/member-of".

Definition EdgeDeviceSignedRequestLabelName : string := "edgedeviceSignedRequest".
Definition EdgeDeviceSignedRequestLabelValue : string := "true".
Definition EdgeDeviceSignedRequestStatusApproved : string := "approved".
Definition EdgeDeviceSignedRequestStatusPending : string := "pending".
Definition EdgeDeviceSignedRequestStatusDeclined : string := "declined".

Definition PlaybookExecutionDeploying : string := "Deploying".
Definition PlaybookExecutionTargetVerification : string := "TargetVerification".
Definition PlaybookExecutionRunning : string := "Running".
Definition PlaybookExecutionSuccessfullyCompleted : string := "SuccessfullyCompleted".
Definition PlaybookExecutionCompletedWithError : string := "CompletedWithError".

Definition WirelessInterfaceTypeLora : string := "Lora".
Definition WirelessInterfaceTypeWiFi : string := "WiFi".
Definition WirelessInterfaceTypeBLE : string := "BLE".
Definition WirelessInterfaceTypeZigBee : string := "ZigBee".

(** ** Field updates *)
Definition set_Workloads (w : slice Workload) (s : EdgeDeviceStatus) : EdgeDeviceStatus :=
  mkEdgeDeviceStatus (EdgeDeviceStatus_Phase s) (EdgeDeviceStatus_LastSyncedResourceVersion s)
    (EdgeDeviceStatus_Hardware s) w (EdgeDeviceStatus_PlaybookExecutions s)
    (EdgeDeviceStatus_DataOBC s) (EdgeDeviceStatus_UpgradeInformation s)
    (EdgeDeviceStatus_WirelessDevices s).
Definition set_PlaybookExecutions (p : slice PlaybookExec) (s : EdgeDeviceStatus) : EdgeDeviceStatus :=
  mkEdgeDeviceStatus (EdgeDeviceStatus_Phase s) (EdgeDeviceStatus_LastSyncedResourceVersion s)
    (EdgeDeviceStatus_Hardware s) (EdgeDeviceStatus_Workloads s) p
    (EdgeDeviceStatus_DataOBC s) (EdgeDeviceStatus_UpgradeInformation s)
    (EdgeDeviceStatus_WirelessDevices s).
Definition set_Hardware (h : option Hardware) (s : EdgeDeviceStatus) : EdgeDeviceStatus :=
  mkEdgeDeviceStatus (EdgeDeviceStatus_Phase s) (EdgeDeviceStatus_LastSyncedResourceVersion s)
    h (EdgeDeviceStatus_Workloads s) (EdgeDeviceStatus_PlaybookExecutions s)
    (EdgeDeviceStatus_DataOBC s) (EdgeDeviceStatus_UpgradeInformation s)
    (EdgeDeviceStatus_WirelessDevices s).
Definition set_DataOBC (o : option string) (s : EdgeDeviceStatus) : EdgeDeviceStatus :=
  mkEdgeDeviceStatus (EdgeDeviceStatus_Phase s) (EdgeDeviceStatus_LastSyncedResourceVersion s)
    (EdgeDeviceStatus_Hardware s) (EdgeDeviceStatus_Workloads s)
    (EdgeDeviceStatus_PlaybookExecutions s) o (EdgeDeviceStatus_UpgradeInformation s)
    (EdgeDeviceStatus_WirelessDevices s).
Definition set_WirelessDevices (w : slice (option WirelessDevices)) (s : EdgeDeviceStatus)
    : EdgeDeviceStatus :=
  mkEdgeDeviceStatus (EdgeDeviceStatus_Phase s) (EdgeDeviceStatus_LastSyncedResourceVersion s)
    (EdgeDeviceStatus_Hardware s) (EdgeDeviceStatus_Workloads s)
    (EdgeDeviceStatus_PlaybookExecutions s) (EdgeDeviceStatus_DataOBC s)
    (EdgeDeviceStatus_UpgradeInformation s) w.

Definition upd_Meta (f : ObjectMeta -> ObjectMeta) (d : EdgeDevice) : EdgeDevice :=
  mkEdgeDevice (EdgeDevice_TypeMeta d) (f (EdgeDevice_ObjectMeta d)) (EdgeDevice_Spec d)
    (EdgeDevice_Status d).
Definition upd_Status (f : EdgeDeviceStatus -> EdgeDeviceStatus) (d : EdgeDevice) : EdgeDevice :=
  mkEdgeDevice (EdgeDevice_TypeMeta d) (EdgeDevice_ObjectMeta d) (EdgeDevice_Spec d)
    (f (EdgeDevice_Status d)).
Definition upd_Request_Status (f : EdgeDeviceSignedRequestStatus -> EdgeDeviceSignedRequestStatus)
    (r : EdgeDeviceSignedRequest) : EdgeDeviceSignedRequest :=
  mkEdgeDeviceSignedRequest (EdgeDeviceSignedRequest_TypeMeta r)
    (EdgeDeviceSignedRequest_ObjectMeta r) (EdgeDeviceSignedRequest_Spec r)
    (f (EdgeDeviceSignedRequest_Status r)).
Definition upd_WorkloadMeta (f : ObjectMeta -> ObjectMeta) (w : EdgeWorkload) : EdgeWorkload :=
  mkEdgeWorkload (EdgeWorkload_TypeMeta w) (f (EdgeWorkload_ObjectMeta w)) (EdgeWorkload_Spec w)
    (EdgeWorkload_Status w).
Definition upd_PlaybookMeta (f : ObjectMeta -> ObjectMeta) (p : PlaybookExecution)
    : PlaybookExecution :=
  mkPlaybookExecution (PlaybookExecution_TypeMeta p) (f (PlaybookExecution_ObjectMeta p))
    (PlaybookExecution_Spec p) (PlaybookExecution_Status p).

(** ** Zero values *)
Definition empty_EdgeDeviceSpec : EdgeDeviceSpec :=
  mkEdgeDeviceSpec None None None None None None None None.
Definition empty_EdgeDeviceStatus : EdgeDeviceStatus :=
  mkEdgeDeviceStatus "" "" None None None None None None.
Definition empty_EdgeDevice : EdgeDevice :=
  mkEdgeDevice empty_TypeMeta (named "" "") empty_EdgeDeviceSpec empty_EdgeDeviceStatus.
Definition empty_EdgeWorkload : EdgeWorkload :=
  mkEdgeWorkload empty_TypeMeta (named "" "")
    (mkEdgeWorkloadSpec None "" "" (mkPod (corev1.mkPodSpec None None None "")) None None None "")
    mkEdgeWorkloadStatus.
Definition empty_EdgeDeviceSet : EdgeDeviceSet :=
  mkEdgeDeviceSet empty_TypeMeta (named "" "")
    (mkEdgeDeviceSetSpec None None None None None None) mkEdgeDeviceSetStatus.
Definition empty_EdgeDeviceSignedRequest : EdgeDeviceSignedRequest :=
  mkEdgeDeviceSignedRequest empty_TypeMeta (named "" "")
    (mkEdgeDeviceSignedRequestSpec "" "" false None) (mkEdgeDeviceSignedRequestStatus None).
Definition empty_EdgeConfig : EdgeConfig :=
  mkEdgeConfig empty_TypeMeta (named "" "") (mkEdgeConfigSpec None) (mkEdgeConfigStatus None).
Definition empty_Playbook : Playbook := mkPlaybook "" 0 None None None "".
Definition empty_PlaybookExecution : PlaybookExecution :=
  mkPlaybookExecution empty_TypeMeta (named "" "") (mkPlaybookExecutionSpec empty_Playbook 0)
    (mkPlaybookExecutionStatus None).
End v1alpha1.
