(* ===== verification/Models.v ===== *)
(** * Messages between devices and the edge API

    Module [models] holds the structs of models/ that the edge API reads or
    builds, field by field.  The content of a message is a Go [interface{}];
    [any] lists the values the code puts there. *)
From S2P Require Import Prelude GoData V1alpha1.

Module models.
Record HostDevice := mkHostDevice {
  HostDevice_DeviceType : string;
  HostDevice_Gid : Z;
  HostDevice_Major : Z;
  HostDevice_Minor : Z;
  HostDevice_Path : string;
  HostDevice_UID : Z;
}.
#[global] Instance HostDevice_eq_dec : EqDecision HostDevice.
Proof. solve_decision. Defined.

Record Interface := mkInterface {
  Interface_Biosdevname : string;
  Interface_ClientID : string;
  Interface_Flags : slice string;
  Interface_HasCarrier : bool;
  Interface_IPV4Addresses : slice string;
  Interface_IPV6Addresses : slice string;
  Interface_MacAddress : string;
  Interface_Mtu : Z;
  Interface_Name : string;
  Interface_Product : string;
  Interface_SpeedMbps : Z;
  Interface_Vendor : string;
}.
#[global] Instance Interface_eq_dec : EqDecision Interface.
Proof. solve_decision. Defined.

Record Gpu := mkGpu {
  Gpu_Address : string;
  Gpu_DeviceID : string;
  Gpu_Name : string;
  Gpu_Vendor : string;
  Gpu_VendorID : string;
}.
#[global] Instance Gpu_eq_dec : EqDecision Gpu.
Proof. solve_decision. Defined.

Record IoPerf := mkIoPerf {
  IoPerf_SyncDuration : Z;
}.
#[global] Instance IoPerf_eq_dec : EqDecision IoPerf.
Proof. solve_decision. Defined.

Record Mount := mkMount {
  Mount_Device : string;
  Mount_Directory : string;
  Mount_Options : string;
  Mount_Type : string;
}.
#[global] Instance Mount_eq_dec : EqDecision Mount.
Proof. solve_decision. Defined.

Record Memory := mkMemory {
  Memory_PhysicalBytes : Z;
  Memory_UsableBytes : Z;
}.
#[global] Instance Memory_eq_dec : EqDecision Memory.
Proof. solve_decision. Defined.

Record CPU := mkCPU {
  CPU_Architecture : string;
  CPU_Count : Z;
  CPU_Flags : slice string;
  CPU_Frequency : float64;
  CPU_ModelName : string;
}.
#[global] Instance CPU_eq_dec : EqDecision CPU.
Proof. solve_decision. Defined.

Record Boot := mkBoot {
  Boot_CurrentBootMode : string;
  Boot_PxeInterface : string;
}.
#[global] Instance Boot_eq_dec : EqDecision Boot.
Proof. solve_decision. Defined.

Record SystemVendor := mkSystemVendor {
  SystemVendor_Manufacturer : string;
  SystemVendor_ProductName : string;
  SystemVendor_SerialNumber : string;
  SystemVendor_Virtual : bool;
}.
#[global] Instance SystemVendor_eq_dec : EqDecision SystemVendor.
Proof. solve_decision. Defined.

Record EventInfo := mkEventInfo {
  EventInfo_Message : string;
  EventInfo_Reason : string;
  EventInfo_Type : string;
}.
#[global] Instance EventInfo_eq_dec : EqDecision EventInfo.
Proof. solve_decision. Defined.

Record PlaybookExecutionStatus := mkPlaybookExecutionStatus {
  PlaybookExecutionStatus_LastDataUpload : Time;
  PlaybookExecutionStatus_Name : string;
  PlaybookExecutionStatus_Status : string;
}.
#[global] Instance PlaybookExecutionStatus_eq_dec : EqDecision PlaybookExecutionStatus.
Proof. solve_decision. Defined.

Record UpgradeStatus := mkUpgradeStatus {
  UpgradeStatus_CurrentCommitID : string;
  UpgradeStatus_LastUpgradeStatus : string;
  UpgradeStatus_LastUpgradeTime : string;
}.
#[global] Instance UpgradeStatus_eq_dec : EqDecision UpgradeStatus.
Proof. solve_decision. Defined.

Record WorkloadStatus := mkWorkloadStatus {
  WorkloadStatus_LastDataUpload : Time;
  WorkloadStatus_Name : string;
  WorkloadStatus_Status : string;
}.
#[global] Instance WorkloadStatus_eq_dec : EqDecision WorkloadStatus.
Proof. solve_decision. Defined.

Record ContainerMetrics := mkContainerMetrics {
  ContainerMetrics_Disabled : bool;
  ContainerMetrics_Path : string;
  ContainerMetrics_Port : Z;
}.
#[global] Instance ContainerMetrics_eq_dec : EqDecision ContainerMetrics.
Proof. solve_decision. Defined.

Record DataPath := mkDataPath {
  DataPath_Source : string;
  DataPath_Target : string;
}.
#[global] Instance DataPath_eq_dec : EqDecision DataPath.
Proof. solve_decision. Defined.

Record ImageRegistries := mkImageRegistries {
  ImageRegistries_AuthFile : string;
}.
#[global] Instance ImageRegistries_eq_dec : EqDecision ImageRegistries.
Proof. solve_decision. Defined.

Record MetricsAllowList := mkMetricsAllowList {
  MetricsAllowList_Names : slice string;
}.
#[global] Instance MetricsAllowList_eq_dec : EqDecision MetricsAllowList.
Proof. solve_decision. Defined.

Record HardwareProfileConfiguration := mkHardwareProfileConfiguration {
  HardwareProfileConfiguration_Include : bool;
  HardwareProfileConfiguration_Scope : string;
}.
#[global] Instance HardwareProfileConfiguration_eq_dec : EqDecision HardwareProfileConfiguration.
Proof. solve_decision. Defined.

Record S3StorageConfiguration := mkS3StorageConfiguration {
  S3StorageConfiguration_AwsAccessKeyID : string;
  S3StorageConfiguration_AwsCaBundle : string;
  S3StorageConfiguration_AwsSecretAccessKey : string;
  S3StorageConfiguration_BucketHost : string;
  S3StorageConfiguration_BucketName : string;
  S3StorageConfiguration_BucketPort : Z;
  S3StorageConfiguration_BucketRegion : string;
}.
#[global] Instance S3StorageConfiguration_eq_dec : EqDecision S3StorageConfiguration.
Proof. solve_decision. Defined.

Record MetricsRetention := mkMetricsRetention {
  MetricsRetention_MaxHours : Z;
  MetricsRetention_MaxMib : Z;
}.
#[global] Instance MetricsRetention_eq_dec : EqDecision MetricsRetention.
Proof. solve_decision. Defined.

Record MetricsReceiverConfiguration := mkMetricsReceiverConfiguration {
  MetricsReceiverConfiguration_CaCert : string;
  MetricsReceiverConfiguration_RequestNumSamples : Z;
  MetricsReceiverConfiguration_TimeoutSeconds : Z;
  MetricsReceiverConfiguration_URL : string;
}.
#[global] Instance MetricsReceiverConfiguration_eq_dec : EqDecision MetricsReceiverConfiguration.
Proof. solve_decision. Defined.

Record ComponentMetricsConfiguration := mkComponentMetricsConfiguration {
  ComponentMetricsConfiguration_AllowList : option MetricsAllowList;
  ComponentMetricsConfiguration_Disabled : bool;
  ComponentMetricsConfiguration_Interval : Z;
}.
#[global] Instance ComponentMetricsConfiguration_eq_dec : EqDecision ComponentMetricsConfiguration.
Proof. solve_decision. Defined.

Record LogsCollectionInformationSyslogConfig := mkLogsCollectionInformationSyslogConfig {
  LogsCollectionInformationSyslogConfig_Address : string;
  LogsCollectionInformationSyslogConfig_Protocol : string;
}.
#[global] Instance LogsCollectionInformationSyslogConfig_eq_dec : EqDecision LogsCollectionInformationSyslogConfig.
Proof. solve_decision. Defined.

Record OsInformation := mkOsInformation {
  OsInformation_AutomaticallyUpgrade : bool;
  OsInformation_CommitID : string;
  OsInformation_HostedObjectsURL : string;
}.
#[global] Instance OsInformation_eq_dec : EqDecision OsInformation.
Proof. solve_decision. Defined.

Record Secret := mkSecret {
  Secret_Data : string;
  Secret_Name : string;
}.
#[global] Instance Secret_eq_dec : EqDecision Secret.
Proof. solve_decision. Defined.

Record PlaybookExecution := mkPlaybookExecution {
  PlaybookExecution_AnsiblePlaybookString : string;
  PlaybookExecution_LastDataUpload : Time;
  PlaybookExecution_Name : string;
}.
#[global] Instance PlaybookExecution_eq_dec : EqDecision PlaybookExecution.
Proof. solve_decision. Defined.

Record RegistrationResponse := mkRegistrationResponse {
  RegistrationResponse_Certificate : string;
}.
#[global] Instance RegistrationResponse_eq_dec : EqDecision RegistrationResponse.
Proof. solve_decision. Defined.

Record AnsibleManagerConfiguration := mkAnsibleManagerConfiguration {
  AnsibleManagerConfiguration_PeriodSeconds : Z;
}.
#[global] Instance AnsibleManagerConfiguration_eq_dec : EqDecision AnsibleManagerConfiguration.
Proof. solve_decision. Defined.

Record Location := mkLocation {
  Location_Latitude : string;
  Location_Longitude : string;
}.
#[global] Instance Location_eq_dec : EqDecision Location.
Proof. solve_decision. Defined.

Record Region := mkRegion {
  Region_Bandwidth : string;
}.
#[global] Instance Region_eq_dec : EqDecision Region.
Proof. solve_decision. Defined.

Record TransmitInfo := mkTransmitInfo {
  TransmitInfo_CodeRate : string;
  TransmitInfo_Frequency : string;
  TransmitInfo_PolarizationInversion : string;
  TransmitInfo_Power : string;
  TransmitInfo_SpreadingFactor : string;
}.
#[global] Instance TransmitInfo_eq_dec : EqDecision TransmitInfo.
Proof. solve_decision. Defined.

Record Disk := mkDisk {
  Disk_Bootable : bool;
  Disk_ByID : string;
  Disk_ByPath : string;
  Disk_DriveType : string;
  Disk_Hctl : string;
  Disk_ID : string;
  Disk_IoPerf : option IoPerf;
  Disk_IsInstallationMedia : bool;
  Disk_Model : string;
  Disk_Name : string;
  Disk_Path : string;
  Disk_Serial : string;
  Disk_SizeBytes : Z;
  Disk_Smart : string;
  Disk_Vendor : string;
  Disk_Wwn : string;
}.
#[global] Instance Disk_eq_dec : EqDecision Disk.
Proof. solve_decision. Defined.

Record Metrics := mkMetrics {
  Metrics_AllowList : option MetricsAllowList;
  Metrics_Containers : gomap ContainerMetrics;
  Metrics_Interval : Z;
  Metrics_Path : string;
  Metrics_Port : Z;
}.
#[global] Instance Metrics_eq_dec : EqDecision Metrics.
Proof. solve_decision. Defined.

Record DataConfiguration := mkDataConfiguration {
  DataConfiguration_Egress : slice (option DataPath);
  DataConfiguration_Ingress : slice (option DataPath);
}.
#[global] Instance DataConfiguration_eq_dec : EqDecision DataConfiguration.
Proof. solve_decision. Defined.

Record HeartbeatConfiguration := mkHeartbeatConfiguration {
  HeartbeatConfiguration_HardwareProfile : option HardwareProfileConfiguration;
  HeartbeatConfiguration_PeriodSeconds : Z;
}.
#[global] Instance HeartbeatConfiguration_eq_dec : EqDecision HeartbeatConfiguration.
Proof. solve_decision. Defined.

Record StorageConfiguration := mkStorageConfiguration {
  StorageConfiguration_S3 : option S3StorageConfiguration;
}.
#[global] Instance StorageConfiguration_eq_dec : EqDecision StorageConfiguration.
Proof. solve_decision. Defined.

Record MetricsConfiguration := mkMetricsConfiguration {
  MetricsConfiguration_DataTransfer : option ComponentMetricsConfiguration;
  MetricsConfiguration_Receiver : option MetricsReceiverConfiguration;
  MetricsConfiguration_Retention : option MetricsRetention;
  MetricsConfiguration_System : option ComponentMetricsConfiguration;
}.
#[global] Instance MetricsConfiguration_eq_dec : EqDecision MetricsConfiguration.
Proof. solve_decision. Defined.

Record LogsCollectionInformation := mkLogsCollectionInformation {
  LogsCollectionInformation_BufferSize : Z;
  LogsCollectionInformation_Kind : string;
  LogsCollectionInformation_SyslogConfig : option LogsCollectionInformationSyslogConfig;
}.
#[global] Instance LogsCollectionInformation_eq_dec : EqDecision LogsCollectionInformation.
Proof. solve_decision. Defined.

Record WirelessDeviceInfo := mkWirelessDeviceInfo {
  WirelessDeviceInfo_ApplicationID : string;
  WirelessDeviceInfo_ApplicationName : string;
  WirelessDeviceInfo_Battery : string;
  WirelessDeviceInfo_Confirmed : bool;
  WirelessDeviceInfo_Data : string;
  WirelessDeviceInfo_DevAddr : string;
  WirelessDeviceInfo_DevEui : string;
  WirelessDeviceInfo_DeviceName : string;
  WirelessDeviceInfo_DeviceProfileID : string;
  WirelessDeviceInfo_DeviceProfileName : string;
  WirelessDeviceInfo_LastSeen : string;
  WirelessDeviceInfo_Location : option Location;
  WirelessDeviceInfo_Region : option Region;
  WirelessDeviceInfo_TenantID : string;
  WirelessDeviceInfo_TenantName : string;
  WirelessDeviceInfo_TransmitInfo : option TransmitInfo;
}.
#[global] Instance WirelessDeviceInfo_eq_dec : EqDecision WirelessDeviceInfo.
Proof. solve_decision. Defined.

Record Workload := mkWorkload {
  Workload_Annotations : gomap string;
  Workload_Configmaps : slice string;
  Workload_Data : option DataConfiguration;
  Workload_ImageRegistries : option ImageRegistries;
  Workload_Labels : gomap string;
  Workload_LogCollection : string;
  Workload_Metrics : option Metrics;
  Workload_Name : string;
  Workload_Namespace : string;
  Workload_Specification : string;
}.
#[global] Instance Workload_eq_dec : EqDecision Workload.
Proof. solve_decision. Defined.

Record DeviceConfiguration := mkDeviceConfiguration {
  DeviceConfiguration_AnsibleManager : option AnsibleManagerConfiguration;
  DeviceConfiguration_Heartbeat : option HeartbeatConfiguration;
  DeviceConfiguration_LogCollection : gomap LogsCollectionInformation;
  DeviceConfiguration_Metrics : option MetricsConfiguration;
  DeviceConfiguration_Mounts : slice (option Mount);
  DeviceConfiguration_Os : option OsInformation;
  DeviceConfiguration_Storage : option StorageConfiguration;
}.
#[global] Instance DeviceConfiguration_eq_dec : EqDecision DeviceConfiguration.
Proof. solve_decision. Defined.

Record HardwareInfo := mkHardwareInfo {
  HardwareInfo_Boot : option Boot;
  HardwareInfo_ConnectedWirelessDevices : slice (option WirelessDeviceInfo);
  HardwareInfo_CPU : option CPU;
  HardwareInfo_Disks : slice (option Disk);
  HardwareInfo_Gpus : slice (option Gpu);
  HardwareInfo_HostDevices : slice (option HostDevice);
  HardwareInfo_Hostname : string;
  HardwareInfo_Interfaces : slice (option Interface);
  HardwareInfo_Memory : option Memory;
  HardwareInfo_Mounts : slice (option Mount);
  HardwareInfo_SystemVendor : option SystemVendor;
}.
#[global] Instance HardwareInfo_eq_dec : EqDecision HardwareInfo.
Proof. solve_decision. Defined.

Record EnrolmentInfoFeatures := mkEnrolmentInfoFeatures {
  EnrolmentInfoFeatures_Hardware : option HardwareInfo;
  EnrolmentInfoFeatures_ModelName : string;
}.
#[global] Instance EnrolmentInfoFeatures_eq_dec : EqDecision EnrolmentInfoFeatures.
Proof. solve_decision. Defined.

Record RegistrationInfo := mkRegistrationInfo {
  RegistrationInfo_CertificateRequest : string;
  RegistrationInfo_Hardware : option HardwareInfo;
}.
#[global] Instance RegistrationInfo_eq_dec : EqDecision RegistrationInfo.
Proof. solve_decision. Defined.

Record DeviceConfigurationMessage := mkDeviceConfigurationMessage {
  DeviceConfigurationMessage_Configuration : option DeviceConfiguration;
  DeviceConfigurationMessage_DeviceID : string;
  DeviceConfigurationMessage_Secrets : slice (option Secret);
  DeviceConfigurationMessage_Version : string;
  DeviceConfigurationMessage_Workloads : slice (option Workload);
  DeviceConfigurationMessage_WorkloadsMonitoringInterval : Z;
}.
#[global] Instance DeviceConfigurationMessage_eq_dec : EqDecision DeviceConfigurationMessage.
Proof. solve_decision. Defined.

Record Heartbeat := mkHeartbeat {
  Heartbeat_Events : slice (option EventInfo);
  Heartbeat_Hardware : option HardwareInfo;
  Heartbeat_PlaybookExecutions : slice (option PlaybookExecutionStatus);
  Heartbeat_Status : string;
  Heartbeat_Upgrade : option UpgradeStatus;
  Heartbeat_Version : string;
  Heartbeat_Workloads : slice (option WorkloadStatus);
}.
#[global] Instance Heartbeat_eq_dec : EqDecision Heartbeat.
Proof. solve_decision. Defined.

Record EnrolmentInfo := mkEnrolmentInfo {
  EnrolmentInfo_Features : option EnrolmentInfoFeatures;
  EnrolmentInfo_TargetNamespace : option string;
}.
#[global] Instance EnrolmentInfo_eq_dec : EqDecision EnrolmentInfo.
Proof. solve_decision. Defined.

(** The dynamic values of the [interface{}] fields: text the sender's JSON
    holds there, or one of the values the handlers answer with. *)
Inductive any :=
  | AnyNil
  | AnyJSON (text : string)
  | AnyDeviceConfiguration (dc : DeviceConfigurationMessage)
  | AnyCommand (command : string) (arguments : gomap string)
  | AnyRegistrationResponse (r : RegistrationResponse)
  | AnyString (s : string)
  | AnyStringMap (m : gmap string string).

Record MessageResponse := mkMessageResponse {
  MessageResponse_Content : any;
  MessageResponse_Directive : string;
  MessageResponse_MessageID : string;
  MessageResponse_Metadata : any;
}.

Record Message := mkMessage {
  Message_Content : any;
  Message_Directive : string;
  Message_MessageID : string;
  Message_Metadata : any;
  Message_ResponseTo : string;
  Message_Sent : Time;
  Message_Type : string;
  Message_Version : Z;
}.

Definition EventInfoTypeInfo : string := "info".
Definition EventInfoTypeWarn : string := "warn".
Definition MessageTypeConnectionDashStatus : string := "connection-status".
Definition MessageTypeCommand : string := "command".
Definition MessageTypeEvent : string := "event".
Definition MessageTypeData : string := "data".
End models.
