(* ===== verification/Env.v ===== *)
(** * Errors and the environment: what the operator asks of the outside

    [error] is the sum of the error values the code creates, wraps or tests.
    [Req] lists every call that leaves the process (the Kubernetes API, the
    clock, random names, events, counters, the remote backend) and every
    choice of the Go runtime (map order, goroutine schedule); [Resp] is the
    type of each answer.  [M A] is a program over these calls.  [Libs] collects
    the pure third-party functions the code relies on. *)
From stdpp Require Import pretty.
From S2P Require Import Prelude GoData GoStrings V1alpha1 Models.

(** ** Errors *)

(** [metav1.StatusReason], as far as the code distinguishes reasons. *)
Inductive StatusReason := NotFound | AlreadyExists | OtherReason (reason : string).
#[global] Instance StatusReason_eq_dec : EqDecision StatusReason.
Proof. solve_decision. Defined.

Inductive error :=
  | StatusError (reason : StatusReason) (message : string)
      (** an answer of the API server *)
  | ErrorString (message : string)
      (** [errors.New], and [fmt.Errorf] without [%w] *)
  | WrapError (prefix : string) (cause : error)
      (** [fmt.Errorf(prefix + "%w", cause)] *)
  | NotApproved (cause : error)
      (** [backend.NotApproved] *)
  | MultiError (errs : list error)
      (** [*multierror.Error], possibly without any error in it *)
  | NoClientCertSendError
  | RegisterClientVerifyError (err : error)
  | InvalidCertificateKindError
  | ClientCertificateVerifyError (err : error).

(** [errors.As(err, &status)]: the status error found by unwrapping. *)
Fixpoint status_reason (e : error) : option StatusReason :=
  match e with
  | StatusError r _ => Some r
  | WrapError _ e' => status_reason e'
  | NotApproved e' => status_reason e'
  | MultiError l =>
      foldr (fun e' acc => match status_reason e' with Some r => Some r | None => acc end) None l
  | _ => None
  end.

Definition IsNotFound (e : error) : bool := bool_decide (status_reason e = Some NotFound).
Definition IsAlreadyExists (e : error) : bool :=
  bool_decide (status_reason e = Some AlreadyExists).

Lemma IsNotFound_NotApproved e : IsNotFound (NotApproved e) = IsNotFound e.
Proof. done. Qed.
Lemma IsAlreadyExists_ErrorString m : IsAlreadyExists (ErrorString m) = false.
Proof. done. Qed.
Lemma IsNotFound_ErrorString m : IsNotFound (ErrorString m) = false.
Proof. done. Qed.

Definition newline : string := String (Ascii.ascii_of_nat 10) "".
Definition tab : string := String (Ascii.ascii_of_nat 9) "".

(** [err.Error()]. *)
Fixpoint error_text (e : error) : string :=
  match e with
  | StatusError _ m => m
  | ErrorString m => m
  | WrapError p e' => p +:+ error_text e'
  | NotApproved _ => "not approved"
  | MultiError l =>
      let points := (fun t => "* " +:+ t) <$> (error_text <$> l) in
      (if decide (length l = 1) then "1 error occurred:"
       else pretty (length l) +:+ " errors occurred:")
      +:+ newline +:+ tab +:+ Join points (newline +:+ tab) +:+ newline +:+ newline
  | NoClientCertSendError => "no Client cert was sent"
  | RegisterClientVerifyError e' => "cannot verify register certificate: " +:+ error_text e'
  | InvalidCertificateKindError => "cannot use register certificate on this resource"
  | ClientCertificateVerifyError e' => "cannot verify certificate: " +:+ error_text e'
  end.

(** ** Third-party functions without effects *)

Class Libs := {
  (** [metav1.LabelSelectorAsSelector]: the error of an invalid selector. *)
  selector_error : LabelSelector -> option error;
  (** [selector.Matches(labels.Set(l))]. *)
  selector_matches : LabelSelector -> gmap string string -> bool;
  (** [yaml.Marshal] of a pod specification and of a config map. *)
  yaml_PodSpec : corev1.PodSpec -> string * option error;
  yaml_ConfigMap : corev1.ConfigMap -> string * option error;
  (** [yaml.Unmarshal] of a metrics allow-list. *)
  yaml_AllowList : string -> models.MetricsAllowList * option error;
  (** [net.ParsePort(port, false)]. *)
  ParsePort : string -> Z * option error;
}.

(** ** Calls *)

(** What [client.List] selects, besides the namespace. *)
Inductive ListSelector :=
  | AllObjects
  | MatchingLabels (key value : string)
  | MatchingFields (key value : string)
  | MatchingSelector (s : LabelSelector).

(** The counters of internal/common/metrics. *)
Inductive MetricOp :=
  | IncSuccessfulRegistration
  | IncFailedRegistration
  | IncUnregistration
  | IncFailedAuthentication
  | IncInvalidOwner
  | RecordPresence (namespace name : string)
  | RegisterDeviceCounterOp (namespace name : string)
  | RemoveDeviceCounterOp (namespace name : string).

(** [obv1.ObjectBucketClaim], with the fields the code sets and reads. *)
Record ObjectBucketClaim := mkOBC {
  OBC_Name : string; OBC_Namespace : string;
  OBC_GenerateBucketName : string; OBC_StorageClassName : string }.

(** A value of type [interface{}] decoded from JSON, as far as the code looks
    into it; for the others, the text [%v] prints. *)
Inductive measured :=
  | MeasuredString (s : string)
  | MeasuredNil
  | MeasuredOther (printed : string).

(** The operations of a remote backend (the generated client of src/backend). *)
Inductive RemoteOp :=
  | RemoteGetRegistrationStatus (deviceID namespace : string)
  | RemoteGetDeviceConfiguration (deviceID namespace : string)
  | RemoteGetPlaybookExecutions (deviceID namespace : string)
  | RemoteEnrolDevice (deviceID namespace : string) (info : models.EnrolmentInfo)
  | RemoteRegisterDevice (deviceID namespace : string) (info : models.RegistrationInfo)
  | RemoteUpdateHeartBeat (deviceID namespace : string) (heartbeat : models.Heartbeat).

Inductive Req :=
  (* client.Get, by kind: namespace and name *)
  | GetEdgeDevice (namespace name : string)
  | GetEdgeWorkload (namespace name : string)
  | GetEdgeDeviceSet (namespace name : string)
  | GetEDSR (namespace name : string)
  | GetEdgeConfig (namespace name : string)
  | GetPlaybookExecution (namespace name : string)
  | GetSecret (namespace name : string)
  | GetConfigMap (namespace name : string)
  | GetRouteHost (namespace name : string)
  | GetOBC (namespace name : string)
  (* client.List, by kind *)
  | ListEdgeDevices (sel : ListSelector) (namespace : string)
  | ListEdgeWorkloads (sel : ListSelector) (namespace : string)
  | ListEdgeConfigs (sel : ListSelector) (namespace : string)
  | ListPlaybookExecutions (sel : ListSelector) (namespace : string)
  (* client.Create, by kind *)
  | CreateEdgeDevice (d : v1alpha1.EdgeDevice)
  | CreateEDSR (r : v1alpha1.EdgeDeviceSignedRequest)
  | CreatePlaybookExecution (p : v1alpha1.PlaybookExecution)
  | CreateSecret (s : corev1.Secret)
  | CreateOBC (o : ObjectBucketClaim)
  (* client.Patch and client.Status().Patch with client.MergeFrom(base) *)
  | PatchEdgeDevice (base obj : v1alpha1.EdgeDevice)
  | PatchEdgeDeviceStatus (base obj : v1alpha1.EdgeDevice)
  | PatchEdgeWorkload (base obj : v1alpha1.EdgeWorkload)
  | PatchEDSR (base obj : v1alpha1.EdgeDeviceSignedRequest)
  | PatchEDSRStatus (base obj : v1alpha1.EdgeDeviceSignedRequest)
  | PatchEdgeConfig (base obj : v1alpha1.EdgeConfig)
  | PatchPlaybookExecution (base : option v1alpha1.PlaybookExecution)
      (obj : v1alpha1.PlaybookExecution)
  (* client.Update, client.Status().Update, client.Delete *)
  | UpdateEdgeDevice (obj : v1alpha1.EdgeDevice)
  | UpdateEdgeDeviceStatus (obj : v1alpha1.EdgeDevice)
  | DeleteEDSR (r : v1alpha1.EdgeDeviceSignedRequest)
  (* events, counters, clock, random values *)
  | RecordEvent (object eventtype reason message : string)
  | Metric (op : MetricOp)
  | Now
  | NewUUID
  | RandString (length : nat)
  | Entropy
      (** what [rand.Reader] supplies to one operation *)
  | Sleep (milliseconds : Z)
  (* the remote backend; clients, namespaces and measurements of the MQTT handler *)
  | Remote (op : RemoteOp)
  | GetRestConfig
  | NewClientset
  | NewClient
  | ListNamespaces
  | WritePoint (time : Time) (fields : list (string * measured)) (tags : list (string * string))
  (* choices of the Go runtime *)
  | MapOrder
  | Schedule
  | ContextDone.

#[global] Instance ListSelector_eq_dec : EqDecision ListSelector.
Proof. solve_decision. Defined.
#[global] Instance MetricOp_eq_dec : EqDecision MetricOp.
Proof. solve_decision. Defined.
#[global] Instance ObjectBucketClaim_eq_dec : EqDecision ObjectBucketClaim.
Proof. solve_decision. Defined.
#[global] Instance measured_eq_dec : EqDecision measured.
Proof. solve_decision. Defined.
#[global] Instance RemoteOp_eq_dec : EqDecision RemoteOp.
Proof. solve_decision. Defined.
#[global] Instance Req_eq_dec : EqDecision Req.
Proof. solve_decision. Defined.

(** The answer of the remote backend: the payload of a status request is the
    status and the namespace, that of an enrolment whether the device exists. *)
Definition RemoteResp (op : RemoteOp) : Type :=
  match op with
  | RemoteGetRegistrationStatus _ _ => (string * string) + error
  | RemoteGetDeviceConfiguration _ _ => models.DeviceConfigurationMessage + error
  | RemoteGetPlaybookExecutions _ _ => slice (option models.PlaybookExecution) + error
  | RemoteEnrolDevice _ _ _ => bool + error
  | RemoteRegisterDevice _ _ _ | RemoteUpdateHeartBeat _ _ _ => option error
  end.

(** The answer to a call: an error is [Some]; [client.Get], [Patch] and
    [Update] also leave a value in the object they are given a pointer to. *)
Definition Resp (c : Req) : Type :=
  match c with
  | GetEdgeDevice _ _ | PatchEdgeDevice _ _ | PatchEdgeDeviceStatus _ _
  | UpdateEdgeDevice _ | UpdateEdgeDeviceStatus _ => v1alpha1.EdgeDevice * option error
  | GetEdgeWorkload _ _ | PatchEdgeWorkload _ _ => v1alpha1.EdgeWorkload * option error
  | GetEdgeDeviceSet _ _ => v1alpha1.EdgeDeviceSet * option error
  | GetEDSR _ _ | PatchEDSR _ _ | PatchEDSRStatus _ _ =>
      v1alpha1.EdgeDeviceSignedRequest * option error
  | GetEdgeConfig _ _ | PatchEdgeConfig _ _ => v1alpha1.EdgeConfig * option error
  | GetPlaybookExecution _ _ | PatchPlaybookExecution _ _ =>
      v1alpha1.PlaybookExecution * option error
  | GetSecret _ _ => corev1.Secret * option error
  | GetConfigMap _ _ => corev1.ConfigMap * option error
  | GetRouteHost _ _ => string * option error
  | GetOBC _ _ | CreateOBC _ => ObjectBucketClaim * option error
  | ListEdgeDevices _ _ => list v1alpha1.EdgeDevice * option error
  | ListEdgeWorkloads _ _ => list v1alpha1.EdgeWorkload * option error
  | ListEdgeConfigs _ _ => list v1alpha1.EdgeConfig * option error
  | ListPlaybookExecutions _ _ => list v1alpha1.PlaybookExecution * option error
  | CreateEdgeDevice _ | CreateEDSR _ | CreatePlaybookExecution _ | CreateSecret _
  | DeleteEDSR _ | ContextDone => option error
  | Remote op => RemoteResp op
  | GetRestConfig | NewClientset | NewClient => option error
  | ListNamespaces => list string * option error
  | RecordEvent _ _ _ _ | Metric _ | Sleep _ | WritePoint _ _ _ => unit
  | Now => Time
  | NewUUID | RandString _ => string
  | MapOrder | Entropy => nat
  | Schedule => bool
  end.

(** A program of the operator. *)
Abbreviation M := (prog Resp).

(** An exchange with the environment. *)
Abbreviation Event := (event Resp).

(** A pure computation inside a program. *)
Definition lift {A} (o : outcome A) : M A :=
  match o with Done a => mret a | Panicked => Panic end.

Lemma exec_lift_inv {A} (x : outcome A) t o : exec (lift x : M A) t o -> t = [] /\ x = o.
Proof.
  destruct x; simpl; intros He;
    [by apply exec_Ret_inv in He as [-> ->]|by apply exec_Panic_inv in He as [-> ->]].
Qed.

(** [for k, v := range m { body }], in an order the runtime chooses. *)
Definition range_map {V} (m : gomap V) : M (list (string * V)) :=
  seed ← (call MapOrder : M nat);
  mret (range seed m).

Lemma exec_range_map {V} (m : gomap V) t o :
  exec (range_map m) t o ->
  exists seed, t = [Ev MapOrder seed] /\ o = Done (range seed m).
Proof. intros H. unfold range_map in H. repeat exec_step. eauto. Qed.

(** ** Kinds of calls *)

(** The call reads the cluster or the remote backend. *)
Definition is_read (c : Req) : Prop :=
  match c with
  | GetEdgeDevice _ _ | GetEdgeWorkload _ _ | GetEdgeDeviceSet _ _ | GetEDSR _ _
  | GetEdgeConfig _ _ | GetPlaybookExecution _ _ | GetSecret _ _ | GetConfigMap _ _
  | GetRouteHost _ _ | GetOBC _ _ | ListEdgeDevices _ _ | ListEdgeWorkloads _ _
  | ListEdgeConfigs _ _ | ListPlaybookExecutions _ _ => True
  | _ => False
  end.

(** The call changes an object of the cluster. *)
Definition is_write (c : Req) : Prop :=
  match c with
  | CreateEdgeDevice _ | CreateEDSR _ | CreatePlaybookExecution _ | CreateSecret _
  | CreateOBC _ | PatchEdgeDevice _ _ | PatchEdgeDeviceStatus _ _ | PatchEdgeWorkload _ _
  | PatchEDSR _ _ | PatchEDSRStatus _ _ | PatchEdgeConfig _ _ | PatchPlaybookExecution _ _
  | UpdateEdgeDevice _ | UpdateEdgeDeviceStatus _ | DeleteEDSR _
  | Remote (RemoteEnrolDevice _ _ _ | RemoteRegisterDevice _ _ _ | RemoteUpdateHeartBeat _ _ _) =>
      True
  | _ => False
  end.
Definition no_write (c : Req) : Prop := ~ is_write c.
#[export] Instance is_write_dec c : Decision (is_write c).
Proof.
  destruct c; match goal with op : RemoteOp |- _ => destruct op | _ => idtac end; simpl; apply _.
Defined.

(** The writes of a trace, in order. *)
Definition writes (t : list Event) : list Event := filter (fun e => is_write (ev_req e)) t.

Lemma writes_app t1 t2 : writes (t1 ++ t2) = writes t1 ++ writes t2.
Proof. apply filter_app. Qed.
Lemma writes_none t : Forall (fun e => no_write (ev_req e)) t -> writes t = [].
Proof.
  intros HF. unfold writes. induction HF as [|e t He HF IH]; [done|].
  rewrite filter_cons_False by done. exact IH.
Qed.
Lemma writes_cons_other e t : no_write (ev_req e) -> writes (e :: t) = writes t.
Proof. intros He. unfold writes. by rewrite filter_cons_False. Qed.
Lemma writes_cons_write e t : is_write (ev_req e) -> writes (e :: t) = e :: writes t.
Proof. intros He. unfold writes. by rewrite filter_cons_True. Qed.

#[export] Hint Unfold no_write : exec.
