(* ===== verification/GoTime.v ===== *)
(** * Calendar arithmetic

    The part of Go's package time the code uses: [Time.AddDate] and
    [Time.Unix].  An instant is a number of nanoseconds since Go's zero time
    (0001-01-01 00:00:00 UTC); dates are proleptic Gregorian, in UTC. *)
From S2P Require Import Prelude GoData V1alpha1.
#[local] Open Scope Z_scope.

Definition ns_per_day : Z := 86400 * 10 ^ 9.

Definition is_leap (y : Z) : bool :=
  (y mod 4 =? 0) && (negb (y mod 100 =? 0) || (y mod 400 =? 0)).

(** Days from 0001-01-01 to January 1st of year [y]. *)
Definition days_before_year (y : Z) : Z :=
  let p := y - 1 in 365 * p + p / 4 - p / 100 + p / 400.

(** Days of the year before the first of month [m] (1 to 12). *)
Definition days_before_month (m : Z) (leap : bool) : Z :=
  let table := [0; 31; 59; 90; 120; 151; 181; 212; 243; 273; 304; 334] in
  nth (Z.to_nat (m - 1)) table 0 + (if leap && (2 <? m) then 1 else 0).

(** The year a day belongs to: an estimate from the mean length of a year,
    corrected by one. *)
Definition year_of_day (n : Z) : Z :=
  let y := n * 400 / 146097 + 1 in
  if days_before_year (y + 1) <=? n then y + 1
  else if n <? days_before_year y then y - 1 else y.

Definition month_of (yday : Z) (leap : bool) : Z :=
  Z.of_nat (length (List.filter (fun m => days_before_month m leap <=? yday)
                      [1; 2; 3; 4; 5; 6; 7; 8; 9; 10; 11; 12])).

(** [time.Date(year, month, day, ..)] as a number of days; [day] may exceed the
    month. *)
Definition day_number (y m d : Z) : Z :=
  days_before_year y + days_before_month m (is_leap y) + (d - 1).

(** [t.AddDate(years, 0, days)]: the code never adds months. *)
Definition AddDate (t : Time) (years days : Z) : Time :=
  let n := t / ns_per_day in
  let y := year_of_day n in
  let m := month_of (n - days_before_year y) (is_leap y) in
  let d := n - days_before_year y - days_before_month m (is_leap y) + 1 in
  day_number (y + years) m (d + days) * ns_per_day + t mod ns_per_day.

(** [t.Unix()]. *)
Definition Unix (t : Time) : Z := t / 10 ^ 9 - 62135596800.

Lemma AddDate_days t days : AddDate t 0 days = t + days * ns_per_day.
Proof.
  unfold AddDate, day_number. rewrite Z.add_0_r.
  pose proof (Z.div_mod t ns_per_day ltac:(done)) as Ht.
  generalize dependent (t mod ns_per_day). generalize (t / ns_per_day).
  unfold ns_per_day. intros. lia.
Qed.

(** 2024-02-29 is day 738944; a year later is 2025-03-01, ten years later
    2034-03-01. *)
Example leap_day : AddDate (738944 * ns_per_day) 1 0 = day_number 2025 3 1 * ns_per_day.
Proof. reflexivity. Qed.
Example ordinary_day :
  AddDate (day_number 2023 7 15 * ns_per_day + 5) 10 0 = day_number 2033 7 15 * ns_per_day + 5.
Proof. reflexivity. Qed.
Example unix_epoch : Unix (day_number 1970 1 1 * ns_per_day) = 0.
Proof. reflexivity. Qed.
