(* ===== verification/Testbed.v ===== *)
(** * A concrete environment for examples

    An in-memory API server: objects by namespace and name, a list of faults,
    a clock, and fixed choices for the runtime.  The properties quantify over
    every environment; this one serves to evaluate programs on concrete inputs
    and to exhibit executions that satisfy a property's hypotheses. *)
From S2P Require Import Prelude GoData GoStrings V1alpha1 Models Env.
Import v1alpha1.

Definition key : Type := string * string.

Record World := mkWorld {
  w_devices : gmap key EdgeDevice;
  w_workloads : gmap key EdgeWorkload;
  w_sets : gmap key EdgeDeviceSet;
  w_requests : gmap key EdgeDeviceSignedRequest;
  w_configs : gmap key EdgeConfig;
  w_playbooks : gmap key PlaybookExecution;
  w_secrets : gmap key corev1.Secret;
  w_configmaps : gmap key corev1.ConfigMap;
  w_fault : Req -> option error;
  w_now : Time;
}.

Definition empty_world : World := mkWorld ∅ ∅ ∅ ∅ ∅ ∅ ∅ ∅ (fun _ => None) 1000.

Definition set_devices (m : gmap key EdgeDevice) (w : World) : World :=
  mkWorld m (w_workloads w) (w_sets w) (w_requests w) (w_configs w) (w_playbooks w)
    (w_secrets w) (w_configmaps w) (w_fault w) (w_now w).
Definition set_workloads (m : gmap key EdgeWorkload) (w : World) : World :=
  mkWorld (w_devices w) m (w_sets w) (w_requests w) (w_configs w) (w_playbooks w)
    (w_secrets w) (w_configmaps w) (w_fault w) (w_now w).
Definition set_sets (m : gmap key EdgeDeviceSet) (w : World) : World :=
  mkWorld (w_devices w) (w_workloads w) m (w_requests w) (w_configs w) (w_playbooks w)
    (w_secrets w) (w_configmaps w) (w_fault w) (w_now w).
Definition set_requests (m : gmap key EdgeDeviceSignedRequest) (w : World) : World :=
  mkWorld (w_devices w) (w_workloads w) (w_sets w) m (w_configs w) (w_playbooks w)
    (w_secrets w) (w_configmaps w) (w_fault w) (w_now w).
Definition set_configs (m : gmap key EdgeConfig) (w : World) : World :=
  mkWorld (w_devices w) (w_workloads w) (w_sets w) (w_requests w) m (w_playbooks w)
    (w_secrets w) (w_configmaps w) (w_fault w) (w_now w).
Definition set_playbooks (m : gmap key PlaybookExecution) (w : World) : World :=
  mkWorld (w_devices w) (w_workloads w) (w_sets w) (w_requests w) (w_configs w) m
    (w_secrets w) (w_configmaps w) (w_fault w) (w_now w).
Definition set_secrets (m : gmap key corev1.Secret) (w : World) : World :=
  mkWorld (w_devices w) (w_workloads w) (w_sets w) (w_requests w) (w_configs w) (w_playbooks w)
    m (w_configmaps w) (w_fault w) (w_now w).
Definition set_configmaps (m : gmap key corev1.ConfigMap) (w : World) : World :=
  mkWorld (w_devices w) (w_workloads w) (w_sets w) (w_requests w) (w_configs w) (w_playbooks w)
    (w_secrets w) m (w_fault w) (w_now w).
Definition set_fault (f : Req -> option error) (w : World) : World :=
  mkWorld (w_devices w) (w_workloads w) (w_sets w) (w_requests w) (w_configs w) (w_playbooks w)
    (w_secrets w) (w_configmaps w) f (w_now w).

Definition key_of (m : ObjectMeta) : key := (Namespace m, Name m).

Definition not_found : error := StatusError NotFound "not found".

Definition get {V} (f : option error) (m : gmap key V) (k : key) (zero : V) : V * option error :=
  match f, m !! k with
  | Some e, _ => (zero, Some e)
  | None, Some v => (v, None)
  | None, None => (zero, Some not_found)
  end.

Definition matches (sel : ListSelector) (m : ObjectMeta) : bool :=
  match sel with
  | MatchingLabels k v => bool_decide (map_get (Labels m) k = Some v)
  | _ => true
  end.

Definition list_of {V} (f : option error) (m : gmap key V) (meta : V -> ObjectMeta)
    (sel : ListSelector) (ns : string) : list V * option error :=
  match f with
  | Some e => ([], Some e)
  | None =>
      (List.filter (fun v => bool_decide (Namespace (meta v) = ns) && matches sel (meta v))
         (map_to_list m).*2, None)
  end.

(** A write: the object is stored unless the call is faulty; the answer leaves
    the object sent in place. *)
Definition put {V} (f : option error) (store : gmap key V -> World -> World) (m : gmap key V)
    (k : key) (v : V) (w : World) : World * (V * option error) :=
  match f with
  | Some e => (w, (v, Some e))
  | None => (store (<[k := v]> m) w, (v, None))
  end.
Definition drop_value {V} (r : World * (V * option error)) : World * option error :=
  (r.1, r.2.2).

Definition server (c : Req) (w : World) : World * Resp c :=
  let f := w_fault w c in
  match c return World * Resp c with
  | GetEdgeDevice ns n => (w, get f (w_devices w) (ns, n) empty_EdgeDevice)
  | GetEdgeWorkload ns n => (w, get f (w_workloads w) (ns, n) empty_EdgeWorkload)
  | GetEdgeDeviceSet ns n => (w, get f (w_sets w) (ns, n) empty_EdgeDeviceSet)
  | GetEDSR ns n => (w, get f (w_requests w) (ns, n) empty_EdgeDeviceSignedRequest)
  | GetEdgeConfig ns n => (w, get f (w_configs w) (ns, n) empty_EdgeConfig)
  | GetPlaybookExecution ns n => (w, get f (w_playbooks w) (ns, n) empty_PlaybookExecution)
  | GetSecret ns n =>
      (w, get f (w_secrets w) (ns, n) (corev1.mkSecret (named "" "") None))
  | GetConfigMap ns n =>
      (w, get f (w_configmaps w) (ns, n)
            (corev1.mkConfigMap empty_TypeMeta (named "" "") None None None))
  | GetRouteHost ns n => (w, ("", f))
  | GetOBC ns n => (w, (mkOBC n ns "" "", f))
  | ListEdgeDevices sel ns => (w, list_of f (w_devices w) EdgeDevice_ObjectMeta sel ns)
  | ListEdgeWorkloads sel ns => (w, list_of f (w_workloads w) EdgeWorkload_ObjectMeta sel ns)
  | ListEdgeConfigs sel ns => (w, list_of f (w_configs w) EdgeConfig_ObjectMeta sel ns)
  | ListPlaybookExecutions sel ns =>
      (w, list_of f (w_playbooks w) PlaybookExecution_ObjectMeta sel ns)
  | CreateEdgeDevice d =>
      drop_value (put f set_devices (w_devices w) (key_of (EdgeDevice_ObjectMeta d)) d w)
  | CreateEDSR r =>
      drop_value (put f set_requests (w_requests w)
                    (key_of (EdgeDeviceSignedRequest_ObjectMeta r)) r w)
  | CreatePlaybookExecution p =>
      drop_value (put f set_playbooks (w_playbooks w)
                    (key_of (PlaybookExecution_ObjectMeta p)) p w)
  | CreateSecret s =>
      drop_value (put f set_secrets (w_secrets w) (key_of (corev1.Secret_ObjectMeta s)) s w)
  | CreateOBC o => (w, (o, f))
  | PatchEdgeDevice _ d | PatchEdgeDeviceStatus _ d | UpdateEdgeDevice d
  | UpdateEdgeDeviceStatus d =>
      put f set_devices (w_devices w) (key_of (EdgeDevice_ObjectMeta d)) d w
  | PatchEdgeWorkload _ o =>
      put f set_workloads (w_workloads w) (key_of (EdgeWorkload_ObjectMeta o)) o w
  | PatchEDSR _ r | PatchEDSRStatus _ r =>
      put f set_requests (w_requests w) (key_of (EdgeDeviceSignedRequest_ObjectMeta r)) r w
  | PatchEdgeConfig _ o =>
      put f set_configs (w_configs w) (key_of (EdgeConfig_ObjectMeta o)) o w
  | PatchPlaybookExecution _ o =>
      put f set_playbooks (w_playbooks w) (key_of (PlaybookExecution_ObjectMeta o)) o w
  | DeleteEDSR r =>
      match f with
      | Some e => (w, Some e)
      | None => (set_requests (delete (key_of (EdgeDeviceSignedRequest_ObjectMeta r))
                                 (w_requests w)) w, None)
      end
  | RecordEvent _ _ _ _ | Metric _ | Sleep _ => (w, tt)
  | Now => (w, w_now w)
  | Remote op =>
      (w, match op return RemoteResp op with
          | RemoteGetRegistrationStatus _ _ =>
              match f with Some e => inr e | None => inl ("registered", "remote-ns") end
          | RemoteGetDeviceConfiguration d _ =>
              match f with
              | Some e => inr e
              | None => inl (models.mkDeviceConfigurationMessage None d None "" None 0)
              end
          | RemoteGetPlaybookExecutions _ _ =>
              match f with Some e => inr e | None => inl None end
          | RemoteEnrolDevice _ _ _ => match f with Some e => inr e | None => inl false end
          | RemoteRegisterDevice _ _ _ | RemoteUpdateHeartBeat _ _ _ => f
          end)
  | GetRestConfig | NewClientset | NewClient => (w, f)
  | ListNamespaces => (w, (elements (dom (w_devices w) : gset key) ≫= (fun k => [k.1]), f))
  | WritePoint _ _ _ => (w, tt)
  | NewUUID => (w, "00000000-0000-4000-8000-000000000000")
  | RandString n => (w, String.concat "" (replicate n "x"))
  | MapOrder | Entropy => (w, 0)
  | Schedule => (w, true)
  | ContextDone => (w, None)
  end.

Definition run_trace {A} (p : M A) (w : World) : list Event := (run server p w).1.2.
Definition run_result {A} (p : M A) (w : World) : outcome A := (run server p w).2.

(** What the in-memory server does is one of the executions of a program. *)
Lemma run_result_exec {A} (p : M A) w : exec p (run_trace p w) (run_result p w).
Proof.
  unfold run_trace, run_result. destruct (run server p w) as [[w' t] o] eqn:E.
  exact (run_exec server p w w' t o E).
Qed.

Lemma run_result_exec_as {A} (p : M A) w o : run_result p w = o -> exec p (run_trace p w) o.
Proof. intros <-. apply run_result_exec. Qed.

(** The run, with its first exchange told apart. *)
Lemma run_starts_with {A} (p : M A) (world : World) e o :
  hd_error (run_trace p world) = Some e -> run_result p world = o ->
  exec p (e :: tl (run_trace p world)) o.
Proof.
  intros Hh Ho. pose proof (run_result_exec_as p world o Ho) as He.
  destruct (run_trace p world); [done|]. simpl in Hh. by injection Hh as ->.
Qed.

(** Third-party functions that know nothing: every selector is valid and
    selects everything, every document is empty. *)
Definition trivial_libs : Libs := {|
  selector_error _ := None;
  selector_matches _ _ := true;
  yaml_PodSpec _ := ("", None);
  yaml_ConfigMap _ := ("", None);
  yaml_AllowList _ := (models.mkMetricsAllowList None, None);
  ParsePort _ := (80%Z, None);
|}.
