(* ===== verification/ApiServer.v ===== *)
(** * An API server that works

    What the properties about progress are proved against: an API server
    without conflicts or faults that applies patches as JSON merge patches,
    keeps the status of an object apart from the rest, as the resources ask
    for, refuses to create what exists, and drops a workload that is being
    deleted with its last finalizer; and the runs of a program against it.  An
    object nested in a field of a status is replaced as a whole. *)
From S2P Require Import Prelude GoData V1alpha1 Env Testbed.
Import v1alpha1.

(** ** The API server *)

(** A merge patch leaves alone what does not differ between base and object. *)
Definition merge_field {A} `{EqDecision A} (base obj current : A) : A :=
  if decide (base = obj) then current else obj.

Definition merge_map (base obj current : gmap string string) : gmap string string :=
  filter (fun '(k, _) => base !! k <> obj !! k) obj ∪
  filter (fun '(k, _) => base !! k = obj !! k) current.
Definition merge_labels (base obj current : gomap string) : gomap string :=
  if decide (base = obj) then current
  else Some (merge_map (entries base) (entries obj) (entries current)).

Definition merge_meta (base obj current : ObjectMeta) : ObjectMeta :=
  mkObjectMeta (Name current) (Namespace current) (UID current) (ResourceVersion current)
    (DeletionTimestamp current) (merge_labels (Labels base) (Labels obj) (Labels current))
    (Annotations current) (OwnerReferences current)
    (merge_field (Finalizers base) (Finalizers obj) (Finalizers current)).

Definition patched_device (base obj current : EdgeDevice) : EdgeDevice :=
  mkEdgeDevice (EdgeDevice_TypeMeta current)
    (merge_meta (EdgeDevice_ObjectMeta base) (EdgeDevice_ObjectMeta obj) (EdgeDevice_ObjectMeta current))
    (merge_field (EdgeDevice_Spec base) (EdgeDevice_Spec obj) (EdgeDevice_Spec current))
    (EdgeDevice_Status current).

(** A status is merged field by field; a list in it is replaced as a whole. *)
Definition merge_status (base obj current : EdgeDeviceStatus) : EdgeDeviceStatus :=
  let field {A} `{EqDecision A} (get : EdgeDeviceStatus -> A) :=
    merge_field (get base) (get obj) (get current) in
  mkEdgeDeviceStatus (field EdgeDeviceStatus_Phase) (field EdgeDeviceStatus_LastSyncedResourceVersion)
    (field EdgeDeviceStatus_Hardware) (field EdgeDeviceStatus_Workloads)
    (field EdgeDeviceStatus_PlaybookExecutions) (field EdgeDeviceStatus_DataOBC)
    (field EdgeDeviceStatus_UpgradeInformation) (field EdgeDeviceStatus_WirelessDevices).

Definition patched_device_status (base obj current : EdgeDevice) : EdgeDevice :=
  upd_Status (merge_status (EdgeDevice_Status base) (EdgeDevice_Status obj)) current.

Definition merge_request_spec (base obj current : EdgeDeviceSignedRequestSpec) :
  EdgeDeviceSignedRequestSpec :=
  let field {A} `{EqDecision A} (get : EdgeDeviceSignedRequestSpec -> A) :=
    merge_field (get base) (get obj) (get current) in
  mkEdgeDeviceSignedRequestSpec (field EdgeDeviceSignedRequestSpec_TargetNamespace)
    (field EdgeDeviceSignedRequestSpec_TargetSet) (field EdgeDeviceSignedRequestSpec_Approved)
    (field EdgeDeviceSignedRequestSpec_Features).

Definition patched_request (base obj current : EdgeDeviceSignedRequest) : EdgeDeviceSignedRequest :=
  mkEdgeDeviceSignedRequest (EdgeDeviceSignedRequest_TypeMeta current)
    (merge_meta (EdgeDeviceSignedRequest_ObjectMeta base) (EdgeDeviceSignedRequest_ObjectMeta obj)
       (EdgeDeviceSignedRequest_ObjectMeta current))
    (merge_request_spec (EdgeDeviceSignedRequest_Spec base) (EdgeDeviceSignedRequest_Spec obj)
       (EdgeDeviceSignedRequest_Spec current))
    (EdgeDeviceSignedRequest_Status current).
Definition patched_request_status (base obj current : EdgeDeviceSignedRequest) :
  EdgeDeviceSignedRequest :=
  upd_Request_Status (merge_field (EdgeDeviceSignedRequest_Status base)
    (EdgeDeviceSignedRequest_Status obj)) current.

Definition patched_workload (base obj current : EdgeWorkload) : EdgeWorkload :=
  mkEdgeWorkload (EdgeWorkload_TypeMeta current)
    (merge_meta (EdgeWorkload_ObjectMeta base) (EdgeWorkload_ObjectMeta obj)
       (EdgeWorkload_ObjectMeta current))
    (merge_field (EdgeWorkload_Spec base) (EdgeWorkload_Spec obj) (EdgeWorkload_Spec current))
    (EdgeWorkload_Status current).

(** The object named [k] becomes [f] of what it was. *)
Definition modify {V} (m : gmap key V) (k : key) (f : V -> V) (zero : V)
    (store : gmap key V -> World -> World) (w : World) : World * (V * option error) :=
  match m !! k with
  | Some v => (store (<[k := f v]> m) w, (f v, None))
  | None => (w, (zero, Some not_found))
  end.

Definition already_exists : error := StatusError AlreadyExists "already exists".

(** A name is taken once. *)
Definition create {V} (m : gmap key V) (k : key) (v : V)
    (store : gmap key V -> World -> World) (w : World) : World * option error :=
  match m !! k with
  | Some _ => (w, Some already_exists)
  | None => (store (<[k := v]> m) w, None)
  end.

Definition device_key (d : EdgeDevice) : key := key_of (EdgeDevice_ObjectMeta d).
Definition request_key (r : EdgeDeviceSignedRequest) : key := key_of (EdgeDeviceSignedRequest_ObjectMeta r).

Definition workload_key (e : EdgeWorkload) : key := key_of (EdgeWorkload_ObjectMeta e).

(** A workload that is being deleted is kept until it has no finalizer left. *)
Definition keep_workload (k : key) (v : EdgeWorkload) (m : gmap key EdgeWorkload) :
  gmap key EdgeWorkload :=
  match DeletionTimestamp (EdgeWorkload_ObjectMeta v), elems (Finalizers (EdgeWorkload_ObjectMeta v)) with
  | Some _, [] => delete k m
  | _, _ => <[k := v]> m
  end.
Definition modify_workload (k : key) (f : EdgeWorkload -> EdgeWorkload) (zero : EdgeWorkload)
    (w : World) : World * (EdgeWorkload * option error) :=
  match w_workloads w !! k with
  | Some v => (set_workloads (keep_workload k (f v) (w_workloads w)) w, (f v, None))
  | None => (w, (zero, Some not_found))
  end.

Definition api (c : Req) (w : World) : World * Resp c :=
  match c return World * Resp c with
  | CreateEdgeDevice d => create (w_devices w) (device_key d) d set_devices w
  | CreateEDSR r => create (w_requests w) (request_key r) r set_requests w
  | PatchEdgeDevice base obj =>
      modify (w_devices w) (device_key obj) (patched_device base obj) obj set_devices w
  | PatchEdgeDeviceStatus base obj =>
      modify (w_devices w) (device_key obj) (patched_device_status base obj) obj set_devices w
  | PatchEDSR base obj =>
      modify (w_requests w) (request_key obj) (patched_request base obj) obj set_requests w
  | PatchEDSRStatus base obj =>
      modify (w_requests w) (request_key obj) (patched_request_status base obj) obj set_requests w
  | PatchEdgeWorkload base obj =>
      modify_workload (workload_key obj) (patched_workload base obj) obj w
  | c => server c w
  end.

(** ** Lemmas: patches of the object as it is *)

Lemma merge_field_same {A} `{EqDecision A} (base obj : A) : merge_field base obj base = obj.
Proof. unfold merge_field. by destruct (decide _). Qed.

Lemma merge_status_same base obj : merge_status base obj base = obj.
Proof. unfold merge_status. rewrite !merge_field_same. by destruct obj. Qed.
Lemma merge_request_spec_same base obj : merge_request_spec base obj base = obj.
Proof. unfold merge_request_spec. rewrite !merge_field_same. by destruct obj. Qed.

Lemma merge_map_same base obj : merge_map base obj base = obj.
Proof.
  apply map_eq. intros k. apply option_eq. intros x. unfold merge_map.
  rewrite lookup_union_Some_raw, !map_lookup_filter_Some, map_lookup_filter_None.
  destruct (decide (base !! k = obj !! k)) as [E|E]; [rewrite E|]; naive_solver.
Qed.

Lemma entries_merge_labels base obj : entries (merge_labels base obj base) = entries obj.
Proof.
  unfold merge_labels. destruct (decide _) as [->|]; [done|]. cbn [entries default from_option id].
  apply merge_map_same.
Qed.

Lemma modify_found {V} (m : gmap key V) k f zero store w v :
  m !! k = Some v -> modify m k f zero store w = (store (<[k := f v]> m) w, (f v, None)).
Proof. unfold modify. by intros ->. Qed.
Lemma create_free {V} (m : gmap key V) k v store w :
  m !! k = None -> create m k v store w = (store (<[k := v]> m) w, None).
Proof. unfold create. by intros ->. Qed.

(** ** Runs *)

Section Runs.
(** [p] takes the cluster [w] to [w'] and ends with [o]. *)
Definition runs {A} (p : M A) (w w' : World) (o : outcome A) : Prop :=
  (run api p w).1.1 = w' /\ (run api p w).2 = o.

Lemma runs_ret {A} (a : A) w : runs (mret a) w w (Done a).
Proof. done. Qed.

Lemma runs_call {B} c (f : Resp c -> M B) w w1 r w' o :
  api c w = (w1, r) -> runs (f r) w1 w' o -> runs (call c ≫= f) w w' o.
Proof.
  unfold runs, mbind, prog_mbind, call. cbn. intros ->. by destruct (run api (f r) w1) as [[? ?] ?].
Qed.

Lemma runs_bind {A B} (p : M A) (f : A -> M B) w w1 a w' o :
  runs p w w1 (Done a) -> runs (f a) w1 w' o -> runs (p ≫= f) w w' o.
Proof.
  unfold runs. rewrite run_bind. destruct (run api p w) as [[? ?] ?]. cbn. intros [-> ->].
  by destruct (run api (f a) w1) as [[? ?] ?].
Qed.

Lemma runs_fun {A} (p : M A) w w1 w2 o1 o2 :
  runs p w w1 o1 -> runs p w w2 o2 -> w1 = w2 /\ o1 = o2.
Proof. intros [<- <-] [<- <-]. done. Qed.
End Runs.

(** ** Reads *)

Definition healthy (w : World) : Prop := forall c, w_fault w c = None.

Lemma api_GetEdgeDevice ns n w :
  healthy w ->
  api (GetEdgeDevice ns n) w =
    (w, match w_devices w !! (ns, n) with
        | Some d => (d, None) | None => (empty_EdgeDevice, Some not_found) end).
Proof. intros Hw. cbn. unfold get. rewrite Hw. by destruct (_ !! _). Qed.

Lemma api_GetEDSR ns n w :
  healthy w ->
  api (GetEDSR ns n) w =
    (w, match w_requests w !! (ns, n) with
        | Some r => (r, None) | None => (empty_EdgeDeviceSignedRequest, Some not_found) end).
Proof. intros Hw. cbn. unfold get. rewrite Hw. by destruct (_ !! _). Qed.

Lemma api_GetEdgeWorkload ns n w :
  healthy w ->
  api (GetEdgeWorkload ns n) w =
    (w, match w_workloads w !! (ns, n) with
        | Some e => (e, None) | None => (empty_EdgeWorkload, Some not_found) end).
Proof. intros Hw. cbn. unfold get. rewrite Hw. by destruct (_ !! _). Qed.

(** A read of the cluster as the next call. *)
Ltac runs_read lem H :=
  eapply runs_call; [rewrite lem by assumption; rewrite H; reflexivity|]; cbn beta iota.

(** ** Programs in a row *)

Lemma runs_fmap {A B} (f : A -> B) (p : M A) w w' a :
  runs p w w' (Done a) -> runs (f <$> p) w w' (Done (f a)).
Proof. intros Hp. eapply runs_bind; [exact Hp|apply runs_ret]. Qed.

(** A last call. *)
Lemma runs_answer c w w' r : api c w = (w', r) -> runs (call c) w w' (Done r).
Proof. unfold runs, call. cbn. by intros ->. Qed.

(** A single goroutine. *)
Lemma runs_par_one {A} sched pick (p : M A) w w' a :
  runs p w w' (Done a) -> runs (par_list sched pick [p]) w w' (Done [a]).
Proof.
  intros Hp. cbn [par_list]. eapply (runs_fmap (fun '(a, l) => a :: l) _ w w' (a, [])).
  change (runs (par2 sched pick p (Ret (@nil A))) w w' (Done (a, []))). rewrite par2_Ret_r.
  eapply runs_bind; [exact Hp|apply runs_ret].
Qed.

(** ** Programs that only look *)

(** A program of calls that leave the cluster alone is answered with what the
    cluster holds. *)
Lemma run_looks {A} (P : Req -> Prop) (p : M A) w w' t o :
  (forall c, P c -> (api c w).1 = w) -> calls P p -> run api p w = (w', t, o) ->
  w' = w /\ exec p t o /\ Forall (fun e => ev_resp e = (api (ev_req e) w).2) t.
Proof.
  intros HP. revert t. induction p as [a| |c k IH]; intros t Hc Hr; cbn in Hr.
  - injection Hr as <- <- <-. split; [done|]. split; [constructor|done].
  - injection Hr as <- <- <-. split; [done|]. split; [constructor|done].
  - destruct Hc as [Hc Hk]. pose proof (HP c Hc) as Hw. destruct (api c w) as [w1 r] eqn:E.
    cbn in Hw. subst w1. destruct (run api (k r) w) as [[w2 t2] o2] eqn:E2. injection Hr as -> <- ->.
    destruct (IH r t2 (Hk r) E2) as (-> & He & HF). split; [done|]. split; [by constructor|].
    constructor; [|done]. cbn. by rewrite E.
Qed.
