(* ===== verification/Labels.v ===== *)
(** * Labels and index keys

    internal/common/labels/labels.go and internal/common/indexer/indexer.go. *)
From S2P Require Import Prelude GoData GoStrings V1alpha1 Models Env.

(** ** labels.go *)

Definition DeviceNameLabel : string := "devicename".
Definition DoesNotExistLabel : string := "doesnotexist".
Definition WorkloadLabelPrefix : string := "workload/".
Definition SelectorLabelPrefix : string := "selector/".
Definition ConfigLabelPrefix : string := "config/".

Definition WorkloadLabel (workloadName : string) : string :=
  WorkloadLabelPrefix +:+ workloadName.
Definition IsWorkloadLabel (label : string) : bool := HasPrefix label WorkloadLabelPrefix.
Definition IsSelectorLabel (label : string) : bool := HasPrefix label SelectorLabelPrefix.
Definition CreateSelectorLabel (label : string) : string := SelectorLabelPrefix +:+ label.
Definition IsEdgeConfigLabel (label : string) : bool := HasPrefix label ConfigLabelPrefix.

(** ** indexer.go *)

Definition WorkloadByDeviceIndexKey : string := "workload-by-device".
Definition DeviceByWorkloadIndexKey : string := "device-by-workload".
Definition DeviceByConfigIndexKey : string := "device-by-config".

Definition CreateDeviceIndexKey (label : string) : string :=
  TrimPrefix label WorkloadLabelPrefix.
Definition CreateDeviceConfigIndexKey (label : string) : string :=
  TrimPrefix label ConfigLabelPrefix.
Definition CreateWorkloadIndexKey (label value : string) : string :=
  let suffix := TrimPrefix label SelectorLabelPrefix in
  if decide (suffix = DeviceNameLabel) then value else suffix.

(** The index functions visit the labels in the order of [seed].  The indexed
    object is of the expected kind here: the cache calls each function on the
    kind it was registered for. *)
Definition WorkloadByDeviceIndexFunc (seed : nat) (workload : v1alpha1.EdgeWorkload) : list string :=
  let meta := v1alpha1.EdgeWorkload_ObjectMeta workload in
  match DeletionTimestamp meta with
  | Some _ => []
  | None =>
      (fun '(name, value) => CreateWorkloadIndexKey name value) <$>
        filter (fun '(name, _) => IsSelectorLabel name = true) (range seed (Labels meta))
  end.

Definition DeviceByWorkloadIndexFunc (seed : nat) (device : v1alpha1.EdgeDevice) : list string :=
  (fun '(name, _) => CreateDeviceIndexKey name) <$>
    filter (fun '(name, _) => IsWorkloadLabel name = true)
      (range seed (Labels (v1alpha1.EdgeDevice_ObjectMeta device))).

Definition DeviceByConfigIndexFunc (seed : nat) (device : v1alpha1.EdgeDevice) : list string :=
  (fun '(name, _) => CreateDeviceConfigIndexKey name) <$>
    filter (fun '(name, _) => IsEdgeConfigLabel name = true)
      (range seed (Labels (v1alpha1.EdgeDevice_ObjectMeta device))).

(** ** Lemmas *)

Lemma WorkloadLabel_inj a b : WorkloadLabel a = WorkloadLabel b -> a = b.
Proof. apply string_app_inj_l. Qed.
#[export] Instance WorkloadLabel_Inj : Inj (=) (=) WorkloadLabel.
Proof. intros a b. apply WorkloadLabel_inj. Qed.
#[export] Instance CreateSelectorLabel_Inj : Inj (=) (=) CreateSelectorLabel.
Proof. intros a b. apply string_app_inj_l. Qed.

Lemma IsWorkloadLabel_WorkloadLabel n : IsWorkloadLabel (WorkloadLabel n) = true.
Proof. apply HasPrefix_app. Qed.
Lemma IsSelectorLabel_CreateSelectorLabel n : IsSelectorLabel (CreateSelectorLabel n) = true.
Proof. apply HasPrefix_app. Qed.

Lemma IsWorkloadLabel_spec l :
  IsWorkloadLabel l = true <-> exists n, l = WorkloadLabel n.
Proof. apply HasPrefix_spec. Qed.
Lemma IsSelectorLabel_spec l :
  IsSelectorLabel l = true <-> exists n, l = CreateSelectorLabel n.
Proof. apply HasPrefix_spec. Qed.

Lemma CreateDeviceIndexKey_WorkloadLabel n : CreateDeviceIndexKey (WorkloadLabel n) = n.
Proof. apply TrimPrefix_app. Qed.

Lemma CreateWorkloadIndexKey_device v :
  CreateWorkloadIndexKey (CreateSelectorLabel DeviceNameLabel) v = v.
Proof. done. Qed.

Lemma CreateWorkloadIndexKey_label l v :
  l <> DeviceNameLabel -> CreateWorkloadIndexKey (CreateSelectorLabel l) v = l.
Proof.
  intros Hl. unfold CreateWorkloadIndexKey, CreateSelectorLabel.
  rewrite TrimPrefix_app. by rewrite decide_False.
Qed.

#[export] Hint Rewrite IsWorkloadLabel_WorkloadLabel IsSelectorLabel_CreateSelectorLabel
  CreateDeviceIndexKey_WorkloadLabel : go_strings.

(** The key a workload is indexed under is the key of one of its selector
    labels. *)
Lemma elem_of_WorkloadByDeviceIndexFunc seed w k :
  k ∈ WorkloadByDeviceIndexFunc seed w <->
  DeletionTimestamp (v1alpha1.EdgeWorkload_ObjectMeta w) = None /\
  exists n v, map_get (Labels (v1alpha1.EdgeWorkload_ObjectMeta w)) (CreateSelectorLabel n) = Some v
    /\ k = CreateWorkloadIndexKey (CreateSelectorLabel n) v.
Proof.
  unfold WorkloadByDeviceIndexFunc.
  destruct (DeletionTimestamp _) as [ts|].
  { split; [intros H; by apply not_elem_of_nil in H|intros [? _]; done]. }
  rewrite list_elem_of_fmap. split.
  - intros ([n v] & -> & Hin). apply list_elem_of_filter in Hin as [Hsel Hin].
    apply IsSelectorLabel_spec in Hsel as [m ->]. apply elem_of_range in Hin. eauto.
  - intros (_ & n & v & Hget & ->). exists (CreateSelectorLabel n, v). split; [done|].
    apply list_elem_of_filter. split; [apply IsSelectorLabel_CreateSelectorLabel|].
    by apply elem_of_range.
Qed.

(** A device is indexed under a workload's name exactly when it carries the
    label of that workload. *)
Lemma elem_of_DeviceByWorkloadIndexFunc seed d n :
  n ∈ DeviceByWorkloadIndexFunc seed d <->
  is_Some (map_get (Labels (v1alpha1.EdgeDevice_ObjectMeta d)) (WorkloadLabel n)).
Proof.
  unfold DeviceByWorkloadIndexFunc. rewrite list_elem_of_fmap. split.
  - intros ([l v] & -> & Hin). apply list_elem_of_filter in Hin as [Hw Hin].
    apply IsWorkloadLabel_spec in Hw as [m ->]. apply elem_of_range in Hin.
    rewrite CreateDeviceIndexKey_WorkloadLabel. eauto.
  - intros [v Hget]. exists (WorkloadLabel n, v).
    split; [by rewrite CreateDeviceIndexKey_WorkloadLabel|].
    apply list_elem_of_filter. split; [apply IsWorkloadLabel_WorkloadLabel|].
    by apply elem_of_range.
Qed.
