(* ===== verification/Utils.v ===== *)
(** * Shared helpers: finalizers, label values, references of containers

    internal/common/utils/utils.go.  [NormalizeLabel] turns free text from a
    device's hardware report into a label value; the [ExtractInfo] functions
    collect which config maps a workload needs and with which keys. *)
From S2P Require Import Prelude GoData GoStrings V1alpha1 Models Env Labels.

(** ** HasFinalizer *)

Fixpoint HasFinalizer_loop (finalizers : list string) (name : string) : bool :=
  match finalizers with
  | [] => false
  | f :: l => if decide (f = name) then true else HasFinalizer_loop l name
  end.
Definition HasFinalizer (cr : ObjectMeta) (name : string) : bool :=
  HasFinalizer_loop (elems (Finalizers cr)) name.

Lemma HasFinalizer_spec cr name :
  HasFinalizer cr name = true <-> name ∈ elems (Finalizers cr).
Proof.
  unfold HasFinalizer. induction (elems (Finalizers cr)) as [|f l IH]; simpl.
  - split; [done|]. intros H. by apply not_elem_of_nil in H.
  - rewrite elem_of_cons. case_decide as E.
    + split; [by left|done].
    + rewrite IH. split; [by right|]. intros [->|?]; done.
Qed.

(** ** NormalizeLabel *)

(** A character the regular expression [[^a-z0-9-_.]+] keeps. *)
Definition label_char (r : N) : bool :=
  in_range 97 122 r || in_range 48 57 r || (r =? 45)%N || (r =? 95)%N || (r =? 46)%N.

(** A character an ASCII label value may begin and end with. *)
Definition alnum (r : N) : bool := in_range 97 122 r || in_range 48 57 r.

Section NormalizeLabel.
Context `{Unicode}.

Definition legal (c : N) : bool := IsLower c || IsDigit c.

(** [strings.IndexFunc] and [strings.LastIndexFunc] with that test. *)
Definition IndexFunc (l : list N) : option nat :=
  (fun x => x.2.1) <$> list_find (fun x => legal x.2 = true) (spans l).
Definition LastIndexFunc (l : list N) : option nat :=
  (fun x => x.2.1) <$> list_find (fun x => legal x.2 = true) (reverse (spans l)).

Definition NormalizeLabel (name : string) : string * option error :=
  let name := bytes (ToLower name) in
  match IndexFunc name, LastIndexFunc name with
  | Some firstLegal, Some lastLegal =>
      let name := take (lastLegal + 1 - firstLegal) (drop firstLegal name) in
      (of_bytes (filter (fun r => label_char r = true) (decode_runes name)), None)
  | _, _ =>
      ("", Some (ErrorString "The name doesn't contain a legal alphanumeric character"))
  end.
End NormalizeLabel.

(** ** References from containers *)

(** A set of mandatory keys; [None] (a nil map) marks an optional reference. *)
Abbreviation StringSet := (option (gset string)).
(** [map[string]StringSet]: always allocated by its callers. *)
Abbreviation MapType := (gmap string StringSet).

(** A [GetRef] or [GetRefEnv] callback: it may panic. *)
Definition GetRef (A : Type) : Type := A -> outcome (bool * option bool * string).
Definition GetRefEnv : Type :=
  corev1.EnvVar -> outcome (bool * option bool * string * string).

(** [if keys, ok := m[name]; ok { .. } else { .. }] for a reference to a whole
    object: common to EnvFrom and Volume. *)
Definition ref_object (name : string) (optional : bool) (themap : MapType) : MapType :=
  match themap !! name with
  | Some keys =>
      if negb optional && bool_decide (keys = None) then <[name := Some ∅]> themap
      else themap
  | None =>
      if optional then <[name := None]> themap else <[name := Some ∅]> themap
  end.

Fixpoint ExtractInfoFromEnvFrom (envs : list corev1.EnvFromSource) (themap : MapType)
    (ref : GetRef corev1.EnvFromSource) : outcome MapType :=
  match envs with
  | [] => Done themap
  | env :: envs' =>
      match ref env with
      | Panicked => Panicked
      | Done (present, opt, name) =>
          if negb present then ExtractInfoFromEnvFrom envs' themap ref
          else
            let optional := default false opt in
            ExtractInfoFromEnvFrom envs' (ref_object name optional themap) ref
      end
  end.

Fixpoint ExtractInfoFromVolume (volumes : list corev1.Volume) (themap : MapType)
    (ref : GetRef corev1.Volume) : outcome MapType :=
  match volumes with
  | [] => Done themap
  | volume :: volumes' =>
      match ref volume with
      | Panicked => Panicked
      | Done (present, opt, name) =>
          if negb present then ExtractInfoFromVolume volumes' themap ref
          else
            let optional := default false opt in
            ExtractInfoFromVolume volumes' (ref_object name optional themap) ref
      end
  end.

(** The same for a reference to one key of an object. *)
Definition ref_key (name key : string) (optional : bool) (themap : MapType) : MapType :=
  match themap !! name with
  | Some keys =>
      if optional then themap
      else match keys with
           | None => <[name := Some {[key]}]> themap
           | Some ks => <[name := Some ({[key]} ∪ ks)]> themap
           end
  | None =>
      if optional then <[name := None]> themap else <[name := Some {[key]}]> themap
  end.

(** The callback runs before the test of [envVar.ValueFrom]. *)
Fixpoint ExtractInfoFromEnv (env : list corev1.EnvVar) (configmapMap : MapType)
    (ref : GetRefEnv) : outcome MapType :=
  match env with
  | [] => Done configmapMap
  | envVar :: env' =>
      match ref envVar with
      | Panicked => Panicked
      | Done (present, opt, name, key) =>
          if bool_decide (corev1.EnvVar_ValueFrom envVar = None) || negb present
          then ExtractInfoFromEnv env' configmapMap ref
          else
            let optional := default false opt in
            ExtractInfoFromEnv env' (ref_key name key optional configmapMap) ref
      end
  end.

(** The keys of a possibly nil set. *)
Definition mandatory (keys : StringSet) : gset string := default ∅ keys.

(** [for key := range keys], in an order the runtime chooses. *)
Definition range_set (keys : StringSet) : M (list string) :=
  seed ← (call MapOrder : M nat);
  mret (shuffle seed (elements (mandatory keys))).

(** The first of the keys an object's data lacks. *)
Definition first_missing_key (keys : list string) (data : gomap string) : option string :=
  List.find (fun key => bool_decide (map_get data key = None)) keys.

(** An object has what is asked of it. *)
Definition has_keys (keys : StringSet) (data : gomap string) : Prop :=
  forall key, key ∈ mandatory keys -> is_Some (map_get data key).

Lemma first_missing_key_None (keys : StringSet) seed data :
  first_missing_key (shuffle seed (elements (mandatory keys))) data = None <-> has_keys keys data.
Proof.
  unfold first_missing_key, has_keys. split.
  - intros Hf key Hk. rewrite <-elem_of_elements, <-(elem_of_shuffle seed) in Hk.
    apply list_elem_of_In in Hk. pose proof (List.find_none _ _ Hf _ Hk) as Hn.
    apply bool_decide_eq_false in Hn. by apply not_eq_None_Some.
  - intros Hk. destruct (List.find _ _) as [key|] eqn:Ef; [|done].
    apply List.find_some in Ef as [Hin Hn]. apply bool_decide_eq_true in Hn.
    apply list_elem_of_In in Hin. rewrite elem_of_shuffle, elem_of_elements in Hin.
    destruct (Hk _ Hin) as [? ?]. congruence.
Qed.

Lemma first_missing_key_Some (keys : StringSet) seed data key :
  first_missing_key (shuffle seed (elements (mandatory keys))) data = Some key ->
  key ∈ mandatory keys /\ map_get data key = None.
Proof.
  intros [Hin Hn]%List.find_some. apply bool_decide_eq_true in Hn.
  apply list_elem_of_In in Hin. by rewrite elem_of_shuffle, elem_of_elements in Hin.
Qed.

(** ** FilterByPodmanPrefix *)

(** The loop body writes to the fresh map [ret]; [seed] orders the visit. *)
Definition FilterByPodmanPrefix (seed : nat) (keyValues : gomap string) : gmap string string :=
  foldl (fun ret '(key, value) =>
           if HasPrefix key "podman/" then <[drop_chars 7 key := value]> ret else ret)
    ∅ (range seed keyValues).

(** ** The references of a workload, abstractly

    Each reference to an object asks for [None] (optional), or for a set of
    keys ([Some ∅] when the object as a whole is mandatory).  What a list of
    references asks of one object is the join of what each asks. *)

Definition join_req (a b : StringSet) : StringSet :=
  match a, b with
  | None, _ => b
  | _, None => a
  | Some x, Some y => Some (x ∪ y)
  end.

#[export] Instance join_req_comm : Comm (=) join_req.
Proof. intros [x|] [y|]; simpl; try done. f_equal. apply (comm_L (∪)). Qed.
#[export] Instance join_req_assoc : Assoc (=) join_req.
Proof. intros [x|] [y|] [z|]; simpl; try done. f_equal. apply (assoc_L (∪)). Qed.

(** A reference: the object's name and what it asks. *)
Definition reference : Type := string * StringSet.

Definition add_ref (m : MapType) (r : reference) : MapType :=
  <[r.1 := match m !! r.1 with Some q => join_req q r.2 | None => r.2 end]> m.

(** What the references [l] ask of the object [name]; [None] without any. *)
Fixpoint asked (name : string) (l : list reference) : option StringSet :=
  match l with
  | [] => None
  | (n, q) :: l' =>
      if decide (n = name)
      then Some (match asked name l' with Some q' => join_req q q' | None => q end)
      else asked name l'
  end.

Lemma ref_object_add_ref name optional m :
  ref_object name optional m = add_ref m (name, if optional then None else Some ∅).
Proof.
  unfold ref_object, add_ref. simpl.
  destruct (m !! name) as [[ks|]|] eqn:E, optional; simpl; try done.
  - by rewrite insert_id.
  - rewrite insert_id; [done|]. rewrite E. by rewrite (right_id_L ∅ (∪)).
  - by rewrite insert_id.
Qed.

Lemma ref_key_add_ref name key optional m :
  ref_key name key optional m = add_ref m (name, if optional then None else Some {[key]}).
Proof.
  unfold ref_key, add_ref. simpl.
  destruct (m !! name) as [[ks|]|] eqn:E, optional; simpl; try done.
  - by rewrite insert_id.
  - do 2 f_equal. apply (comm_L (∪)).
  - by rewrite insert_id.
Qed.

Definition join_opt (a b : option StringSet) : option StringSet :=
  match a, b with
  | None, _ => b
  | _, None => a
  | Some x, Some y => Some (join_req x y)
  end.

Lemma asked_cons name n q l :
  asked name ((n, q) :: l) =
    join_opt (if decide (n = name) then Some q else None) (asked name l).
Proof. simpl. case_decide; [|done]. by destruct (asked name l). Qed.

Lemma join_opt_assoc a b c : join_opt a (join_opt b c) = join_opt (join_opt a b) c.
Proof. destruct a, b, c; simpl; try done. f_equal. apply (assoc join_req). Qed.
Lemma join_opt_comm a b : join_opt a b = join_opt b a.
Proof. destruct a, b; simpl; try done. f_equal. apply (comm join_req). Qed.

Lemma asked_app name l1 l2 : asked name (l1 ++ l2) = join_opt (asked name l1) (asked name l2).
Proof.
  induction l1 as [|[n q] l1 IH]; simpl app; [done|].
  by rewrite !asked_cons, IH, join_opt_assoc.
Qed.

#[export] Instance asked_proper name : Proper ((≡ₚ) ==> (=)) (asked name).
Proof.
  intros l1 l2 H.
  induction H as [|[n q] l1 l2 _ IH|[n1 q1] [n2 q2] l|l1 l2 l3 _ IH1 _ IH2].
  - done.
  - by rewrite !asked_cons, IH.
  - rewrite !asked_cons, !join_opt_assoc. f_equal. apply join_opt_comm.
  - congruence.
Qed.

Lemma add_refs_lookup m l name :
  foldl add_ref m l !! name = join_opt (m !! name) (asked name l).
Proof.
  revert m. induction l as [|[n q] l IH]; intros m.
  - simpl. by destruct (m !! name).
  - cbn [foldl]. rewrite IH, asked_cons, join_opt_assoc. f_equal.
    unfold add_ref. simpl. destruct (decide (n = name)) as [->|Hne].
    + rewrite lookup_insert_eq. by destruct (m !! name).
    + rewrite lookup_insert_ne by done. by destruct (m !! name).
Qed.

(** The map collected from a list of references is what they ask, whatever
    the order in which they are met. *)
Lemma add_refs_Permutation l1 l2 m :
  l1 ≡ₚ l2 -> foldl add_ref m l1 = foldl add_ref m l2.
Proof.
  intros HP. apply map_eq. intros name. by rewrite !add_refs_lookup, HP.
Qed.

(** ** FilterByPodmanPrefix: what it keeps *)

Lemma FilterByPodmanPrefix_foldl l acc k v :
  NoDup l.*1 ->
  (forall x, acc !! k = Some x -> ("podman/" +:+ k) ∉ l.*1) ->
  foldl (fun (ret : gmap string string) '(key, value) =>
           if HasPrefix key "podman/" then <[drop_chars 7 key := value]> ret else ret) acc l !! k
    = Some v <->
  ("podman/" +:+ k, v) ∈ l \/ acc !! k = Some v.
Proof.
  revert acc. induction l as [|[key value] l IH]; intros acc Hnd Hacc; cbn [foldl].
  - split; [by right|]. intros [H|H]; [by apply not_elem_of_nil in H|done].
  - cbn in Hnd. apply NoDup_cons in Hnd as [Hni Hnd]. rewrite elem_of_cons.
    destruct (HasPrefix key "podman/") eqn:Hp.
    + apply HasPrefix_spec in Hp as [k' ->].
      change 7 with (String.length "podman/"). rewrite drop_chars_app.
      destruct (decide (k' = k)) as [->|Hne].
      * rewrite IH; [|done|by intros]. rewrite lookup_insert_eq.
        split.
        -- intros [H|[= ->]]; auto.
        -- intros [[[= ->]|H]|H]; auto. exfalso. by eapply Hacc; [exact H|left].
      * rewrite IH; [|done|].
        -- rewrite lookup_insert_ne by done. split; [intros [?|?]; auto|].
           intros [[[= E ->]|?]|?]; auto. by apply string_app_inj_l in E.
        -- intros x Hx Hin. rewrite lookup_insert_ne in Hx by done.
           eapply Hacc; [exact Hx|]. by right.
    + rewrite IH; [|done|].
      * split; [intros [?|?]; auto|]. intros [[[= E ->]|?]|?]; auto.
        subst key. by rewrite HasPrefix_app in Hp.
      * intros x Hx Hin. eapply Hacc; [exact Hx|]. by right.
Qed.

(** The filtered map has, under the rest of the key, exactly the entries whose
    key carries the prefix, in whatever order the map is visited. *)
Lemma FilterByPodmanPrefix_lookup seed m k v :
  FilterByPodmanPrefix seed m !! k = Some v <-> map_get m ("podman/" +:+ k) = Some v.
Proof.
  unfold FilterByPodmanPrefix.
  rewrite FilterByPodmanPrefix_foldl by (apply NoDup_fst_range || by intros x; rewrite lookup_empty).
  rewrite elem_of_range, lookup_empty. split; [by intros [?|?]|by left].
Qed.

(** ** NormalizeLabel: its result *)

Lemma label_char_ascii r : label_char r = true -> (r < 128)%N.
Proof.
  unfold label_char, in_range. rewrite !orb_true_iff, !andb_true_iff.
  rewrite !N.leb_le, !N.eqb_eq. lia.
Qed.

Lemma alnum_label_char r : alnum r = true -> label_char r = true.
Proof. unfold alnum, label_char. rewrite !orb_true_iff. tauto. Qed.

Lemma legal_ascii `{Unicode} r : (r < 128)%N -> legal r = alnum r.
Proof.
  intros Hr. unfold legal, alnum, IsLower, IsDigit.
  by rewrite (proj2 (N.ltb_lt r 128) Hr).
Qed.

Lemma rune_to_lower_label_char `{Unicode} r : label_char r = true -> rune_to_lower r = r.
Proof.
  intros Hr. unfold rune_to_lower.
  rewrite (proj2 (N.ltb_lt r 128) (label_char_ascii r Hr)).
  unfold label_char, in_range in *.
  rewrite !orb_true_iff, !andb_true_iff, !N.leb_le, !N.eqb_eq in Hr.
  destruct (N.leb_spec 65 r), (N.leb_spec r 90); simpl; lia.
Qed.

(** A string of label characters: the form of every normalized label. *)
Definition label_bytes (l : list N) : Prop := Forall (fun r => label_char r = true) l.

Lemma label_bytes_ascii l : label_bytes l -> Forall (fun b => (b < 128)%N) l.
Proof. intros H. eapply Forall_impl; [exact H|]. apply label_char_ascii. Qed.

Lemma label_bytes_is_byte l : label_bytes l -> Forall is_byte l.
Proof.
  intros H. eapply Forall_impl; [exact H|]. intros r Hr%label_char_ascii.
  unfold is_byte. lia.
Qed.

Lemma label_bytes_filter l : label_bytes (filter (fun r => label_char r = true) l).
Proof. apply Forall_forall. intros r [Hr _]%list_elem_of_filter. done. Qed.

Lemma bytes_NormalizeLabel `{Unicode} name s :
  NormalizeLabel name = (s, None) ->
  exists first last,
    IndexFunc (bytes (ToLower name)) = Some first /\
    LastIndexFunc (bytes (ToLower name)) = Some last /\
    bytes s = filter (fun r => label_char r = true)
      (decode_runes (take (last + 1 - first) (drop first (bytes (ToLower name))))).
Proof.
  unfold NormalizeLabel.
  destruct (IndexFunc _) as [first|]; [|done].
  destruct (LastIndexFunc _) as [last|]; [|done].
  intros [= <-]. exists first, last. split_and!; [done..|].
  apply bytes_of_bytes, label_bytes_is_byte, label_bytes_filter.
Qed.

(** The first and last legal positions of an ASCII byte list. *)
Lemma IndexFunc_ascii `{Unicode} l i :
  Forall (fun b => (b < 128)%N) l -> IndexFunc l = Some i ->
  (exists x, l !! i = Some x /\ alnum x = true) /\
  (forall j y, l !! j = Some y -> j < i -> alnum y = false).
Proof.
  intros Hl. unfold IndexFunc. rewrite spans_ascii by done.
  destruct (list_find _ _) as [[k [off r]]|] eqn:E; [|done]. simpl. intros [= ->].
  apply list_find_Some in E as (Hk & Hr & Hmin).
  rewrite list_lookup_imap in Hk. destruct (l !! k) as [x|] eqn:Ex; [|done].
  simplify_eq/=. rewrite Forall_lookup in Hl. split.
  - exists r. split; [done|]. rewrite <-legal_ascii; [done|]. eauto.
  - intros j y Hj Hlt. specialize (Hmin j (j, y)). rewrite list_lookup_imap, Hj in Hmin.
    specialize (Hmin eq_refl Hlt). simpl in Hmin. rewrite legal_ascii in Hmin by eauto.
    by destruct (alnum y).
Qed.

Lemma LastIndexFunc_ascii `{Unicode} l i :
  Forall (fun b => (b < 128)%N) l -> LastIndexFunc l = Some i ->
  exists x, l !! i = Some x /\ alnum x = true.
Proof.
  intros Hl. unfold LastIndexFunc. rewrite spans_ascii by done.
  destruct (list_find _ _) as [[k [off r]]|] eqn:E; [|done]. simpl. intros [= ->].
  apply list_find_Some in E as (Hk & Hr & _).
  apply list_elem_of_lookup_2 in Hk. rewrite elem_of_reverse in Hk.
  apply list_elem_of_lookup in Hk as [m Hm]. rewrite list_lookup_imap in Hm.
  destruct (l !! m) as [x|] eqn:Ex; [|done]. simplify_eq/=.
  rewrite Forall_lookup in Hl. exists r. split; [done|].
  rewrite <-legal_ascii; [done|]. eauto.
Qed.

(** The bytes between the first and the last alphanumeric character. *)
Lemma sliced_ends (l : list N) i j x y :
  l !! i = Some x -> l !! j = Some y -> i <= j ->
  let seg := take (j + 1 - i) (drop i l) in
  head seg = Some x /\ last seg = Some y.
Proof.
  intros Hi Hj Hij seg.
  assert (seg !! 0 = Some x) as H0.
  { unfold seg. rewrite lookup_take_lt by lia. by rewrite lookup_drop, Nat.add_0_r. }
  assert (length seg = j + 1 - i) as Hlen.
  { unfold seg. rewrite length_take, length_drop. apply lookup_lt_Some in Hj. lia. }
  split; [by rewrite <-H0; destruct seg|].
  rewrite last_lookup, Hlen. unfold seg.
  rewrite lookup_take_lt by lia. rewrite lookup_drop. rewrite <-Hj. f_equal. lia.
Qed.

Lemma filter_ends (l : list N) x y :
  head l = Some x -> last l = Some y -> label_char x = true -> label_char y = true ->
  head (filter (fun r => label_char r = true) l) = Some x /\
  last (filter (fun r => label_char r = true) l) = Some y.
Proof.
  intros Hx Hy Hkx Hky. split.
  - destruct l as [|z l]; [done|]. simplify_eq/=. by rewrite filter_cons_True.
  - apply last_Some in Hy as [l' ->]. rewrite filter_app.
    rewrite filter_cons_True, filter_nil by done. by rewrite last_snoc.
Qed.

(** C-level statement of the ASCII case: shared by the properties below. *)
Lemma NormalizeLabel_ascii_ends `{Unicode} name s :
  is_ascii name -> NormalizeLabel name = (s, None) ->
  exists x y, head (bytes s) = Some x /\ last (bytes s) = Some y /\
    alnum x = true /\ alnum y = true.
Proof.
  intros Ha Hs. apply bytes_NormalizeLabel in Hs as (i & j & Hi & Hj & Hs).
  pose proof (ToLower_ascii _ Ha) as Hl. unfold is_ascii in Hl.
  apply IndexFunc_ascii in Hi as [(x & Hx & Hax) Hmin]; [|done].
  apply LastIndexFunc_ascii in Hj as (y & Hy & Hay); [|done].
  assert (i <= j) as Hij.
  { destruct (decide (i <= j)); [done|]. rewrite (Hmin j y) in Hay by (done || lia). done. }
  destruct (sliced_ends _ _ _ _ _ Hx Hy Hij) as [Hh Hla].
  rewrite decode_runes_ascii in Hs by by apply Forall_take, Forall_drop.
  destruct (filter_ends _ x y Hh Hla) as [H1 H2]; [by apply alnum_label_char..|].
  exists x, y. by rewrite Hs.
Qed.

Lemma bytes_ToLower_label `{Unicode} s :
  label_bytes (bytes s) -> bytes (ToLower s) = bytes s.
Proof.
  intros Hs. rewrite bytes_ToLower_ascii by by apply label_bytes_ascii.
  induction Hs as [|r l Hr _ IH]; simpl; [done|].
  f_equal; [by apply rune_to_lower_label_char|exact IH].
Qed.

Lemma IndexFunc_head `{Unicode} l x :
  Forall (fun b => (b < 128)%N) l -> head l = Some x -> alnum x = true ->
  IndexFunc l = Some 0.
Proof.
  intros Hl Hx Ha. unfold IndexFunc. rewrite spans_ascii by done.
  destruct l as [|z l]; [done|]. simplify_eq/=. inversion_clear Hl.
  rewrite decide_True; [done|]. simpl. by rewrite legal_ascii.
Qed.

Lemma LastIndexFunc_last `{Unicode} l x :
  Forall (fun b => (b < 128)%N) l -> last l = Some x -> alnum x = true ->
  LastIndexFunc l = Some (length l - 1).
Proof.
  intros Hl Hx Ha. unfold LastIndexFunc. rewrite spans_ascii by done.
  apply last_Some in Hx as [l' ->]. apply Forall_app in Hl as [_ Hl]. inversion_clear Hl.
  rewrite imap_app. simpl. rewrite Nat.add_0_r, reverse_snoc. simpl.
  rewrite decide_True; [|simpl; by rewrite legal_ascii].
  simpl. rewrite length_app. simpl. f_equal. lia.
Qed.

(** ** Properties *)

(** Whatever the device reports and whatever the Unicode tables, a
    normalized value only holds characters of [a-z0-9-_.]. *)
Theorem NormalizeLabel_charset `{Unicode} name s :
  NormalizeLabel name = (s, None) -> label_bytes (bytes s).
Proof.
  intros (i & j & _ & _ & ->)%bytes_NormalizeLabel. apply label_bytes_filter.
Qed.

(** For ASCII names normalization is idempotent: a normalized value is left
    alone, so applying it to a stored label changes nothing. *)
Theorem NormalizeLabel_ascii_idempotent `{Unicode} name s :
  is_ascii name -> NormalizeLabel name = (s, None) -> NormalizeLabel s = (s, None).
Proof.
  intros Ha Hs. pose proof (NormalizeLabel_ascii_ends _ _ Ha Hs) as (x & y & Hx & Hy & Hax & Hay).
  assert (label_bytes (bytes s)) as Hlb.
  { apply bytes_NormalizeLabel in Hs as (i & j & _ & _ & ->). apply label_bytes_filter. }
  pose proof (label_bytes_ascii _ Hlb) as Has.
  unfold NormalizeLabel. rewrite bytes_ToLower_label by done.
  rewrite (IndexFunc_head _ x), (LastIndexFunc_last _ y) by done.
  rewrite drop_0, take_ge by lia.
  rewrite decode_runes_ascii by done.
  rewrite filter_all by exact Hlb. by rewrite of_bytes_bytes.
Qed.

Lemma NormalizeLabel_charset_witness :
  @NormalizeLabel ascii_tables " Intel(R) Core_i7 " = ("intelrcore_i7", None) /\
  label_bytes (bytes "intelrcore_i7").
Proof.
  assert (@NormalizeLabel ascii_tables " Intel(R) Core_i7 " = ("intelrcore_i7", None)) as Hn
    by (vm_compute; reflexivity).
  split; [exact Hn|]. exact (NormalizeLabel_charset (H := ascii_tables) _ _ Hn).
Defined.

Lemma NormalizeLabel_ascii_idempotent_witness :
  is_ascii "-Host 1-" /\ @NormalizeLabel ascii_tables "host1" = ("host1", None).
Proof.
  assert (is_ascii "-Host 1-") as Ha by (repeat constructor).
  assert (@NormalizeLabel ascii_tables "-Host 1-" = ("host1", None)) as Hn
    by (vm_compute; reflexivity).
  split; [exact Ha|]. exact (NormalizeLabel_ascii_idempotent (H := ascii_tables) _ _ Ha Hn).
Defined.
