(* ===== verification/Repository.v ===== *)
(** * Repositories: typed access to the Kubernetes API

    internal/common/repository/*.  A module per Go package.  [client.Get] fills
    the object the code passes it and may also return an error: [Read] hands
    both back.  A patch names the object it was computed against and the
    object sent; the client overwrites the latter with the server's answer. *)
From S2P Require Import Prelude GoData GoStrings V1alpha1 Models Env Testbed Labels Utils.
Import v1alpha1.

(** The finalizers without one of them: the loop of every [RemoveFinalizer].
    Appending nothing leaves the slice nil. *)
Definition without_finalizer (finalizer : string) (fs : slice string) : slice string :=
  foldl (fun acc f => if decide (f = finalizer) then acc else append acc f) None (elems fs).

(** [deviceLabels[k] = v] for every pair of a map.  The keys are distinct, so
    the order of the visit does not show; [seed] picks one. *)
Definition add_labels (seed : nat) (labels : gomap string) (deviceLabels : gmap string string)
    : gmap string string :=
  foldl (fun acc '(k, v) => <[k := v]> acc) deviceLabels (range seed labels).

Module edgedevice.
Definition Read (name namespace : string) : M (EdgeDevice * option error) :=
  call (GetEdgeDevice namespace name).

(** The first listed device that records the execution in its status. *)
Definition has_execution (playbookExecutionName : string) (device : EdgeDevice) : bool :=
  existsb (fun pe => bool_decide (PlaybookExec_Name pe = playbookExecutionName))
    (elems (EdgeDeviceStatus_PlaybookExecutions (EdgeDevice_Status device))).
Definition ReadForPlaybookExecution (playbookExecutionName namespace : string)
    : M (option EdgeDevice * option error) :=
  '(items, err) ← (call (ListEdgeDevices AllObjects namespace) : M _);
  match err with
  | Some e => mret (None, Some e)
  | None =>
      match find (has_execution playbookExecutionName) items with
      | Some device => mret (Some device, None)
      | None => mret (None, Some (ErrorString "cannot find edge device"))
      end
  end.

Definition Create (edgeDevice : EdgeDevice) : M (option error) :=
  call (CreateEdgeDevice edgeDevice).

(** [PatchStatus(ctx, edgeDevice, &patch)] with [patch := client.MergeFrom(base)]. *)
Definition PatchStatus (edgeDevice base : EdgeDevice) : M (EdgeDevice * option error) :=
  call (PatchEdgeDeviceStatus base edgeDevice).

Definition Patch (old new : EdgeDevice) : M (EdgeDevice * option error) :=
  call (PatchEdgeDevice old new).

Definition ListForSelector `{Libs} (selector : LabelSelector) (namespace : string)
    : M (list EdgeDevice * option error) :=
  match selector_error selector with
  | Some err => mret ([], Some err)
  | None =>
      '(items, err) ← (call (ListEdgeDevices (MatchingSelector selector) namespace) : M _);
      match err with Some e => mret ([], Some e) | None => mret (items, None) end
  end.

Definition ListForWorkload (name namespace : string) : M (list EdgeDevice * option error) :=
  '(items, err) ← (call (ListEdgeDevices (MatchingLabels DeviceByWorkloadIndexKey name) namespace)
                    : M _);
  match err with Some e => mret ([], Some e) | None => mret (items, None) end.

Definition ListForEdgeConfig (name namespace : string) : M (list EdgeDevice * option error) :=
  '(items, err) ← (call (ListEdgeDevices
                     (MatchingLabels (ConfigLabelPrefix +:+ DeviceByConfigIndexKey) name) namespace)
                    : M _);
  match err with Some e => mret ([], Some e) | None => mret (items, None) end.

(** Also returns what the call leaves in [*edgeDevice]. *)
Definition RemoveFinalizer (edgeDevice : EdgeDevice) (finalizer : string)
    : M (EdgeDevice * option error) :=
  let cp := upd_Meta (set_Finalizers
              (without_finalizer finalizer (Finalizers (EdgeDevice_ObjectMeta edgeDevice))))
              edgeDevice in
  '(cp', err) ← Patch edgeDevice cp;
  match err with
  | None =>
      mret (upd_Meta (set_Finalizers (Finalizers (EdgeDevice_ObjectMeta cp'))) edgeDevice, None)
  | Some _ => mret (edgeDevice, None)
  end.

Definition updateLabels (device : EdgeDevice) (labels : gomap string)
    : M (EdgeDevice * option error) :=
  seed ← (call MapOrder : M nat);
  let deviceLabels :=
    Some (add_labels seed labels (entries (Labels (EdgeDevice_ObjectMeta device)))) in
  if decide (deviceLabels = Labels (EdgeDevice_ObjectMeta device)) then mret (device, None)
  else
    '(deviceCopy, err) ← Patch device (upd_Meta (set_Labels deviceLabels) device);
    match err with
    | None =>
        mret (upd_Meta (set_Labels (Labels (EdgeDevice_ObjectMeta deviceCopy))) device, None)
    | Some e => mret (device, Some e)
    end.

(** The retries work on copies read afresh; the error of the first attempt is
    the one returned. *)
Definition UpdateLabels (device : EdgeDevice) (labels : gomap string)
    : M (EdgeDevice * option error) :=
  '(device, err) ← updateLabels device labels;
  match err with
  | None => mret (device, None)
  | Some e =>
      res ← for_range [1; 2; 3] tt (fun _ i =>
        _ ← (call (Sleep (Z.of_nat i * 50)) : M unit);
        '(device2, err2) ← Read (Name (EdgeDevice_ObjectMeta device))
                             (Namespace (EdgeDevice_ObjectMeta device));
        match err2 with
        | Some _ => mret (Next tt)
        | None =>
            '(_, err3) ← updateLabels device2 labels;
            match err3 with
            | None => mret (Return tt)
            | Some _ => mret (Next tt)
            end
        end);
      match res with
      | Return _ => mret (device, None)
      | Next _ => mret (device, Some e)
      end
  end.
End edgedevice.

Module edgeworkload.
Definition Read (name namespace : string) : M (EdgeWorkload * option error) :=
  call (GetEdgeWorkload namespace name).
Definition Patch (old new : EdgeWorkload) : M (EdgeWorkload * option error) :=
  call (PatchEdgeWorkload old new).
Definition RemoveFinalizer (edgeWorkload : EdgeWorkload) (finalizer : string)
    : M (EdgeWorkload * option error) :=
  let cp := upd_WorkloadMeta (set_Finalizers
              (without_finalizer finalizer (Finalizers (EdgeWorkload_ObjectMeta edgeWorkload))))
              edgeWorkload in
  '(cp', err) ← Patch edgeWorkload cp;
  match err with
  | None =>
      mret (upd_WorkloadMeta (set_Finalizers (Finalizers (EdgeWorkload_ObjectMeta cp')))
              edgeWorkload, None)
  | Some _ => mret (edgeWorkload, None)
  end.
Definition ListByLabel (labelName labelValue namespace : string)
    : M (list EdgeWorkload * option error) :=
  '(items, err) ← (call (ListEdgeWorkloads
      (MatchingFields WorkloadByDeviceIndexKey (CreateWorkloadIndexKey labelName labelValue))
      namespace) : M _);
  match err with Some e => mret ([], Some e) | None => mret (items, None) end.
End edgeworkload.

Module edgeconfig.
Definition Read (name namespace : string) : M (EdgeConfig * option error) :=
  call (GetEdgeConfig namespace name).
Definition Patch (old new : EdgeConfig) : M (EdgeConfig * option error) :=
  call (PatchEdgeConfig old new).
Definition RemoveFinalizer (edgeConfig : EdgeConfig) (finalizer : string)
    : M (EdgeConfig * option error) :=
  let meta := EdgeConfig_ObjectMeta edgeConfig in
  let with_finalizers fs :=
    mkEdgeConfig (EdgeConfig_TypeMeta edgeConfig) (set_Finalizers fs meta)
      (EdgeConfig_Spec edgeConfig) (EdgeConfig_Status edgeConfig) in
  '(cp', err) ← Patch edgeConfig (with_finalizers (without_finalizer finalizer (Finalizers meta)));
  match err with
  | None => mret (with_finalizers (Finalizers (EdgeConfig_ObjectMeta cp')), None)
  | Some _ => mret (edgeConfig, None)
  end.
Definition ListByLabel (labelName labelValue namespace : string)
    : M (list EdgeConfig * option error) :=
  '(items, err) ← (call (ListEdgeConfigs
      (MatchingLabels DeviceByConfigIndexKey (CreateDeviceConfigIndexKey labelValue)) namespace)
      : M _);
  match err with Some e => mret ([], Some e) | None => mret (items, None) end.
End edgeconfig.

Module edgedeviceset.
Definition Read (name namespace : string) : M (EdgeDeviceSet * option error) :=
  call (GetEdgeDeviceSet namespace name).
End edgedeviceset.

Module playbookexecution.
Definition Read (name namespace : string) : M (PlaybookExecution * option error) :=
  call (GetPlaybookExecution namespace name).
Definition Create (playbookExecution : PlaybookExecution) : M (option error) :=
  call (CreatePlaybookExecution playbookExecution).
(** [old] is a pointer that may be nil. *)
Definition Patch (old : option PlaybookExecution) (new : PlaybookExecution)
    : M (PlaybookExecution * option error) :=
  call (PatchPlaybookExecution old new).
Definition RemoveFinalizer (playbookExecution : PlaybookExecution) (finalizer : string)
    : M (PlaybookExecution * option error) :=
  let cp := upd_PlaybookMeta (set_Finalizers
              (without_finalizer finalizer
                 (Finalizers (PlaybookExecution_ObjectMeta playbookExecution))))
              playbookExecution in
  '(cp', err) ← Patch (Some playbookExecution) cp;
  match err with
  | None =>
      mret (upd_PlaybookMeta (set_Finalizers (Finalizers (PlaybookExecution_ObjectMeta cp')))
              playbookExecution, None)
  | Some _ => mret (playbookExecution, None)
  end.
Definition ListByLabel (labelName labelValue namespace : string)
    : M (list PlaybookExecution * option error) :=
  '(items, err) ← (call (ListPlaybookExecutions AllObjects namespace) : M _);
  match err with Some e => mret ([], Some e) | None => mret (items, None) end.
End playbookexecution.

Module edgedevicesignedrequest.
Definition Read (name namespace : string) : M (EdgeDeviceSignedRequest * option error) :=
  call (GetEDSR namespace name).
Definition Create (r : EdgeDeviceSignedRequest) : M (option error) := call (CreateEDSR r).
Definition PatchStatus (r base : EdgeDeviceSignedRequest)
    : M (EdgeDeviceSignedRequest * option error) :=
  call (PatchEDSRStatus base r).
Definition Patch (old new : EdgeDeviceSignedRequest)
    : M (EdgeDeviceSignedRequest * option error) :=
  call (PatchEDSR old new).
Definition Delete (r : EdgeDeviceSignedRequest) : M (option error) := call (DeleteEDSR r).
End edgedevicesignedrequest.

(** ** Lemmas *)

Lemma without_finalizer_elems f fs :
  elems (without_finalizer f fs) = filter (fun g => g <> f) (elems fs).
Proof.
  unfold without_finalizer.
  enough (forall l acc, elems (foldl (fun acc g => if decide (g = f) then acc
            else append acc g) acc l) = elems acc ++ filter (fun g => g <> f) l) as Hgen.
  { by rewrite Hgen. }
  induction l as [|g l IH]; intros acc; cbn [foldl]; [by rewrite app_nil_r|].
  rewrite IH. destruct (decide (g = f)) as [->|Hne].
  - by rewrite filter_cons_False by auto.
  - rewrite filter_cons_True by done. rewrite elems_append. by rewrite <-(assoc_L (++)).
Qed.

Lemma add_labels_union seed labels m : add_labels seed labels m = entries labels ∪ m.
Proof. apply foldl_insert_range. Qed.

Import edgedevice.

Section UpdateLabels.
Implicit Types (device : EdgeDevice) (labels : gomap string) (t : list Event).

Definition labels_of device : gmap string string :=
  entries (Labels (EdgeDevice_ObjectMeta device)).

(** What one attempt asks of the API server: at most one patch, whose object
    is the device with the labels merged in. *)
Definition merged_patch labels (e : Event) : Prop :=
  match ev_req e with
  | PatchEdgeDevice base obj =>
      obj = upd_Meta (set_Labels (Some (entries labels ∪ labels_of base))) base
  | _ => True
  end.

Lemma exec_updateLabels device labels t o :
  exec (updateLabels device labels) t o ->
  exists seed,
    (Labels (EdgeDevice_ObjectMeta device) = Some (entries labels ∪ labels_of device) /\
     t = [Ev MapOrder seed] /\ o = Done (device, None)) \/
    (Labels (EdgeDevice_ObjectMeta device) <> Some (entries labels ∪ labels_of device) /\
     exists obj err,
      t = [Ev MapOrder seed;
           Ev (PatchEdgeDevice device
                 (upd_Meta (set_Labels (Some (entries labels ∪ labels_of device))) device))
              (obj, err)] /\
      o = Done (match err with
                | None => upd_Meta (set_Labels (Labels (EdgeDevice_ObjectMeta obj))) device
                | Some _ => device
                end, err)).
Proof.
  intros H. unfold updateLabels in H. exec_step. exists r.
  rewrite add_labels_union in H. fold (labels_of device) in H. case_decide as E.
  - left. exec_step. split_and!; [by symmetry|done|done].
  - right. split; [by intros E2; apply E; symmetry|].
    exec_step. exists obj, err. destruct err; exec_step; done.
Qed.

(** Merging a device's own labels asks nothing of the API server. *)
Lemma UpdateLabels_own device m t o :
  Labels (EdgeDevice_ObjectMeta device) = Some m ->
  exec (UpdateLabels device (Some m)) t o ->
  exists seed, t = [Ev MapOrder seed] /\ o = Done (device, None).
Proof.
  intros Hm He. unfold UpdateLabels in He.
  assert (forall t o, exec (updateLabels device (Some m)) t o ->
            exists seed, t = [Ev MapOrder seed] /\ o = Done (device, None)) as Hu.
  { intros t' o' (seed & [(_ & -> & ->)|(Hn & _)])%exec_updateLabels; [by exists seed|].
    destruct Hn. unfold labels_of. rewrite Hm. simpl. by rewrite map_union_idemp. }
  apply exec_bind_inv in He as [[He ->]|(a & t1 & t2 & -> & H1 & He)].
  - by apply Hu in He as (? & _ & ?).
  - apply Hu in H1 as (seed & -> & [= ->]). apply exec_Ret_inv in He as [-> ->]. by exists seed.
Qed.

Lemma updateLabels_calls device labels :
  calls (fun c => match c with
                  | MapOrder => True
                  | PatchEdgeDevice base obj =>
                      obj = upd_Meta (set_Labels (Some (entries labels ∪ labels_of base))) base
                  | _ => False end) (updateLabels device labels).
Proof.
  unfold updateLabels, Patch. apply calls_bind; [done|]. intros seed.
  case_decide; [done|]. apply calls_bind.
  - split; [|done]. by rewrite add_labels_union.
  - intros [? [?|]]; done.
Qed.

Lemma UpdateLabels_calls device labels :
  calls (fun c => match c with
                  | MapOrder | Sleep _ | GetEdgeDevice _ _ => True
                  | PatchEdgeDevice base obj =>
                      obj = upd_Meta (set_Labels (Some (entries labels ∪ labels_of base))) base
                  | _ => False end) (UpdateLabels device labels).
Proof.
  assert (forall d, calls (fun c => match c with
                  | MapOrder | Sleep _ | GetEdgeDevice _ _ => True
                  | PatchEdgeDevice base obj =>
                      obj = upd_Meta (set_Labels (Some (entries labels ∪ labels_of base))) base
                  | _ => False end) (updateLabels d labels)) as Hu.
  { intros d. eapply calls_weaken; [|apply updateLabels_calls]. by intros []. }
  unfold UpdateLabels. apply calls_bind; [apply Hu|]. intros [d [e|]]; [|done].
  apply calls_bind.
  - apply calls_for_range. intros [] i. split; [done|]. intros [].
    split; [done|]. intros [d2 [e2|]]; [done|].
    apply calls_bind; [apply Hu|]. by intros [? [?|]].
  - by intros [?|?].
Qed.
End UpdateLabels.

(** ** Properties *)

Section Spec.
Implicit Types (device base : EdgeDevice) (labels : gomap string) (t : list Event).

(** The patch that merges [labels] into the labels of [base]. *)
Definition label_patch labels base : Req :=
  PatchEdgeDevice base (upd_Meta (set_Labels (Some (entries labels ∪ labels_of base))) base).

Definition is_patch (e : Event) : Prop :=
  match ev_req e with PatchEdgeDevice _ _ => True | _ => False end.
#[global] Instance is_patch_dec e : Decision (is_patch e).
Proof. unfold is_patch. destruct (ev_req e); apply _. Defined.

(** [base] is the device the caller holds, or one read again since. *)
Definition known device t base : Prop :=
  base = device \/
  Ev (GetEdgeDevice (Namespace (EdgeDevice_ObjectMeta device))
                    (Name (EdgeDevice_ObjectMeta device))) (base, None) ∈ t.

(** A known state of the device has the labels, or the server accepted the
    patch that adds them to it. *)
Definition labels_applied device labels t : Prop :=
  exists base, known device t base /\
    (Labels (EdgeDevice_ObjectMeta base) = Some (entries labels ∪ labels_of base) \/
     exists obj, Ev (label_patch labels base) (obj, None) ∈ t).

(** Every patch of the trace merges the labels, and the server refused it. *)
Definition all_refused labels t : Prop :=
  forall e, e ∈ t -> is_patch e -> exists base obj err, e = Ev (label_patch labels base) (obj, Some err).

Lemma all_refused_app labels t1 t2 :
  all_refused labels t1 -> all_refused labels t2 -> all_refused labels (t1 ++ t2).
Proof. intros H1 H2 e [?|?]%elem_of_app; auto. Qed.

Lemma all_refused_other labels e : ~ is_patch e -> all_refused labels [e].
Proof. by intros Hn e' ->%list_elem_of_singleton. Qed.

Lemma labels_applied_app device labels t1 t2 :
  labels_applied device labels t2 -> labels_applied device labels (t1 ++ t2).
Proof.
  intros (base & Hk & Hb). exists base. split.
  - destruct Hk as [->|Hk]; [by left|right]. apply elem_of_app. by right.
  - destruct Hb as [Hb|[obj Hb]]; [by left|right]. exists obj. apply elem_of_app. by right.
Qed.

(** One attempt: it succeeds and the labels are there, or its single patch
    was refused. *)
Lemma updateLabels_attempt device labels t o :
  exec (updateLabels device labels) t o ->
  exists device' err, o = Done (device', err) /\ length (filter is_patch t) <= 1 /\
    Name (EdgeDevice_ObjectMeta device') = Name (EdgeDevice_ObjectMeta device) /\
    Namespace (EdgeDevice_ObjectMeta device') = Namespace (EdgeDevice_ObjectMeta device) /\
    match err with
    | None => Labels (EdgeDevice_ObjectMeta device) = Some (entries labels ∪ labels_of device) \/
              exists obj, Ev (label_patch labels device) (obj, None) ∈ t
    | Some e => device' = device /\ all_refused labels t /\
                exists obj, Ev (label_patch labels device) (obj, Some e) ∈ t
    end.
Proof.
  intros (seed & [(HL & -> & ->)|(_ & obj & err & -> & ->)])%exec_updateLabels.
  - exists device, None. rewrite filter_cons_False by (cbn; tauto).
    rewrite filter_nil. simpl. split_and!; auto with lia.
  - eexists _, err. split; [done|].
    rewrite filter_cons_False by (cbn; tauto).
    rewrite filter_cons_True by done. rewrite filter_nil.
    split; [simpl; lia|]. destruct err as [e|]; split_and!; try done.
    + apply (all_refused_app labels [_] [_]); [apply all_refused_other; cbn; tauto|].
      intros e' ->%list_elem_of_singleton _. by exists device, obj, e.
    + exists obj. right. left.
    + right. exists obj. right. left.
Qed.

(** The retries of [UpdateLabels] after the device read first could not be
    patched. *)
Lemma UpdateLabels_retries device labels t o :
  exec (for_range [1; 2; 3] tt (fun _ i =>
      _ ← (call (Sleep (Z.of_nat i * 50)) : M unit);
      '(device2, err2) ← Read (Name (EdgeDevice_ObjectMeta device))
                           (Namespace (EdgeDevice_ObjectMeta device));
      match err2 with
      | Some _ => mret (Next tt)
      | None =>
          '(_, err3) ← updateLabels device2 labels;
          match err3 with
          | None => mret (Return tt)
          | Some _ => mret (Next tt)
          end
      end)) t o ->
  match o with
  | Done (Next _) => length (filter is_patch t) <= 3 /\ all_refused labels t
  | Done (Return _) => length (filter is_patch t) <= 3 /\ labels_applied device labels t
  | Panicked => False
  end.
Proof.
  intros Ht.
  refine (for_range_rule (fun pre _ t => length (filter is_patch t) <= length pre /\
            all_refused labels t)
          (fun _ t => length (filter is_patch t) <= 3 /\ labels_applied device labels t)
          (fun _ => False) _ [1; 2; 3] _ tt t o _ Ht); clear; [|split; [simpl; lia|by intros ? ?%elem_of_nil]].
  intros pre i post [] t t' o Hl [Hn Hr] He.
  assert (length pre <= 2) as Hp by (apply (f_equal length) in Hl; rewrite length_app in Hl; simpl in Hl; lia).
  apply exec_bind_call in He as ([] & t1 & -> & He).
  unfold Read in He. exec_call He as ([device2 err2] & t2 & -> & He).
  rewrite filter_app, length_app.
  rewrite !filter_cons_False by (cbn; tauto).
  assert (all_refused labels [Ev (Sleep (Z.of_nat i * 50)) tt;
            Ev (GetEdgeDevice (Namespace (EdgeDevice_ObjectMeta device))
                  (Name (EdgeDevice_ObjectMeta device))) (device2, err2)]) as H2.
  { apply (all_refused_app labels [_] [_]); apply all_refused_other; cbn; tauto. }
  destruct err2 as [e2|].
  - apply exec_Ret_inv in He as [-> ->]. rewrite length_app. split; [simpl; lia|].
    by apply all_refused_app.
  - apply exec_bind_inv in He as [[He ->]|([d err3] & t3 & t4 & -> & H3 & H4)];
      [apply updateLabels_attempt in He as (? & ? & ? & _); done|].
    apply updateLabels_attempt in H3 as (d' & err & [= <- <-] & Hn' & _ & _ & H3).
    rewrite filter_app, length_app.
    destruct err3 as [e3|]; apply exec_Ret_inv in H4 as [-> ->];
      rewrite filter_nil; simpl; rewrite ?length_app; simpl.
    + destruct H3 as (_ & H3 & _). split; [lia|]. rewrite app_nil_r.
      apply all_refused_app; [done|]. by apply (all_refused_app labels [_; _]).
    + split; [lia|]. rewrite app_nil_r. exists device2. split.
      * right. apply elem_of_app. right. right. left.
      * destruct H3 as [H3|[obj H3]]; [by left|right]. exists obj.
        apply elem_of_app. right. by do 2 right.
Qed.
End Spec.

(** C29: [UpdateLabels] merges the labels into the device's under concurrent
    updates.  Every object it writes is a device it knows with exactly the
    given labels added; it makes at most four attempts and never panics; when
    it reports success the labels are there (they were already, or the API
    server accepted the patch); when it reports an error, which is the one of
    the first attempt, no attempt went through. *)
Theorem UpdateLabels_correct device labels t o :
  exec (UpdateLabels device labels) t o ->
  (forall base obj r, Ev (PatchEdgeDevice base obj) r ∈ t ->
     obj = upd_Meta (set_Labels (Some (entries labels ∪ labels_of base))) base) /\
  length (filter is_patch t) <= 4 /\
  exists device' err, o = Done (device', err) /\
    match err with
    | None => labels_applied device labels t
    | Some e => all_refused labels t /\
                exists obj, Ev (label_patch labels device) (obj, Some e) ∈ t
    end.
Proof.
  intros Ht. split.
  { intros base obj r He.
    pose proof (calls_exec _ _ _ _ (UpdateLabels_calls device labels) Ht) as HF.
    rewrite Forall_forall in HF. exact (HF _ He). }
  unfold UpdateLabels in Ht.
  apply exec_bind_inv in Ht as [[He ->]|([d err] & t1 & t2 & -> & H1 & H2)];
    [apply updateLabels_attempt in He as (? & ? & ? & _); done|].
  apply updateLabels_attempt in H1 as (d' & err' & [= <- <-] & Hn & Hname & Hns & H1).
  rewrite filter_app, length_app. destruct err as [e|].
  - destruct H1 as (-> & Hr & obj & Hobj).
    apply exec_bind_inv in H2 as [[H2 ->]|(c & t3 & t4 & -> & H2 & H3)];
      apply UpdateLabels_retries in H2; [done|].
    destruct c as [[]|[]]; destruct H2 as [Hn2 H2]; apply exec_Ret_inv in H3 as [-> ->];
      rewrite app_nil_r; (split; [lia|]).
    + exists device, (Some e). split; [done|]. split; [by apply all_refused_app|].
      exists obj. apply elem_of_app. by left.
    + exists device, None. split; [done|]. by apply labels_applied_app.
  - apply exec_Ret_inv in H2 as [-> ->]. rewrite filter_nil. split; [simpl; lia|].
    exists d, None. split; [done|]. rewrite app_nil_r. exists device. split; [by left|done].
Qed.

(** The hypothesis at a device without labels whose first patch is refused
    because of a concurrent update. *)
Definition conflict_once (c : Req) : option error :=
  match c with
  | PatchEdgeDevice base _ =>
      if decide (ResourceVersion (EdgeDevice_ObjectMeta base) = "1")
      then Some (StatusError (OtherReason "Conflict") "the object has been modified") else None
  | _ => None
  end.
Definition stale_device : EdgeDevice :=
  upd_Meta (fun _ => mkObjectMeta "d1" "ns" "u" "1" None None None None None) empty_EdgeDevice.
Definition fresh_device : EdgeDevice :=
  upd_Meta (fun _ => mkObjectMeta "d1" "ns" "u" "2" None (Some {["a" := "b"]}) None None None)
    empty_EdgeDevice.
Definition conflict_world : World :=
  set_fault conflict_once (set_devices {[("ns", "d1") := fresh_device]} empty_world).

Lemma UpdateLabels_correct_witness :
  let labels := Some {["workload/w" := "true"]} in
  let t := run_trace (UpdateLabels stale_device labels) conflict_world in
  length (filter is_patch t) = 2 /\ length (filter is_patch t) <= 4 /\
  run_result (UpdateLabels stale_device labels) conflict_world = Done (stale_device, None).
Proof.
  cbv zeta. split; [vm_compute; reflexivity|]. split; [|vm_compute; reflexivity].
  exact (proj1 (proj2 (UpdateLabels_correct _ _ _ _ (run_result_exec _ conflict_world)))).
Defined.

(** [RemoveFinalizer] sends one patch, which keeps every other finalizer
    in its order and changes nothing else; it reports success even when the
    API server refuses the patch, and then leaves the device as it was. *)
Theorem RemoveFinalizer_swallows_error device finalizer t o :
  exec (RemoveFinalizer device finalizer) t o ->
  exists fs obj err,
    elems fs = filter (fun g => g <> finalizer) (elems (Finalizers (EdgeDevice_ObjectMeta device))) /\
    t = [Ev (PatchEdgeDevice device (upd_Meta (set_Finalizers fs) device)) (obj, err)] /\
    o = Done (match err with
              | None => upd_Meta (set_Finalizers (Finalizers (EdgeDevice_ObjectMeta obj))) device
              | Some _ => device
              end, None).
Proof.
  intros H. unfold RemoveFinalizer, Patch in H. exec_step.
  eexists _, obj, err. split; [apply without_finalizer_elems|].
  destruct err; exec_step; done.
Qed.

Lemma RemoveFinalizer_swallows_error_witness :
  let device := upd_Meta (set_Finalizers (Some ["f"; "yggdrasil"; "g"])) stale_device in
  run_result (RemoveFinalizer device "yggdrasil") conflict_world = Done (device, None) /\
  exists fs, elems fs = ["f"; "g"] /\ exists r,
    Ev (PatchEdgeDevice device (upd_Meta (set_Finalizers fs) device)) r
      ∈ run_trace (RemoveFinalizer device "yggdrasil") conflict_world.
Proof.
  set (device := upd_Meta _ stale_device). cbv zeta. split; [vm_compute; reflexivity|].
  destruct (RemoveFinalizer_swallows_error device "yggdrasil" _ _
              (run_result_exec _ conflict_world)) as (fs & obj & err & Hfs & -> & _).
  exists fs. split; [exact Hfs|]. exists (obj, err). left.
Defined.
