(* ===== verification/Hardware.v ===== *)
(** * Hardware reports

    internal/edgeapi/hardware/hardware.go: a device's hardware report as the
    hardware of its [EdgeDevice], and as labels of it. *)
From S2P Require Import Prelude GoData GoStrings V1alpha1 Models Env Testbed Utils.

Definition MapDisk (d : models.Disk) : v1alpha1.Disk :=
  v1alpha1.mkDisk (models.Disk_Bootable d) (models.Disk_ByID d) (models.Disk_ByPath d)
    (models.Disk_DriveType d) (models.Disk_Hctl d) (models.Disk_ID d)
    ((fun p => v1alpha1.mkIoPerf (models.IoPerf_SyncDuration p)) <$> models.Disk_IoPerf d)
    (models.Disk_IsInstallationMedia d) (models.Disk_Model d) (models.Disk_Name d)
    (models.Disk_Path d) (models.Disk_Serial d) (models.Disk_SizeBytes d)
    (models.Disk_Smart d) (models.Disk_Vendor d) (models.Disk_Wwn d).

(** The conversion [( *v1alpha1.Gpu)(g)] and the one of interfaces: a nil
    pointer stays nil. *)
Definition MapGpu (g : models.Gpu) : v1alpha1.Gpu :=
  v1alpha1.mkGpu (models.Gpu_Address g) (models.Gpu_DeviceID g) (models.Gpu_Name g)
    (models.Gpu_Vendor g) (models.Gpu_VendorID g).
Definition MapInterface (i : models.Interface) : v1alpha1.Interface :=
  v1alpha1.mkInterface (models.Interface_Biosdevname i) (models.Interface_ClientID i)
    (models.Interface_Flags i) (models.Interface_HasCarrier i) (models.Interface_IPV4Addresses i)
    (models.Interface_IPV6Addresses i) (models.Interface_MacAddress i) (models.Interface_Mtu i)
    (models.Interface_Name i) (models.Interface_Product i) (models.Interface_SpeedMbps i)
    (models.Interface_Vendor i).

(** The numbers of a host device are int64 in the report and uint32 in the
    resource. *)
Definition MapHostDevice (h : models.HostDevice) : v1alpha1.HostDevice :=
  v1alpha1.mkHostDevice (models.HostDevice_Path h) (models.HostDevice_DeviceType h)
    (to_uint32 (models.HostDevice_UID h)) (to_uint32 (models.HostDevice_Gid h))
    (to_uint32 (models.HostDevice_Major h)) (to_uint32 (models.HostDevice_Minor h)).
Definition MapMount (m : models.Mount) : v1alpha1.Mount :=
  v1alpha1.mkMount (models.Mount_Device m) (models.Mount_Directory m) (models.Mount_Type m)
    (models.Mount_Options m).
Definition MapCPU (c : models.CPU) : v1alpha1.CPU :=
  v1alpha1.mkCPU (models.CPU_Architecture c) (models.CPU_Count c) (models.CPU_Flags c)
    (sprintf_2f (models.CPU_Frequency c)) (models.CPU_ModelName c).

(** [for _, x := range l { r = append(r, &f( *x)) }] from an empty slice. *)
Definition map_pointers {A B} (f : A -> B) (l : slice (option A)) : outcome (slice (option B)) :=
  r ← mapM (fun p => a ← deref p; mret (f a)) (elems l);
  mret (Some (Some <$> r)).

(** The same for a conversion of the pointers themselves. *)
Definition cast_pointers {A B} (f : A -> B) (l : slice (option A)) : slice (option B) :=
  Some (option_map f <$> elems l).

Definition MapHardware (hardware : option models.HardwareInfo)
    : outcome (option v1alpha1.Hardware) :=
  match hardware with
  | None => Done None
  | Some hardware =>
      disks ← map_pointers MapDisk (models.HardwareInfo_Disks hardware);
      let gpus := cast_pointers MapGpu (models.HardwareInfo_Gpus hardware) in
      let interfaces := cast_pointers MapInterface (models.HardwareInfo_Interfaces hardware) in
      hostDevices ← map_pointers MapHostDevice (models.HardwareInfo_HostDevices hardware);
      let boot := (fun b => v1alpha1.mkBoot (models.Boot_CurrentBootMode b)
                              (models.Boot_PxeInterface b)) <$> models.HardwareInfo_Boot hardware in
      let cpu := MapCPU <$> models.HardwareInfo_CPU hardware in
      let memory := (fun m => v1alpha1.mkMemory (models.Memory_PhysicalBytes m)
                       (models.Memory_UsableBytes m)) <$> models.HardwareInfo_Memory hardware in
      let systemVendor := (fun v => v1alpha1.mkSystemVendor (models.SystemVendor_Manufacturer v)
          (models.SystemVendor_ProductName v) (models.SystemVendor_SerialNumber v)
          (models.SystemVendor_Virtual v)) <$> models.HardwareInfo_SystemVendor hardware in
      mounts ← map_pointers MapMount (models.HardwareInfo_Mounts hardware);
      Done (Some (v1alpha1.mkHardware boot cpu disks gpus
                    (models.HardwareInfo_Hostname hardware) interfaces memory systemVendor
                    hostDevices mounts))
  end.

Section Labels.
Context `{Unicode}.

(** [v, err := utils.NormalizeLabel(text); if err == nil { labels[name] = v }]. *)
Definition put_label (name text : string) (labels : gmap string string) : gmap string string :=
  match NormalizeLabel text with
  | (v, None) => <[name := v]> labels
  | (_, Some _) => labels
  end.

Definition MapLabels (hardware : option models.HardwareInfo) : gomap string :=
  match hardware with
  | None => None
  | Some hardware =>
      let labels := put_label "device.hostname" (models.HardwareInfo_Hostname hardware) ∅ in
      let labels :=
        match models.HardwareInfo_CPU hardware with
        | None => labels
        | Some cpu =>
            let labels := put_label "device.cpu-architecture" (models.CPU_Architecture cpu) labels in
            put_label "device.cpu-model" (models.CPU_ModelName cpu) labels
        end in
      let labels :=
        match models.HardwareInfo_SystemVendor hardware with
        | None => labels
        | Some systemVendor =>
            let labels := put_label "device.system-manufacturer"
                            (models.SystemVendor_Manufacturer systemVendor) labels in
            let labels := put_label "device.system-product"
                            (models.SystemVendor_ProductName systemVendor) labels in
            put_label "device.system-serial" (models.SystemVendor_SerialNumber systemVendor) labels
        end in
      Some labels
  end.
End Labels.

(** ** Lemmas *)

Lemma map_pointers_cases {A B} (f : A -> B) l :
  (None ∈ elems l /\ map_pointers f l = Panicked) \/
  (Forall is_Some (elems l) /\
   map_pointers f l = Done (Some (option_map f <$> elems l))).
Proof.
  unfold map_pointers. destruct (None_in_dec (elems l)) as [Hn|Hs]; [left|right].
  - by rewrite mapM_deref_Panicked.
  - rewrite mapM_deref_Done by done. split; [done|]. simpl. do 2 f_equal.
    induction Hs as [|p l' [a ->] _ IH]; [done|]. simpl. by f_equal.
Qed.

(** A report every element of which is there. *)
Definition no_nil_element (h : models.HardwareInfo) : Prop :=
  (None ∉ elems (models.HardwareInfo_Disks h)) /\
  (None ∉ elems (models.HardwareInfo_HostDevices h)) /\
  (None ∉ elems (models.HardwareInfo_Mounts h)).

Lemma Forall_is_Some_None {A} (l : list (option A)) : Forall is_Some l -> None ∉ l.
Proof. rewrite Forall_forall. intros Hl Hn. by destruct (Hl _ Hn). Qed.

(** ** What a report and the hardware of a device have in common

    The fields of the resource, each with the one of the report it shows. *)

(** Disks. *)
Record same_disk (r : models.Disk) (d : v1alpha1.Disk) : Prop := {
  same_disk_Bootable : v1alpha1.Disk_Bootable d = models.Disk_Bootable r;
  same_disk_ByID : v1alpha1.Disk_ByID d = models.Disk_ByID r;
  same_disk_ByPath : v1alpha1.Disk_ByPath d = models.Disk_ByPath r;
  same_disk_DriveType : v1alpha1.Disk_DriveType d = models.Disk_DriveType r;
  same_disk_Hctl : v1alpha1.Disk_Hctl d = models.Disk_Hctl r;
  same_disk_ID : v1alpha1.Disk_ID d = models.Disk_ID r;
  same_disk_IsInstallationMedia : v1alpha1.Disk_IsInstallationMedia d = models.Disk_IsInstallationMedia r;
  same_disk_Model : v1alpha1.Disk_Model d = models.Disk_Model r;
  same_disk_Name : v1alpha1.Disk_Name d = models.Disk_Name r;
  same_disk_Path : v1alpha1.Disk_Path d = models.Disk_Path r;
  same_disk_Serial : v1alpha1.Disk_Serial d = models.Disk_Serial r;
  same_disk_SizeBytes : v1alpha1.Disk_SizeBytes d = models.Disk_SizeBytes r;
  same_disk_Smart : v1alpha1.Disk_Smart d = models.Disk_Smart r;
  same_disk_Vendor : v1alpha1.Disk_Vendor d = models.Disk_Vendor r;
  same_disk_Wwn : v1alpha1.Disk_Wwn d = models.Disk_Wwn r;
  same_disk_IoPerf : option_Forall2 (fun r d =>
    v1alpha1.IoPerf_SyncDuration d = models.IoPerf_SyncDuration r) (models.Disk_IoPerf r)
    (v1alpha1.Disk_IoPerf d);
}.
(** GPUs. *)
Record same_gpu (r : models.Gpu) (d : v1alpha1.Gpu) : Prop := {
  same_gpu_Address : v1alpha1.Gpu_Address d = models.Gpu_Address r;
  same_gpu_DeviceID : v1alpha1.Gpu_DeviceID d = models.Gpu_DeviceID r;
  same_gpu_Name : v1alpha1.Gpu_Name d = models.Gpu_Name r;
  same_gpu_Vendor : v1alpha1.Gpu_Vendor d = models.Gpu_Vendor r;
  same_gpu_VendorID : v1alpha1.Gpu_VendorID d = models.Gpu_VendorID r;
}.
(** Network interfaces. *)
Record same_interface (r : models.Interface) (d : v1alpha1.Interface) : Prop := {
  same_interface_Biosdevname : v1alpha1.Interface_Biosdevname d = models.Interface_Biosdevname r;
  same_interface_ClientID : v1alpha1.Interface_ClientID d = models.Interface_ClientID r;
  same_interface_Flags : v1alpha1.Interface_Flags d = models.Interface_Flags r;
  same_interface_HasCarrier : v1alpha1.Interface_HasCarrier d = models.Interface_HasCarrier r;
  same_interface_IPV4Addresses : v1alpha1.Interface_IPV4Addresses d = models.Interface_IPV4Addresses r;
  same_interface_IPV6Addresses : v1alpha1.Interface_IPV6Addresses d = models.Interface_IPV6Addresses r;
  same_interface_MacAddress : v1alpha1.Interface_MacAddress d = models.Interface_MacAddress r;
  same_interface_Mtu : v1alpha1.Interface_Mtu d = models.Interface_Mtu r;
  same_interface_Name : v1alpha1.Interface_Name d = models.Interface_Name r;
  same_interface_Product : v1alpha1.Interface_Product d = models.Interface_Product r;
  same_interface_SpeedMbps : v1alpha1.Interface_SpeedMbps d = models.Interface_SpeedMbps r;
  same_interface_Vendor : v1alpha1.Interface_Vendor d = models.Interface_Vendor r;
}.
(** Mounts. *)
Record same_mount (r : models.Mount) (d : v1alpha1.Mount) : Prop := {
  same_mount_Device : v1alpha1.Mount_Device d = models.Mount_Device r;
  same_mount_Directory : v1alpha1.Mount_Directory d = models.Mount_Directory r;
  same_mount_Type : v1alpha1.Mount_Type d = models.Mount_Type r;
  same_mount_Options : v1alpha1.Mount_Options d = models.Mount_Options r;
}.
(** Boot. *)
Record same_boot (r : models.Boot) (d : v1alpha1.Boot) : Prop := {
  same_boot_CurrentBootMode : v1alpha1.Boot_CurrentBootMode d = models.Boot_CurrentBootMode r;
  same_boot_PxeInterface : v1alpha1.Boot_PxeInterface d = models.Boot_PxeInterface r;
}.
(** Memory. *)
Record same_memory (r : models.Memory) (d : v1alpha1.Memory) : Prop := {
  same_memory_PhysicalBytes : v1alpha1.Memory_PhysicalBytes d = models.Memory_PhysicalBytes r;
  same_memory_UsableBytes : v1alpha1.Memory_UsableBytes d = models.Memory_UsableBytes r;
}.
(** The vendor. *)
Record same_vendor (r : models.SystemVendor) (d : v1alpha1.SystemVendor) : Prop := {
  same_vendor_Manufacturer : v1alpha1.SystemVendor_Manufacturer d = models.SystemVendor_Manufacturer r;
  same_vendor_ProductName : v1alpha1.SystemVendor_ProductName d = models.SystemVendor_ProductName r;
  same_vendor_SerialNumber : v1alpha1.SystemVendor_SerialNumber d = models.SystemVendor_SerialNumber r;
  same_vendor_Virtual : v1alpha1.SystemVendor_Virtual d = models.SystemVendor_Virtual r;
}.
(** [y] is the number without a sign that has the last 32 bits of [x]. *)
Definition last_32_bits (x y : Z) : Prop := (0 <= y < 2 ^ 32)%Z /\ (2 ^ 32 | x - y)%Z.

(** Host devices. *)
Record same_host_device (r : models.HostDevice) (d : v1alpha1.HostDevice) : Prop := {
  same_host_device_Path : v1alpha1.HostDevice_Path d = models.HostDevice_Path r;
  same_host_device_DeviceType : v1alpha1.HostDevice_DeviceType d = models.HostDevice_DeviceType r;
  same_host_device_UID : last_32_bits (models.HostDevice_UID r) (v1alpha1.HostDevice_UID d);
  same_host_device_GID : last_32_bits (models.HostDevice_Gid r) (v1alpha1.HostDevice_GID d);
  same_host_device_Major : last_32_bits (models.HostDevice_Major r) (v1alpha1.HostDevice_Major d);
  same_host_device_Minor : last_32_bits (models.HostDevice_Minor r) (v1alpha1.HostDevice_Minor d);
}.
(** The processor; its frequency is written with two digits after the point. *)
Record same_cpu (r : models.CPU) (d : v1alpha1.CPU) : Prop := {
  same_cpu_Architecture : v1alpha1.CPU_Architecture d = models.CPU_Architecture r;
  same_cpu_Count : v1alpha1.CPU_Count d = models.CPU_Count r;
  same_cpu_Flags : v1alpha1.CPU_Flags d = models.CPU_Flags r;
  same_cpu_Frequency : v1alpha1.CPU_Frequency d = sprintf_2f (models.CPU_Frequency r);
  same_cpu_ModelName : v1alpha1.CPU_ModelName d = models.CPU_ModelName r;
}.

(** The lists have the same elements in the same order, nil where the other
    is; the resource's is a list even where the report has none. *)
Definition same_list {A B} (R : A -> B -> Prop) (l : slice (option A)) (k : slice (option B)) : Prop :=
  k <> None /\ Forall2 (option_Forall2 R) (elems l) (elems k).

Record same_hardware (h : models.HardwareInfo) (hw : v1alpha1.Hardware) : Prop := {
  same_Hostname : v1alpha1.Hardware_Hostname hw = models.HardwareInfo_Hostname h;
  same_Disks : same_list same_disk (models.HardwareInfo_Disks h) (v1alpha1.Hardware_Disks hw);
  same_Gpus : same_list same_gpu (models.HardwareInfo_Gpus h) (v1alpha1.Hardware_Gpus hw);
  same_Interfaces :
    same_list same_interface (models.HardwareInfo_Interfaces h) (v1alpha1.Hardware_Interfaces hw);
  same_HostDevices :
    same_list same_host_device (models.HardwareInfo_HostDevices h) (v1alpha1.Hardware_HostDevices hw);
  same_Mounts : same_list same_mount (models.HardwareInfo_Mounts h) (v1alpha1.Hardware_Mounts hw);
  same_CPU : option_Forall2 same_cpu (models.HardwareInfo_CPU h) (v1alpha1.Hardware_CPU hw);
  same_Boot : option_Forall2 same_boot (models.HardwareInfo_Boot h) (v1alpha1.Hardware_Boot hw);
  same_Memory : option_Forall2 same_memory (models.HardwareInfo_Memory h) (v1alpha1.Hardware_Memory hw);
  same_SystemVendor :
    option_Forall2 same_vendor (models.HardwareInfo_SystemVendor h) (v1alpha1.Hardware_SystemVendor hw);
}.

Lemma last_32_bits_to_uint32 x : last_32_bits x (to_uint32 x).
Proof.
  split; [apply to_uint32_range|]. unfold to_uint32. apply Z.mod_divide; [done|].
  rewrite Zminus_mod_idemp_r, Z.sub_diag. done.
Qed.

Lemma same_MapDisk r : same_disk r (MapDisk r).
Proof. constructor; try done. cbn. by destruct (models.Disk_IoPerf r); constructor. Qed.
Lemma same_MapGpu r : same_gpu r (MapGpu r).
Proof. done. Qed.
Lemma same_MapInterface r : same_interface r (MapInterface r).
Proof. done. Qed.
Lemma same_MapHostDevice r : same_host_device r (MapHostDevice r).
Proof. constructor; try done; apply last_32_bits_to_uint32. Qed.
Lemma same_MapMount r : same_mount r (MapMount r).
Proof. done. Qed.
Lemma same_MapCPU r : same_cpu r (MapCPU r).
Proof. done. Qed.
#[local] Hint Resolve same_MapDisk same_MapGpu same_MapInterface same_MapHostDevice same_MapMount
  same_MapCPU : core.

Lemma same_option {A B} (R : A -> B -> Prop) f (p : option A) :
  (forall a, R a (f a)) -> option_Forall2 R p (option_map f p).
Proof. intros Hf. destruct p; by constructor. Qed.
Lemma same_cast {A B} (R : A -> B -> Prop) f l :
  (forall a, R a (f a)) -> same_list R l (Some (option_map f <$> elems l)).
Proof.
  intros Hf. split; [done|]. cbn [elems default from_option id]. apply Forall2_fmap_r, Forall_Forall2_diag.
  apply Forall_true. intros p. by apply same_option.
Qed.

(** C40: [MapHardware] maps a report exactly when none of its disks, host
    devices and mounts is nil, and panics otherwise; the absent report is
    mapped to no hardware.  What it returns shows the report: the same host
    name, disks, GPUs, interfaces, host devices and mounts, in the same order
    and each with all its fields, the same processor, boot mode, memory and
    vendor where the report has them; the numbers of a host device are cut to
    32 bits, and the frequency of the processor is written with two digits
    after the point. *)
Theorem MapHardware_total hardware :
  match hardware, MapHardware hardware with
  | None, result => result = Done None
  | Some h, Done (Some hw) => no_nil_element h /\ same_hardware h hw
  | Some h, Done None => False
  | Some h, Panicked => ~ no_nil_element h
  end.
Proof.
  destruct hardware as [h|]; [|done]. unfold MapHardware, no_nil_element.
  destruct (map_pointers_cases MapDisk (models.HardwareInfo_Disks h)) as [[H1 ->]|[H1 ->]];
    [simpl; tauto|].
  destruct (map_pointers_cases MapHostDevice (models.HardwareInfo_HostDevices h))
    as [[H2 ->]|[H2 ->]]; [simpl; tauto|].
  destruct (map_pointers_cases MapMount (models.HardwareInfo_Mounts h))
    as [[H3 ->]|[H3 ->]]; [simpl; tauto|].
  split; [split_and!; by apply Forall_is_Some_None|].
  constructor; try (by apply same_cast); try done; by apply same_option.
Qed.

(** The numbers of a host device survive the mapping exactly when they
    fit in 32 bits without a sign; otherwise they wrap around. *)
Theorem MapHostDevice_lossless h :
  let fits x := (0 <= x < 2 ^ 32)%Z in
  (v1alpha1.HostDevice_UID (MapHostDevice h) = models.HostDevice_UID h <->
     fits (models.HostDevice_UID h)) /\
  (v1alpha1.HostDevice_GID (MapHostDevice h) = models.HostDevice_Gid h <->
     fits (models.HostDevice_Gid h)) /\
  (v1alpha1.HostDevice_Major (MapHostDevice h) = models.HostDevice_Major h <->
     fits (models.HostDevice_Major h)) /\
  (v1alpha1.HostDevice_Minor (MapHostDevice h) = models.HostDevice_Minor h <->
     fits (models.HostDevice_Minor h)).
Proof.
  assert (forall x, to_uint32 x = x <-> (0 <= x < 2 ^ 32)%Z) as Hx.
  { intros x. split; [|apply to_uint32_id]. intros <-. apply to_uint32_range. }
  cbn. split_and!; apply Hx.
Qed.

Section LabelLemmas.
Context `{Unicode}.

(** The labels a report asks for: name and free text. *)
Definition label_texts (h : models.HardwareInfo) : list (string * string) :=
  [("device.hostname", models.HardwareInfo_Hostname h)] ++
  match models.HardwareInfo_CPU h with
  | None => []
  | Some cpu => [("device.cpu-architecture", models.CPU_Architecture cpu);
                 ("device.cpu-model", models.CPU_ModelName cpu)]
  end ++
  match models.HardwareInfo_SystemVendor h with
  | None => []
  | Some v => [("device.system-manufacturer", models.SystemVendor_Manufacturer v);
               ("device.system-product", models.SystemVendor_ProductName v);
               ("device.system-serial", models.SystemVendor_SerialNumber v)]
  end.

Definition put_labels (l : list (string * string)) : gmap string string :=
  foldl (fun m '(name, text) => put_label name text m) ∅ l.

Lemma MapLabels_put_labels h : MapLabels (Some h) = Some (put_labels (label_texts h)).
Proof.
  unfold MapLabels, label_texts, put_labels.
  by destruct (models.HardwareInfo_CPU h), (models.HardwareInfo_SystemVendor h).
Qed.

Lemma put_label_lookup name text labels k :
  put_label name text labels !! k =
    if decide (k = name) then
      match NormalizeLabel text with (v, None) => Some v | (_, Some _) => labels !! k end
    else labels !! k.
Proof.
  unfold put_label. case_decide as E; destruct (NormalizeLabel text) as [v [e|]]; subst;
    rewrite ?lookup_insert_eq, ?lookup_insert_ne by done; done.
Qed.

Lemma put_labels_lookup l k v :
  NoDup l.*1 ->
  put_labels l !! k = Some v <-> exists text, (k, text) ∈ l /\ NormalizeLabel text = (v, None).
Proof.
  unfold put_labels. revert v.
  induction l as [|[name text] l IH] using rev_ind; intros v Hnd.
  - simpl. rewrite lookup_empty. split; [done|]. intros (text & Hl & _). by apply elem_of_nil in Hl.
  - rewrite foldl_snoc, put_label_lookup.
    rewrite fmap_app in Hnd. apply NoDup_app in Hnd as (Hnd & Hdis & _).
    case_decide as E; [subst k|].
    + assert (foldl (fun m '(n, t) => put_label n t m) ∅ l !! name = None) as Hnone.
      { apply eq_None_not_Some. intros [v' Hv']. apply IH in Hv' as (t & Ht & _); [|done].
        apply (Hdis name); [|by left]. apply list_elem_of_fmap. by exists (name, t). }
      rewrite Hnone. split.
      * destruct (NormalizeLabel text) as [v' [e|]] eqn:Ev; intros [= ->]. exists text.
        rewrite elem_of_app. split; [right; by left|done].
      * intros (t & [Ht|Ht%list_elem_of_singleton]%elem_of_app & Hv).
        -- destruct (Hdis name); [|by left]. apply list_elem_of_fmap. by exists (name, t).
        -- simplify_eq. by rewrite Hv.
    + rewrite IH by done. split.
      * intros (t & Ht & Hv). exists t. rewrite elem_of_app. eauto.
      * intros (t & [Ht|Ht%list_elem_of_singleton]%elem_of_app & Hv); [eauto|]. by simplify_eq.
Qed.

Lemma label_texts_NoDup h : NoDup (label_texts h).*1.
Proof.
  unfold label_texts.
  destruct (models.HardwareInfo_CPU h), (models.HardwareInfo_SystemVendor h); simpl;
    refine (bool_decide_unpack _ _); vm_compute; exact I.
Qed.
End LabelLemmas.

(** [MapLabels] is the set of labels a report asks for: a label is there
    exactly when the report has a text for it that normalizes, its value is
    the normalized text, and so whatever a device reports, every value only
    holds characters a label value may have. *)
Theorem MapLabels_spec `{Unicode} h k v :
  map_get (MapLabels (Some h)) k = Some v <->
  exists text, (k, text) ∈ label_texts h /\ NormalizeLabel text = (v, None) /\
    label_bytes (bytes v).
Proof.
  rewrite MapLabels_put_labels. unfold map_get. simpl.
  rewrite put_labels_lookup by apply label_texts_NoDup. split.
  - intros (text & Hin & Hn). exists text. split_and!; [done..|].
    apply bytes_NormalizeLabel in Hn as (i & j & _ & _ & ->). apply label_bytes_filter.
  - intros (text & ? & ? & _). by exists text.
Qed.
