(* ===== verification/ConfigSources.v ===== *)
(** * Config maps, allow-lists and registry credentials of a workload

    internal/edgeapi/configmaps/configmaps.go,
    internal/edgeapi/devicemetrics/allow-lists.go and
    internal/edgeapi/images/registry-auth.go. *)
From S2P Require Import Prelude GoData GoStrings V1alpha1 Models Env Testbed Utils.
Import v1alpha1.

(** ** allow-lists.go *)

Definition GenerateFromConfigMap `{Libs} (name namespace : string)
    : M (option models.MetricsAllowList * option error) :=
  '(cm, err) ← (call (GetConfigMap namespace name) : M _);
  match err with Some e => mret (None, Some e) | None =>
  match map_get (corev1.ConfigMap_Data cm) "metrics_list.yaml" with
  | None => mret (None, Some (ErrorString ("metrics_list.yaml not found in " +:+ namespace +:+ "/"
                                             +:+ name +:+ " config map")))
  | Some metricsList =>
      let '(mal, err) := yaml_AllowList metricsList in
      match err with Some e => mret (None, Some e) | None => mret (Some mal, None) end
  end end.

(** ** registry-auth.go *)

Definition GetAuthFileFromSecret (namespace name : string) : M (string * option error) :=
  '(secret, err) ← (call (GetSecret namespace name) : M _);
  match err with Some e => mret ("", Some e) | None =>
  match map_get (corev1.Secret_Data secret) ".dockerconfigjson" with
  | None => mret ("", Some (ErrorString (".dockerconfigjson not found in " +:+ namespace +:+ "/"
                                           +:+ name +:+ " Secret")))
  | Some authFile => mret (authFile, None)
  end end.

(** ** configmaps.go *)

Definition ref_EnvFrom (env : corev1.EnvFromSource) : outcome (bool * option bool * string) :=
  match corev1.ConfigMapRef env with
  | Some r => Done (true, corev1.Ref_Optional r, corev1.Ref_Name r)
  | None => Done (false, None, "")
  end.

(** [env.ValueFrom.ConfigMapKeyRef] dereferences [env.ValueFrom]. *)
Definition ref_Env (env : corev1.EnvVar) : outcome (bool * option bool * string * string) :=
  ValueFrom ← deref (corev1.EnvVar_ValueFrom env);
  match corev1.ConfigMapKeyRef ValueFrom with
  | Some r => Done (true, corev1.KeySelector_Optional r, corev1.KeySelector_Name r,
                    corev1.KeySelector_Key r)
  | None => Done (false, None, "", "")
  end.

Definition ref_Volume (volume : corev1.Volume) : outcome (bool * option bool * string) :=
  match corev1.Volume_ConfigMap volume with
  | Some r => Done (true, corev1.Ref_Optional r, corev1.Ref_Name r)
  | None => Done (false, None, "")
  end.

Definition extractConfigMapsFromEnv (container : corev1.Container) (configmapMap : MapType)
    : outcome MapType :=
  configmapMap ← ExtractInfoFromEnvFrom (elems (corev1.Container_EnvFrom container))
                   configmapMap ref_EnvFrom;
  ExtractInfoFromEnv (elems (corev1.Container_Env container)) configmapMap ref_Env.

(** The loop of [Fetch] over the containers of the pod. *)
Fixpoint extractConfigMaps (volumes : slice corev1.Volume) (containers : list corev1.Container)
    (cmMap : MapType) : outcome MapType :=
  match containers with
  | [] => Done cmMap
  | container :: containers' =>
      cmMap ← extractConfigMapsFromEnv container cmMap;
      cmMap ← ExtractInfoFromVolume (elems volumes) cmMap ref_Volume;
      extractConfigMaps volumes containers' cmMap
  end.

Definition readAndValidateConfigMap (configmapName configmapNamespace : string)
    (configmapKeys : StringSet) : M (option corev1.ConfigMap * option error) :=
  '(configmapObj, err) ← (call (GetConfigMap configmapNamespace configmapName) : M _);
  match err with
  | Some e =>
      if IsNotFound e && bool_decide (configmapKeys = None) then mret (None, None)
      else mret (None, Some e)
  | None =>
      keys ← range_set configmapKeys;
      match first_missing_key keys (corev1.ConfigMap_Data configmapObj) with
      | Some key =>
          mret (None, Some (ErrorString ("missing configmap key. configmap: " +:+ configmapName +:+
                  ". key: " +:+ key +:+ ". Namespace: " +:+ configmapNamespace)))
      | None => mret (Some configmapObj, None)
      end
  end.

(** The object a device receives: only its name and its data are kept. *)
Definition sent_configmap (name : string) (cm : corev1.ConfigMap) : corev1.ConfigMap :=
  corev1.mkConfigMap (mkTypeMeta "ConfigMap" "v1") (named name "")
    (corev1.ConfigMap_Data cm) (corev1.ConfigMap_BinaryData cm) (corev1.ConfigMap_Immutable cm).

(** One round of the loop over the collected references. *)
Definition Fetch_one `{Libs} (namespace : string) (list : list string)
    (x : string * StringSet) : M (ctl (Datatypes.list string) (option error)) :=
  let '(name, keys) := x in
  '(configmapObj, err) ← readAndValidateConfigMap name namespace keys;
  match err with
  | Some e => mret (Return (Some (WrapError ("Can't fetch the configmap " +:+ name +:+ "/" +:+
                                               namespace +:+ ": ") e)))
  | None =>
      match configmapObj with
      | None => mret (Next list)
      | Some configmapObj =>
          let '(obj, err) := yaml_ConfigMap (sent_configmap name configmapObj) in
          match err with
          | Some e => mret (Return (Some e))
          | None => mret (Next (list ++ [obj]))
          end
      end
  end.

Definition Fetch `{Libs} (workload : EdgeWorkload) (namespace : string)
    : M (slice string * option error) :=
  let podSpec := Pod_Spec (EdgeWorkloadSpec_Pod (EdgeWorkload_Spec workload)) in
  cmMap ← lift (extractConfigMaps (corev1.Volumes podSpec) (corev1.allContainers podSpec) ∅);
  order ← range_map (Some cmMap);
  res ← for_range order [] (Fetch_one namespace);
  match res with
  | Next list => mret (Some list, None)
  | Return err => mret (None, err)
  end.

(** ** What a workload asks of config maps *)

Definition envFrom_ref (env : corev1.EnvFromSource) : option reference :=
  (fun r => (corev1.Ref_Name r,
             if default false (corev1.Ref_Optional r) then None else Some ∅)) <$>
    corev1.ConfigMapRef env.
Definition env_ref (env : corev1.EnvVar) : option reference :=
  vf ← corev1.EnvVar_ValueFrom env;
  (fun r => (corev1.KeySelector_Name r,
             if default false (corev1.KeySelector_Optional r) then None
             else Some {[corev1.KeySelector_Key r]})) <$> corev1.ConfigMapKeyRef vf.
Definition volume_ref (volume : corev1.Volume) : option reference :=
  (fun r => (corev1.Ref_Name r,
             if default false (corev1.Ref_Optional r) then None else Some ∅)) <$>
    corev1.Volume_ConfigMap volume.

(** The references of the pod: the volumes count once per container. *)
Definition configmap_refs (p : corev1.PodSpec) : list reference :=
  concat ((fun c => omap envFrom_ref (elems (corev1.Container_EnvFrom c)) ++
                    omap env_ref (elems (corev1.Container_Env c)) ++
                    omap volume_ref (elems (corev1.Volumes p))) <$> corev1.allContainers p).

(** An environment variable with a literal value. *)
Definition has_plain_env (p : corev1.PodSpec) : Prop :=
  exists c env, c ∈ corev1.allContainers p /\ env ∈ elems (corev1.Container_Env c) /\
    corev1.EnvVar_ValueFrom env = None.

Lemma ExtractInfoFromEnvFrom_refs l m :
  ExtractInfoFromEnvFrom l m ref_EnvFrom = Done (foldl add_ref m (omap envFrom_ref l)).
Proof.
  revert m. induction l as [|env l IH]; intros m; [done|]. simpl.
  unfold ref_EnvFrom at 1, envFrom_ref at 1.
  destruct (corev1.ConfigMapRef env) as [r|]; simpl; [|apply IH].
  by rewrite IH, ref_object_add_ref.
Qed.

Lemma ExtractInfoFromVolume_refs l m :
  ExtractInfoFromVolume l m ref_Volume = Done (foldl add_ref m (omap volume_ref l)).
Proof.
  revert m. induction l as [|env l IH]; intros m; [done|]. simpl.
  unfold ref_Volume at 1, volume_ref at 1.
  destruct (corev1.Volume_ConfigMap env) as [r|]; simpl; [|apply IH].
  by rewrite IH, ref_object_add_ref.
Qed.

Lemma ExtractInfoFromEnv_refs l m :
  match ExtractInfoFromEnv l m ref_Env with
  | Done m' => m' = foldl add_ref m (omap env_ref l) /\
               Forall (fun env => corev1.EnvVar_ValueFrom env <> None) l
  | Panicked => exists env, env ∈ l /\ corev1.EnvVar_ValueFrom env = None
  end.
Proof.
  revert m. induction l as [|env l IH]; intros m; [done|]. simpl.
  unfold ref_Env at 1, env_ref at 1.
  destruct (corev1.EnvVar_ValueFrom env) as [vf|] eqn:Ev; simpl.
  2:{ exists env. split; [left|done]. }
  destruct (corev1.ConfigMapKeyRef vf) as [r|]; simpl;
    try rewrite ref_key_add_ref;
    match goal with |- context [ExtractInfoFromEnv l ?m' ref_Env] => specialize (IH m') end;
    (destruct (ExtractInfoFromEnv l _ ref_Env) as [m'|];
     [destruct IH as [-> IH]; split; [done|by constructor; [rewrite Ev|]]
     |destruct IH as (e & ? & ?); exists e; split; [by right|done]]).
Qed.

Lemma extractConfigMaps_refs volumes cs m :
  match extractConfigMaps volumes cs m with
  | Done m' =>
      m' = foldl add_ref m (concat ((fun c =>
             omap envFrom_ref (elems (corev1.Container_EnvFrom c)) ++
             omap env_ref (elems (corev1.Container_Env c)) ++
             omap volume_ref (elems volumes)) <$> cs)) /\
      Forall (fun c => Forall (fun env => corev1.EnvVar_ValueFrom env <> None)
                         (elems (corev1.Container_Env c))) cs
  | Panicked => exists c env, c ∈ cs /\ env ∈ elems (corev1.Container_Env c) /\
                  corev1.EnvVar_ValueFrom env = None
  end.
Proof.
  revert m. induction cs as [|c cs IH]; intros m; [simpl; by split|].
  cbn [extractConfigMaps fmap list_fmap concat]. unfold extractConfigMapsFromEnv.
  rewrite ExtractInfoFromEnvFrom_refs. cbn [mbind outcome_mbind].
  match goal with |- context [ExtractInfoFromEnv ?l ?m' ref_Env] =>
    pose proof (ExtractInfoFromEnv_refs l m') as He;
    destruct (ExtractInfoFromEnv l m' ref_Env) as [m1|] end.
  - destruct He as [-> He]. cbn [mbind outcome_mbind].
    rewrite ExtractInfoFromVolume_refs. cbn [mbind outcome_mbind].
    match goal with |- context [extractConfigMaps volumes cs ?m'] =>
      specialize (IH m'); destruct (extractConfigMaps volumes cs m') as [m2|] end.
    + destruct IH as [-> IH]. rewrite !foldl_app. split; [done|by constructor].
    + destruct IH as (c' & env & Hc & ?). exists c', env. split; [by right|done].
  - cbn [mbind outcome_mbind]. destruct He as (env & ? & ?).
    exists c, env. split; [left|done].
Qed.

(** What became of one reference: the object was read and has the keys, or it
    is optional and not there. *)
Definition resolved (namespace name : string) (keys : StringSet) (cm : option corev1.ConfigMap)
    (t : list Event) : Prop :=
  match cm with
  | Some cm => Ev (GetConfigMap namespace name) (cm, None) ∈ t /\
               has_keys keys (corev1.ConfigMap_Data cm)
  | None => keys = None /\ exists cm e, Ev (GetConfigMap namespace name) (cm, Some e) ∈ t /\
              IsNotFound e = true
  end.

(** Why one reference could not be resolved. *)
Definition unresolved (namespace name : string) (keys : StringSet) (t : list Event) : Prop :=
  (exists cm e, Ev (GetConfigMap namespace name) (cm, Some e) ∈ t /\
     (IsNotFound e = false \/ keys <> None)) \/
  (exists cm key, Ev (GetConfigMap namespace name) (cm, None) ∈ t /\
     key ∈ mandatory keys /\ map_get (corev1.ConfigMap_Data cm) key = None).

Lemma exec_readAndValidateConfigMap name namespace keys t o :
  exec (readAndValidateConfigMap name namespace keys) t o ->
  exists cm err, o = Done (cm, err) /\
    match err with
    | None => resolved namespace name keys cm t
    | Some _ => cm = None /\ unresolved namespace name keys t
    end.
Proof.
  intros He. unfold readAndValidateConfigMap in He. exec_step.
  destruct err as [e|].
  - destruct (IsNotFound e && bool_decide (keys = None)) eqn:Eb; exec_step.
    + apply andb_prop in Eb as [Hn Hk%bool_decide_eq_true].
      eexists None, None. split; [done|]. split; [done|]. eexists _, e. split; [left|done].
    + eexists None, (Some e). split; [done|]. split; [done|]. left. eexists _, e.
      split; [left|]. apply andb_false_iff in Eb as [?|?%bool_decide_eq_false]; auto.
  - exec_step. destruct (first_missing_key _ _) as [key|] eqn:Ef; exec_step.
    + apply first_missing_key_Some in Ef as [Hk Hm]. eexists None, (Some _).
      split; [done|]. split; [done|]. right. exists obj, key. split; [left|done].
    + apply first_missing_key_None in Ef. eexists (Some obj), None. split; [done|].
      split; [left|done].
Qed.

Lemma resolved_mono namespace name keys cm t t' :
  t ⊆ t' -> resolved namespace name keys cm t -> resolved namespace name keys cm t'.
Proof.
  intros Ht. destruct cm as [cm|]; simpl.
  - intros [? ?]. split; [by apply Ht|done].
  - intros (? & c & e & ? & ?). split; [done|]. exists c, e. split; [by apply Ht|done].
Qed.
Lemma unresolved_mono namespace name keys t t' :
  t ⊆ t' -> unresolved namespace name keys t -> unresolved namespace name keys t'.
Proof.
  intros Ht [(cm & e & Hi & ?)|(cm & key & Hi & ?)]; [left|right].
  - exists cm, e. split; [by apply Ht|done].
  - exists cm, key. split; [by apply Ht|done].
Qed.

(** What [Fetch] hands to the device for the objects it resolved. *)
Definition sent_configmaps `{Libs} (l : list (string * StringSet * option corev1.ConfigMap))
    : list string :=
  omap (fun '(name, _, cm) => (fun cm => (yaml_ConfigMap (sent_configmap name cm)).1) <$> cm) l.

Definition pod_of (workload : EdgeWorkload) : corev1.PodSpec :=
  Pod_Spec (EdgeWorkloadSpec_Pod (EdgeWorkload_Spec workload)).

Section FetchLoop.
Context `{Libs} (namespace : string) (order : list (string * StringSet)).

Definition got (x : string * StringSet) (cm : option corev1.ConfigMap) (t : list Event) : Prop :=
  resolved namespace x.1 x.2 cm t.
Definition emitted (x : string * StringSet) (cm : corev1.ConfigMap) : string :=
  (yaml_ConfigMap (sent_configmap x.1 cm)).1.
Definition failed (err : option error) (t : list Event) : Prop :=
  exists e name keys, err = Some e /\ (name, keys) ∈ order /\
    (unresolved namespace name keys t \/
     exists cm, (yaml_ConfigMap (sent_configmap name cm)).2 = Some e).

Lemma exec_Fetch_one list x t1 t o :
  x ∈ order ->
  exec (Fetch_one namespace list x) t o ->
  match o with
  | Done (Next list') => exists cm, got x cm t /\ list' = list ++ option_list (emitted x <$> cm)
  | Done (Return err) => failed err (t1 ++ t)
  | Panicked => False
  end.
Proof.
  intros Hx He. destruct x as [name keys]. unfold Fetch_one in He.
  apply exec_bind_inv in He as [[He ->]|([cm err] & t2 & t3 & -> & H1 & H2)];
    apply exec_readAndValidateConfigMap in He || apply exec_readAndValidateConfigMap in H1.
  - by destruct He as (? & ? & ? & _).
  - destruct H1 as (cm' & err' & [= <- <-] & H1). destruct err as [e|].
    + apply exec_Ret_inv in H2 as [-> ->]. destruct H1 as [-> H1].
      eexists _, name, keys. split_and!; [done|done|]. left.
      eapply unresolved_mono; [|exact H1]. set_solver.
    + destruct cm as [cm|].
      * destruct (yaml_ConfigMap _) as [obj [e|]] eqn:Ey; apply exec_Ret_inv in H2 as [-> ->].
        -- exists e, name, keys. split_and!; [done|done|]. right. exists cm. simpl in Ey. by rewrite Ey.
        -- exists (Some cm). rewrite app_nil_r. split; [done|]. unfold emitted. simpl in *.
           by rewrite Ey.
      * apply exec_Ret_inv in H2 as [-> ->]. exists None. rewrite !app_nil_r. done.
Qed.
End FetchLoop.

(** Every config map the pod refers to has been accounted for exactly once:
    read with all the keys asked for and sent, or optional and not there. *)
Definition configmaps_accounted `{Libs} (p : corev1.PodSpec) (namespace : string)
    (texts : list string) (t : list Event) : Prop :=
  exists l, texts = sent_configmaps l /\ NoDup l.*1.*1 /\
    (forall name keys, (name, keys) ∈ l.*1 <-> asked name (configmap_refs p) = Some keys) /\
    Forall (fun '(name, keys, cm) => resolved namespace name keys cm t) l.

(** The loop of [Fetch]. *)
Lemma exec_Fetch `{Libs} workload namespace t o :
  exec (Fetch workload namespace) t o ->
  match o with
  | Panicked => has_plain_env (pod_of workload)
  | Done (None, None) => False
  | Done (Some list, None) =>
      configmaps_accounted (pod_of workload) namespace list t
  | Done (list, Some e) => list = None /\
      exists name keys, asked name (configmap_refs (pod_of workload)) = Some keys /\
        (unresolved namespace name keys t \/
         exists cm, (yaml_ConfigMap (sent_configmap name cm)).2 = Some e)
  end.
Proof.
  intros He. unfold Fetch in He. fold (pod_of workload) in He.
  pose proof (extractConfigMaps_refs (corev1.Volumes (pod_of workload))
                (corev1.allContainers (pod_of workload)) ∅) as Hx.
  destruct (extractConfigMaps _ _ _) as [m|]; [|by apply exec_Panic_inv in He as [_ ->]].
  destruct Hx as [Hm _]. fold (configmap_refs (pod_of workload)) in Hm.
  assert (forall name, m !! name = asked name (configmap_refs (pod_of workload))) as Hlook.
  { intros name. rewrite Hm, add_refs_lookup, lookup_empty. by destruct (asked _ _). }
  cbn [lift mbind prog_mbind prog_bind mret prog_mret] in He.
  apply exec_bind_inv in He as [[He ->]|(order & t1 & t2 & -> & H1 & H2)];
    [by apply exec_range_map in He as (? & _ & ?)|].
  apply exec_range_map in H1 as (seed & -> & [= ->]).
  set (order := range seed (Some m)) in *.
  assert (forall name keys, (name, keys) ∈ order <->
            asked name (configmap_refs (pod_of workload)) = Some keys) as Horder.
  { intros name keys. unfold order. rewrite elem_of_range, <-Hlook. done. }
  pose proof (for_range_collect (got namespace) emitted (failed namespace order)
    (fun _ => False) (Fetch_one namespace) order) as Hloop.
  apply exec_bind_inv in H2 as [[H2 ->]|(res & t3 & t4 & -> & H2 & H3)];
    (apply Hloop in H2; [|intros acc x t5 t6 o6; apply exec_Fetch_one]); [done|].
  destruct res as [list|err]; apply exec_Ret_inv in H3 as [-> ->]; rewrite app_nil_r.
  - destruct H2 as (l & Hl & -> & HF). exists l. split_and!.
    + unfold sent_configmaps. clear. induction l as [|[[name keys] cm] l IH]; [done|].
      destruct cm as [cm|]; [|exact IH]. exact (f_equal (cons _) IH).
    + rewrite Hl. apply NoDup_fst_range.
    + by rewrite Hl.
    + eapply Forall_impl; [exact HF|]. intros [[name keys] cm] (t5 & Ht & Hg).
      eapply resolved_mono; [|exact Hg]. set_solver.
  - destruct H2 as (e & name & keys & -> & Hin & Hf). split; [done|].
    exists name, keys. split; [by apply Horder|]. destruct Hf as [Hf|Hf]; [left|by right].
    eapply unresolved_mono; [|exact Hf]. set_solver.
Qed.

Lemma ExtractInfoFromEnv_panics l m env :
  env ∈ l -> corev1.EnvVar_ValueFrom env = None -> ExtractInfoFromEnv l m ref_Env = Panicked.
Proof.
  intros Hin Hv. pose proof (ExtractInfoFromEnv_refs l m) as He.
  destruct (ExtractInfoFromEnv l m ref_Env); [|done]. destruct He as [_ He].
  rewrite Forall_forall in He. by destruct (He env Hin).
Qed.

Lemma extractConfigMaps_panics p m :
  has_plain_env p -> extractConfigMaps (corev1.Volumes p) (corev1.allContainers p) m = Panicked.
Proof.
  intros (c & env & Hc & Henv & Hv).
  pose proof (extractConfigMaps_refs (corev1.Volumes p) (corev1.allContainers p) m) as He.
  destruct (extractConfigMaps _ _ _); [|done]. destruct He as [_ He].
  rewrite Forall_forall in He. specialize (He c Hc). rewrite Forall_forall in He.
  by destruct (He env Henv).
Qed.

(** ** Properties *)

(** When [Fetch] succeeds, every config map the pod refers to, whether
    from an environment source, a key or a volume, of an init container or
    not, has been accounted for exactly once: it was read and has every key
    that some mandatory reference asks for, and its YAML is in the list, or all
    references to it are optional and the API server said it does not exist;
    and nothing else is in the list. *)
Theorem Fetch_complete `{Libs} workload namespace t list :
  exec (Fetch workload namespace) t (Done (Some list, None)) ->
  configmaps_accounted (pod_of workload) namespace list t.
Proof. intros He. exact (exec_Fetch _ _ _ _ He). Qed.

Definition config_pod : corev1.PodSpec :=
  corev1.mkPodSpec (Some [corev1.mkVolume "v" None (Some (corev1.mkOptionalRef "cm2" (Some true))) ""])
    None
    (Some [corev1.mkContainer "c" None None
       (Some [corev1.mkEnvVar "E" "" (Some (corev1.mkEnvVarSource None None
          (Some (corev1.mkKeySelector "cm1" "k" None)) None))])
       None None None None None None None ""]) "".
Definition workload_with (p : corev1.PodSpec) : EdgeWorkload :=
  mkEdgeWorkload empty_TypeMeta (named "w" "ns")
    (mkEdgeWorkloadSpec None "" "pod" (mkPod p) None None None "") mkEdgeWorkloadStatus.
Definition config_world : World :=
  set_configmaps {[("ns", "cm1") := corev1.mkConfigMap empty_TypeMeta (named "cm1" "ns")
    (Some {["k" := "v"]}) None None]} empty_world.

Lemma Fetch_complete_witness :
  run_result (@Fetch trivial_libs (workload_with config_pod) "ns") config_world =
    Done (Some [""], None) /\
  exists l : list (string * StringSet * option corev1.ConfigMap),
    asked "cm1" (configmap_refs config_pod) = Some (Some {["k"]}) /\
    ("cm1", Some {["k"]}) ∈ l.*1.
Proof.
  split; [vm_compute; reflexivity|].
  destruct (@Fetch_complete trivial_libs (workload_with config_pod) "ns" _ [""]
              (run_result_exec (@Fetch trivial_libs (workload_with config_pod) "ns") config_world))
    as (l & _ & _ & Hl & _).
  exists l. assert (asked "cm1" (configmap_refs config_pod) = Some (Some {["k"]})) as Ha
    by (vm_compute; reflexivity).
  split; [exact Ha|]. apply (proj2 (Hl _ _)). exact Ha.
Defined.

(** A workload with an ordinary environment variable, one with a literal
    value, makes [Fetch] panic before it asks the API server for anything: the
    callback for variables dereferences [ValueFrom] before the caller tests it
    for nil. *)
Theorem Fetch_panics_on_plain_env `{Libs} workload namespace t o :
  has_plain_env (pod_of workload) ->
  exec (Fetch workload namespace) t o -> o = Panicked /\ t = [].
Proof.
  intros Hp He. unfold Fetch in He. fold (pod_of workload) in He.
  rewrite extractConfigMaps_panics in He by done.
  by apply exec_Panic_inv in He as [-> ->].
Qed.

Definition plain_pod : corev1.PodSpec :=
  corev1.mkPodSpec None None (Some [corev1.mkContainer "c" None None
    (Some [corev1.mkEnvVar "LEVEL" "debug" None]) None None None None None None None ""]) "".

Lemma Fetch_panics_on_plain_env_witness :
  has_plain_env plain_pod /\
  run_result (@Fetch trivial_libs (workload_with plain_pod) "ns") config_world = Panicked.
Proof.
  assert (has_plain_env plain_pod) as Hp.
  { do 2 eexists. split; [left|]. split; [left|]. reflexivity. }
  split; [exact Hp|].
  exact (proj1 (@Fetch_panics_on_plain_env trivial_libs (workload_with plain_pod) "ns" _ _ Hp
           (run_result_exec _ config_world))).
Defined.
