(* ===== verification/Storage.v ===== *)
(** * Object storage of a device

    internal/common/storage/storage.go: which object storage a device uses, the
    claim created for it, and the connection parameters the device is sent. *)
From S2P Require Import Prelude GoData GoStrings V1alpha1 Models Env Testbed.
Import v1alpha1.

Definition getS3 (storageObj : option Storage) : option S3Storage :=
  match storageObj with Some s => Storage_S3 s | None => None end.

Definition ShouldUseExternalConfig (storageObj : option Storage) : bool :=
  match getS3 storageObj with
  | Some s3Obj =>
      bool_decide (S3Storage_ConfigMapName s3Obj <> "") ||
      bool_decide (S3Storage_SecretName s3Obj <> "")
  | None => false
  end.

Definition ShouldCreateOBC (storageObj : option Storage) : bool :=
  match getS3 storageObj with
  | Some s3Obj =>
      if negb (ShouldUseExternalConfig storageObj) then S3Storage_CreateOBC s3Obj else false
  | None => false
  end.

(** The claim is returned even when the call fails. *)
Definition GetClaim (name namespace : string) : M (ObjectBucketClaim * option error) :=
  call (GetOBC namespace name).

Definition CreateClaim (device : EdgeDevice) : M (ObjectBucketClaim * option error) :=
  call (CreateOBC (mkOBC (Name (EdgeDevice_ObjectMeta device))
                     (Namespace (EdgeDevice_ObjectMeta device))
                     (Name (EdgeDevice_ObjectMeta device)) "openshift-storage.noobaa.io")).

Abbreviation S3Result := (option models.S3StorageConfiguration * option error)%type.

Definition GetStorageConfiguration (device : option EdgeDevice) : M S3Result :=
  match device with
  | None => mret (None, Some (ErrorString "Cannot get device"))
  | Some device =>
  match EdgeDeviceStatus_DataOBC (EdgeDevice_Status device) with
  | None => mret (None, Some (ErrorString "Cannot get device OBC config"))
  | Some dataOBC =>
  let namespace := Namespace (EdgeDevice_ObjectMeta device) in
  '(obc, err) ← GetClaim dataOBC namespace;
  match err with Some e => mret (None, Some e) | None =>
  '(cm, err) ← (call (GetConfigMap namespace (OBC_Name obc)) : M _);
  match err with Some e => mret (None, Some e) | None =>
  let bucketName := default "" (map_get (corev1.ConfigMap_Data cm) "BUCKET_NAME") in
  '(host, err) ← (call (GetRouteHost "openshift-storage" "s3") : M _);
  match err with Some e => mret (None, Some e) | None =>
  '(secret, err) ← (call (GetSecret namespace (OBC_Name obc)) : M _);
  match err with Some e => mret (None, Some e) | None =>
  match map_get (corev1.Secret_Data secret) "AWS_ACCESS_KEY_ID" with
  | None => mret (None, Some (ErrorString "Cannot get AWS_ACCESS_KEY_ID"))
  | Some awsAccessKeyID =>
  match map_get (corev1.Secret_Data secret) "AWS_SECRET_ACCESS_KEY" with
  | None => mret (None, Some (ErrorString "Cannot get AWS_SECRET_ACCESS_KEY_ID"))
  | Some awsSecretAccessKey =>
  '(ca, err) ← (call (GetSecret "openshift-ingress-operator" "router-ca") : M _);
  match err with Some e => mret (None, Some e) | None =>
  let caBundle := match map_get (corev1.Secret_Data ca) "tls.crt" with
                  | Some caBundle => b64_encode caBundle | None => "" end in
  mret (Some (models.mkS3StorageConfiguration (b64_encode awsAccessKeyID) caBundle
                (b64_encode awsSecretAccessKey) host bucketName 443 "ignore"), None)
  end end end end end end end end end.

(** [types.NamespacedName.String()]. *)
Definition NamespacedName_String (namespace name : string) : string :=
  namespace +:+ "/" +:+ name.

Definition missing_field (field resource : string) : error :=
  ErrorString ("Missing field " +:+ field +:+ " in resource " +:+ resource).

(** [GetExternalStorageConfig] once both objects have been read. *)
Definition external_config `{Libs} (namespace : string) (s3 : S3Storage)
    (cm : corev1.ConfigMap) (secret : corev1.Secret) : S3Result :=
  let configMapFullName := NamespacedName_String namespace (S3Storage_ConfigMapName s3) in
  let secretFullName := NamespacedName_String namespace (S3Storage_SecretName s3) in
  let missing_cm f := (None, Some (missing_field f configMapFullName)) in
  let missing_secret f := (None, Some (missing_field f secretFullName)) in
  match map_get (corev1.ConfigMap_Data cm) "BUCKET_NAME" with
  | None => missing_cm "BUCKET_NAME" | Some bucketName =>
  match map_get (corev1.ConfigMap_Data cm) "BUCKET_HOST" with
  | None => missing_cm "BUCKET_HOST" | Some bucketHost =>
  match map_get (corev1.ConfigMap_Data cm) "BUCKET_PORT" with
  | None => missing_cm "BUCKET_PORT" | Some bucketPort =>
  match map_get (corev1.ConfigMap_Data cm) "BUCKET_REGION" with
  | None => missing_cm "BUCKET_REGION" | Some bucketRegion =>
  match map_get (corev1.Secret_Data secret) "AWS_ACCESS_KEY_ID" with
  | None => missing_secret "AWS_ACCESS_KEY_ID" | Some accessKeyID =>
  match map_get (corev1.Secret_Data secret) "AWS_SECRET_ACCESS_KEY" with
  | None => missing_secret "AWS_SECRET_ACCESS_KEY" | Some secretAccessKey =>
  let caBundle := default "" (map_get (corev1.Secret_Data secret) "tls.crt") in
  match ParsePort bucketPort with
  | (_, Some e) => (None, Some e)
  | (bucketPortNumeric, None) =>
      (Some (models.mkS3StorageConfiguration (b64_encode accessKeyID) (b64_encode caBundle)
               (b64_encode secretAccessKey) bucketHost bucketName
               (to_int32 bucketPortNumeric) bucketRegion), None)
  end end end end end end end.

Definition GetExternalStorageConfig `{Libs} (namespace : string) (storageConfig : option Storage)
    : M S3Result :=
  match getS3 storageConfig with
  | None => mret (None, Some (ErrorString "storage cannot be missing"))
  | Some s3 =>
  '(cm, err) ← (call (GetConfigMap namespace (S3Storage_ConfigMapName s3)) : M _);
  match err with Some e => mret (None, Some e) | None =>
  '(secret, err) ← (call (GetSecret namespace (S3Storage_SecretName s3)) : M _);
  match err with Some e => mret (None, Some e) | None =>
  mret (external_config namespace s3 cm secret)
  end end end.

(** ** Lemmas *)

Lemma GetStorageConfiguration_calls device : calls is_read (GetStorageConfiguration device).
Proof. unfold GetStorageConfiguration, GetClaim. calls_tac. Qed.

Lemma GetExternalStorageConfig_calls `{Libs} namespace s :
  calls is_read (GetExternalStorageConfig namespace s).
Proof. unfold GetExternalStorageConfig. calls_tac. Qed.

(** The credentials of a configuration are those of a secret, as the device
    decodes them. *)
Definition carries_credentials (conf : models.S3StorageConfiguration) (data : gomap string) : Prop :=
  map_get data "AWS_ACCESS_KEY_ID" =
    Some (b64_decode (models.S3StorageConfiguration_AwsAccessKeyID conf)) /\
  map_get data "AWS_SECRET_ACCESS_KEY" =
    Some (b64_decode (models.S3StorageConfiguration_AwsSecretAccessKey conf)).

(** The fields an external configuration needs, in the order they are looked
    for: name, resource, value. *)
Definition external_fields (namespace : string) (s3 : S3Storage) (cm : corev1.ConfigMap)
    (secret : corev1.Secret) : list (string * string * option string) :=
  let in_cm f := (f, NamespacedName_String namespace (S3Storage_ConfigMapName s3),
                  map_get (corev1.ConfigMap_Data cm) f) in
  let in_secret f := (f, NamespacedName_String namespace (S3Storage_SecretName s3),
                      map_get (corev1.Secret_Data secret) f) in
  [in_cm "BUCKET_NAME"; in_cm "BUCKET_HOST"; in_cm "BUCKET_PORT"; in_cm "BUCKET_REGION";
   in_secret "AWS_ACCESS_KEY_ID"; in_secret "AWS_SECRET_ACCESS_KEY"].

Definition first_missing (l : list (string * string * option string)) : option error :=
  head (omap (fun '(f, resource, v) => match v with
                                      | None => Some (missing_field f resource)
                                      | Some _ => None end) l).

(** What the device is to be told, field by field. *)
Definition external_conf_spec `{Libs} (cm : corev1.ConfigMap) (secret : corev1.Secret)
    (conf : models.S3StorageConfiguration) : Prop :=
  map_get (corev1.ConfigMap_Data cm) "BUCKET_NAME" =
    Some (models.S3StorageConfiguration_BucketName conf) /\
  map_get (corev1.ConfigMap_Data cm) "BUCKET_HOST" =
    Some (models.S3StorageConfiguration_BucketHost conf) /\
  map_get (corev1.ConfigMap_Data cm) "BUCKET_REGION" =
    Some (models.S3StorageConfiguration_BucketRegion conf) /\
  (exists port n, map_get (corev1.ConfigMap_Data cm) "BUCKET_PORT" = Some port /\
     ParsePort port = (n, None) /\ models.S3StorageConfiguration_BucketPort conf = to_int32 n) /\
  carries_credentials conf (corev1.Secret_Data secret) /\
  b64_decode (models.S3StorageConfiguration_AwsCaBundle conf) =
    default "" (map_get (corev1.Secret_Data secret) "tls.crt").

(** The two sources of a storage configuration exclude each other: a
    device specification asks for a claim only when it names neither a config
    map nor a secret, and never without an S3 section. *)
Theorem storage_sources_exclusive s :
  (ShouldCreateOBC s = true <->
     exists s3, getS3 s = Some s3 /\ S3Storage_CreateOBC s3 = true /\
       S3Storage_ConfigMapName s3 = "" /\ S3Storage_SecretName s3 = "") /\
  ShouldCreateOBC s && ShouldUseExternalConfig s = false.
Proof.
  unfold ShouldCreateOBC, ShouldUseExternalConfig.
  destruct (getS3 s) as [[secret cm create]|]; simpl.
  - repeat case_bool_decide; simpl; (split; [split|]); try done; try by rewrite andb_comm.
    all: try (intros (s3 & [= <-] & Hc & H1 & H2); simpl in *; congruence).
    intros Hc. by eexists.
  - split; [|done]. split; [done|]. by intros (? & ? & _).
Qed.

(** What the configuration must be once both objects have been read. *)
Definition external_outcome `{Libs} (namespace : string) (s3 : S3Storage) (cm : corev1.ConfigMap)
    (secret : corev1.Secret) (r : S3Result) : Prop :=
  match first_missing (external_fields namespace s3 cm secret) with
  | Some e => r = (None, Some e)
  | None =>
      match r with
      | (Some conf, err) => err = None /\ external_conf_spec cm secret conf
      | (None, err) => exists port e, map_get (corev1.ConfigMap_Data cm) "BUCKET_PORT" = Some port /\
                  (ParsePort port).2 = Some e /\ err = Some e
      end
  end.

Lemma external_config_outcome `{Libs} namespace s3 cm secret :
  external_outcome namespace s3 cm secret (external_config namespace s3 cm secret).
Proof.
  unfold external_outcome, external_config, first_missing, external_fields,
    external_conf_spec, carries_credentials.
  destruct (map_get (corev1.ConfigMap_Data cm) "BUCKET_NAME"); [|done].
  destruct (map_get (corev1.ConfigMap_Data cm) "BUCKET_HOST"); [|done].
  destruct (map_get (corev1.ConfigMap_Data cm) "BUCKET_PORT"); [|done].
  destruct (map_get (corev1.ConfigMap_Data cm) "BUCKET_REGION"); [|done].
  destruct (map_get (corev1.Secret_Data secret) "AWS_ACCESS_KEY_ID"); [|done].
  destruct (map_get (corev1.Secret_Data secret) "AWS_SECRET_ACCESS_KEY"); [|done].
  cbn [omap list_omap head]. destruct (ParsePort _) as [n [e|]] eqn:Ep.
  - eexists _, e. by rewrite Ep.
  - cbn. rewrite !b64_decode_encode. split_and!; try done. eexists _, n. by rewrite Ep.
Qed.

(** [GetExternalStorageConfig] reads the named config map and then the
    named secret of the namespace and passes on the first error; given both it
    reports the first field that is missing (with the field and the resource
    in the message), or the error of the port, or sends exactly the fields
    found, with the credentials and the CA bundle in a base64 form that
    decodes to the secret's bytes.  It never panics and writes nothing. *)
Theorem GetExternalStorageConfig_reference `{Libs} namespace storage t o :
  exec (GetExternalStorageConfig namespace storage) t o ->
  exists r, o = Done r /\
  match getS3 storage with
  | None => t = [] /\ r = (None, Some (ErrorString "storage cannot be missing"))
  | Some s3 =>
      exists cm e1 t1,
        t = Ev (GetConfigMap namespace (S3Storage_ConfigMapName s3)) (cm, e1) :: t1 /\
        match e1 with
        | Some e => t1 = [] /\ r = (None, Some e)
        | None =>
            exists secret e2,
              t1 = [Ev (GetSecret namespace (S3Storage_SecretName s3)) (secret, e2)] /\
              match e2 with
              | Some e => r = (None, Some e)
              | None => external_outcome namespace s3 cm secret r
              end
        end
  end.
Proof.
  intros He. unfold GetExternalStorageConfig in He.
  destruct (getS3 storage) as [s3|]; [|exec_step; by eexists].
  do 2 (exec_step; destruct err as [e|]; [exec_step; by repeat eexists|]).
  exec_step. eexists. split; [done|]. exists obj, None. eexists. split; [done|].
  exists obj0, None. split; [done|]. apply external_config_outcome.
Qed.

Definition external_world : World :=
  set_secrets {[("ns", "sec") := corev1.mkSecret (named "sec" "ns")
      (Some (<["AWS_ACCESS_KEY_ID" := "id"]> {["AWS_SECRET_ACCESS_KEY" := "key"]}))]}
  (set_configmaps {[("ns", "cm") := corev1.mkConfigMap empty_TypeMeta (named "cm" "ns")
      (Some (<["BUCKET_NAME" := "b"]> (<["BUCKET_HOST" := "h"]>
             {["BUCKET_PORT" := "8080"]}))) None None]} empty_world).

Lemma GetExternalStorageConfig_reference_witness :
  let storage := Some (mkStorage (Some (mkS3Storage "sec" "cm" false))) in
  let p := @GetExternalStorageConfig trivial_libs "ns" storage in
  run_result p external_world =
    Done (None, Some (ErrorString "Missing field BUCKET_REGION in resource ns/cm")) /\
  exists cm e1 t1, run_trace p external_world = Ev (GetConfigMap "ns" "cm") (cm, e1) :: t1.
Proof.
  cbv zeta. split; [vm_compute; reflexivity|].
  destruct (@GetExternalStorageConfig_reference trivial_libs "ns"
    (Some (mkStorage (Some (mkS3Storage "sec" "cm" false)))) _ _
    (run_result_exec _ external_world)) as (r & _ & cm & e1 & t1 & Ht & _).
  exists cm, e1, t1. exact Ht.
Defined.

(** When [GetStorageConfiguration] yields a configuration, the device has
    a claim, and the configuration was put together from the claim, the config
    map and the secret that carry the claim's name, the public route and the
    router's CA: the credentials decode to the secret's bytes, the port is
    443; a config map without a bucket name yields an empty one. *)
Theorem GetStorageConfiguration_sound device t conf err :
  exec (GetStorageConfiguration device) t (Done (Some conf, err)) ->
  err = None /\
  exists d dataOBC obc cm host secret ca,
    device = Some d /\ EdgeDeviceStatus_DataOBC (EdgeDevice_Status d) = Some dataOBC /\
    let ns := Namespace (EdgeDevice_ObjectMeta d) in
    t = [Ev (GetOBC ns dataOBC) (obc, None);
         Ev (GetConfigMap ns (OBC_Name obc)) (cm, None);
         Ev (GetRouteHost "openshift-storage" "s3") (host, None);
         Ev (GetSecret ns (OBC_Name obc)) (secret, None);
         Ev (GetSecret "openshift-ingress-operator" "router-ca") (ca, None)] /\
    carries_credentials conf (corev1.Secret_Data secret) /\
    models.S3StorageConfiguration_BucketHost conf = host /\
    models.S3StorageConfiguration_BucketPort conf = 443%Z /\
    models.S3StorageConfiguration_BucketName conf =
      default "" (map_get (corev1.ConfigMap_Data cm) "BUCKET_NAME") /\
    b64_decode (models.S3StorageConfiguration_AwsCaBundle conf) =
      default "" (map_get (corev1.Secret_Data ca) "tls.crt").
Proof.
  intros He. unfold GetStorageConfiguration, GetClaim in He.
  destruct device as [d|]; [|exec_step; done].
  destruct (EdgeDeviceStatus_DataOBC _) as [dataOBC|] eqn:Eo; [|exec_step; done].
  do 4 (exec_step; destruct err0 as [e|]; [exec_step; done|]).
  destruct (map_get _ "AWS_ACCESS_KEY_ID") as [id|] eqn:E1; [|exec_step; done].
  destruct (map_get _ "AWS_SECRET_ACCESS_KEY") as [key|] eqn:E2; [|exec_step; done].
  exec_step. destruct err0 as [e|]; exec_step.
  split; [done|]. exists d, dataOBC. do 5 eexists. split; [done|]. split; [done|].
  cbv zeta. split; [done|].
  unfold carries_credentials. simpl. rewrite !b64_decode_encode. split_and!; try done.
  destruct (map_get _ "tls.crt"); [apply b64_decode_encode|done].
Qed.

Definition claimed_device : EdgeDevice :=
  upd_Meta (fun _ => named "d1" "ns") (upd_Status (set_DataOBC (Some "obc")) empty_EdgeDevice).
Definition claimed_world : World :=
  set_secrets (<[("openshift-ingress-operator", "router-ca") :=
       corev1.mkSecret (named "router-ca" "openshift-ingress-operator") None]>
    {[("ns", "obc") := corev1.mkSecret (named "obc" "ns")
      (Some (<["AWS_ACCESS_KEY_ID" := "id"]> {["AWS_SECRET_ACCESS_KEY" := "key"]}))]})
  (set_configmaps {[("ns", "obc") :=
      corev1.mkConfigMap empty_TypeMeta (named "obc" "ns") None None None]} empty_world).

Lemma GetStorageConfiguration_sound_witness :
  exists conf, run_result (GetStorageConfiguration (Some claimed_device)) claimed_world =
                 Done (Some conf, None) /\
    models.S3StorageConfiguration_BucketPort conf = 443%Z.
Proof.
  eexists. split; [vm_compute; reflexivity|].
  match goal with |- models.S3StorageConfiguration_BucketPort ?c = _ =>
    destruct (GetStorageConfiguration_sound (Some claimed_device)
      (run_trace (GetStorageConfiguration (Some claimed_device)) claimed_world) c None
      (run_result_exec _ claimed_world))
      as (_ & d & o & obc & cm & h & s & ca & _ & _ & _ & _ & _ & Hp & _)
  end. exact Hp.
Defined.
