(* ===== verification/Facade.v ===== *)
(** * The repository facade of the edge API

    internal/edgeapi/backend/k8s/repository.go: the operations the Kubernetes
    backend uses, each handed to the repository of its kind. *)
From S2P Require Import Prelude GoData GoStrings V1alpha1 Models Env Utils Repository.
Import v1alpha1.

Module facade.
Definition GetEdgeDevice (name namespace : string) : M (EdgeDevice * option error) :=
  edgedevice.Read name namespace.
Definition PatchEdgeDeviceStatus (edgeDevice base : EdgeDevice) : M (EdgeDevice * option error) :=
  edgedevice.PatchStatus edgeDevice base.
Definition UpdateEdgeDeviceLabels (device : EdgeDevice) (labels : gomap string)
    : M (EdgeDevice * option error) :=
  edgedevice.UpdateLabels device labels.
Definition PatchEdgeDevice (old new : EdgeDevice) : M (EdgeDevice * option error) :=
  edgedevice.Patch old new.
Definition GetEdgeDeviceSignedRequest (name namespace : string)
    : M (EdgeDeviceSignedRequest * option error) :=
  edgedevicesignedrequest.Read name namespace.
Definition CreateEdgeDeviceSignedRequest (r : EdgeDeviceSignedRequest) : M (option error) :=
  edgedevicesignedrequest.Create r.
Definition GetEdgeWorkload (name namespace : string) : M (EdgeWorkload * option error) :=
  edgeworkload.Read name namespace.
Definition GetEdgeDeviceSet (name namespace : string) : M (EdgeDeviceSet * option error) :=
  edgedeviceset.Read name namespace.
Definition GetPlaybookExecution (name namespace : string) : M (PlaybookExecution * option error) :=
  playbookexecution.Read name namespace.
Definition PatchPlaybookExecution (old : option PlaybookExecution) (new : PlaybookExecution)
    : M (PlaybookExecution * option error) :=
  playbookexecution.Patch old new.
(** These two return a nil object with an error. *)
Definition GetSecret (name namespace : string) : M (option corev1.Secret * option error) :=
  '(secret, err) ← (call (Env.GetSecret namespace name) : M _);
  match err with Some e => mret (None, Some e) | None => mret (Some secret, None) end.
Definition GetConfigMap (name namespace : string) : M (option corev1.ConfigMap * option error) :=
  '(configMap, err) ← (call (Env.GetConfigMap namespace name) : M _);
  match err with Some e => mret (None, Some e) | None => mret (Some configMap, None) end.
End facade.

Lemma UpdateEdgeDeviceLabels_own device m t o :
  Labels (EdgeDevice_ObjectMeta device) = Some m ->
  exec (facade.UpdateEdgeDeviceLabels device (Some m)) t o ->
  exists seed, t = [Ev MapOrder seed] /\ o = Done (device, None).
Proof. apply UpdateLabels_own. Qed.
