(* ===== verification/Assembler.v ===== *)
(** * The configuration sent to a device

    internal/edgeapi/backend/k8s/configuration-assembler.go: from the device,
    its device set and its workloads to the [DeviceConfigurationMessage] the
    device fetches.  Logging is left out. *)
From S2P Require Import Prelude GoData GoStrings Json V1alpha1 Models Env Testbed Utils.
From S2P Require Import Repository Storage ConfigSources Facade.
Import v1alpha1.

(** ** Parts that only depend on the device and its set *)

Definition defaultHeartbeatConfiguration : models.HeartbeatConfiguration :=
  models.mkHeartbeatConfiguration (Some (models.mkHardwareProfileConfiguration false "")) 60.

Definition getOsConfiguration (edgeDevice : EdgeDevice) (deviceSet : option EdgeDeviceSet)
    : option models.OsInformation :=
  let osInformation :=
    match deviceSet with
    | Some s => EdgeDeviceSetSpec_OsInformation (EdgeDeviceSet_Spec s)
    | None => EdgeDeviceSpec_OsInformation (EdgeDevice_Spec edgeDevice)
    end in
  match osInformation with
  | None => None
  | Some os => Some (models.mkOsInformation (OsInformation_AutomaticallyUpgrade os)
                       (OsInformation_CommitID os) (OsInformation_HostedObjectsURL os))
  end.

Definition getHeartbeatConfiguration (edgeDevice : EdgeDevice) (deviceSet : option EdgeDeviceSet)
    : models.HeartbeatConfiguration :=
  let heartbeat :=
    match deviceSet with
    | Some s => EdgeDeviceSetSpec_Heartbeat (EdgeDeviceSet_Spec s)
    | None => EdgeDeviceSpec_Heartbeat (EdgeDevice_Spec edgeDevice)
    end in
  match heartbeat with
  | Some heartbeat =>
      models.mkHeartbeatConfiguration
        (match HeartbeatConfiguration_HardwareProfile heartbeat with
         | Some p => Some (models.mkHardwareProfileConfiguration
                             (HardwareProfileConfiguration_Include p)
                             (HardwareProfileConfiguration_Scope p))
         | None => models.HeartbeatConfiguration_HardwareProfile defaultHeartbeatConfiguration
         end)
        (HeartbeatConfiguration_PeriodSeconds heartbeat)
  | None => defaultHeartbeatConfiguration
  end.

Definition getMountConfiguration (edgeDevice : EdgeDevice) (deviceSet : option EdgeDeviceSet)
    : slice (option models.Mount) :=
  let mountConfigSpec :=
    match deviceSet with
    | Some s => EdgeDeviceSetSpec_Mounts (EdgeDeviceSet_Spec s)
    | None => EdgeDeviceSpec_Mounts (EdgeDevice_Spec edgeDevice)
    end in
  match mountConfigSpec with
  | None => Some []
  | Some mounts =>
      Some (omap (fun m => match m with
        | None => None
        | Some m => Some (Some (models.mkMount (Mount_Device m) (Mount_Directory m)
                                  (Mount_Options m) (Mount_Type m)))
        end) mounts)
  end.

Definition toDataPath (input : slice DataPath) : slice (option models.DataPath) :=
  foldl (fun ret path => append ret (Some (models.mkDataPath (DataPath_Source path)
                                             (DataPath_Target path)))) None (elems input).

(** ** Secrets of the workloads *)

Fixpoint extractSecretsFromEnvFrom (envFrom : list corev1.EnvFromSource) (secretMap : MapType)
    : MapType :=
  match envFrom with
  | [] => secretMap
  | env :: envFrom' =>
      match corev1.SecretRef env with
      | None => extractSecretsFromEnvFrom envFrom' secretMap
      | Some ref =>
          let optional := default false (corev1.Ref_Optional ref) in
          extractSecretsFromEnvFrom envFrom'
            (match secretMap !! corev1.Ref_Name ref with
             | Some keys =>
                 if negb optional && bool_decide (keys = None)
                 then <[corev1.Ref_Name ref := Some ∅]> secretMap else secretMap
             | None =>
                 if optional then <[corev1.Ref_Name ref := None]> secretMap
                 else <[corev1.Ref_Name ref := Some ∅]> secretMap
             end)
      end
  end.

Fixpoint extractSecretsFromEnv (env : list corev1.EnvVar) (secretMap : MapType) : MapType :=
  match env with
  | [] => secretMap
  | envVar :: env' =>
      match (vf ← corev1.EnvVar_ValueFrom envVar; corev1.SecretKeyRef vf) with
      | None => extractSecretsFromEnv env' secretMap
      | Some keyRef =>
          let optional := default false (corev1.KeySelector_Optional keyRef) in
          let name := corev1.KeySelector_Name keyRef in
          let key := corev1.KeySelector_Key keyRef in
          extractSecretsFromEnv env'
            (match secretMap !! name with
             | Some keys =>
                 if optional then secretMap
                 else match keys with
                      | None => <[name := Some {[key]}]> secretMap
                      | Some ks => <[name := Some ({[key]} ∪ ks)]> secretMap
                      end
             | None =>
                 if optional then <[name := None]> secretMap
                 else <[name := Some {[key]}]> secretMap
             end)
      end
  end.

Definition extractSecretsFromContainer (container : corev1.Container) (secretMap : MapType)
    : MapType :=
  extractSecretsFromEnv (elems (corev1.Container_Env container))
    (extractSecretsFromEnvFrom (elems (corev1.Container_EnvFrom container)) secretMap).

Definition readAndValidateSecret (secretName secretNamespace : string) (secretKeys : StringSet)
    : M (option corev1.Secret * option error) :=
  let optional := bool_decide (secretKeys = None) in
  '(secretObj, err) ← facade.GetSecret secretName secretNamespace;
  match err with
  | Some e =>
      if IsNotFound e && optional then mret (None, None) else mret (None, Some e)
  | None =>
      secretObj ← lift (deref secretObj);
      keys ← range_set secretKeys;
      match first_missing_key keys (corev1.Secret_Data secretObj) with
      | Some key =>
          mret (None, Some (ErrorString ("missing secret key. secret: " +:+ secretName +:+
                  ". key: " +:+ key +:+ ". Namespace: " +:+ secretNamespace)))
      | None => mret (Some secretObj, None)
      end
  end.

(** The message of one secret: a JSON object with the values in base64. *)
Definition secret_message (seed : nat) (secret : corev1.Secret) : models.Secret :=
  let dataMap := foldl (fun m '(name, value) => <[name := b64_encode value]> m) ∅
                   (range seed (corev1.Secret_Data secret)) in
  models.mkSecret (json_StringMap dataMap) (Name (corev1.Secret_ObjectMeta secret)).

Definition addSecretToSecretList (secretList : list models.Secret) (secret : corev1.Secret)
    : M (list models.Secret) :=
  seed ← (call MapOrder : M nat);
  mret (secretList ++ [secret_message seed secret]).

Definition createSecretList_one (namespace : string) (l : list models.Secret)
    (x : string * StringSet) : M (ctl (list models.Secret) (option error)) :=
  let '(name, keys) := x in
  '(secretObj, err) ← readAndValidateSecret name namespace keys;
  match err with
  | Some e => mret (Return (Some e))
  | None =>
      match secretObj with
      | None => mret (Next l)
      | Some secretObj => Next <$> addSecretToSecretList l secretObj
      end
  end.

Definition createSecretList (workloads : list EdgeWorkload) (device : EdgeDevice)
    : M (slice (option models.Secret) * option error) :=
  let secretMap :=
    foldl (fun m workload =>
      foldl (fun m container => extractSecretsFromContainer container m) m
        (corev1.allContainers (pod_of workload))) ∅ workloads in
  order ← range_map (Some secretMap);
  res ← for_range order [] (createSecretList_one (Namespace (EdgeDevice_ObjectMeta device)));
  match res with
  | Next l => mret (Some (map Some l), None)
  | Return err => mret (None, err)
  end.

(** ** Storage, metrics and logs *)

Definition getStorageConfiguration `{Libs} (edgeDevice : EdgeDevice)
    (deviceSet : option EdgeDeviceSet) : M (option models.StorageConfiguration * option error) :=
  let storageSpec :=
    match deviceSet with
    | Some s => EdgeDeviceSetSpec_Storage (EdgeDeviceSet_Spec s)
    | None => EdgeDeviceSpec_Storage (EdgeDevice_Spec edgeDevice)
    end in
  let has_obc :=
    match EdgeDeviceStatus_DataOBC (EdgeDevice_Status edgeDevice) with
    | Some obc => bool_decide (obc <> "")
    | None => false
    end in
  '(storageConf, err) ←
    (if has_obc then GetStorageConfiguration (Some edgeDevice)
     else if ShouldUseExternalConfig storageSpec
     then GetExternalStorageConfig (Namespace (EdgeDevice_ObjectMeta edgeDevice)) storageSpec
     else mret (None, None));
  match err, storageConf with
  | None, Some conf => mret (Some (models.mkStorageConfiguration (Some conf)), None)
  | _, _ => mret (None, err)
  end.

Definition GetDefaultMetricsReceiver : models.MetricsReceiverConfiguration :=
  models.mkMetricsReceiverConfiguration "" 30000 10 "".

Definition getMetricsReceiverConfiguration (metrics : option MetricsConfiguration)
    (namespace : string) : M (option models.MetricsReceiverConfiguration * option error) :=
  let result := GetDefaultMetricsReceiver in
  match (m ← metrics; MetricsConfiguration_ReceiverConfiguration m) with
  | None => mret (Some result, None)
  | Some receiverConfig =>
      let timeout :=
        if (0 <? MetricsReceiverConfiguration_TimeoutSeconds receiverConfig)%Z
        then MetricsReceiverConfiguration_TimeoutSeconds receiverConfig
        else models.MetricsReceiverConfiguration_TimeoutSeconds result in
      let samples :=
        if (0 <? MetricsReceiverConfiguration_RequestNumSamples receiverConfig)%Z
        then MetricsReceiverConfiguration_RequestNumSamples receiverConfig
        else models.MetricsReceiverConfiguration_RequestNumSamples result in
      let url := MetricsReceiverConfiguration_URL receiverConfig in
      let with_ca ca := models.mkMetricsReceiverConfiguration ca samples timeout url in
      if bool_decide (url <> "") && HasPrefix url "https" &&
         bool_decide (MetricsReceiverConfiguration_CaSecretName receiverConfig <> "")
      then
        '(secret, err) ← facade.GetSecret
            (MetricsReceiverConfiguration_CaSecretName receiverConfig) namespace;
        match err with Some e => mret (None, Some e) | None =>
        secret ← lift (deref secret);
        let caBytes := default "" (map_get (corev1.Secret_Data secret) "ca.crt") in
        if decide (caBytes = "")
        then mret (None, Some (ErrorString
               ("metrics receiver config - missing key 'ca.crt' in secret " +:+
                Name (corev1.Secret_ObjectMeta secret))))
        else mret (Some (with_ca caBytes), None)
        end
      else mret (Some (with_ca ""), None)
  end.

(** A component's metrics, with its allow-list when it names one. *)
Definition componentMetrics `{Libs} (c : option ComponentMetricsConfiguration) (namespace : string)
    : M (option models.ComponentMetricsConfiguration * option error) :=
  match c with
  | None => mret (None, None)
  | Some c =>
      let conf allowList := models.mkComponentMetricsConfiguration allowList
          (ComponentMetricsConfiguration_Disabled c) (ComponentMetricsConfiguration_Interval c) in
      match ComponentMetricsConfiguration_AllowList c with
      | None => mret (Some (conf None), None)
      | Some allowListSpec =>
          '(allowList, err) ← GenerateFromConfigMap (NameRef_Name allowListSpec) namespace;
          match err with
          | Some e => mret (None, Some e)
          | None => mret (Some (conf allowList), None)
          end
      end
  end.

Definition getDeviceMetricsConfiguration `{Libs} (edgeDevice : EdgeDevice)
    (deviceSet : option EdgeDeviceSet) : M (option models.MetricsConfiguration * option error) :=
  let metricsConfigSpec :=
    match deviceSet with
    | Some s => EdgeDeviceSetSpec_Metrics (EdgeDeviceSet_Spec s)
    | None => EdgeDeviceSpec_Metrics (EdgeDevice_Spec edgeDevice)
    end in
  let namespace := Namespace (EdgeDevice_ObjectMeta edgeDevice) in
  '(receiver, err) ← getMetricsReceiverConfiguration metricsConfigSpec namespace;
  match err with Some e => mret (None, Some e) | None =>
  match metricsConfigSpec with
  | None => mret (Some (models.mkMetricsConfiguration None receiver None None), None)
  | Some spec =>
      let retention := (fun r => models.mkMetricsRetention (Retention_MaxHours r)
                          (Retention_MaxMiB r)) <$> MetricsConfiguration_Retention spec in
      '(system, err) ← componentMetrics (MetricsConfiguration_SystemMetrics spec) namespace;
      match err with Some e => mret (None, Some e) | None =>
      '(dataTransfer, err) ← componentMetrics (MetricsConfiguration_DataTransferMetrics spec)
                               namespace;
      match err with Some e => mret (None, Some e) | None =>
      mret (Some (models.mkMetricsConfiguration dataTransfer receiver retention system), None)
      end end
  end end.

Definition getDeviceSyslogLogConfig (namespace : string) (syslog : NameRef)
    : M (option models.LogsCollectionInformationSyslogConfig * option error) :=
  '(cm, err) ← facade.GetConfigMap (NameRef_Name syslog) namespace;
  match err with
  | Some e => mret (None, Some (WrapError ("cannot get syslogconfig from configmap " +:+
                                             NameRef_Name syslog +:+ ": ") e))
  | None =>
      cm ← lift (deref cm);
      let config proto := models.mkLogsCollectionInformationSyslogConfig
          (default "" (map_get (corev1.ConfigMap_Data cm) "Address")) proto in
      match map_get (corev1.ConfigMap_Data cm) "Protocol" with
      | None => mret (Some (config "tcp"), None)
      | Some cmproto =>
          if decide (cmproto = "tcp" \/ cmproto = "udp") then mret (Some (config cmproto), None)
          else mret (None, Some (ErrorString ("Protocol 'tcp' is not valid for syslog server")))
      end
  end.

Definition getDeviceLogConfig_one (namespace : string)
    (res : gmap string models.LogsCollectionInformation)
    (x : string * option LogCollectionConfig)
    : M (ctl (gmap string models.LogsCollectionInformation) (option error)) :=
  let '(key, val) := x in
  val ← lift (deref val);
  let logConfig syslog := models.mkLogsCollectionInformation (LogCollectionConfig_BufferSize val)
                            (LogCollectionConfig_Kind val) syslog in
  match LogCollectionConfig_SyslogConfig val with
  | None => mret (Next (<[key := logConfig None]> res))
  | Some syslog =>
      '(syslogConfig, err) ← getDeviceSyslogLogConfig namespace syslog;
      match err with
      | Some e => mret (Return (Some e))
      | None => mret (Next (<[key := logConfig syslogConfig]> res))
      end
  end.

Definition getDeviceLogConfig (edgeDevice : EdgeDevice) (deviceSet : option EdgeDeviceSet)
    : M (gomap models.LogsCollectionInformation * option error) :=
  let logCollection :=
    match deviceSet with
    | Some s => EdgeDeviceSetSpec_LogCollection (EdgeDeviceSet_Spec s)
    | None => EdgeDeviceSpec_LogCollection (EdgeDevice_Spec edgeDevice)
    end in
  if decide (len logCollection = 0) then mret (None, None)
  else
    order ← range_map logCollection;
    res ← for_range order ∅
            (getDeviceLogConfig_one (Namespace (EdgeDevice_ObjectMeta edgeDevice)));
    match res with
    | Next res => mret (Some res, None)
    | Return err => mret (None, err)
    end.

(** ** Workloads *)

Definition getAuthFile (imageRegistries : option ImageRegistriesConfiguration)
    (namespace : string) : M (string * option error) :=
  match (r ← imageRegistries; ImageRegistriesConfiguration_AuthFileSecret r) with
  | None => mret ("", None)
  | Some secretRef =>
      '(authFile, err) ← GetAuthFileFromSecret namespace (NameRef_Name secretRef);
      match err with Some e => mret ("", Some e) | None => mret (authFile, None) end
  end.

(** The metrics section of one workload. *)
Definition workloadMetrics `{Libs} (edgeworkload : EdgeWorkload)
    : M (option models.Metrics * option error) :=
  let meta := EdgeWorkload_ObjectMeta edgeworkload in
  match EdgeWorkloadSpec_Metrics (EdgeWorkload_Spec edgeworkload) with
  | None => mret (None, None)
  | Some spec =>
      if (0 <? ContainerMetricsConfiguration_Port spec)%Z then
        '(allowList, err) ←
          match ContainerMetricsConfiguration_AllowList spec with
          | None => mret (None, None)
          | Some allowListSpec =>
              GenerateFromConfigMap (NameRef_Name allowListSpec) (Namespace meta)
          end;
        match err with
        | Some e => mret (None, Some (ErrorString ("cannot get AllowList Metrics Confimap for " +:+
                                        Name meta +:+ ": " +:+ error_text e)))
        | None =>
            order ← range_map (ContainerMetricsConfiguration_Containers spec);
            containers ← for_each order ∅ (fun containers '(container, metricConf) =>
              metricConf ← lift (deref metricConf);
              mret (<[container := models.mkContainerMetrics
                        (MetricsConfigEntity_Disabled metricConf)
                        (MetricsConfigEntity_Path metricConf)
                        (MetricsConfigEntity_Port metricConf)]> containers));
            mret (Some (models.mkMetrics allowList
                    (if decide (order = []) then None else Some containers)
                    (ContainerMetricsConfiguration_Interval spec)
                    (ContainerMetricsConfiguration_Path spec)
                    (ContainerMetricsConfiguration_Port spec)), None)
        end
      else mret (None, None)
  end.

Definition toWorkloadList_one `{Libs} (device : EdgeDevice) (list : list models.Workload)
    (edgeworkload : EdgeWorkload) : M (ctl (Datatypes.list models.Workload) (option error)) :=
  let meta := EdgeWorkload_ObjectMeta edgeworkload in
  let spec := EdgeWorkload_Spec edgeworkload in
  match DeletionTimestamp meta with
  | Some _ => mret (Next list)
  | None =>
  let '(podSpec, err) := yaml_PodSpec (pod_of edgeworkload) in
  match err with
  | Some _ => mret (Next list)
  | None =>
  let data := (fun d => models.mkDataConfiguration (toDataPath (DataConfiguration_Egress d))
                 (toDataPath (DataConfiguration_Ingress d))) <$> EdgeWorkloadSpec_Data spec in
  aseed ← (call MapOrder : M nat);
  lseed ← (call MapOrder : M nat);
  let annotations := FilterByPodmanPrefix aseed (Annotations meta) in
  let labels := FilterByPodmanPrefix lseed (Labels meta) in
  '(authFile, err) ← getAuthFile (EdgeWorkloadSpec_ImageRegistries spec) (Namespace meta);
  match err with
  | Some e =>
      imageRegistries ← lift (deref (EdgeWorkloadSpec_ImageRegistries spec));
      secretRef ← lift (deref (ImageRegistriesConfiguration_AuthFileSecret imageRegistries));
      _ ← (call (RecordEvent
             (NamespacedName_String (Namespace (EdgeDevice_ObjectMeta device))
                (Name (EdgeDevice_ObjectMeta device)))
             corev1.EventTypeWarning "Misconfiguration"
             ("Auth file secret " +:+ NameRef_Name secretRef +:+ " used by edgeworkload " +:+
              Namespace meta +:+ "/" +:+ Name meta +:+ " is missing")) : M unit);
      mret (Return (Some e))
  | None =>
  let imageRegistries :=
    if decide (authFile <> "") then Some (models.mkImageRegistries authFile) else None in
  '(metrics, err) ← workloadMetrics edgeworkload;
  match err with Some e => mret (Return (Some e)) | None =>
  '(configmapList, err) ← Fetch edgeworkload (Namespace (EdgeDevice_ObjectMeta device));
  match err with
  | Some e => mret (Return (Some (ErrorString ("failed to fetch configmaps: " +:+ error_text e))))
  | None =>
      mret (Next (list ++ [models.mkWorkload (Some annotations) configmapList data imageRegistries
                             (Some labels) (EdgeWorkloadSpec_LogCollection spec) metrics
                             (Name meta) (Namespace meta) podSpec]))
  end end end end end.

Definition toWorkloadList `{Libs} (edgeworkloads : list EdgeWorkload) (device : EdgeDevice)
    : M (slice (option models.Workload) * option error) :=
  res ← for_range edgeworkloads [] (toWorkloadList_one device);
  match res with
  | Next list => mret (Some (map Some list), None)
  | Return err => mret (None, err)
  end.

(** ** The whole configuration *)

(** The loop that reads the workloads a device has been assigned. *)
Definition readWorkloads_one (namespace : string) (edgeWorkloads : list EdgeWorkload)
    (workload : Workload) : M (ctl (list EdgeWorkload) (option error)) :=
  '(edgeWorkload, err) ← facade.GetEdgeWorkload (Workload_Name workload) namespace;
  match err with
  | Some e => if negb (IsNotFound e) then mret (Return (Some e)) else mret (Next edgeWorkloads)
  | None =>
      match DeletionTimestamp (EdgeWorkload_ObjectMeta edgeWorkload) with
      | None => mret (Next (edgeWorkloads ++ [edgeWorkload]))
      | Some _ => mret (Next edgeWorkloads)
      end
  end.

Abbreviation ConfigResult := (option models.DeviceConfigurationMessage * option error)%type.

(** The second half: everything but the workloads and their secrets. *)
Definition assembleConfiguration `{Libs} (edgeDevice : EdgeDevice)
    (workloadList : slice (option models.Workload)) (secretList : slice (option models.Secret))
    : M ConfigResult :=
  let meta := EdgeDevice_ObjectMeta edgeDevice in
  deviceSet ←
    match map_get (Labels meta) "flotta/member-of" with
    | None => mret None
    | Some deviceSetName =>
        '(deviceSet, err) ← facade.GetEdgeDeviceSet deviceSetName (Namespace meta);
        match err with Some _ => mret None | None => mret (Some deviceSet) end
    end;
  let heartbeat := getHeartbeatConfiguration edgeDevice deviceSet in
  let os := getOsConfiguration edgeDevice deviceSet in
  let mounts := getMountConfiguration edgeDevice deviceSet in
  '(storage, _) ← getStorageConfiguration edgeDevice deviceSet;
  '(metrics, err) ← getDeviceMetricsConfiguration edgeDevice deviceSet;
  match err with
  | Some e => mret (None, Some (ErrorString ("failed getting device metrics configuration: " +:+
                                               error_text e)))
  | None =>
  '(logCollection, err) ← getDeviceLogConfig edgeDevice deviceSet;
  match err with
  | Some e => mret (None, Some (ErrorString ("failed getting device log configuration: " +:+
                                               error_text e)))
  | None =>
      mret (Some (models.mkDeviceConfigurationMessage
        (Some (models.mkDeviceConfiguration None (Some heartbeat) logCollection metrics mounts os
                 storage))
        (Name meta) secretList (ResourceVersion meta) workloadList 0), None)
  end end.

Definition GetDeviceConfiguration `{Libs} (edgeDevice : EdgeDevice) : M ConfigResult :=
  let meta := EdgeDevice_ObjectMeta edgeDevice in
  match DeletionTimestamp meta with
  | Some _ => assembleConfiguration edgeDevice None None
  | None =>
      res ← for_range (elems (EdgeDeviceStatus_Workloads (EdgeDevice_Status edgeDevice))) []
              (readWorkloads_one (Namespace meta));
      match res with
      | Return err => mret (None, err)
      | Next edgeWorkloads =>
          '(workloadList, err) ← toWorkloadList edgeWorkloads edgeDevice;
          match err with
          | Some e => mret (None, Some e)
          | None =>
              '(secretList, err) ← createSecretList edgeWorkloads edgeDevice;
              match err with
              | Some e => mret (None, Some (ErrorString
                  ("failed reading secrets for device workloads: " +:+ error_text e)))
              | None => assembleConfiguration edgeDevice workloadList secretList
              end
          end
      end
  end.

(** ** Lemmas: the calls of the assembler *)

(** A call that leaves the cluster as it is: reads, events, choices of the
    runtime. *)
Definition observes (c : Req) : Prop :=
  is_read c \/ match c with MapOrder | RecordEvent _ _ _ _ => True | _ => False end.

Lemma observes_no_write c : observes c -> no_write c.
Proof. unfold observes, no_write. destruct c; simpl; tauto. Qed.

Lemma calls_lift {A} (P : Req -> Prop) (o : outcome A) : calls P (lift o).
Proof. by destruct o. Qed.
#[local] Hint Resolve calls_lift : exec.

Ltac observe :=
  intros; repeat (calls_step || apply calls_lift); try (unfold observes; simpl; tauto);
  auto with exec.

Lemma observes_reads {A} (p : M A) : calls is_read p -> calls observes p.
Proof. apply calls_weaken. by left. Qed.

Lemma readAndValidateConfigMap_calls name ns keys :
  calls observes (readAndValidateConfigMap name ns keys).
Proof. unfold readAndValidateConfigMap, range_set. observe. Qed.
#[local] Hint Resolve readAndValidateConfigMap_calls : exec.

Lemma Fetch_calls `{Libs} w ns : calls observes (Fetch w ns).
Proof.
  unfold Fetch, range_map. apply calls_bind; [apply calls_lift|]. intros m.
  apply calls_bind; [observe|]. intros order.
  apply calls_bind; [|observe]. apply calls_for_range. intros l [name keys].
  unfold Fetch_one. observe.
Qed.

Lemma GenerateFromConfigMap_calls `{Libs} name ns : calls observes (GenerateFromConfigMap name ns).
Proof. unfold GenerateFromConfigMap. observe. Qed.
#[local] Hint Resolve Fetch_calls GenerateFromConfigMap_calls : exec.

Lemma toWorkloadList_calls `{Libs} l d : calls observes (toWorkloadList l d).
Proof.
  unfold toWorkloadList. apply calls_bind; [|observe].
  apply calls_for_range. intros ws w. unfold toWorkloadList_one, getAuthFile,
    GetAuthFileFromSecret, workloadMetrics, range_map. observe.
Qed.

Lemma createSecretList_calls l d : calls observes (createSecretList l d).
Proof.
  unfold createSecretList, range_map. apply calls_bind; [observe|]. intros order.
  apply calls_bind; [|observe]. apply calls_for_range. intros ss [name keys].
  unfold createSecretList_one, readAndValidateSecret, facade.GetSecret, range_set,
    addSecretToSecretList. observe.
Qed.

Lemma assembleConfiguration_calls `{Libs} d wl sl : calls observes (assembleConfiguration d wl sl).
Proof.
  unfold assembleConfiguration, getStorageConfiguration, getDeviceMetricsConfiguration,
    getMetricsReceiverConfiguration, componentMetrics, getDeviceLogConfig,
    facade.GetSecret, facade.GetEdgeDeviceSet, edgedeviceset.Read, range_map,
    getDeviceLogConfig_one, getDeviceSyslogLogConfig, facade.GetConfigMap.
  repeat (calls_step || apply calls_lift); try (unfold observes; simpl; tauto);
    auto using observes_reads, GetStorageConfiguration_calls, GetExternalStorageConfig_calls with exec.
Qed.

Lemma GetDeviceConfiguration_calls `{Libs} d : calls observes (GetDeviceConfiguration d).
Proof.
  unfold GetDeviceConfiguration, readWorkloads_one, facade.GetEdgeWorkload, edgeworkload.Read.
  repeat (calls_step || apply calls_lift); try (unfold observes; simpl; tauto);
    auto using assembleConfiguration_calls, toWorkloadList_calls, createSecretList_calls with exec.
Qed.

(** ** Lemmas: workloads *)

(** What the loop over the device's status finds out about one workload. *)
Definition read_workload (namespace : string) (w : Workload) (ew : option EdgeWorkload)
    (t : list Event) : Prop :=
  match ew with
  | Some ew => Ev (GetEdgeWorkload namespace (Workload_Name w)) (ew, None) ∈ t /\
               DeletionTimestamp (EdgeWorkload_ObjectMeta ew) = None
  | None => exists ew err, Ev (GetEdgeWorkload namespace (Workload_Name w)) (ew, err) ∈ t /\
              match err with
              | Some e => IsNotFound e = true
              | None => DeletionTimestamp (EdgeWorkload_ObjectMeta ew) <> None
              end
  end.

Lemma exec_readWorkloads namespace ws t o :
  exec (for_range ws [] (readWorkloads_one namespace)) t o ->
  match o with
  | Done (Next l) => collected (read_workload namespace) (fun _ ew => ew) ws l t
  | Done (Return err) => exists w ew e, w ∈ ws /\ err = Some e /\ IsNotFound e = false /\
      Ev (GetEdgeWorkload namespace (Workload_Name w)) (ew, err) ∈ t
  | Panicked => False
  end.
Proof.
  apply (for_range_collect (read_workload namespace) (fun _ ew => ew)
    (fun err t => exists w ew e, w ∈ ws /\ err = Some e /\ IsNotFound e = false /\
       Ev (GetEdgeWorkload namespace (Workload_Name w)) (ew, err) ∈ t) (fun _ => False)).
  intros acc w t1 t' o' Hw He.
  unfold readWorkloads_one, facade.GetEdgeWorkload, edgeworkload.Read in He.
  exec_step. destruct err as [e|].
  - destruct (IsNotFound e) eqn:En; repeat exec_step.
    + exists None. rewrite app_nil_r. split; [|done]. eexists _, _. split; [left|done].
    + exists w, obj, e. split_and!; [done..|]. set_solver.
  - destruct (DeletionTimestamp _) eqn:Ed; exec_step.
    + exists None. rewrite app_nil_r. split; [|done]. eexists _, None. split; [left|]. by rewrite Ed.
    + exists (Some obj). split; [|done]. split; [left|done].
Qed.

(** The message describes a workload. *)
Definition describes `{Libs} (namespace : string) (ew : EdgeWorkload) (w : models.Workload)
    (t : list Event) : Prop :=
  let meta := EdgeWorkload_ObjectMeta ew in
  let spec := EdgeWorkload_Spec ew in
  models.Workload_Name w = Name meta /\ models.Workload_Namespace w = Namespace meta /\
  yaml_PodSpec (pod_of ew) = (models.Workload_Specification w, None) /\
  models.Workload_LogCollection w = EdgeWorkloadSpec_LogCollection spec /\
  (forall k v, map_get (models.Workload_Labels w) k = Some v <->
     map_get (Labels meta) ("podman/" +:+ k) = Some v) /\
  (forall k v, map_get (models.Workload_Annotations w) k = Some v <->
     map_get (Annotations meta) ("podman/" +:+ k) = Some v) /\
  (models.Workload_Metrics w = None <->
     match EdgeWorkloadSpec_Metrics spec with
     | None => True
     | Some spec => (ContainerMetricsConfiguration_Port spec <= 0)%Z
     end) /\
  exists cms t', models.Workload_Configmaps w = Some cms /\ t' ⊆ t /\
    configmaps_accounted (pod_of ew) namespace cms t'.

(** What the configuration says of a workload: it is left out only when it is
    being deleted or its pod specification cannot be rendered. *)
Definition sent_workload `{Libs} (namespace : string) (ew : EdgeWorkload)
    (w : option models.Workload) (t : list Event) : Prop :=
  match w with
  | Some w => describes namespace ew w t
  | None => DeletionTimestamp (EdgeWorkload_ObjectMeta ew) <> None \/
            (yaml_PodSpec (pod_of ew)).2 <> None
  end.

Lemma exec_workloadMetrics `{Libs} ew t o :
  exec (workloadMetrics ew) t o ->
  match o with
  | Done (_, Some _) => True
  | Done (m, None) => (m = None <->
      match EdgeWorkloadSpec_Metrics (EdgeWorkload_Spec ew) with
      | None => True
      | Some spec => (ContainerMetricsConfiguration_Port spec <= 0)%Z
      end)
  | Panicked => True
  end.
Proof.
  intros He. unfold workloadMetrics in He.
  destruct (EdgeWorkloadSpec_Metrics _) as [spec|]; [|by exec_step].
  destruct (Z.ltb_spec 0 (ContainerMetricsConfiguration_Port spec)).
  - destruct o as [[m [e|]]|]; [done| |done].
    apply exec_bind_inv in He as [[_ ?]|([al [e|]] & t1 & t2 & -> & _ & He)]; [done|by exec_step|].
    apply exec_bind_inv in He as [[_ ?]|(order & t3 & t4 & -> & _ & He)]; [done|].
    apply exec_bind_inv in He as [[_ ?]|(cs & t5 & t6 & -> & _ & He)]; [done|].
    exec_step. split; [done|lia].
  - exec_step. split; [lia|done].
Qed.

Lemma exec_toWorkloadList_one `{Libs} device l ew t o :
  exec (toWorkloadList_one device l ew) t o ->
  match o with
  | Done (Next l') => exists w, sent_workload (Namespace (EdgeDevice_ObjectMeta device)) ew w t /\ l' = l ++ option_list w
  | Done (Return err) => is_Some err
  | Panicked => True
  end.
Proof.
  intros He. unfold toWorkloadList_one in He.
  destruct (DeletionTimestamp _) eqn:Ed.
  { exec_step. exists None. rewrite app_nil_r. split; [|done]. left. by rewrite Ed. }
  destruct (yaml_PodSpec (pod_of ew)) as [podSpec [e|]] eqn:Ey.
  { exec_step. exists None. rewrite app_nil_r. split; [|done]. right. by rewrite Ey. }
  exec_call He as (aseed & t2 & -> & He). exec_call He as (lseed & t3 & -> & He).
  destruct o as [[l'|err]|]; [..|done].
  - apply exec_bind_inv in He as [[_ ?]|([authFile [e|]] & t4 & t5 & -> & _ & He)]; [done|..].
    { destruct (EdgeWorkloadSpec_ImageRegistries _) as [ir|]; simpl in He; [|by exec_step].
      destruct (ImageRegistriesConfiguration_AuthFileSecret ir); simpl in He; by repeat exec_step. }
    apply exec_bind_inv in He as [[_ ?]|([metrics [e|]] & t6 & t7 & -> & Hm & He)];
      [done|by exec_step|].
    apply exec_bind_inv in He as [[_ ?]|([cms [e|]] & t8 & t9 & -> & Hf & He)];
      [done|by exec_step|].
    apply exec_Ret_inv in He as [-> [= ->]]. eexists (Some _). split; [|done].
    apply exec_Fetch in Hf. destruct cms as [cms|]; [|done].
    unfold sent_workload, describes. cbv zeta.
    split_and!; try done; try (intros k v; apply FilterByPodmanPrefix_lookup).
    + exact (exec_workloadMetrics _ _ _ Hm).
    + exists cms, t8. split; [done|]. split; [set_solver|done].
  - apply exec_bind_inv in He as [[_ ?]|([authFile [e|]] & t4 & t5 & -> & _ & He)]; [done|..].
    { destruct (EdgeWorkloadSpec_ImageRegistries _) as [ir|]; simpl in He; [|by exec_step].
      destruct (ImageRegistriesConfiguration_AuthFileSecret ir); simpl in He; by repeat exec_step. }
    apply exec_bind_inv in He as [[_ ?]|([metrics [e|]] & t6 & t7 & -> & Hm & He)];
      [done|by exec_step|].
    apply exec_bind_inv in He as [[_ ?]|([cms [e|]] & t8 & t9 & -> & Hf & He)];
      by repeat exec_step.
Qed.

Lemma exec_toWorkloadList `{Libs} ews device t o :
  exec (toWorkloadList ews device) t o ->
  match o with
  | Done (ws, None) => exists l, ws = Some (map Some l) /\
      collected (sent_workload (Namespace (EdgeDevice_ObjectMeta device))) (fun _ w => w) ews l t
  | Done (ws, Some _) => ws = None
  | Panicked => True
  end.
Proof.
  intros He. unfold toWorkloadList in He.
  assert (forall t o, exec (for_range ews [] (toWorkloadList_one device)) t o ->
    match o with
    | Done (Next l) => collected (sent_workload (Namespace (EdgeDevice_ObjectMeta device)))
                         (fun _ w => w) ews l t
    | Done (Return err) => is_Some err
    | Panicked => True
    end) as Hloop.
  { intros t0 o0. apply (for_range_collect _ _ (fun err _ => is_Some err) (fun _ => True)).
    intros acc ew t1 t2 o2 _ Hb. apply exec_toWorkloadList_one in Hb.
    destruct o2 as [[l'|err]|]; [|done..]. destruct Hb as (w & ? & ->). exists w.
    split; [done|]. by destruct w. }
  apply exec_bind_inv in He as [[He ->]|([l|err] & t1 & t2 & -> & H1 & H2)]; [done|..];
    apply Hloop in H1; apply exec_Ret_inv in H2 as [-> ->]; rewrite app_nil_r.
  - by exists l.
  - by destruct H1 as [e ->].
Qed.

(** ** Lemmas: secrets *)

Definition secret_envFrom_ref (env : corev1.EnvFromSource) : option reference :=
  (fun r => (corev1.Ref_Name r,
             if default false (corev1.Ref_Optional r) then None else Some ∅)) <$>
    corev1.SecretRef env.
Definition secret_env_ref (env : corev1.EnvVar) : option reference :=
  vf ← corev1.EnvVar_ValueFrom env;
  (fun r => (corev1.KeySelector_Name r,
             if default false (corev1.KeySelector_Optional r) then None
             else Some {[corev1.KeySelector_Key r]})) <$> corev1.SecretKeyRef vf.

(** The references to secrets of a list of workloads. *)
Definition secret_refs (ews : list EdgeWorkload) : list reference :=
  concat ((fun ew => concat ((fun c =>
    omap secret_envFrom_ref (elems (corev1.Container_EnvFrom c)) ++
    omap secret_env_ref (elems (corev1.Container_Env c)))
    <$> corev1.allContainers (pod_of ew))) <$> ews).

Lemma extractSecretsFromEnvFrom_refs l m :
  extractSecretsFromEnvFrom l m = foldl add_ref m (omap secret_envFrom_ref l).
Proof.
  revert m. induction l as [|env l IH]; intros m; [done|].
  cbn [extractSecretsFromEnvFrom]. unfold secret_envFrom_ref. simpl.
  destruct (corev1.SecretRef env) as [r|]; simpl; rewrite IH; [|done].
  f_equal. rewrite <-ref_object_add_ref. reflexivity.
Qed.

Lemma extractSecretsFromEnv_refs l m :
  extractSecretsFromEnv l m = foldl add_ref m (omap secret_env_ref l).
Proof.
  revert m. induction l as [|env l IH]; intros m; [done|].
  cbn [extractSecretsFromEnv]. unfold secret_env_ref. simpl.
  destruct (corev1.EnvVar_ValueFrom env) as [vf|]; simpl; [|by rewrite IH].
  destruct (corev1.SecretKeyRef vf) as [r|]; simpl; rewrite IH; [|done].
  f_equal. rewrite <-ref_key_add_ref. reflexivity.
Qed.

Lemma secretMap_refs ews :
  foldl (fun m workload =>
      foldl (fun m container => extractSecretsFromContainer container m) m
        (corev1.allContainers (pod_of workload))) ∅ ews = foldl add_ref ∅ (secret_refs ews).
Proof.
  unfold secret_refs. generalize (∅ : MapType) as m.
  induction ews as [|ew ews IH]; intros m; [done|]. simpl. rewrite IH, foldl_app. f_equal.
  clear. revert m. induction (corev1.allContainers (pod_of ew)) as [|c cs IH]; intros m; [done|].
  simpl. rewrite IH, foldl_app. f_equal. unfold extractSecretsFromContainer.
  by rewrite extractSecretsFromEnv_refs, extractSecretsFromEnvFrom_refs, foldl_app.
Qed.

(** What became of one referenced secret. *)
Definition secret_resolved (namespace : string) (x : string * StringSet)
    (m : option models.Secret) (t : list Event) : Prop :=
  match m with
  | Some m => exists secret seed, Ev (GetSecret namespace x.1) (secret, None) ∈ t /\
      has_keys x.2 (corev1.Secret_Data secret) /\ m = secret_message seed secret
  | None => x.2 = None /\ exists secret e, Ev (GetSecret namespace x.1) (secret, Some e) ∈ t /\
      IsNotFound e = true
  end.

(** Why it could not be resolved. *)
Definition secret_failure (namespace : string) (order : list (string * StringSet))
    (err : option error) (t : list Event) : Prop :=
  exists x e, x ∈ order /\ err = Some e /\
    ((exists s, Ev (GetSecret namespace x.1) (s, Some e) ∈ t /\ (IsNotFound e = false \/ x.2 <> None)) \/
     exists s key, Ev (GetSecret namespace x.1) (s, None) ∈ t /\ key ∈ mandatory x.2 /\
       map_get (corev1.Secret_Data s) key = None).

Lemma exec_createSecretList_one namespace order l x t1 t o :
  x ∈ order -> exec (createSecretList_one namespace l x) t o ->
  match o with
  | Done (Next l') => exists m, secret_resolved namespace x m t /\ l' = l ++ option_list m
  | Done (Return err) => secret_failure namespace order err (t1 ++ t)
  | Panicked => False
  end.
Proof.
  intros Hx He. destruct x as [name keys].
  unfold createSecretList_one, readAndValidateSecret, facade.GetSecret in He.
  simpl in He. exec_step. destruct err as [e|]; simpl in He.
  - destruct (IsNotFound e && bool_decide (keys = None)) eqn:Eb; simpl in He; exec_step.
    + apply andb_prop in Eb as [Hn Hk%bool_decide_eq_true]. exists None. simpl.
      rewrite app_nil_r. split; [|done]. split; [done|]. eexists _, e. split; [left|done].
    + exists (name, keys), e. split; [done|]. split; [done|]. left. exists obj. split; [set_solver|].
      apply andb_false_iff in Eb as [?|?%bool_decide_eq_false]; auto.
  - exec_step. destruct (first_missing_key _ _) as [key|] eqn:Ef; simpl in He; repeat exec_step.
    + apply first_missing_key_Some in Ef as [Hk Hm]. exists (name, keys). eexists.
      split; [done|]. split; [done|]. right. exists obj, key. split; [set_solver|done].
    + apply first_missing_key_None in Ef.
      exists (Some (secret_message r0 obj)). split; [|done].
      exists obj, r0. split; [left|done].
Qed.

(** Every secret the workloads refer to has been accounted for exactly once. *)
Definition secrets_accounted (namespace : string) (ews : list EdgeWorkload)
    (ms : list models.Secret) (t : list Event) : Prop :=
  exists l : list (string * StringSet * option models.Secret),
    ms = omap snd l /\ NoDup l.*1.*1 /\
    (forall name keys, (name, keys) ∈ l.*1 <-> asked name (secret_refs ews) = Some keys) /\
    Forall (fun '(x, m) => exists t', t' ⊆ t /\ secret_resolved namespace x m t') l.

Lemma exec_createSecretList ews device t o :
  exec (createSecretList ews device) t o ->
  let namespace := Namespace (EdgeDevice_ObjectMeta device) in
  match o with
  | Done (ss, None) => exists l, ss = Some (map Some l) /\ secrets_accounted namespace ews l t
  | Done (ss, Some e) => ss = None /\
      exists name keys, asked name (secret_refs ews) = Some keys /\
        secret_failure namespace [(name, keys)] (Some e) t
  | Panicked => False
  end.
Proof.
  intros He namespace. unfold createSecretList in He. rewrite secretMap_refs in He.
  apply exec_bind_inv in He as [[He ->]|(order & t1 & t2 & -> & H1 & H2)];
    [by apply exec_range_map in He as (? & _ & ?)|].
  apply exec_range_map in H1 as (seed & -> & [= ->]).
  set (order := range seed (Some (foldl add_ref ∅ (secret_refs ews)))) in *.
  assert (forall name keys, (name, keys) ∈ order <->
            asked name (secret_refs ews) = Some keys) as Horder.
  { intros name keys. unfold order. rewrite elem_of_range. unfold map_get. simpl.
    rewrite add_refs_lookup, lookup_empty. by destruct (asked _ _). }
  pose proof (for_range_collect (secret_resolved namespace) (fun _ m => m)
    (secret_failure namespace order) (fun _ => False) (createSecretList_one namespace) order)
    as Hloop.
  apply exec_bind_inv in H2 as [[H2 ->]|([l|err] & t3 & t4 & -> & H2 & H3)];
    (apply Hloop in H2; [|intros acc x t5 t6 o6 Hx Hb;
       apply (exec_createSecretList_one _ order _ _ t5) in Hb; [|done];
       destruct o6 as [[acc'|err']|]; [|done..]; destruct Hb as (m & ? & ->);
       exists m; split; [done|by destruct m]]); [done|..];
    apply exec_Ret_inv in H3 as [-> ->]; rewrite app_nil_r.
  - destruct H2 as (l' & Hl & -> & HF). eexists. split; [done|]. exists l'. split_and!.
    + clear. induction l' as [|[x m] l IH]; [done|].
      destruct m as [m|]; [|exact IH]. exact (f_equal (cons _) IH).
    + rewrite Hl. apply NoDup_fst_range.
    + by rewrite Hl.
    + eapply Forall_impl; [exact HF|]. intros [x m] (t' & ? & ?). exists t'.
      split; [set_solver|done].
  - destruct H2 as ([name keys] & e & Hx & -> & Hf). split; [done|]. exists name, keys.
    split; [by apply Horder|]. exists (name, keys), e. split; [left|]. split; [done|].
    destruct Hf as [(s & ? & ?)|(s & key & ? & ? & ?)]; [left; exists s|right; exists s, key];
      (split; [set_solver|done]).
Qed.

Lemma assembleConfiguration_answers `{Libs} d wl sl t dc :
  exec (assembleConfiguration d wl sl) t (Done (dc, None)) -> is_Some dc.
Proof.
  intros He. unfold assembleConfiguration in He.
  apply exec_bind_inv in He as [[_ ?]|(s & t1 & t2 & -> & _ & He)]; [done|].
  apply exec_bind_inv in He as [[_ ?]|([st e1] & t3 & t4 & -> & _ & He)]; [done|].
  apply exec_bind_inv in He as [[_ ?]|([me [e2|]] & t5 & t6 & -> & _ & He)]; [done|by exec_step|].
  apply exec_bind_inv in He as [[_ ?]|([lo [e3|]] & t7 & t8 & -> & _ & He)]; [done|by exec_step|].
  apply exec_Ret_inv in He as [_ [= ->]]. done.
Qed.

(** An assembly without an error has produced a configuration. *)
Lemma GetDeviceConfiguration_answers `{Libs} d t dc :
  exec (GetDeviceConfiguration d) t (Done (dc, None)) -> is_Some dc.
Proof.
  intros He. unfold GetDeviceConfiguration in He.
  destruct (DeletionTimestamp _); [by apply assembleConfiguration_answers in He|].
  apply exec_bind_inv in He as [[_ ?]|([ews|err1] & t1 & t2 & -> & H1 & He)]; [done| |].
  2:{ apply exec_Ret_inv in He as [_ [= ? <-]]. apply exec_readWorkloads in H1.
      by destruct H1 as (? & ? & ? & _ & ? & _). }
  apply exec_bind_inv in He as [[_ ?]|([ws [e|]] & t3 & t4 & -> & _ & He)]; [done|by exec_step|].
  apply exec_bind_inv in He as [[_ ?]|([ss [e|]] & t5 & t6 & -> & _ & He)]; [done|by exec_step|].
  by apply assembleConfiguration_answers in He.
Qed.

(** ** Properties *)

(** Assembling a configuration never changes the cluster: whatever the API
    server answers, it only reads objects and emits events. *)
Theorem GetDeviceConfiguration_read_only `{Libs} device t o :
  exec (GetDeviceConfiguration device) t o -> Forall (fun e => no_write (ev_req e)) t.
Proof.
  intros He. pose proof (calls_exec _ _ _ _ (GetDeviceConfiguration_calls device) He) as HF.
  eapply Forall_impl; [exact HF|]. intros e. apply observes_no_write.
Qed.

(** The second half keeps the workloads and the secrets it is given. *)
Lemma exec_assembleConfiguration `{Libs} d wl sl t dc err :
  exec (assembleConfiguration d wl sl) t (Done (Some dc, err)) ->
  err = None /\
  models.DeviceConfigurationMessage_DeviceID dc = Name (EdgeDevice_ObjectMeta d) /\
  models.DeviceConfigurationMessage_Version dc = ResourceVersion (EdgeDevice_ObjectMeta d) /\
  models.DeviceConfigurationMessage_Workloads dc = wl /\
  models.DeviceConfigurationMessage_Secrets dc = sl.
Proof.
  intros He. unfold assembleConfiguration in He.
  apply exec_bind_inv in He as [[_ ?]|(s & t1 & t2 & -> & _ & He)]; [done|].
  apply exec_bind_inv in He as [[_ ?]|([st e1] & t3 & t4 & -> & _ & He)]; [done|].
  apply exec_bind_inv in He as [[_ ?]|([me [e2|]] & t5 & t6 & -> & _ & He)]; [done|by exec_step|].
  apply exec_bind_inv in He as [[_ ?]|([lo [e3|]] & t7 & t8 & -> & _ & He)]; [done|by exec_step|].
  apply exec_Ret_inv in He as [-> [= -> ->]]. done.
Qed.

Lemma exec_GetDeviceConfiguration `{Libs} device t dc err :
  exec (GetDeviceConfiguration device) t (Done (Some dc, err)) ->
  let namespace := Namespace (EdgeDevice_ObjectMeta device) in
  err = None /\
  models.DeviceConfigurationMessage_DeviceID dc = Name (EdgeDevice_ObjectMeta device) /\
  models.DeviceConfigurationMessage_Version dc = ResourceVersion (EdgeDevice_ObjectMeta device) /\
  match DeletionTimestamp (EdgeDevice_ObjectMeta device) with
  | Some _ => models.DeviceConfigurationMessage_Workloads dc = None /\
              models.DeviceConfigurationMessage_Secrets dc = None
  | None => exists ews ws ss t1 t2 t3 t4, t = t1 ++ t2 ++ t3 ++ t4 /\
      collected (read_workload namespace) (fun _ ew => ew)
        (elems (EdgeDeviceStatus_Workloads (EdgeDevice_Status device))) ews t1 /\
      models.DeviceConfigurationMessage_Workloads dc = Some (map Some ws) /\
      collected (sent_workload namespace) (fun _ w => w) ews ws t2 /\
      models.DeviceConfigurationMessage_Secrets dc = Some (map Some ss) /\
      secrets_accounted namespace ews ss t3
  end.
Proof.
  intros He namespace. unfold GetDeviceConfiguration in He.
  destruct (DeletionTimestamp _).
  { by apply exec_assembleConfiguration in He as (-> & -> & -> & -> & ->). }
  apply exec_bind_inv in He as [[_ ?]|([ews|err1] & t1 & t2 & -> & H1 & He)]; [done| |].
  2:{ by apply exec_Ret_inv in He as [_ [= ? _]]. }
  apply exec_readWorkloads in H1.
  apply exec_bind_inv in He as [[_ ?]|([ws [e|]] & t3 & t4 & -> & H2 & He)]; [done|by exec_step|].
  apply exec_toWorkloadList in H2 as (lw & -> & H2).
  apply exec_bind_inv in He as [[_ ?]|([ss [e|]] & t5 & t6 & -> & H3 & He)]; [done|by exec_step|].
  apply exec_createSecretList in H3 as (ls & -> & H3).
  apply exec_assembleConfiguration in He as (-> & -> & -> & -> & ->).
  split_and!; try done. by exists ews, lw, ls, t1, t3, t5, t6.
Qed.

(** C19: a configuration accounts for every workload the device has been
    assigned and for every secret these workloads need.  In the order of the
    device's status, each workload has been read, and it is described in the
    message (name, namespace, pod specification, podman labels and
    annotations, metrics, config maps) unless it does not exist, is being
    deleted, or cannot be rendered; each secret its containers refer to is
    sent with all the keys asked for, unless all references are optional and
    it does not exist.  A device that is being deleted gets none of them. *)
Theorem GetDeviceConfiguration_complete `{Libs} device t dc err :
  exec (GetDeviceConfiguration device) t (Done (Some dc, err)) ->
  let namespace := Namespace (EdgeDevice_ObjectMeta device) in
  err = None /\
  models.DeviceConfigurationMessage_DeviceID dc = Name (EdgeDevice_ObjectMeta device) /\
  models.DeviceConfigurationMessage_Version dc = ResourceVersion (EdgeDevice_ObjectMeta device) /\
  match DeletionTimestamp (EdgeDevice_ObjectMeta device) with
  | Some _ => models.DeviceConfigurationMessage_Workloads dc = None /\
              models.DeviceConfigurationMessage_Secrets dc = None
  | None => exists ews ws ss t1 t2 t3 t4, t = t1 ++ t2 ++ t3 ++ t4 /\
      collected (read_workload namespace) (fun _ ew => ew)
        (elems (EdgeDeviceStatus_Workloads (EdgeDevice_Status device))) ews t1 /\
      models.DeviceConfigurationMessage_Workloads dc = Some (map Some ws) /\
      collected (sent_workload namespace) (fun _ w => w) ews ws t2 /\
      models.DeviceConfigurationMessage_Secrets dc = Some (map Some ss) /\
      secrets_accounted namespace ews ss t3
  end.
Proof. apply exec_GetDeviceConfiguration. Qed.

Definition assigned_device : EdgeDevice :=
  mkEdgeDevice empty_TypeMeta (mkObjectMeta "d1" "ns" "u" "7" None None None None None)
    empty_EdgeDeviceSpec
    (set_Workloads (Some [mkWorkload "w" "" 0 0; mkWorkload "gone" "" 0 0]) empty_EdgeDeviceStatus).
Definition secret_pod : corev1.PodSpec :=
  corev1.mkPodSpec None None
    (Some [corev1.mkContainer "c" None
       (Some [corev1.mkEnvFromSource None (Some (corev1.mkOptionalRef "sec" None))]) None
       None None None None None None None ""]) "".
Definition assigned_world : World :=
  set_secrets {[("ns", "sec") := corev1.mkSecret (named "sec" "ns") (Some {["k" := "v"]})]}
  (set_workloads {[("ns", "w") := workload_with secret_pod]} empty_world).

Lemma GetDeviceConfiguration_read_only_witness :
  let p := @GetDeviceConfiguration trivial_libs assigned_device in
  length (run_trace p assigned_world) = 9 /\
  Forall (fun e => no_write (ev_req e)) (run_trace p assigned_world).
Proof.
  cbv zeta. split; [vm_compute; reflexivity|].
  exact (@GetDeviceConfiguration_read_only trivial_libs assigned_device _ _
           (run_result_exec _ assigned_world)).
Defined.

Lemma GetDeviceConfiguration_complete_witness :
  exists dc,
    run_result (@GetDeviceConfiguration trivial_libs assigned_device) assigned_world =
      Done (Some dc, None) /\
    length (elems (models.DeviceConfigurationMessage_Workloads dc)) = 1 /\
    length (elems (models.DeviceConfigurationMessage_Secrets dc)) = 1 /\
    models.DeviceConfigurationMessage_Version dc = "7".
Proof.
  eexists. split; [vm_compute; reflexivity|]. split; [reflexivity|]. split; [reflexivity|].
  match goal with |- models.DeviceConfigurationMessage_Version ?dc = _ =>
    destruct (@GetDeviceConfiguration_complete trivial_libs assigned_device
      (run_trace (@GetDeviceConfiguration trivial_libs assigned_device) assigned_world) dc None
      (run_result_exec _ assigned_world)) as (_ & _ & Hv & _)
  end. exact Hv.
Defined.

(** The device with another specification. *)
Definition with_spec (spec : EdgeDeviceSpec) (d : EdgeDevice) : EdgeDevice :=
  mkEdgeDevice (EdgeDevice_TypeMeta d) (EdgeDevice_ObjectMeta d) spec (EdgeDevice_Status d).

(** Membership in a device set takes precedence: once the set named by the
    device's label has been read, the device's own specification has no
    influence on the assembled configuration (heartbeat, OS, mounts, storage,
    metrics, logs), not even for what the set leaves out: the same exchanges
    lead to the same outcome for any two specifications. *)
Theorem device_set_overrides `{Libs} d spec setName s wl sl t o :
  map_get (Labels (EdgeDevice_ObjectMeta d)) "flotta/member-of" = Some setName ->
  let read := Ev (GetEdgeDeviceSet (Namespace (EdgeDevice_ObjectMeta d)) setName) (s, None) in
  exec (assembleConfiguration d wl sl) (read :: t) o <->
  exec (assembleConfiguration (with_spec spec d) wl sl) (read :: t) o.
Proof.
  intros Hset read. unfold assembleConfiguration, facade.GetEdgeDeviceSet, edgedeviceset.Read, read.
  change (EdgeDevice_ObjectMeta (with_spec spec d)) with (EdgeDevice_ObjectMeta d).
  rewrite !Hset.
  cbn [mbind prog_mbind prog_bind call]. rewrite !exec_Call_resp. reflexivity.
Qed.

Lemma device_set_overrides_witness :
  let d := upd_Meta (set_Labels (Some {["flotta/member-of" := "s1"]})) assigned_device in
  let spec := mkEdgeDeviceSpec None None None (Some (mkHeartbeatConfiguration None 5)) None None
                None None in
  map_get (Labels (EdgeDevice_ObjectMeta d)) "flotta/member-of" = Some "s1" /\
  forall t o,
    exec (@assembleConfiguration trivial_libs d None None)
      (Ev (GetEdgeDeviceSet "ns" "s1") (empty_EdgeDeviceSet, None) :: t) o <->
    exec (@assembleConfiguration trivial_libs (with_spec spec d) None None)
      (Ev (GetEdgeDeviceSet "ns" "s1") (empty_EdgeDeviceSet, None) :: t) o.
Proof.
  set (d := upd_Meta _ _). cbv zeta.
  assert (map_get (Labels (EdgeDevice_ObjectMeta d)) "flotta/member-of" = Some "s1") as H
    by reflexivity.
  split; [exact H|]. intros t o. exact (@device_set_overrides trivial_libs d _ _ _ _ _ t o H).
Defined.

(** What a device decodes from the message of a secret is the secret: the
    JSON object read back and its values decoded from base64 give exactly the
    secret's data, for every visiting order of the map, as long as the keys
    need no JSON escape (Kubernetes only admits letters, digits, [-], [_] and
    [.] in them). *)
Theorem secret_message_roundtrip seed secret :
  (forall k v, map_get (corev1.Secret_Data secret) k = Some v -> plain_text k) ->
  b64_decode <$> read_StringMap (models.Secret_Data (secret_message seed secret)) =
    entries (corev1.Secret_Data secret).
Proof.
  intros Hk. unfold secret_message. cbn [models.Secret_Data].
  assert (forall l (m : gmap string string),
    foldl (fun m '(name, value) => <[name := b64_encode value]> m) m l =
    foldl (fun m '(name, value) => <[name := value]> m) m (prod_map id b64_encode <$> l)) as Hf.
  { induction l as [|[k v] l IH]; intros m; [done|]. simpl. apply IH. }
  rewrite Hf, foldl_insert_union, (right_id_L ∅ (∪)).
  2:{ rewrite <-list_fmap_compose.
      rewrite (list_fmap_ext _ fst) by (intros i [k v] _; done). apply NoDup_fst_range. }
  rewrite (list_to_map_fmap b64_encode), list_to_map_range.
  rewrite read_json_StringMap.
  - rewrite <-map_fmap_compose. rewrite <-(map_fmap_id (entries _)) at 2.
    apply map_fmap_ext. intros k v _. apply b64_decode_encode.
  - intros k v Hkv. rewrite lookup_fmap in Hkv.
    destruct (entries (corev1.Secret_Data secret) !! k) as [w|] eqn:E; [|done].
    simplify_eq/=. split; [by apply (Hk k w)|apply plain_b64].
Qed.

Lemma secret_message_roundtrip_witness :
  let secret := corev1.mkSecret (named "s" "ns")
                  (Some (<["tls.crt" := of_bytes [0; 255; 34]%N]> {["password" := "p&<w"]})) in
  (forall k v, map_get (corev1.Secret_Data secret) k = Some v -> plain_text k) /\
  b64_decode <$> read_StringMap (models.Secret_Data (secret_message 0 secret)) =
    entries (corev1.Secret_Data secret).
Proof.
  set (secret := corev1.mkSecret _ _). cbv zeta.
  assert (forall k v, map_get (corev1.Secret_Data secret) k = Some v -> plain_text k) as H.
  { intros k v Hkv.
    change ((<["tls.crt" := of_bytes [0; 255; 34]%N]> {["password" := "p&<w"]}
              : gmap string string) !! k = Some v) in Hkv.
    apply lookup_insert_Some in Hkv as [[<- _]|[_ [<- _]%lookup_singleton_Some]];
      unfold plain_text, plain; refine (bool_decide_unpack _ _); vm_compute; exact I. }
  split; [exact H|]. exact (secret_message_roundtrip 0 secret H).
Defined.

(** The metrics receiver of a device: without a configuration the defaults
    (30000 samples, 10 seconds); a CA certificate is looked up exactly for a
    URL starting with "https" with a secret's name, it is never empty then,
    and otherwise none is sent; time-outs and sample counts that are not
    positive are replaced by the defaults. *)
Theorem getMetricsReceiverConfiguration_spec metrics namespace t o :
  exec (getMetricsReceiverConfiguration metrics namespace) t o ->
  exists r err, o = Done (r, err) /\
  match (m ← metrics; MetricsConfiguration_ReceiverConfiguration m) with
  | None => t = [] /\ err = None /\ r = Some GetDefaultMetricsReceiver
  | Some c =>
      let secure := HasPrefix (MetricsReceiverConfiguration_URL c) "https" &&
                    bool_decide (MetricsReceiverConfiguration_CaSecretName c <> "") in
      match r with
      | None => secure = true /\ is_Some err
      | Some r =>
          err = None /\
          models.MetricsReceiverConfiguration_URL r = MetricsReceiverConfiguration_URL c /\
          (0 < models.MetricsReceiverConfiguration_TimeoutSeconds r)%Z /\
          (0 < models.MetricsReceiverConfiguration_RequestNumSamples r)%Z /\
          (models.MetricsReceiverConfiguration_CaCert r <> "" <-> secure = true) /\
          if secure
          then exists s, t = [Ev (GetSecret namespace (MetricsReceiverConfiguration_CaSecretName c))
                                (s, None)] /\
                 map_get (corev1.Secret_Data s) "ca.crt" =
                   Some (models.MetricsReceiverConfiguration_CaCert r)
          else t = []
      end
  end.
Proof.
  intros He. unfold getMetricsReceiverConfiguration in He.
  destruct (metrics ≫= _) as [c|]; [|exec_step; by eexists _, None].
  assert (bool_decide (MetricsReceiverConfiguration_URL c <> "") &&
          HasPrefix (MetricsReceiverConfiguration_URL c) "https" =
          HasPrefix (MetricsReceiverConfiguration_URL c) "https") as Hurl.
  { case_bool_decide as E; [done|]. by rewrite E. }
  rewrite Hurl in He. cbv zeta.
  assert (forall x y, (0 < y)%Z -> (0 < (if (0 <? x)%Z then x else y))%Z) as Hpos.
  { intros x y ?. destruct (Z.ltb_spec 0 x); lia. }
  destruct (HasPrefix _ "https" && _).
  - simpl in He. exec_step. destruct err as [e|]; simpl in He.
    { exec_step. eexists None, (Some _). split; [done|]. by split. }
    destruct (map_get (corev1.Secret_Data obj) "ca.crt") as [ca|] eqn:Eca; simpl in He.
    2:{ exec_step. eexists None, (Some _). split; [done|]. by split. }
    case_decide; exec_step.
    { eexists None, (Some _). split; [done|]. by split. }
    eexists (Some _), None. split; [done|]. split_and!; simpl; auto with lia; [done|].
    by exists obj.
  - exec_step. eexists (Some _), None. split; [done|]. split_and!; simpl; auto with lia; done.
Qed.

Definition receiver_spec : MetricsConfiguration :=
  mkMetricsConfiguration None None None
    (Some (mkMetricsReceiverConfiguration 0 (-5) "https://m" "sec")).
Definition receiver_world : World :=
  set_secrets {[("ns", "sec") := corev1.mkSecret (named "sec" "ns") (Some {["ca.crt" := "CA"]})]}
    empty_world.

Lemma getMetricsReceiverConfiguration_spec_witness :
  exists r, run_result (getMetricsReceiverConfiguration (Some receiver_spec) "ns") receiver_world =
              Done (Some r, None) /\
    models.MetricsReceiverConfiguration_URL r = "https://m".
Proof.
  eexists. assert (run_result (getMetricsReceiverConfiguration (Some receiver_spec) "ns")
    receiver_world = Done (Some (models.mkMetricsReceiverConfiguration "CA" 30000 10 "https://m"), None))
    as Hr by (vm_compute; reflexivity).
  split; [exact Hr|].
  destruct (getMetricsReceiverConfiguration_spec (Some receiver_spec) "ns" _ _
              (run_result_exec_as _ receiver_world _ Hr)) as (r & err & E & Hs).
  injection E as <- <-. exact (proj1 (proj2 Hs)).
Defined.

(** How one entry of the log configuration is sent. *)
Definition log_sent (namespace : string) (val : LogCollectionConfig)
    (c : models.LogsCollectionInformation) (t : list Event) : Prop :=
  models.LogsCollectionInformation_Kind c = LogCollectionConfig_Kind val /\
  models.LogsCollectionInformation_BufferSize c = LogCollectionConfig_BufferSize val /\
  match LogCollectionConfig_SyslogConfig val, models.LogsCollectionInformation_SyslogConfig c with
  | None, None => True
  | Some ref, Some s =>
      exists cm, Ev (GetConfigMap namespace (NameRef_Name ref)) (cm, None) ∈ t /\
        models.LogsCollectionInformationSyslogConfig_Address s =
          default "" (map_get (corev1.ConfigMap_Data cm) "Address") /\
        models.LogsCollectionInformationSyslogConfig_Protocol s =
          default "tcp" (map_get (corev1.ConfigMap_Data cm) "Protocol") /\
        (models.LogsCollectionInformationSyslogConfig_Protocol s = "tcp" \/
         models.LogsCollectionInformationSyslogConfig_Protocol s = "udp")
  | _, _ => False
  end.

Lemma log_sent_mono namespace val c t t' :
  t ⊆ t' -> log_sent namespace val c t -> log_sent namespace val c t'.
Proof.
  intros Ht (? & ? & Hs). split_and!; [done..|].
  destruct (LogCollectionConfig_SyslogConfig val), (models.LogsCollectionInformation_SyslogConfig c);
    [|done..]. destruct Hs as (cm & ? & ?). exists cm. split; [by apply Ht|done].
Qed.

Lemma exec_getDeviceLogConfig_one namespace res key val t o :
  exec (getDeviceLogConfig_one namespace res (key, val)) t o ->
  match o with
  | Done (Next res') => exists v c, val = Some v /\ res' = <[key := c]> res /\ log_sent namespace v c t
  | Done (Return err) => is_Some err
  | Panicked => val = None
  end.
Proof.
  intros He. destruct val as [v|]; [|by apply exec_Panic_inv in He as [_ ->]].
  unfold getDeviceLogConfig_one, getDeviceSyslogLogConfig, facade.GetConfigMap in He. simpl in He.
  destruct (LogCollectionConfig_SyslogConfig v) as [ref|] eqn:Es.
  - simpl in He. exec_step. destruct err as [e|]; simpl in He; [by exec_step|].
    destruct (map_get _ "Protocol") as [p|] eqn:Ep; simpl in He.
    + case_decide as Hp; simpl in He; exec_step; [|done]. eexists v, _. split; [done|]. split; [done|].
      split; [done|]. split; [done|]. simpl. rewrite Es. exists obj. rewrite Ep.
      split; [left|]. done.
    + exec_step. eexists v, _. split; [done|]. split; [done|]. split; [done|]. split; [done|].
      simpl. rewrite Es. exists obj. rewrite Ep. split; [left|]. by auto.
  - exec_step. eexists v, _. split; [done|]. split; [done|]. split; [done|]. split; [done|].
    simpl. by rewrite Es.
Qed.

Lemma exec_getDeviceLogConfig_loop namespace l t o :
  NoDup l.*1 -> exec (for_range l ∅ (getDeviceLogConfig_one namespace)) t o ->
  match o with
  | Done (Next res) => forall key,
      match (list_to_map l : gmap string _) !! key, res !! key with
      | Some (Some val), Some c => log_sent namespace val c t
      | None, None => True
      | _, _ => False
      end
  | Done (Return err) => is_Some err
  | Panicked => exists key, (key, None) ∈ l
  end.
Proof.
  intros Hnd. apply (for_range_rule
    (fun pre (res : gmap string _) t' => forall key,
       match (list_to_map pre : gmap string _) !! key, res !! key with
       | Some (Some val), Some c => log_sent namespace val c t'
       | None, None => True
       | _, _ => False
       end) (fun err _ => is_Some err) (fun _ => exists key, (key, None) ∈ l));
    [|intros key; by rewrite !lookup_empty].
  intros pre [key val] post res t1 t2 o2 -> HI Hb. apply exec_getDeviceLogConfig_one in Hb.
  destruct o2 as [[res'|err]|]; [|done|subst; exists key; set_solver].
  destruct Hb as (v & c & -> & -> & Hs). intros key'.
  rewrite list_to_map_snoc.
  2:{ rewrite fmap_app in Hnd. apply NoDup_app in Hnd as (_ & Hd & _).
      intros Hin. apply (Hd key Hin). left. }
  destruct (decide (key = key')) as [<-|Hne].
  - rewrite !lookup_insert_eq. eapply log_sent_mono; [|exact Hs]. set_solver.
  - rewrite !lookup_insert_ne by done. specialize (HI key').
    destruct (list_to_map pre !! key') as [[v'|]|], (res !! key'); try done.
    eapply log_sent_mono; [|exact HI]. set_solver.
Qed.

(** The log configuration of a device: on success every entry of the
    effective specification is there under its key, with its kind and buffer
    size, and with a syslog server exactly when the entry names one; the
    protocol is the one of the config map, "tcp" by default, and never
    anything but "tcp" or "udp".  It panics only on a nil entry. *)
Theorem getDeviceLogConfig_spec device deviceSet t o :
  exec (getDeviceLogConfig device deviceSet) t o ->
  let namespace := Namespace (EdgeDevice_ObjectMeta device) in
  let spec := match deviceSet with
              | Some s => EdgeDeviceSetSpec_LogCollection (EdgeDeviceSet_Spec s)
              | None => EdgeDeviceSpec_LogCollection (EdgeDevice_Spec device)
              end in
  match o with
  | Done (res, None) => forall key,
      match map_get spec key, map_get res key with
      | Some (Some val), Some c => log_sent namespace val c t
      | None, None => True
      | _, _ => False
      end
  | Done (res, Some _) => res = None
  | Panicked => exists key, map_get spec key = Some None
  end.
Proof.
  intros He namespace spec. unfold getDeviceLogConfig in He. fold spec in He.
  case_decide as El.
  { exec_step. intros key. unfold map_get. unfold len in El.
    apply map_size_empty_inv in El. rewrite El. by rewrite lookup_empty. }
  apply exec_bind_inv in He as [[He ->]|(order & t1 & t2 & -> & H1 & He)];
    [by apply exec_range_map in He as (? & _ & ?)|].
  apply exec_range_map in H1 as (seed & -> & [= ->]). fold namespace in He.
  apply exec_bind_inv in He as [[He ->]|([res|err] & t3 & t4 & -> & He & H3)];
    apply exec_getDeviceLogConfig_loop in He; try apply NoDup_fst_range.
  - destruct He as [key Hk%elem_of_range]. by exists key.
  - apply exec_Ret_inv in H3 as [-> ->]. intros key. specialize (He key).
    rewrite list_to_map_range in He. rewrite app_nil_r.
    change (entries spec !! key) with (map_get spec key) in He.
    change (res !! key) with (map_get (Some res) key) in He. revert He.
    destruct (map_get spec key) as [[val|]|], (map_get (Some res) key); try done.
    apply log_sent_mono. set_solver.
  - apply exec_Ret_inv in H3 as [-> ->]. by destruct He as [e ->].
Qed.

Definition log_device : EdgeDevice :=
  mkEdgeDevice empty_TypeMeta (named "d1" "ns")
    (mkEdgeDeviceSpec None None None None None None
       (Some {["syslog" := Some (mkLogCollectionConfig "syslog" 12 (Some (mkNameRef "cm")))]}) None)
    empty_EdgeDeviceStatus.
Definition log_world : World :=
  set_configmaps {[("ns", "cm") := corev1.mkConfigMap empty_TypeMeta (named "cm" "ns")
    (Some (<["Address" := "host:514"]> {["Protocol" := "udp"]})) None None]} empty_world.

Lemma getDeviceLogConfig_spec_witness :
  exists res, run_result (getDeviceLogConfig log_device None) log_world = Done (Some res, None) /\
    exists c, res !! "syslog" = Some c /\
      models.LogsCollectionInformation_BufferSize c = 12%Z.
Proof.
  eexists. assert (run_result (getDeviceLogConfig log_device None) log_world =
    Done (Some {["syslog" := models.mkLogsCollectionInformation 12 "syslog"
      (Some (models.mkLogsCollectionInformationSyslogConfig "host:514" "udp"))]}, None))
    as Hr by (vm_compute; reflexivity).
  split; [exact Hr|]. eexists. split; [reflexivity|].
  exact (proj1 (proj2 (getDeviceLogConfig_spec log_device None _ _
    (run_result_exec_as _ log_world _ Hr) "syslog"))).
Defined.
