(* ===== verification/Heartbeat.v ===== *)
(** * Heartbeats

    internal/edgeapi/backend/k8s/heartbeat-updater.go and heartbeat-handler.go:
    what a heartbeat changes in the device, its playbook executions and the
    events emitted for it; internal/edgeapi/yggdrasil/heartbeat-handler.go: the
    retries around it.

    A playbook execution status is a Go slice: copies of it share their
    conditions, and [updateStatus] writes to the last condition in place.  The
    writes only reach the copies the function itself drops or returns, so the
    slices are values here. *)
From S2P Require Import Prelude GoData GoStrings V1alpha1 Models Env Testbed Utils Repository.
From S2P Require Import Hardware Facade.
Import v1alpha1.

(** ** heartbeat-updater.go *)

(** [s[len(s)-1] = f(s[len(s)-1])]: an index out of range panics. *)
Definition update_last {A} (f : A -> A) (l : list A) : outcome (list A) :=
  match last l with
  | Some x => Done (take (length l - 1) l ++ [f x])
  | None => Panicked
  end.

Definition set_condition_status (status : string) (c : PlaybookExecutionCondition)
    : PlaybookExecutionCondition :=
  mkPlaybookExecutionCondition (PlaybookExecutionCondition_Type c) status
    (PlaybookExecutionCondition_Reason c) (PlaybookExecutionCondition_Message c)
    (PlaybookExecutionCondition_LastTransitionTime c).

Definition new_condition (status : string) (now : Time) : PlaybookExecutionCondition :=
  mkPlaybookExecutionCondition status ConditionTrue None None (Some now).

(** The loop over the reported workloads; an unknown name is ignored, a nil
    report panics. *)
Definition updateDeploymentStatuses_one (m : gmap string Workload)
    (status : option models.WorkloadStatus) : M (gmap string Workload) :=
  status ← lift (deref status);
  match m !! models.WorkloadStatus_Name status with
  | None => mret m
  | Some w =>
      w ← (if decide (Workload_Phase w <> models.WorkloadStatus_Status status) then
             now ← (call Now : M Time);
             mret (mkWorkload (Workload_Name w) (models.WorkloadStatus_Status status) now
                     (Workload_LastDataUpload w))
           else mret w);
      mret (<[models.WorkloadStatus_Name status :=
                mkWorkload (Workload_Name w) (Workload_Phase w) (Workload_LastTransitionTime w)
                  (models.WorkloadStatus_LastDataUpload status)]> m)
  end.

(** [for _, v := range m { l = append(l, v) }] from a nil slice. *)
Definition values_in_order {V} (m : gmap string V) : M (slice V) :=
  order ← range_map (Some m);
  mret (foldl (fun l kv => append l kv.2) None order).

Definition updateDeploymentStatuses (oldWorkloads : slice Workload)
    (workloads : slice (option models.WorkloadStatus)) : M (slice Workload) :=
  let edgeWorkloadMap :=
    foldl (fun m w => <[Workload_Name w := w]> m) (∅ : gmap string Workload) (elems oldWorkloads) in
  edgeWorkloadMap ← for_each (elems workloads) edgeWorkloadMap updateDeploymentStatuses_one;
  values_in_order edgeWorkloadMap.

Definition updatePlaybookExecutionStatuses_one (m : gmap string PlaybookExec)
    (status : option models.PlaybookExecutionStatus) : M (gmap string PlaybookExec) :=
  status ← lift (deref status);
  match m !! models.PlaybookExecutionStatus_Name status with
  | None => mret m
  | Some pe =>
      let conditions :=
        elems (PlaybookExecutionStatus_Conditions (PlaybookExec_PlaybookExecutionStatus pe)) in
      lastCondition ← lift (deref (last conditions));
      pe ←
        (if decide (PlaybookExecutionCondition_Type lastCondition <>
                    models.PlaybookExecutionStatus_Status status)
         then
           conditions ← lift (update_last (set_condition_status ConditionFalse) conditions);
           now ← (call Now : M Time);
           mret (mkPlaybookExec (PlaybookExec_Name pe) (mkPlaybookExecutionStatus
             (Some (conditions ++ [new_condition (models.PlaybookExecutionStatus_Status status) now]))))
         else mret pe);
      mret (<[models.PlaybookExecutionStatus_Name status := pe]> m)
  end.

Definition updatePlaybookExecutionStatuses (oldPlaybookExecution : slice PlaybookExec)
    (playbookExecutions : slice (option models.PlaybookExecutionStatus)) : M (slice PlaybookExec) :=
  let playbookExecutionMap :=
    foldl (fun m pe => <[PlaybookExec_Name pe := pe]> m) (∅ : gmap string PlaybookExec)
      (elems oldPlaybookExecution) in
  playbookExecutionMap ← for_each (elems playbookExecutions) playbookExecutionMap
                           updatePlaybookExecutionStatuses_one;
  values_in_order playbookExecutionMap.

(** The first loop of [updateStatus]: copies of the reported executions. *)
Definition playbookCopies_one (namespace : string) (m : gmap string PlaybookExecution)
    (hpe : option models.PlaybookExecutionStatus) : M (gmap string PlaybookExecution) :=
  hpe ← lift (deref hpe);
  '(pe, err) ← facade.GetPlaybookExecution (models.PlaybookExecutionStatus_Name hpe) namespace;
  match err with
  | Some _ => mret m
  | None => mret (<[models.PlaybookExecutionStatus_Name hpe := pe]> m)
  end.

(** The status after the heartbeat. *)
Definition new_status (heartbeat : models.Heartbeat) (hw : option Hardware)
    (deployments : slice Workload) (playbookExecutions : slice PlaybookExec)
    (s : EdgeDeviceStatus) : EdgeDeviceStatus :=
  mkEdgeDeviceStatus (models.Heartbeat_Status heartbeat) (models.Heartbeat_Version heartbeat)
    (match models.Heartbeat_Hardware heartbeat with
     | Some _ => hw
     | None => EdgeDeviceStatus_Hardware s
     end)
    deployments playbookExecutions (EdgeDeviceStatus_DataOBC s)
    ((fun u => mkUpgradeInformation (models.UpgradeStatus_CurrentCommitID u)
                 (models.UpgradeStatus_LastUpgradeStatus u) (models.UpgradeStatus_LastUpgradeTime u))
       <$> models.Heartbeat_Upgrade heartbeat)
    (EdgeDeviceStatus_WirelessDevices s).

(** A condition for the reported status replaces the last one as the true one. *)
Definition add_condition (status : string) (now : Time) (pe : PlaybookExecution)
    : PlaybookExecution :=
  let conditions := elems (PlaybookExecutionStatus_Conditions (PlaybookExecution_Status pe)) in
  let conditions :=
    match update_last (set_condition_status ConditionFalse) conditions with
    | Done l => l
    | Panicked => conditions
    end in
  mkPlaybookExecution (PlaybookExecution_TypeMeta pe) (PlaybookExecution_ObjectMeta pe)
    (PlaybookExecution_Spec pe)
    (mkPlaybookExecutionStatus (Some (conditions ++ [new_condition status now]))).

(** The second loop of [updateStatus]; the collected errors are dropped: each
    [multierror.Append(errors, ..)] leaves [errors] nil. *)
Definition updateStatus_one (namespace : string) (playbookCopies : gmap string PlaybookExecution)
    (edgeDevice : EdgeDevice) (hpe : option models.PlaybookExecutionStatus) : M EdgeDevice :=
  hpe ← lift (deref hpe);
  let name := models.PlaybookExecutionStatus_Name hpe in
  let status := models.PlaybookExecutionStatus_Status hpe in
  '(peNew, _) ← facade.GetPlaybookExecution name namespace;
  now ← (call Now : M Time);
  let peNew := add_condition status now peNew in
  '(_, err) ← facade.PatchPlaybookExecution (playbookCopies !! name) peNew;
  match err with
  | Some _ => mret edgeDevice
  | None =>
      if decide (status = PlaybookExecutionSuccessfullyCompleted \/
                 status = PlaybookExecutionCompletedWithError)
      then
        let newEdgeDeviceLabels :=
          map_delete "config/device-by-config" (Labels (EdgeDevice_ObjectMeta edgeDevice)) in
        let edgeDevice := upd_Meta (set_Labels newEdgeDeviceLabels) edgeDevice in
        '(edgeDevice, _) ← facade.UpdateEdgeDeviceLabels edgeDevice newEdgeDeviceLabels;
        mret edgeDevice
      else mret edgeDevice
  end.

(** Returns what it leaves in [*edgeDevice], and the error. *)
Definition updateStatus (edgeDevice : EdgeDevice) (heartbeat : models.Heartbeat)
    : M (EdgeDevice * option error) :=
  let namespace := Namespace (EdgeDevice_ObjectMeta edgeDevice) in
  let edgeDeviceCopy := edgeDevice in
  playbookCopies ← for_each (elems (models.Heartbeat_PlaybookExecutions heartbeat)) ∅
                     (playbookCopies_one namespace);
  hw ← match models.Heartbeat_Hardware heartbeat with
       | Some h => lift (MapHardware (Some h))
       | None => mret None
       end;
  deployments ← updateDeploymentStatuses
                  (EdgeDeviceStatus_Workloads (EdgeDevice_Status edgeDevice))
                  (models.Heartbeat_Workloads heartbeat);
  playbookExecutions ← updatePlaybookExecutionStatuses
                  (EdgeDeviceStatus_PlaybookExecutions (EdgeDevice_Status edgeDevice))
                  (models.Heartbeat_PlaybookExecutions heartbeat);
  let edgeDevice :=
    upd_Status (new_status heartbeat hw deployments playbookExecutions) edgeDevice in
  if decide (EdgeDevice_Status edgeDevice <> EdgeDevice_Status edgeDeviceCopy)
  then facade.PatchEdgeDeviceStatus edgeDevice edgeDeviceCopy
  else
    edgeDevice ← for_each (elems (models.Heartbeat_PlaybookExecutions heartbeat)) edgeDevice
                   (updateStatus_one namespace playbookCopies);
    mret (edgeDevice, None).

Section HeartbeatLabels.
Context `{Unicode}.

Definition updateLabels (edgeDevice : EdgeDevice) (heartbeat : models.Heartbeat)
    : M (EdgeDevice * option error) :=
  facade.UpdateEdgeDeviceLabels edgeDevice (MapLabels (models.Heartbeat_Hardware heartbeat)).

Definition device_ref (edgeDevice : EdgeDevice) : string :=
  Namespace (EdgeDevice_ObjectMeta edgeDevice) +:+ "/" +:+ Name (EdgeDevice_ObjectMeta edgeDevice).

Definition processEvents (edgeDevice : EdgeDevice) (events : slice (option models.EventInfo))
    : M unit :=
  for_each (elems events) tt (fun _ event =>
    match event with
    | None => mret tt
    | Some event =>
        call (RecordEvent (device_ref edgeDevice)
          (if decide (models.EventInfo_Type event = models.EventInfoTypeWarn)
           then corev1.EventTypeWarning else corev1.EventTypeNormal)
          (models.EventInfo_Reason event) (models.EventInfo_Message event))
    end).

(** ** heartbeat-handler.go of the Kubernetes backend *)

(** [retry] is the value of [RetryContextKey]: nil, or a bool. *)
Definition Process (retry : option bool) (name namespace : string) (heartbeat : models.Heartbeat)
    : M (bool * option error) :=
  '(edgeDevice, err) ← facade.GetEdgeDevice name namespace;
  match err with
  | Some e => if IsNotFound e then mret (false, Some e) else mret (true, Some e)
  | None =>
      _ ← (if default false retry then mret tt
           else processEvents edgeDevice (models.Heartbeat_Events heartbeat));
      '(edgeDevice, err) ← updateStatus edgeDevice heartbeat;
      match err with
      | Some e => mret (true, Some e)
      | None =>
          '(_, err) ← updateLabels edgeDevice heartbeat;
          match err with
          | Some e => mret (true, Some e)
          | None => mret (false, None)
          end
      end
  end.
End HeartbeatLabels.

(** ** heartbeat-handler.go of the edge API: retries *)

(** [for i := 1; i < 5; i++]: [fuel] rounds are left; [i] is the round. *)
Fixpoint retrying (UpdateStatus : bool -> M (bool * option error)) (fuel : nat) (i : Z)
    (retry : bool) (err : option error) : M (option error) :=
  match fuel with
  | 0 => mret err
  | S fuel' =>
      '(retry, err) ← UpdateStatus retry;
      match err with
      | None => mret None
      | Some _ =>
          if negb retry then mret err
          else
            _ ← (call (Sleep (i * 50)) : M unit);
            retrying UpdateStatus fuel' (i + 1) retry err
      end
  end.

Definition RetryingProcess (UpdateStatus : bool -> M (bool * option error)) : M (option error) :=
  retrying UpdateStatus 4 1 false None.

(** ** Lemmas: statuses of workloads *)

Definition by_name {V} (name : V -> string) (l : list V) : gmap string V :=
  foldl (fun m v => <[name v := v]> m) ∅ l.

(** A map whose values carry their key as their name. *)
Definition named_by {V} (name : V -> string) (m : gmap string V) : Prop :=
  forall k v, m !! k = Some v -> name v = k.

Lemma by_name_named {V} (name : V -> string) l : named_by name (by_name name l).
Proof.
  unfold by_name. assert (named_by name (∅ : gmap string V)) as H0
    by (intros k v; by rewrite lookup_empty).
  revert H0. generalize (∅ : gmap string V). induction l as [|v l IH]; intros m Hm; [done|].
  apply IH. intros k w. rewrite lookup_insert_Some. intros [[<- <-]|[_ ?]]; [done|by apply Hm].
Qed.

Lemma by_name_dom {V} (name : V -> string) l k :
  is_Some (by_name name l !! k) <-> k ∈ name <$> l.
Proof.
  unfold by_name. transitivity (k ∈ name <$> l \/ is_Some ((∅ : gmap string V) !! k)).
  2:{ rewrite lookup_empty. split; [by intros [?|[? ?]]|by left]. }
  generalize (∅ : gmap string V). induction l as [|v l IH]; intros m; cbn [foldl].
  - cbn. rewrite elem_of_nil. tauto.
  - rewrite IH. cbn. rewrite elem_of_cons. rewrite lookup_insert_is_Some'.
    naive_solver.
Qed.

Lemma by_name_elem {V} (name : V -> string) l k v : by_name name l !! k = Some v -> v ∈ l.
Proof.
  unfold by_name. assert (forall (m : gmap string V),
    foldl (fun m v => <[name v := v]> m) m l !! k = Some v -> v ∈ l \/ m !! k = Some v) as Hg.
  { induction l as [|w l IH]; intros m H; [by right|]. apply IH in H as [?|H]; [by left; right|].
    apply lookup_insert_Some in H as [[_ <-]|[_ ?]]; [left; left|by right]. }
  intros H. apply Hg in H as [?|H]; [done|]. by rewrite lookup_empty in H.
Qed.

(** The values of the map, over one pass that the runtime orders. *)
Lemma exec_values_in_order {V} (m : gmap string V) t o :
  exec (values_in_order m) t o -> exists seed r, t = [Ev MapOrder seed] /\ o = Done r /\
    elems r ≡ₚ (map_to_list m).*2.
Proof.
  intros He. unfold values_in_order in He.
  apply exec_bind_inv in He as [[He ->]|(order & t1 & t2 & -> & H1 & He)];
    [by apply exec_range_map in He as (? & _ & ?)|].
  apply exec_range_map in H1 as (seed & -> & [= ->]). apply exec_Ret_inv in He as [-> ->].
  exists seed. eexists. split; [done|]. split; [done|].
  assert (forall l s, elems (foldl (fun l (kv : string * V) => append l kv.2) s l) = elems s ++ l.*2)
    as Hf.
  { induction l as [|kv l IH]; intros s; cbn [foldl]; [by rewrite app_nil_r|].
    rewrite IH, elems_append, <-(assoc_L (++)). done. }
  rewrite Hf. simpl. by rewrite (range_Permutation seed (Some m)).
Qed.

Lemma values_NoDup {V} (name : V -> string) (m : gmap string V) :
  named_by name m -> NoDup (name <$> (map_to_list m).*2).
Proof.
  intros Hm. rewrite <-list_fmap_compose.
  rewrite (list_fmap_ext _ fst); [apply NoDup_fst_map_to_list|].
  intros i [k v] Hl. apply (Hm k v). apply elem_of_map_to_list. by apply list_elem_of_lookup_2 in Hl.
Qed.

Lemma elem_of_values {V} (m : gmap string V) v :
  v ∈ (map_to_list m).*2 <-> exists k, m !! k = Some v.
Proof.
  rewrite list_elem_of_fmap. split.
  - intros ([k w] & -> & Hin). exists k. by apply elem_of_map_to_list.
  - intros [k Hk]. exists (k, v). split; [done|]. by apply elem_of_map_to_list.
Qed.

(** The values of a map with the keys of [by_name name l]. *)
Lemma values_spec {V} (name : V -> string) l (m : gmap string V) r :
  dom m = dom (by_name name l) -> named_by name m -> r ≡ₚ (map_to_list m).*2 ->
  NoDup (name <$> r) /\ (forall n, n ∈ name <$> r <-> n ∈ name <$> l) /\
  forall v, v ∈ r -> exists k v0, by_name name l !! k = Some v0 /\ v0 ∈ l /\ m !! k = Some v.
Proof.
  intros Hd Hn Hr. split_and!.
  - rewrite Hr. by apply values_NoDup.
  - intros n. rewrite <-(by_name_dom name l).
    assert (is_Some (m !! n) <-> is_Some (by_name name l !! n)) as <-
      by (rewrite <-!elem_of_dom; by rewrite Hd).
    rewrite Hr, list_elem_of_fmap. setoid_rewrite elem_of_values. split.
    + intros (w & -> & k & Hk). rewrite (Hn _ _ Hk). by exists w.
    + intros [w Hk]. exists w. split; [by rewrite (Hn _ _ Hk)|by exists n].
  - intros v. rewrite Hr, elem_of_values. intros [k Hk].
    assert (is_Some (by_name name l !! k)) as [v0 Hv0].
    { apply elem_of_dom. rewrite <-Hd. by apply elem_of_dom_2 in Hk. }
    exists k, v0. split_and!; [done| |done]. by eapply by_name_elem.
Qed.

(** The last report about a name. *)
Definition last_report {R} (name : R -> string) (k : string) (l : list (option R)) : option R :=
  last (omap (fun r => r ← r; if decide (name r = k) then Some r else None) l).

Lemma last_report_snoc {R} (name : R -> string) k l r :
  last_report name k (l ++ [Some r]) =
    if decide (name r = k) then Some r else last_report name k l.
Proof.
  unfold last_report. rewrite omap_app. simpl. case_decide.
  - by rewrite last_snoc.
  - by rewrite app_nil_r.
Qed.

(** What the reports [l] make of the workload [w0]. *)
Definition workload_after (l : list (option models.WorkloadStatus)) (w0 w : Workload) : Prop :=
  Workload_Name w = Workload_Name w0 /\
  match last_report models.WorkloadStatus_Name (Workload_Name w0) l with
  | None => w = w0
  | Some r => Workload_Phase w = models.WorkloadStatus_Status r /\
              Workload_LastDataUpload w = models.WorkloadStatus_LastDataUpload r
  end.

Lemma exec_updateDeploymentStatuses_one m r t o :
  exec (updateDeploymentStatuses_one m r) t o ->
  match o with
  | Done m' => exists s, r = Some s /\
      m' = match m !! models.WorkloadStatus_Name s with
           | None => m
           | Some w =>
               let now := match t with Ev Now now :: _ => now | _ => 0%Z end in
               <[models.WorkloadStatus_Name s :=
                   mkWorkload (Workload_Name w) (models.WorkloadStatus_Status s)
                     (if decide (Workload_Phase w <> models.WorkloadStatus_Status s) then now
                      else Workload_LastTransitionTime w)
                     (models.WorkloadStatus_LastDataUpload s)]> m
           end
  | Panicked => r = None
  end.
Proof.
  intros He. unfold updateDeploymentStatuses_one in He.
  destruct r as [s|]; [|by apply exec_Panic_inv in He as [_ ->]]. simpl in He.
  destruct (m !! _) as [w|] eqn:Em; [|exec_step; exists s; by rewrite Em].
  case_decide as Ep; simpl in He.
  - exec_step. exec_step. exists s. split; [done|]. rewrite Em. cbv zeta. by rewrite decide_True.
  - exec_step. exists s. split; [done|]. rewrite Em. cbv zeta.
    rewrite decide_False by (intros Hn; by apply Hn). by rewrite Ep.
Qed.

Lemma exec_updateDeploymentStatuses_loop m0 l t o :
  named_by Workload_Name m0 ->
  exec (for_each l m0 updateDeploymentStatuses_one) t o ->
  match o with
  | Done m => dom m = dom m0 /\ named_by Workload_Name m /\
      (forall k w0 w, m0 !! k = Some w0 -> m !! k = Some w -> workload_after l w0 w)
  | Panicked => None ∈ l
  end.
Proof.
  intros Hm0. apply (for_each_rule
    (fun pre m _ => dom m = dom m0 /\ named_by Workload_Name m /\
       forall k w0 w, m0 !! k = Some w0 -> m !! k = Some w -> workload_after pre w0 w)
    (fun _ => None ∈ l)).
  2:{ split_and!; [done..|]. intros k w0 w -> [= ->]. by split. }
  intros pre r post m t1 t' o' -> (Hd & Hn & Hw) He.
  apply exec_updateDeploymentStatuses_one in He.
  destruct o' as [m'|]; [|subst; set_solver]. destruct He as (s & -> & ->).
  destruct (m !! models.WorkloadStatus_Name s) as [w1|] eqn:Em.
  - split_and!.
    + rewrite dom_insert_L. rewrite <-Hd. apply elem_of_dom_2 in Em. set_solver.
    + intros k w. rewrite lookup_insert_Some. intros [[<- <-]|[_ ?]]; [|by apply Hn].
      simpl. by apply Hn.
    + intros k w0 w H0. rewrite lookup_insert_Some. intros [[<- <-]|[Hne Hk]].
      * destruct (Hw _ _ _ H0 Em) as [E _]. split; [done|]. rewrite last_report_snoc.
        rewrite (Hm0 _ _ H0). by rewrite decide_True.
      * destruct (Hw _ _ _ H0 Hk) as [E Hr]. split; [done|]. rewrite last_report_snoc.
        rewrite (Hm0 _ _ H0) in *. by rewrite decide_False.
  - split_and!; [done..|]. intros k w0 w H0 Hk. destruct (Hw _ _ _ H0 Hk) as [E Hr].
    split; [done|]. rewrite last_report_snoc. rewrite (Hm0 _ _ H0) in *.
    rewrite decide_False; [done|]. intros <-. congruence.
Qed.

(** ** Lemmas: statuses of playbook executions *)

Definition pe_conditions (pe : PlaybookExec) : list PlaybookExecutionCondition :=
  elems (PlaybookExecutionStatus_Conditions (PlaybookExec_PlaybookExecutionStatus pe)).

(** The status of the last condition, the one in force. *)
Definition pe_current (pe : PlaybookExec) : option string :=
  PlaybookExecutionCondition_Type <$> last (pe_conditions pe).

Definition condition_types (pe : PlaybookExec) : list string :=
  PlaybookExecutionCondition_Type <$> pe_conditions pe.

(** What the reports [l] make of the execution [pe0]: its history only grows,
    and it ends with the last report. *)
Definition execution_after (l : list (option models.PlaybookExecutionStatus))
    (pe0 pe : PlaybookExec) : Prop :=
  PlaybookExec_Name pe = PlaybookExec_Name pe0 /\
  condition_types pe0 `prefix_of` condition_types pe /\
  match last_report models.PlaybookExecutionStatus_Name (PlaybookExec_Name pe0) l with
  | None => pe = pe0
  | Some r => pe_current pe = Some (models.PlaybookExecutionStatus_Status r)
  end.

Lemma update_last_types (l l' : list PlaybookExecutionCondition) status :
  update_last (set_condition_status status) l = Done l' ->
  PlaybookExecutionCondition_Type <$> l' = PlaybookExecutionCondition_Type <$> l.
Proof.
  unfold update_last. destruct (last l) as [c|] eqn:E; [|done]. intros [= <-].
  apply last_Some in E as [l0 ->]. rewrite length_app. simpl.
  replace (length l0 + 1 - 1) with (length l0) by lia. rewrite take_app_length.
  by rewrite !fmap_app.
Qed.

Lemma exec_updatePlaybookExecutionStatuses_one m r t o :
  exec (updatePlaybookExecutionStatuses_one m r) t o ->
  match o with
  | Done m' => exists s, r = Some s /\
      match m !! models.PlaybookExecutionStatus_Name s with
      | None => m' = m
      | Some pe => exists pe', m' = <[models.PlaybookExecutionStatus_Name s := pe']> m /\
          PlaybookExec_Name pe' = PlaybookExec_Name pe /\
          condition_types pe `prefix_of` condition_types pe' /\
          pe_current pe' = Some (models.PlaybookExecutionStatus_Status s)
      end
  | Panicked => r = None \/ exists s pe, r = Some s /\
      m !! models.PlaybookExecutionStatus_Name s = Some pe /\ pe_conditions pe = []
  end.
Proof.
  intros He. unfold updatePlaybookExecutionStatuses_one in He.
  destruct r as [s|]; [|apply exec_Panic_inv in He as [_ ->]; by left]. simpl in He.
  destruct (m !! _) as [pe|] eqn:Em; [|exec_step; exists s; by rewrite Em].
  fold (pe_conditions pe) in He. destruct (last (pe_conditions pe)) as [c|] eqn:El; simpl in He.
  2:{ apply exec_Panic_inv in He as [_ ->]. right. exists s, pe. split_and!; [done..|].
      by apply last_None. }
  case_decide as Ep; simpl in He.
  - destruct (update_last _ _) as [l|] eqn:Eu; simpl in He.
    2:{ unfold update_last in Eu. by rewrite El in Eu. }
    exec_step. exec_step. exists s. split; [done|]. rewrite Em. eexists. split; [done|].
    split; [done|]. unfold condition_types, pe_current, pe_conditions at 2 3. simpl.
    rewrite last_snoc. split; [|done].
    rewrite fmap_app. rewrite (update_last_types _ _ _ Eu). by eexists.
  - exec_step. exists s. split; [done|]. rewrite Em. exists pe.
    split_and!; [done..|]. unfold pe_current. rewrite El. simpl. by rewrite Ep.
Qed.

Lemma exec_updatePlaybookExecutionStatuses_loop m0 l t o :
  named_by PlaybookExec_Name m0 ->
  exec (for_each l m0 updatePlaybookExecutionStatuses_one) t o ->
  match o with
  | Done m => dom m = dom m0 /\ named_by PlaybookExec_Name m /\
      (forall k pe0 pe, m0 !! k = Some pe0 -> m !! k = Some pe -> execution_after l pe0 pe)
  | Panicked => None ∈ l \/ exists k pe, m0 !! k = Some pe /\ pe_conditions pe = []
  end.
Proof.
  intros Hm0. apply (for_each_rule
    (fun pre m _ => dom m = dom m0 /\ named_by PlaybookExec_Name m /\
       forall k pe0 pe, m0 !! k = Some pe0 -> m !! k = Some pe -> execution_after pre pe0 pe)
    (fun _ => None ∈ l \/ exists k pe, m0 !! k = Some pe /\ pe_conditions pe = [])).
  2:{ split_and!; [done..|]. intros k w0 w -> [= ->]. by split. }
  intros pre r post m t1 t' o' -> (Hd & Hn & Hw) He.
  apply exec_updatePlaybookExecutionStatuses_one in He.
  destruct o' as [m'|].
  2:{ destruct He as [->|(s & pe & -> & Hs & Hc)]; [left; set_solver|right].
      assert (is_Some (m0 !! models.PlaybookExecutionStatus_Name s)) as [pe0 Hpe0].
      { apply elem_of_dom. rewrite <-Hd. by apply elem_of_dom_2 in Hs. }
      exists (models.PlaybookExecutionStatus_Name s), pe0. split; [done|].
      destruct (Hw _ _ _ Hpe0 Hs) as (_ & Hp & _). unfold condition_types in Hp.
      rewrite Hc in Hp. apply prefix_nil_inv in Hp. by apply fmap_nil_inv in Hp. }
  destruct He as (s & -> & He).
  destruct (m !! models.PlaybookExecutionStatus_Name s) as [pe1|] eqn:Em.
  - destruct He as (pe' & -> & Hname & Hpre & Hcur). split_and!.
    + rewrite dom_insert_L. rewrite <-Hd. apply elem_of_dom_2 in Em. set_solver.
    + intros k w. rewrite lookup_insert_Some. intros [[<- <-]|[_ ?]]; [|by apply Hn].
      rewrite Hname. by apply Hn.
    + intros k w0 w H0. rewrite lookup_insert_Some. intros [[<- <-]|[Hne Hk]].
      * destruct (Hw _ _ _ H0 Em) as (E & Hp & _). split; [congruence|].
        split; [by etrans|]. rewrite last_report_snoc, (Hm0 _ _ H0). by rewrite decide_True.
      * destruct (Hw _ _ _ H0 Hk) as (E & Hp & Hr). split; [done|]. split; [done|].
        rewrite last_report_snoc. rewrite (Hm0 _ _ H0) in *. by rewrite decide_False.
  - subst m'. split_and!; [done..|]. intros k w0 w H0 Hk.
    destruct (Hw _ _ _ H0 Hk) as (E & Hp & Hr). split; [done|]. split; [done|].
    rewrite last_report_snoc. rewrite (Hm0 _ _ H0) in *.
    rewrite decide_False; [done|]. intros <-. congruence.
Qed.

Lemma exec_updateDeploymentStatuses old reports t o :
  exec (updateDeploymentStatuses old reports) t o ->
  match o with
  | Done ws =>
      NoDup (Workload_Name <$> elems ws) /\
      (forall n, n ∈ Workload_Name <$> elems ws <-> n ∈ Workload_Name <$> elems old) /\
      (forall w, w ∈ elems ws -> exists w0, w0 ∈ elems old /\ workload_after (elems reports) w0 w)
  | Panicked => None ∈ elems reports
  end.
Proof.
  intros He. unfold updateDeploymentStatuses in He.
  fold (by_name Workload_Name (elems old)) in He.
  pose proof (by_name_named Workload_Name (elems old)) as Hn0.
  apply exec_bind_inv in He as [[He ->]|(m & t1 & t2 & -> & H1 & He)];
    [by apply exec_updateDeploymentStatuses_loop in He|].
  apply exec_updateDeploymentStatuses_loop in H1 as (Hd & Hn & Hw); [|done].
  apply exec_values_in_order in He as (seed & r & _ & -> & Hr).
  destruct (values_spec _ _ _ _ Hd Hn Hr) as (H1 & H2 & H3). split_and!; [done..|].
  intros w (k & w0 & Hk0 & ? & Hk)%H3. exists w0. split; [done|by eapply Hw].
Qed.

(** ** Properties: statuses *)

(** C17: a heartbeat cannot add, drop or rename a workload of the device: after
    [updateDeploymentStatuses] there is exactly one entry per name that was
    there, in some order; each has the phase and the upload time of the last
    report about it, or is unchanged without one.  It panics only on a nil
    report. *)
Theorem updateDeploymentStatuses_spec old reports t o :
  exec (updateDeploymentStatuses old reports) t o ->
  match o with
  | Done ws =>
      NoDup (Workload_Name <$> elems ws) /\
      (forall n, n ∈ Workload_Name <$> elems ws <-> n ∈ Workload_Name <$> elems old) /\
      (forall w, w ∈ elems ws -> exists w0, w0 ∈ elems old /\ workload_after (elems reports) w0 w)
  | Panicked => None ∈ elems reports
  end.
Proof. apply exec_updateDeploymentStatuses. Qed.

(** C37: the same for playbook executions: the names stay, the history of
    conditions of each execution only grows, and it ends in the status last
    reported.  It panics only on a nil report or on an execution without any
    condition. *)
Theorem updatePlaybookExecutionStatuses_spec old reports t o :
  exec (updatePlaybookExecutionStatuses old reports) t o ->
  match o with
  | Done pes =>
      NoDup (PlaybookExec_Name <$> elems pes) /\
      (forall n, n ∈ PlaybookExec_Name <$> elems pes <-> n ∈ PlaybookExec_Name <$> elems old) /\
      (forall pe, pe ∈ elems pes ->
         exists pe0, pe0 ∈ elems old /\ execution_after (elems reports) pe0 pe)
  | Panicked => None ∈ elems reports \/ exists pe, pe ∈ elems old /\ pe_conditions pe = []
  end.
Proof.
  intros He. unfold updatePlaybookExecutionStatuses in He.
  fold (by_name PlaybookExec_Name (elems old)) in He.
  pose proof (by_name_named PlaybookExec_Name (elems old)) as Hn0.
  apply exec_bind_inv in He as [[He ->]|(m & t1 & t2 & -> & H1 & He)].
  { apply exec_updatePlaybookExecutionStatuses_loop in He as [?|(k & pe & Hk & ?)]; [by left| |done].
    right. exists pe. split; [by eapply by_name_elem|done]. }
  apply exec_updatePlaybookExecutionStatuses_loop in H1 as (Hd & Hn & Hw); [|done].
  apply exec_values_in_order in He as (seed & r & _ & -> & Hr).
  destruct (values_spec _ _ _ _ Hd Hn Hr) as (H1 & H2 & H3). split_and!; [done..|].
  intros w (k & w0 & Hk0 & ? & Hk)%H3. exists w0. split; [done|by eapply Hw].
Qed.

(** ** Lemmas: updateStatus *)

(** A call that only looks at the cluster or the clock. *)
Definition quiet (c : Req) : Prop :=
  is_read c \/ match c with Now | MapOrder => True | _ => False end.

(** A call that touches playbook executions, but neither the labels nor the
    status of a device. *)
Definition playbook_call (c : Req) : Prop :=
  quiet c \/ match c with PatchPlaybookExecution _ _ => True | _ => False end.

Lemma calls_values_in_order {V} (P : Req -> Prop) (m : gmap string V) :
  P MapOrder -> calls P (values_in_order m).
Proof. intros HP. unfold values_in_order, range_map. repeat calls_step; done. Qed.

Lemma calls_lift_any {A} (P : Req -> Prop) (o : outcome A) : calls P (lift o).
Proof. by destruct o. Qed.

Ltac quiet_tac :=
  intros; repeat (calls_step || apply calls_lift_any || apply calls_values_in_order);
  try (unfold quiet; simpl; tauto).

Lemma updateDeploymentStatuses_quiet old ws : calls quiet (updateDeploymentStatuses old ws).
Proof. unfold updateDeploymentStatuses, updateDeploymentStatuses_one. quiet_tac. Qed.

Lemma updatePlaybookExecutionStatuses_quiet old ws :
  calls quiet (updatePlaybookExecutionStatuses old ws).
Proof. unfold updatePlaybookExecutionStatuses, updatePlaybookExecutionStatuses_one. quiet_tac. Qed.

Lemma playbookCopies_quiet ns l m : calls quiet (for_each l m (playbookCopies_one ns)).
Proof.
  unfold playbookCopies_one, facade.GetPlaybookExecution, playbookexecution.Read. quiet_tac.
Qed.

#[local] Opaque facade.UpdateEdgeDeviceLabels.

(** One round of the second loop for a device that has labels. *)
Lemma exec_updateStatus_one ns copies d hpe t o :
  is_Some (Labels (EdgeDevice_ObjectMeta d)) ->
  exec (updateStatus_one ns copies d hpe) t o ->
  Forall (fun e => playbook_call (ev_req e)) t /\
  match o with Done d' => is_Some (Labels (EdgeDevice_ObjectMeta d')) | Panicked => hpe = None end.
Proof.
  intros Hl He. unfold updateStatus_one, facade.GetPlaybookExecution, playbookexecution.Read,
    facade.PatchPlaybookExecution, playbookexecution.Patch in He.
  destruct hpe as [hpe|]; [|by apply exec_Panic_inv in He as [-> ->]]. simpl in He.
  do 3 exec_step. destruct err0 as [e|].
  { exec_step. split; [|done]. repeat constructor; unfold playbook_call, quiet; simpl; tauto. }
  case_decide; [|exec_step; split; [|done]; repeat constructor; unfold playbook_call, quiet; simpl; tauto].
  destruct Hl as [l Hl]. rewrite Hl in He. cbn [map_delete] in He.
  apply exec_bind_inv in He as [[He ->]|([d' err'] & t1 & t2 & -> & H1 & He)];
    (apply UpdateEdgeDeviceLabels_own in He as (seed & _ & ?) ||
     apply UpdateEdgeDeviceLabels_own in H1 as (seed & -> & [= -> ->])); try done.
  apply exec_Ret_inv in He as [-> ->]. split; [|by eexists].
  repeat constructor; unfold playbook_call, quiet; simpl; tauto.
Qed.

Lemma exec_updateStatus_loop ns copies d l t o :
  is_Some (Labels (EdgeDevice_ObjectMeta d)) ->
  exec (for_each l d (updateStatus_one ns copies)) t o ->
  Forall (fun e => playbook_call (ev_req e)) t.
Proof.
  intros Hl He.
  pose proof (for_each_rule
    (fun _ d t => is_Some (Labels (EdgeDevice_ObjectMeta d)) /\
                  Forall (fun e => playbook_call (ev_req e)) t)
    (fun t => Forall (fun e => playbook_call (ev_req e)) t)
    (updateStatus_one ns copies) l) as Hr.
  apply Hr in He; [destruct o; tauto| |by split].
  intros pre x post d1 t1 t2 o2 _ [Hd Ht] Hb. apply exec_updateStatus_one in Hb as [Hb Ho]; [|done].
  destruct o2; [split; [done|]|]; by apply Forall_app.
Qed.

(** How [updateStatus] ends, for a device with labels. *)
Definition status_outcome (d : EdgeDevice) (t : list Event)
    (o : outcome (EdgeDevice * option error)) : Prop :=
  match o with
  | Done (d', err) =>
      (exists t1 s, t = t1 ++ [Ev (PatchEdgeDeviceStatus d (upd_Status (fun _ => s) d)) (d', err)] /\
         Forall (fun e => quiet (ev_req e)) t1 /\ s <> EdgeDevice_Status d) \/
      (err = None /\ Forall (fun e => playbook_call (ev_req e)) t)
  | Panicked => Forall (fun e => playbook_call (ev_req e)) t
  end.

Lemma quiet_playbook t :
  Forall (fun e : Event => quiet (ev_req e)) t -> Forall (fun e => playbook_call (ev_req e)) t.
Proof. intros H. eapply Forall_impl; [exact H|]. by left. Qed.

Lemma exec_updateStatus d heartbeat t o :
  is_Some (Labels (EdgeDevice_ObjectMeta d)) ->
  exec (updateStatus d heartbeat) t o -> status_outcome d t o.
Proof.
  intros Hl He. unfold updateStatus in He.
  apply exec_bind_inv in He as [[He ->]|(copies & t1 & t2 & -> & H1 & He)].
  { apply quiet_playbook. exact (calls_exec _ _ _ _ (playbookCopies_quiet _ _ _) He). }
  pose proof (calls_exec _ _ _ _ (playbookCopies_quiet _ _ _) H1) as Q1. clear H1.
  assert (forall h, calls quiet (match h with
            | Some h => lift (MapHardware (Some h)) | None => mret None end : M _)) as Hh.
  { intros [h|]; [apply calls_lift_any|done]. }
  apply exec_bind_inv in He as [[He ->]|(hw & t3 & t4 & -> & H1 & He)];
    [pose proof (calls_exec _ _ _ _ (Hh _) He) as Q2|
     pose proof (calls_exec _ _ _ _ (Hh _) H1) as Q2; clear H1].
  { apply quiet_playbook. by apply Forall_app. }
  apply exec_bind_inv in He as [[He ->]|(ds & t5 & t6 & -> & H1 & He)];
    [pose proof (calls_exec _ _ _ _ (updateDeploymentStatuses_quiet _ _) He) as Q3|
     pose proof (calls_exec _ _ _ _ (updateDeploymentStatuses_quiet _ _) H1) as Q3; clear H1].
  { apply quiet_playbook. by rewrite !Forall_app. }
  apply exec_bind_inv in He as [[He ->]|(ps & t7 & t8 & -> & H1 & He)];
    [pose proof (calls_exec _ _ _ _ (updatePlaybookExecutionStatuses_quiet _ _) He) as Q4|
     pose proof (calls_exec _ _ _ _ (updatePlaybookExecutionStatuses_quiet _ _) H1) as Q4; clear H1].
  { apply quiet_playbook. by rewrite !Forall_app. }
  cbv zeta in He. case_decide as Es.
  - unfold facade.PatchEdgeDeviceStatus, edgedevice.PatchStatus in He.
    match type of He with exec (call ?c) _ _ =>
      apply (exec_call_inv (Resp:=Resp) c) in He as ([d' err] & -> & ->) end. left.
    exists (t1 ++ t3 ++ t5 ++ t7). eexists. split; [by rewrite <-!(assoc_L (++))|].
    split; [by rewrite !Forall_app|exact Es].
  - apply exec_bind_inv in He as [[He ->]|(d' & t9 & t10 & -> & H1 & He)].
    + apply exec_updateStatus_loop in He; [|done]. unfold status_outcome. rewrite !Forall_app.
      repeat split; first [done|by apply quiet_playbook].
    + apply exec_updateStatus_loop in H1; [|done]. apply exec_Ret_inv in He as [-> ->].
      right. split; [done|]. rewrite !Forall_app.
      repeat split; first [done|by apply quiet_playbook|constructor].
Qed.

(** ** Properties: updateStatus *)

(** For a device with labels a heartbeat either patches the status of the
    device (once, at the end, only when it changed, and touching nothing else)
    and leaves every playbook execution alone, or leaves the device alone; the
    error it reports can only be that of the status patch, so failures to read
    or patch a playbook execution are never reported. *)
Theorem updateStatus_status_or_playbooks d heartbeat t o :
  is_Some (Labels (EdgeDevice_ObjectMeta d)) ->
  exec (updateStatus d heartbeat) t o -> status_outcome d t o.
Proof. apply exec_updateStatus. Qed.

(** The label "config/device-by-config" is never taken off a device: when a
    playbook execution is done the code deletes it from the map it shares with
    the device and then asks to merge that map into the device's labels, which
    changes nothing; no heartbeat of a device with labels ever patches the
    device itself. *)
Theorem updateStatus_never_removes_label d heartbeat t o base obj r :
  is_Some (Labels (EdgeDevice_ObjectMeta d)) ->
  exec (updateStatus d heartbeat) t o -> Ev (PatchEdgeDevice base obj) r ∉ t.
Proof.
  intros Hl He Hin. apply exec_updateStatus in He; [|done].
  assert (forall t, Forall (fun e => playbook_call (ev_req e)) t ->
            Ev (PatchEdgeDevice base obj) r ∉ t) as Hn.
  { intros t' HF Hin'. rewrite Forall_forall in HF. apply HF in Hin'.
    unfold playbook_call, quiet in Hin'. simpl in Hin'. tauto. }
  destruct o as [[d' err]|]; simpl in He; [|by eapply Hn].
  destruct He as [(t1 & s & -> & HF & _)|[_ HF]]; [|by eapply Hn].
  apply elem_of_app in Hin as [Hin|Hin%list_elem_of_singleton]; [|done].
  exact (Hn _ (quiet_playbook _ HF) Hin).
Qed.

Definition labelled_device : EdgeDevice :=
  mkEdgeDevice empty_TypeMeta
    (mkObjectMeta "d1" "ns" "u" "1" None
       (Some {["config/device-by-config" := "c"]}) None None None)
    empty_EdgeDeviceSpec
    (mkEdgeDeviceStatus "up" "1" None None None None None None).
Definition done_heartbeat : models.Heartbeat :=
  models.mkHeartbeat (Some [Some (models.mkEventInfo "m" "r" "warn")]) None
    (Some [Some (models.mkPlaybookExecutionStatus 0 "pe" "SuccessfullyCompleted")])
    "up" None "1" None.
Definition playbook_world : World :=
  set_playbooks {[("ns", "pe") := upd_PlaybookMeta (fun _ => named "pe" "ns") empty_PlaybookExecution]}
    (set_devices {[("ns", "d1") := labelled_device]} empty_world).

Lemma updateStatus_status_or_playbooks_witness :
  is_Some (Labels (EdgeDevice_ObjectMeta labelled_device)) /\
  length (run_trace (updateStatus labelled_device done_heartbeat) playbook_world) = 7 /\
  status_outcome labelled_device
    (run_trace (updateStatus labelled_device done_heartbeat) playbook_world)
    (run_result (updateStatus labelled_device done_heartbeat) playbook_world).
Proof.
  assert (is_Some (Labels (EdgeDevice_ObjectMeta labelled_device))) as H by (by eexists).
  split; [exact H|]. split; [vm_compute; reflexivity|].
  exact (updateStatus_status_or_playbooks _ _ _ _ H (run_result_exec _ playbook_world)).
Defined.

(** A device that is in no way related to a playbook execution may report on it:
    the name in the heartbeat is all the code looks at. *)
Theorem updateStatus_patches_any_execution :
  exists edgeDevice heartbeat w base pe answer,
    EdgeDeviceStatus_PlaybookExecutions (EdgeDevice_Status edgeDevice) = None /\
    Name (PlaybookExecution_ObjectMeta pe) = "pe" /\
    In (Ev (PatchPlaybookExecution base pe) (answer, None))
      (run_trace (updateStatus edgeDevice heartbeat) w).
Proof.
  exists labelled_device, done_heartbeat, playbook_world. do 3 eexists. split; [reflexivity|].
  split; [|vm_compute; repeat first [left; reflexivity|right]]. reflexivity.
Qed.

Lemma updateStatus_never_removes_label_witness :
  is_Some (Labels (EdgeDevice_ObjectMeta labelled_device)) /\
  Ev (PatchEdgeDevice labelled_device
       (upd_Meta (set_Labels (Some ∅)) labelled_device)) (labelled_device, None)
    ∉ run_trace (updateStatus labelled_device done_heartbeat) playbook_world.
Proof.
  assert (is_Some (Labels (EdgeDevice_ObjectMeta labelled_device))) as H by (by eexists).
  split; [exact H|].
  exact (updateStatus_never_removes_label _ _ _ _ _ _ _ H (run_result_exec _ playbook_world)).
Defined.

Lemma updateDeploymentStatuses_spec_witness :
  let p := updateDeploymentStatuses (Some [mkWorkload "w" "Deploying" 1 2; mkWorkload "v" "Running" 3 4])
             (Some [Some (models.mkWorkloadStatus 9 "w" "Running");
                    Some (models.mkWorkloadStatus 9 "other" "Running")]) in
  run_result p empty_world =
    Done (Some [mkWorkload "w" "Running" 1000 9; mkWorkload "v" "Running" 3 4]) /\
  NoDup ["w"; "v"].
Proof.
  cbv zeta. match goal with |- run_result ?p _ = ?o /\ _ =>
    assert (run_result p empty_world = o) as Hr by (vm_compute; reflexivity) end.
  split; [exact Hr|].
  exact (proj1 (updateDeploymentStatuses_spec _ _ _ _ (run_result_exec_as _ empty_world _ Hr))).
Defined.

Lemma updatePlaybookExecutionStatuses_spec_witness :
  let pe := mkPlaybookExec "pe" (mkPlaybookExecutionStatus
              (Some [new_condition "Deploying" 1])) in
  let p := updatePlaybookExecutionStatuses (Some [pe])
             (Some [Some (models.mkPlaybookExecutionStatus 9 "pe" "Running")]) in
  exists pes, run_result p empty_world = Done (Some pes) /\
    NoDup (PlaybookExec_Name <$> pes).
Proof.
  cbv zeta. match goal with |- exists _, run_result ?p _ = _ /\ _ =>
    assert (exists pes, run_result p empty_world = Done (Some pes)) as [pes Hr] by
      (eexists; vm_compute; reflexivity) end.
  exists pes. split; [exact Hr|].
  exact (proj1 (updatePlaybookExecutionStatuses_spec _ _ _ _
                  (run_result_exec_as _ empty_world _ Hr))).
Defined.

(** ** Lemmas: retries *)

(** One call of the delegate: its exchanges, and what it returned. *)
Definition attempt : Type := list Event * (bool * option error).

(** The pause after the attempt of index [i] from round [k]: only after a
    failure that may be retried. *)
Definition attempt_trace (k : Z) (i : nat) (a : attempt) : list Event :=
  a.1 ++ match a.2 with
         | (true, Some _) => [Ev (Sleep ((k + Z.of_nat i) * 50)) tt]
         | _ => []
         end.

(** The attempts of a retry loop of at most [n] rounds that starts at round [k]
    with the flag [retry], and the error it returns. *)
Definition retried (U : bool -> M (bool * option error)) (n : nat) (k : Z) (retry : bool)
    (t : list Event) (err : option error) : Prop :=
  exists runs : list attempt, 1 <= length runs <= n /\
    (forall i a, runs !! i = Some a ->
       exec (U (if decide (i = 0) then retry else true)) a.1 (Done a.2)) /\
    (forall i a, runs !! i = Some a -> S i < length runs -> exists e, a.2 = (true, Some e)) /\
    (exists a, last runs = Some a /\ a.2.2 = err /\
       (err = None \/ a.2.1 = false \/ length runs = n)) /\
    t = concat (imap (attempt_trace k) runs).

Lemma retried_once U n k retry (a : attempt) :
  exec (U retry) a.1 (Done a.2) -> a.2.2 = None \/ a.2.1 = false \/ S n = 1 ->
  retried U (S n) k retry (attempt_trace k 0 a) a.2.2.
Proof.
  intros Hx Hs. exists [a]. split; [simpl; lia|]. split; [|split; [|split]].
  - intros [|i] a' Hi; simpl in Hi; by simplify_eq.
  - intros i a' _ Hi. simpl in Hi. lia.
  - exists a. split_and!; [done..|]. destruct Hs as [?|[?|?]]; auto.
  - simpl. by rewrite app_nil_r.
Qed.

Lemma exec_retrying U n k retry err0 t err :
  exec (retrying U (S n) k retry err0) t (Done err) -> retried U (S n) k retry t err.
Proof.
  revert k retry err0 t err. induction n as [|n IH]; intros k retry err0 t err He;
    change (retrying U (S ?n) k retry err0) with
      ('(retry, err) ← U retry;
       match err with
       | None => mret None
       | Some _ => if negb retry then mret err
                   else _ ← (call (Sleep (k * 50)) : M unit);
                        retrying U n (k + 1) retry err
       end) in He;
    (apply exec_bind_inv in He as [[_ ?]|([r err1] & t1 & t2 & -> & H1 & He)]; [done|]);
    pose proof (retried_once U) as Honce.
  - specialize (Honce 0 k retry (t1, (r, err1)) H1). unfold attempt_trace in Honce. simpl in Honce.
    rewrite Z.add_0_r in Honce.
    destruct err1 as [e|]; [destruct r; simpl in He|].
    + apply exec_Call_inv in He as ([] & t3 & -> & He). apply exec_Ret_inv in He as [-> [= ->]].
      auto.
    + apply exec_Ret_inv in He as [-> [= ->]]. auto.
    + apply exec_Ret_inv in He as [-> [= ->]]. destruct r; auto.
  - specialize (Honce (S n) k retry (t1, (r, err1)) H1). unfold attempt_trace in Honce. simpl in Honce.
    destruct err1 as [e|]; [destruct r; simpl in He|].
    2: apply exec_Ret_inv in He as [-> [= ->]]; auto.
    2: apply exec_Ret_inv in He as [-> [= ->]]; destruct r; auto.
    clear Honce. apply exec_Call_inv in He as ([] & t3 & -> & He).
    apply (IH _ _ (Some e)) in He as (runs & Hn & Hx & Hf & (a & Hl & Ha & Hs) & ->).
    exists ((t1, (true, Some e)) :: runs). split_and!.
    + simpl. lia.
    + simpl. lia.
    + intros [|i] a' Hi; [by simplify_eq/=|]. simpl in Hi. specialize (Hx i a' Hi).
      rewrite decide_False by done. by destruct (decide (i = 0)).
    + intros [|i] a' Hi Hlt; [simplify_eq/=; by exists e|]. apply (Hf i); [done|simpl in Hlt; lia].
    + exists a. split_and!; [|done|].
      * destruct runs; [simpl in Hn; lia|done].
      * destruct Hs as [?|[?|?]]; [by left|right; by left|right; right; simpl; lia].
    + cbn [imap concat].
      change (attempt_trace k 0 (t1, (true, Some e)))
        with (t1 ++ [Ev (Sleep ((k + Z.of_nat 0) * 50)) tt : Event]).
      assert (imap (attempt_trace (k + 1)) runs = imap (attempt_trace k ∘ S) runs) as ->.
      { apply imap_ext. intros i a' _. unfold attempt_trace, compose.
        by replace (k + 1 + Z.of_nat i)%Z with (k + Z.of_nat (S i))%Z by lia. }
      by rewrite Z.add_0_r, <-(assoc_L (++)).
Qed.

(** The events a program emitted. *)
Definition emitted_events (t : list Event) : list (string * string * string) :=
  omap (fun e => match ev_req e with
                 | RecordEvent _ ty reason message => Some (ty, reason, message)
                 | _ => None end) t.

(** The Kubernetes events a heartbeat asks for. *)
Definition heartbeat_events (heartbeat : models.Heartbeat) : list (string * string * string) :=
  omap (fun e => e ← e;
    Some (if decide (models.EventInfo_Type e = models.EventInfoTypeWarn)
          then corev1.EventTypeWarning else corev1.EventTypeNormal,
          models.EventInfo_Reason e, models.EventInfo_Message e))
    (elems (models.Heartbeat_Events heartbeat)).

Lemma emitted_events_none t :
  Forall (fun e => match ev_req e with RecordEvent _ _ _ _ => False | _ => True end) t ->
  emitted_events t = [].
Proof.
  induction 1 as [|e t He _ IH]; [done|]. unfold emitted_events. simpl.
  destruct (ev_req e); done.
Qed.

Lemma emitted_events_app t1 t2 : emitted_events (t1 ++ t2) = emitted_events t1 ++ emitted_events t2.
Proof. apply omap_app. Qed.

Lemma exec_processEvents d events t o :
  exec (processEvents d events) t o ->
  o = Done tt /\ emitted_events t =
    omap (fun e => e ← e;
      Some (if decide (models.EventInfo_Type e = models.EventInfoTypeWarn)
            then corev1.EventTypeWarning else corev1.EventTypeNormal,
            models.EventInfo_Reason e, models.EventInfo_Message e)) (elems events).
Proof.
  unfold processEvents. revert t. induction (elems events) as [|e l IH]; intros t He; simpl in He.
  - apply exec_Ret_inv in He as [-> ->]. done.
  - destruct e as [e|]; simpl in He.
    + apply exec_Call_inv in He as ([] & t' & -> & He). apply IH in He as [-> He].
      split; [done|]. exact (f_equal (cons _) He).
    + by apply IH in He.
Qed.

(** Calls that emit no event. *)
Definition silent (c : Req) : Prop :=
  match c with RecordEvent _ _ _ _ => False | _ => True end.

Lemma calls_silent_emitted {A} (p : M A) t o :
  calls silent p -> exec p t o -> emitted_events t = [].
Proof. intros Hp He. apply emitted_events_none. exact (calls_exec _ _ _ _ Hp He). Qed.

#[local] Transparent facade.UpdateEdgeDeviceLabels.
Lemma UpdateEdgeDeviceLabels_silent d l : calls silent (facade.UpdateEdgeDeviceLabels d l).
Proof.
  eapply calls_weaken; [|apply UpdateLabels_calls]. by intros [].
Qed.
#[local] Opaque facade.UpdateEdgeDeviceLabels.

Lemma updateStatus_silent d heartbeat : calls silent (updateStatus d heartbeat).
Proof.
  unfold updateStatus.
  assert (forall c, quiet c -> silent c) as Hq by (unfold quiet, silent; intros []; simpl; tauto).
  apply calls_bind; [eapply calls_weaken; [exact Hq|apply playbookCopies_quiet]|]. intros copies.
  apply calls_bind; [destruct (models.Heartbeat_Hardware _); [apply calls_lift_any|done]|].
  intros hw. apply calls_bind;
    [eapply calls_weaken; [exact Hq|apply updateDeploymentStatuses_quiet]|]. intros ds.
  apply calls_bind;
    [eapply calls_weaken; [exact Hq|apply updatePlaybookExecutionStatuses_quiet]|]. intros ps.
  cbv zeta. case_decide; [by split|]. apply calls_bind; [|done].
  apply calls_for_each. intros d' hpe.
  unfold updateStatus_one, facade.GetPlaybookExecution, playbookexecution.Read,
    facade.PatchPlaybookExecution, playbookexecution.Patch.
  repeat (match goal with
          | |- calls _ (facade.UpdateEdgeDeviceLabels ?d ?l) =>
              exact (UpdateEdgeDeviceLabels_silent d l)
          | |- _ => calls_step || apply calls_lift_any
          end); done.
Qed.

(** One attempt emits the events of the heartbeat once it has read the device,
    and only when it is not a retry. *)
Lemma exec_Process_events `{Unicode} retry name namespace heartbeat t o :
  exec (Process (Some retry) name namespace heartbeat) t o ->
  exists d err t', t = Ev (GetEdgeDevice namespace name) (d, err) :: t' /\
    emitted_events t =
      match err with
      | Some _ => []
      | None => if retry then [] else heartbeat_events heartbeat
      end.
Proof.
  intros He. unfold Process, facade.GetEdgeDevice, edgedevice.Read in He. simpl in He.
  apply exec_Call_inv in He as ([d err] & t' & -> & He). exists d, err, t'. split; [done|].
  change (emitted_events (Ev (GetEdgeDevice namespace name) (d, err) :: t'))
    with (emitted_events t').
  destruct err as [e|].
  { destruct (IsNotFound e); by apply exec_Ret_inv in He as [-> _]. }
  match type of He with exec (mbind ?f ?p) _ _ =>
    assert (forall t o, exec (f tt) t o -> emitted_events t = []) as Hrest end.
  { intros t o'. cbv beta. apply calls_silent_emitted.
    apply calls_bind; [apply updateStatus_silent|]. intros [d' [e|]]; [done|].
    apply calls_bind; [apply UpdateEdgeDeviceLabels_silent|]. by intros [? [?|]]. }
  apply exec_bind_inv in He as [[He ->]|([] & t1 & t2 & -> & H1 & H2)].
  - destruct retry; [by apply exec_Ret_inv in He as [_ ?]|].
    by apply exec_processEvents in He as [? _].
  - rewrite emitted_events_app, (Hrest _ _ H2), app_nil_r.
    destruct retry; [by apply exec_Ret_inv in H1 as [-> _]|].
    by apply exec_processEvents in H1 as [_ ->].
Qed.

(** ** Properties: retries *)

(** C32: [RetryingDelegatingHandler.Process], for any delegate: between one and
    four attempts, the first without the retry flag and all others with it;
    every attempt but the last failed and allowed a retry; the result is that
    of the last attempt, which succeeded, forbade a retry, or was the fourth;
    after each failure that allows one, even the fourth, it pauses 50 ms times
    the number of the attempt. *)
Theorem RetryingProcess_attempts UpdateStatus t err :
  exec (RetryingProcess UpdateStatus) t (Done err) -> retried UpdateStatus 4 1 false t err.
Proof. apply exec_retrying. Qed.

(** The events of a heartbeat are emitted at most once however often its
    processing is retried, and exactly when the first attempt manages to read
    the device: if that read fails with anything but "not found" the heartbeat
    is retried and may succeed, but its events are lost. *)
Theorem heartbeat_events_once `{Unicode} name namespace heartbeat t err :
  exec (RetryingProcess (fun retry => Process (Some retry) name namespace heartbeat)) t (Done err) ->
  exists d read_err t', t = Ev (GetEdgeDevice namespace name) (d, read_err) :: t' /\
    emitted_events t = match read_err with
                       | Some _ => []
                       | None => heartbeat_events heartbeat
                       end.
Proof.
  intros He. apply (exec_retrying _ 3 1 false None) in He as (runs & Hn & Hx & _ & _ & ->).
  destruct runs as [|a runs]; [simpl in Hn; lia|].
  pose proof (Hx 0 a eq_refl) as H0. cbn [decide] in H0.
  apply exec_Process_events in H0 as (d & e & t' & Ht & Hev).
  assert (forall f, (forall i b, runs !! i = Some b -> emitted_events (f i b) = []) ->
    emitted_events (concat (imap f runs)) = []) as Hrest.
  { clear. induction runs as [|b runs IH]; intros f Hf; [done|]. cbn [imap concat].
    rewrite emitted_events_app, (Hf 0 b), IH; [done| |done]. intros i c Hc. by apply (Hf (S i)). }
  assert (forall k i (b : attempt), emitted_events (attempt_trace k i b) = emitted_events b.1) as Ha.
  { intros k i [tb [[] [?|]]]; unfold attempt_trace; simpl; rewrite emitted_events_app;
      simpl; by rewrite app_nil_r. }
  cbn [imap concat]. eexists d, e, _. split.
  { unfold attempt_trace at 1. rewrite Ht. simpl. reflexivity. }
  rewrite emitted_events_app, Ha, Hev, Hrest; [by rewrite app_nil_r|].
  intros i b Hb. cbn [compose]. rewrite Ha.
  pose proof (Hx (S i) b Hb) as Hb'. rewrite decide_False in Hb' by done.
  apply exec_Process_events in Hb' as (? & [?|] & ? & _ & ->); done.
Qed.

(** A heartbeat of a device whose status the API server refuses to patch: four
    attempts, each followed by its pause. *)
Definition no_status_world : World :=
  set_fault (fun c => match c with
                      | PatchEdgeDeviceStatus _ _ => Some (ErrorString "refused")
                      | _ => None
                      end) playbook_world.
Definition degraded_heartbeat : models.Heartbeat :=
  models.mkHeartbeat (Some [Some (models.mkEventInfo "m" "r" "warn")]) None None
    "degraded" None "1" None.
Definition retried_heartbeat `{Unicode} : M (option error) :=
  RetryingProcess (fun retry => Process (Some retry) "d1" "ns" degraded_heartbeat).
Definition is_event (e : Event) : bool :=
  match ev_req e with RecordEvent _ _ _ _ => true | _ => false end.
Definition is_sleep (e : Event) : bool :=
  match ev_req e with Sleep _ => true | _ => false end.

Lemma RetryingProcess_attempts_witness :
  let p := @retried_heartbeat ascii_tables in
  run_result p no_status_world = Done (Some (ErrorString "refused")) /\
  length (List.filter is_sleep (run_trace p no_status_world)) = 4 /\
  retried (fun retry => @Process ascii_tables (Some retry) "d1" "ns" degraded_heartbeat) 4 1 false
    (run_trace p no_status_world) (Some (ErrorString "refused")).
Proof.
  cbv zeta.
  assert (run_result (@retried_heartbeat ascii_tables) no_status_world =
          Done (Some (ErrorString "refused"))) as Hr by (vm_compute; reflexivity).
  split; [exact Hr|]. split; [vm_compute; reflexivity|].
  exact (RetryingProcess_attempts _ _ _ (run_result_exec_as _ _ _ Hr)).
Defined.

Lemma heartbeat_events_once_witness :
  let p := @retried_heartbeat ascii_tables in
  run_result p no_status_world = Done (Some (ErrorString "refused")) /\
  length (List.filter is_event (run_trace p no_status_world)) = 1 /\
  exists d err t', run_trace p no_status_world = Ev (GetEdgeDevice "ns" "d1") (d, err) :: t' /\
    emitted_events (run_trace p no_status_world) =
      match err with Some _ => [] | None => heartbeat_events degraded_heartbeat end.
Proof.
  cbv zeta.
  assert (run_result (@retried_heartbeat ascii_tables) no_status_world =
          Done (Some (ErrorString "refused"))) as Hr by (vm_compute; reflexivity).
  split; [exact Hr|]. split; [vm_compute; reflexivity|].
  exact (@heartbeat_events_once ascii_tables _ _ _ _ _ (run_result_exec_as _ _ _ Hr)).
Defined.
