(* ===== verification/BackendApi.v ===== *)
(** * The contract between the edge API and its backends

    internal/edgeapi/backend/api.go: the operations the HTTP handlers ask of a
    backend, as a class whose instances are the Kubernetes backend (Backend.v)
    and the remote one (RemoteBackend.v), and the laws the handlers' own
    guarantees rest on. *)
From S2P Require Import Prelude GoData GoStrings V1alpha1 Models Env.

Definition Registered : string := "registered".
Definition Unregistered : string := "unregistered".
Definition Unknown : string := "unknown".

(** A context carries the identity the TLS layer verified
    ([ctx.Value(AuthzKey)], absent when no certificate was accepted) and, for
    [UpdateStatus], the retry flag. *)
Record RequestAuthVal := mkRequestAuthVal {
  CommonName : string; RequestAuthVal_Namespace : string }.

Class EdgeDeviceBackend := {
  GetRegistrationStatus (name namespace : string) : M (string * option error);
  GetConfiguration (name namespace : string)
    : M (option models.DeviceConfigurationMessage * option error);
  Enrol (name namespace : string) (enrolmentInfo : models.EnrolmentInfo) : M (bool * option error);
  GetTargetNamespace (name namespace : string) (matchesCertificate : bool)
    : M (string * option error);
  GetPlaybookExecutions (edgeDeviceName namespace : string)
    : M (slice (option models.PlaybookExecution) * option error);
  Register (name namespace : string) (registrationInfo : models.RegistrationInfo)
    : M (option error);
  UpdateStatus (retry : option bool) (name namespace : string) (heartbeat : models.Heartbeat)
    : M (bool * option error);
}.

(** What a client may rely on: the queries leave the cluster alone, and a
    query that succeeds has an answer. *)
Class BackendLaws (B : EdgeDeviceBackend) : Prop := {
  GetRegistrationStatus_no_write name namespace :
    calls no_write (GetRegistrationStatus name namespace);
  GetConfiguration_no_write name namespace : calls no_write (GetConfiguration name namespace);
  GetTargetNamespace_no_write name namespace m :
    calls no_write (GetTargetNamespace name namespace m);
  GetPlaybookExecutions_no_write name namespace :
    calls no_write (GetPlaybookExecutions name namespace);
  GetConfiguration_answers name namespace t dc :
    exec (GetConfiguration name namespace) t (Done (dc, None)) -> is_Some dc;
}.
