(* ===== verification/Backend.v ===== *)
(** * The Kubernetes backend

    internal/edgeapi/backend/k8s/backend.go: registration status,
    configuration, enrolment, registration and playbook executions of a device
    on top of the repositories.  The retries that [Register] makes while it
    patches the status are [updateDeviceStatus]. *)
From S2P Require Import Prelude GoData GoStrings V1alpha1 Models Env Testbed Labels Utils.
From S2P Require Import Repository Hardware Facade Assembler Heartbeat BackendApi.
Import v1alpha1.

Module k8s.
Section Backend.
Context `{Unicode} `{Libs} (initialNamespace : string).

Definition GetRegistrationStatus (name namespace : string) : M (string * option error) :=
  '(edgeDevice, err) ← facade.GetEdgeDevice name namespace;
  match err with
  | Some e => if IsNotFound e then mret (Unregistered, None) else mret (Unknown, Some e)
  | None =>
      match DeletionTimestamp (EdgeDevice_ObjectMeta edgeDevice) with
      | Some _ => mret (Unregistered, None)
      | None => mret (Registered, None)
      end
  end.

Definition GetConfiguration (name namespace : string) : M ConfigResult :=
  '(edgeDevice, err) ← facade.GetEdgeDevice name namespace;
  match err with
  | Some e => mret (None, Some e)
  | None => GetDeviceConfiguration edgeDevice
  end.

(** The request [Enrol] creates; it panics when [Features] is nil. *)
Definition signed_request (name namespace : string) (enrolmentInfo : models.EnrolmentInfo)
    : outcome EdgeDeviceSignedRequest :=
  features ← deref (models.EnrolmentInfo_Features enrolmentInfo);
  hw ← MapHardware (models.EnrolmentInfoFeatures_Hardware features);
  mret (mkEdgeDeviceSignedRequest empty_TypeMeta (named name initialNamespace)
    (mkEdgeDeviceSignedRequestSpec namespace "" false (Some (mkFeatures "" hw)))
    (mkEdgeDeviceSignedRequestStatus None)).

Definition Enrol (name namespace : string) (enrolmentInfo : models.EnrolmentInfo)
    : M (bool * option error) :=
  '(_, err) ← facade.GetEdgeDevice name namespace;
  match err with
  | None => mret (true, None)
  | Some _ =>
      '(edsr, err) ← facade.GetEdgeDeviceSignedRequest name initialNamespace;
      match err with
      | None =>
          let targetNamespace := EdgeDeviceSignedRequestSpec_TargetNamespace
                                   (EdgeDeviceSignedRequest_Spec edsr) in
          if decide (targetNamespace <> namespace) then
            '(_, err) ← facade.GetEdgeDevice name targetNamespace;
            match err with
            | None => mret (true, None)
            | Some _ => mret (false, None)
            end
          else mret (false, None)
      | Some _ =>
          edsr ← lift (signed_request name namespace enrolmentInfo);
          err ← facade.CreateEdgeDeviceSignedRequest edsr;
          mret (false, err)
      end
  end.

(** [dvc.Labels[EdgeDeviceSignedRequestLabelName] == EdgeDeviceSignedRequestLabelValue]. *)
Definition has_init_label (dvc : EdgeDevice) : bool :=
  bool_decide (map_get (Labels (EdgeDevice_ObjectMeta dvc)) EdgeDeviceSignedRequestLabelName
               = Some EdgeDeviceSignedRequestLabelValue).

Definition GetTargetNamespace (name identityNamespace : string) (matchesCertificate : bool)
    : M (string * option error) :=
  '(namespace, err) ←
    (if decide (identityNamespace = initialNamespace /\ matchesCertificate = false) then
       '(esdr, err) ← facade.GetEdgeDeviceSignedRequest name initialNamespace;
       match err with
       | Some e => mret ("", Some e)
       | None =>
           let targetNamespace := EdgeDeviceSignedRequestSpec_TargetNamespace
                                    (EdgeDeviceSignedRequest_Spec esdr) in
           mret (if decide (targetNamespace <> "") then targetNamespace else identityNamespace, None)
       end
     else mret (identityNamespace, None));
  match err with
  | Some e => mret ("", Some e)
  | None =>
      '(dvc, err) ← facade.GetEdgeDevice name namespace;
      match err with
      | Some e => if IsNotFound e then mret ("", Some (NotApproved e)) else mret ("", Some e)
      | None =>
          let isInit := has_init_label dvc in
          if negb isInit && negb matchesCertificate then mret ("", Some (ErrorString "forbidden"))
          else mret (namespace, None)
      end
  end.

(** One retry: the device is read afresh. *)
Definition updateDeviceStatus_one (device : EdgeDevice)
    (updateFunc : EdgeDevice -> outcome EdgeDevice) (i : nat) : M (ctl unit unit) :=
  _ ← (call (Sleep (Z.of_nat i * 50)) : M unit);
  '(device2, err2) ← facade.GetEdgeDevice (Name (EdgeDevice_ObjectMeta device))
                       (Namespace (EdgeDevice_ObjectMeta device));
  match err2 with
  | Some _ => mret (Next tt)
  | None =>
      let base2 := device2 in
      device2 ← lift (updateFunc device2);
      '(_, err3) ← facade.PatchEdgeDeviceStatus device2 base2;
      match err3 with
      | None => mret (Return tt)
      | Some _ => mret (Next tt)
      end
  end.

(** The function also changes [*device]; nobody reads it after the call. *)
Definition updateDeviceStatus (device : EdgeDevice) (updateFunc : EdgeDevice -> outcome EdgeDevice)
    : M (option error) :=
  let base := device in
  device ← lift (updateFunc device);
  '(device, err) ← facade.PatchEdgeDeviceStatus device base;
  match err with
  | None => mret None
  | Some e =>
      res ← for_range [1; 2; 3] tt (fun _ i => updateDeviceStatus_one device updateFunc i);
      match res with
      | Return _ => mret None
      | Next _ => mret (Some e)
      end
  end.

(** [device.Status.Hardware = hardware.MapHardware(...)]. *)
Definition report_hardware (hw : option models.HardwareInfo) (device : EdgeDevice)
    : outcome EdgeDevice :=
  h ← MapHardware hw;
  mret (upd_Status (set_Hardware h) device).

(** [for key, val := range labels { m[key] = val }] on a map that may be nil. *)
Definition set_all (labels : list (string * string)) (m : gomap string) : outcome (gomap string) :=
  foldl (fun acc '(k, v) => m ← acc; match map_set k v m with
                                     | Some m => mret m
                                     | None => Panicked
                                     end) (mret m) labels.

(** The error of the first read is overwritten, never looked at. *)
Definition Register (name namespace : string) (registrationInfo : models.RegistrationInfo)
    : M (option error) :=
  '(dvc, _) ← facade.GetEdgeDevice name namespace;
  labels ← range_map (MapLabels (models.RegistrationInfo_Hardware registrationInfo));
  newLabels ← lift (set_all labels (Labels (EdgeDevice_ObjectMeta dvc)));
  let deviceCopy :=
    upd_Meta (set_Labels (map_delete EdgeDeviceSignedRequestLabelName newLabels)) dvc in
  '(_, err) ← facade.PatchEdgeDevice dvc deviceCopy;
  match err with
  | Some e => mret (Some e)
  | None => updateDeviceStatus dvc
              (report_hardware (models.RegistrationInfo_Hardware registrationInfo))
  end.

(** The loop over the labels of the device. *)
Definition GetPlaybookExecutions_one (deviceID namespace : string)
    (response : slice (option models.PlaybookExecution)) (label : string * string)
    : M (ctl (slice (option models.PlaybookExecution)) error) :=
  let '(labelName, labelValue) := label in
  if IsEdgeConfigLabel labelName then
    '(playbookExecution, err) ←
      facade.GetPlaybookExecution (deviceID +:+ "-" +:+ labelValue) namespace;
    match err with
    | Some e => mret (Return e)
    | None =>
        mret (Next (append response (Some (models.mkPlaybookExecution
          (Playbook_Content (PlaybookExecutionSpec_Playbook (PlaybookExecution_Spec playbookExecution)))
          0 (Name (PlaybookExecution_ObjectMeta playbookExecution))))))
    end
  else mret (Next response).

Definition GetPlaybookExecutions (deviceID namespace : string)
    : M (slice (option models.PlaybookExecution) * option error) :=
  '(edgeDevice, err) ← facade.GetEdgeDevice deviceID namespace;
  match err with
  | Some e => mret (None, Some e)
  | None =>
      labels ← range_map (Labels (EdgeDevice_ObjectMeta edgeDevice));
      res ← for_range labels (Some []) (GetPlaybookExecutions_one deviceID namespace);
      match res with
      | Return e => mret (None, Some e)
      | Next response => mret (response, None)
      end
  end.

Definition UpdateStatus (retry : option bool) (name namespace : string)
    (heartbeat : models.Heartbeat) : M (bool * option error) :=
  Process retry name namespace heartbeat.

#[export] Instance backend : EdgeDeviceBackend := {|
  BackendApi.GetRegistrationStatus := GetRegistrationStatus;
  BackendApi.GetConfiguration := GetConfiguration;
  BackendApi.Enrol := Enrol;
  BackendApi.GetTargetNamespace := GetTargetNamespace;
  BackendApi.GetPlaybookExecutions := GetPlaybookExecutions;
  BackendApi.Register := Register;
  BackendApi.UpdateStatus := UpdateStatus;
|}.
End Backend.
End k8s.

(** ** Lemmas *)

Lemma set_all_some (l : list (string * string)) m :
  k8s.set_all l (Some m) = Done (Some (foldl (fun m '(k, v) => <[k := v]> m) m l)).
Proof.
  unfold k8s.set_all. cbn [mret outcome_mret].
  revert m. induction l as [|[k v] l IH]; intros m; [done|]. exact (IH _).
Qed.

Lemma set_all_none k v (l : list (string * string)) : k8s.set_all ((k, v) :: l) None = Panicked.
Proof. unfold k8s.set_all. cbn. by induction l as [|[? ?] l IH]. Qed.

(** Merging labels into a map: a nil map accepts none. *)
Lemma set_all_range seed (labels : gomap string) (m : gomap string) :
  k8s.set_all (range seed labels) m =
  match m with
  | Some m => Done (Some (entries labels ∪ m))
  | None => if decide (entries labels = ∅) then Done None else Panicked
  end.
Proof.
  destruct m as [m|].
  - by rewrite set_all_some, foldl_insert_range.
  - destruct (range seed labels) as [|[k v] l] eqn:E.
    + rewrite decide_True; [done|]. apply map_empty. intros i.
      destruct (entries labels !! i) as [x|] eqn:Hx; [|done].
      assert ((i, x) ∈ range seed labels) as Hi by (by apply elem_of_range).
      rewrite E in Hi. by apply elem_of_nil in Hi.
    + rewrite set_all_none, decide_False; [done|]. intros Hm.
      assert ((k, v) ∈ range seed labels) as Hi by (rewrite E; left).
      apply elem_of_range in Hi. unfold map_get in Hi. rewrite Hm in Hi.
      by rewrite lookup_empty in Hi.
Qed.

(** ** The Kubernetes backend keeps the contract *)

#[export] Instance k8s_laws `{Unicode} `{Libs} ns : BackendLaws (k8s.backend ns).
Proof.
  assert (forall c, observes c -> no_write c) as Ho by (intros c; apply observes_no_write).
  constructor; cbn [BackendApi.GetRegistrationStatus BackendApi.GetConfiguration
    BackendApi.GetTargetNamespace BackendApi.GetPlaybookExecutions k8s.backend].
  - intros. eapply calls_weaken; [exact Ho|].
    unfold k8s.GetRegistrationStatus, facade.GetEdgeDevice, edgedevice.Read. observe.
  - intros. eapply calls_weaken; [exact Ho|].
    unfold k8s.GetConfiguration, facade.GetEdgeDevice, edgedevice.Read.
    apply calls_bind; [observe|]. intros [d [e|]]; [done|apply GetDeviceConfiguration_calls].
  - intros. eapply calls_weaken; [exact Ho|].
    unfold k8s.GetTargetNamespace, facade.GetEdgeDevice, edgedevice.Read,
      facade.GetEdgeDeviceSignedRequest, edgedevicesignedrequest.Read. observe.
  - intros. eapply calls_weaken; [exact Ho|].
    unfold k8s.GetPlaybookExecutions, facade.GetEdgeDevice, edgedevice.Read, range_map,
      k8s.GetPlaybookExecutions_one, facade.GetPlaybookExecution, playbookexecution.Read. observe.
  - intros name namespace t dc He. unfold k8s.GetConfiguration in He.
    unfold facade.GetEdgeDevice, edgedevice.Read in He.
    exec_call He as ([d [e|]] & t' & -> & He); [by exec_step|].
    by apply GetDeviceConfiguration_answers in He.
Qed.

(** ** Lemmas: status updates with retries *)

(** The retries of a status update of [device], after the pauses [delays] in
    milliseconds: each reads the device afresh and patches what [f] makes of it;
    a read or a patch that fails leads to the next, a patch that goes through
    ends them.  The outcome says whether one has. *)
Fixpoint status_retries (f : EdgeDevice -> outcome EdgeDevice) (device : EdgeDevice)
    (delays : list Z) (t : list Event) (o : outcome bool) : Prop :=
  match delays with
  | [] => t = [] /\ o = Done false
  | delay :: delays =>
      exists d err t',
        t = Ev (Sleep delay) tt ::
            Ev (GetEdgeDevice (Namespace (EdgeDevice_ObjectMeta device))
                  (Name (EdgeDevice_ObjectMeta device))) (d, err) :: t' /\
        match err with
        | Some _ => status_retries f device delays t' o
        | None =>
            match f d with
            | Panicked => t' = [] /\ o = Panicked
            | Done obj => exists r err t'', t' = Ev (PatchEdgeDeviceStatus d obj) (r, err) :: t'' /\
                match err with
                | None => t'' = [] /\ o = Done true
                | Some _ => status_retries f device delays t'' o
                end
            end
        end
  end.

(** A whole status update: the first patch, and retries after 50, 100 and 150
    milliseconds when it is refused; when all fail, the error is the first. *)
Definition status_update (f : EdgeDevice -> outcome EdgeDevice) (device : EdgeDevice)
    (t : list Event) (o : outcome (option error)) : Prop :=
  match f device with
  | Panicked => t = [] /\ o = Panicked
  | Done obj => exists d err t', t = Ev (PatchEdgeDeviceStatus device obj) (d, err) :: t' /\
      match err with
      | None => t' = [] /\ o = Done None
      | Some e => exists o', status_retries f d [50; 100; 150]%Z t' o' /\
          o = (updated ← o'; Done (if updated : bool then None else Some e))
      end
  end.

Lemma exec_updateDeviceStatus_one f device i t o :
  exec (k8s.updateDeviceStatus_one device f i) t o ->
  exists d err t',
    t = Ev (Sleep (Z.of_nat i * 50)) tt ::
        Ev (GetEdgeDevice (Namespace (EdgeDevice_ObjectMeta device))
              (Name (EdgeDevice_ObjectMeta device))) (d, err) :: t' /\
    match err with
    | Some _ => t' = [] /\ o = Done (Next tt)
    | None =>
        match f d with
        | Panicked => t' = [] /\ o = Panicked
        | Done obj => exists r err, t' = [Ev (PatchEdgeDeviceStatus d obj) (r, err)] /\
            o = Done (match err with None => Return tt | Some _ => Next tt end)
        end
    end.
Proof.
  intros He. unfold k8s.updateDeviceStatus_one, facade.GetEdgeDevice, edgedevice.Read in He.
  exec_call He as ([] & t1 & -> & He). exec_call He as ([d [e|]] & t2 & -> & He).
  { apply exec_Ret_inv in He as [-> ->]. by exists d, (Some e), []. }
  exists d, None, t2. split; [done|].
  destruct (f d) as [obj|]; [|by apply exec_Panic_inv in He].
  cbn [lift] in He. rewrite bind_ret_l in He.
  unfold facade.PatchEdgeDeviceStatus, edgedevice.PatchStatus in He.
  exec_call He as ([r [e|]] & t3 & -> & He); apply exec_Ret_inv in He as [-> ->]; by eexists r, _.
Qed.

Lemma exec_updateDeviceStatus_retries f device rounds t o :
  exec (for_range rounds tt (fun _ i => k8s.updateDeviceStatus_one device f i)) t o ->
  exists o', status_retries f device ((fun i => Z.of_nat i * 50)%Z <$> rounds) t o' /\
    o = (updated ← o'; Done (if updated : bool then Return tt else Next tt)).
Proof.
  revert t o. induction rounds as [|i rounds IH]; intros t o He; cbn [for_range] in He.
  { apply exec_Ret_inv in He as [-> ->]. by exists (Done false). }
  cbn [fmap list_fmap status_retries].
  apply exec_bind_inv in He as [[Hb ->]|(res & t1 & t2 & -> & Hb & He)];
    apply exec_updateDeviceStatus_one in Hb as (d & err & t' & -> & Hb).
  { exists Panicked. split; [|done]. exists d, err, t'. split; [done|].
    destruct err; [by destruct Hb|]. destruct (f d); [|by destruct Hb]. by destruct Hb as (? & ? & _ & ?). }
  destruct res as [[]|[]].
  - apply IH in He as (o' & Hr & ->). exists o'. split; [|done]. exists d, err, (t' ++ t2). split; [done|].
    destruct err; [by destruct Hb as [-> _]|]. destruct (f d) as [obj|]; [|by destruct Hb].
    destruct Hb as (r & [e|] & -> & Ho); [|done]. by exists r, (Some e), t2.
  - apply exec_Ret_inv in He as [-> ->]. exists (Done true). split; [|done].
    exists d, err, t'. rewrite app_nil_r. split; [done|].
    destruct err; [by destruct Hb|]. destruct (f d) as [obj|]; [|by destruct Hb].
    destruct Hb as (r & [e|] & -> & Ho); [done|]. by exists r, None, [].
Qed.

Lemma exec_updateDeviceStatus device f t o :
  exec (k8s.updateDeviceStatus device f) t o -> status_update f device t o.
Proof.
  intros He. unfold k8s.updateDeviceStatus in He. unfold status_update.
  destruct (f device) as [obj|] eqn:Hf; [|by apply exec_Panic_inv in He].
  cbn [lift] in He. rewrite bind_ret_l in He.
  unfold facade.PatchEdgeDeviceStatus, edgedevice.PatchStatus in He.
  exec_call He as ([d [e|]] & t1 & -> & He).
  2:{ apply exec_Ret_inv in He as [-> ->]. by exists d, None, []. }
  exists d, (Some e), t1. split; [done|].
  apply exec_bind_inv in He as [[Hl ->]|(res & t2 & t3 & -> & Hl & He)];
    apply exec_updateDeviceStatus_retries in Hl as (o' & Hr & Ho); exists o'.
  - by destruct o'.
  - destruct o' as [[]|]; [| |done]; injection Ho as ->;
      apply exec_Ret_inv in He as [-> ->]; by rewrite app_nil_r.
Qed.

(** The status patch of [device], or of a later reading of it, to what [f]
    makes of it went through. *)
Definition status_applied (f : EdgeDevice -> outcome EdgeDevice) (device : EdgeDevice)
    (t : list Event) : Prop :=
  exists base obj r, f base = Done obj /\ Ev (PatchEdgeDeviceStatus base obj) (r, None) ∈ t /\
    (base = device \/ exists obj d e, Ev (PatchEdgeDeviceStatus device obj) (d, Some e) ∈ t /\
       Ev (GetEdgeDevice (Namespace (EdgeDevice_ObjectMeta d)) (Name (EdgeDevice_ObjectMeta d)))
         (base, None) ∈ t).

Lemma status_applied_mono f device t t' : t ⊆ t' -> status_applied f device t -> status_applied f device t'.
Proof.
  intros Hs (base & obj & r & ? & ? & [?|(obj' & d & e & ? & ?)]); exists base, obj, r; split_and!; auto.
  right. exists obj', d, e. auto.
Qed.

Lemma status_retries_applied f device delays t :
  status_retries f device delays t (Done true) ->
  exists base obj r, f base = Done obj /\ Ev (PatchEdgeDeviceStatus base obj) (r, None) ∈ t /\
    Ev (GetEdgeDevice (Namespace (EdgeDevice_ObjectMeta device)) (Name (EdgeDevice_ObjectMeta device)))
      (base, None) ∈ t.
Proof.
  revert t. induction delays as [|delay delays IH]; intros t; cbn [status_retries]; [by intros [_ [=]]|].
  intros (d & [e|] & t' & -> & Hr).
  { apply IH in Hr as (base & obj & r & ? & ? & ?). exists base, obj, r. split_and!; [done|set_solver..]. }
  destruct (f d) as [obj|] eqn:Hf; [|by destruct Hr].
  destruct Hr as (r & [e|] & t'' & -> & Hr).
  - apply IH in Hr as (base & obj' & r' & ? & ? & ?). exists base, obj', r'. split_and!; [done|set_solver..].
  - exists d, obj, r. split_and!; [done|set_solver..].
Qed.

Lemma status_update_applied f device t :
  status_update f device t (Done None) -> status_applied f device t.
Proof.
  unfold status_update. destruct (f device) as [obj|] eqn:Hf; [|by intros [_ ?]].
  intros (d & [e|] & t' & -> & Hr).
  - destruct Hr as (o' & Hr & Ho). destruct o' as [[]|]; try done.
    apply status_retries_applied in Hr as (base & obj' & r & ? & ? & ?).
    exists base, obj', r. split_and!; [done|set_solver|]. right. exists obj, d, e. split; set_solver.
  - exists device, obj, d. split_and!; [done|left|by left].
Qed.

(** ** Properties *)

Section BackendProperties.
Context `{Unicode} `{Libs} (initialNamespace : string).

(** The patch that ends the registration of [d]: the hardware's labels are
    merged in, the mark of a device that never registered is taken off. *)
Definition label_patch (d : EdgeDevice) (hw : option models.HardwareInfo) (obj : EdgeDevice) : Prop :=
  (exists labels, obj = upd_Meta (set_Labels labels) d) /\
  forall k, map_get (Labels (EdgeDevice_ObjectMeta obj)) k =
    if decide (k = EdgeDeviceSignedRequestLabelName) then None
    else match map_get (MapLabels hw) k with
         | Some v => Some v
         | None => map_get (Labels (EdgeDevice_ObjectMeta d)) k
         end.

Lemma label_patch_of d hw seed m :
  k8s.set_all (range seed (MapLabels hw)) (Labels (EdgeDevice_ObjectMeta d)) = Done m ->
  label_patch d hw
    (upd_Meta (set_Labels (map_delete EdgeDeviceSignedRequestLabelName m)) d).
Proof.
  rewrite set_all_range. intros Hm. split; [by eexists|]. intros k.
  cbn [EdgeDevice_ObjectMeta upd_Meta Labels set_Labels]. rewrite map_get_delete.
  destruct (decide (EdgeDeviceSignedRequestLabelName = k)) as [->|Hne];
    [by rewrite decide_True|rewrite (decide_False (P := k = _)) by congruence].
  destruct (Labels (EdgeDevice_ObjectMeta d)) as [l|].
  - injection Hm as <-. unfold map_get at 1. cbn [entries default from_option id].
    rewrite lookup_union. unfold map_get. cbn [entries default from_option id].
    destruct (entries (MapLabels hw) !! k), (l !! k); done.
  - case_decide as Hl; [|done]. injection Hm as <-. unfold map_get. by rewrite Hl, lookup_empty.
Qed.

(** The device with the reported hardware in its status; there is none for a
    report that maps to no hardware. *)
Definition with_hardware (hw : option models.HardwareInfo) (device : EdgeDevice) : outcome EdgeDevice :=
  match MapHardware hw with
  | Done h => Done (upd_Status (set_Hardware h) device)
  | Panicked => Panicked
  end.

Lemma exec_Register name namespace info t o :
  exec (k8s.Register name namespace info) t o ->
  let hw := models.RegistrationInfo_Hardware info in
  exists d err seed t', t = Ev (GetEdgeDevice namespace name) (d, err) :: Ev MapOrder seed :: t' /\
    ((Labels (EdgeDevice_ObjectMeta d) = None /\ entries (MapLabels hw) <> ∅ /\
      t' = [] /\ o = Panicked) \/
     ((Labels (EdgeDevice_ObjectMeta d) <> None \/ entries (MapLabels hw) = ∅) /\
      exists obj r err' t'', label_patch d hw obj /\ t' = Ev (PatchEdgeDevice d obj) (r, err') :: t'' /\
      match err' with
      | Some e => t'' = [] /\ o = Done (Some e)
      | None =>
          status_update (with_hardware hw) d t'' o
      end)).
Proof.
  intros He hw. unfold k8s.Register, facade.GetEdgeDevice, edgedevice.Read in He.
  exec_call He as ([d err] & t' & -> & He).
  apply exec_bind_inv in He as [[Hr ->]|(labels & t1 & t2 & -> & Hr & He)];
    [by apply exec_range_map in Hr as (? & _ & ?)|].
  apply exec_range_map in Hr as (seed & -> & [= ->]). exists d, err, seed, t2. split; [done|].
  apply exec_bind_inv in He
    as [[[-> Hs]%exec_lift_inv ->]|(m & t1 & t3 & -> & [-> Hs]%exec_lift_inv & He)].
  { left. rewrite set_all_range in Hs. destruct (Labels _); [done|]. by case_decide. }
  right. split.
  { rewrite set_all_range in Hs. destruct (Labels (EdgeDevice_ObjectMeta d)); [by left|].
    case_decide; [by right|done]. }
  pose proof (label_patch_of d hw seed m Hs) as Hp.
  unfold facade.PatchEdgeDevice, edgedevice.Patch in He.
  exec_call He as ([r [e|]] & t4 & -> & He); eexists _, r, _, t4; (split; [exact Hp|]); (split; [done|]).
  - by apply exec_Ret_inv in He.
  - by apply exec_updateDeviceStatus in He.
Qed.

(** C15: registration of a device, every exchange of it: the device is read, its
    labels are patched (those of the hardware merged in, the mark of an
    unregistered device taken off), and when that goes through its status is
    patched to hold the reported hardware and is otherwise what it was.  A
    status patch that is refused is tried again up to three times, after 50,
    100 and 150 milliseconds, each time on the device read afresh; the first
    that goes through ends the registration, and when none does its error is
    that of the first.  It panics when the report has a nil element, or when
    there are labels to write and the device has none. *)
Theorem Register_spec name namespace info t o :
  exec (k8s.Register name namespace info) t o ->
  let hw := models.RegistrationInfo_Hardware info in
  exists d err seed t', t = Ev (GetEdgeDevice namespace name) (d, err) :: Ev MapOrder seed :: t' /\
    ((Labels (EdgeDevice_ObjectMeta d) = None /\ entries (MapLabels hw) <> ∅ /\
      t' = [] /\ o = Panicked) \/
     ((Labels (EdgeDevice_ObjectMeta d) <> None \/ entries (MapLabels hw) = ∅) /\
      exists obj r err' t'', label_patch d hw obj /\ t' = Ev (PatchEdgeDevice d obj) (r, err') :: t'' /\
      match err' with
      | Some e => t'' = [] /\ o = Done (Some e)
      | None =>
          status_update (with_hardware hw) d t'' o
      end)).
Proof. apply exec_Register. Qed.

(** A new signed request: not approved, in the initial namespace. *)
Definition unapproved_request (name namespace : string) (info : models.EnrolmentInfo)
    (r : EdgeDeviceSignedRequest) : Prop :=
  EdgeDeviceSignedRequest_ObjectMeta r = named name initialNamespace /\
  EdgeDeviceSignedRequestSpec_Approved (EdgeDeviceSignedRequest_Spec r) = false /\
  EdgeDeviceSignedRequestSpec_TargetNamespace (EdgeDeviceSignedRequest_Spec r) = namespace /\
  exists f hw, models.EnrolmentInfo_Features info = Some f /\
    MapHardware (models.EnrolmentInfoFeatures_Hardware f) = Done hw /\
    EdgeDeviceSignedRequestSpec_Features (EdgeDeviceSignedRequest_Spec r) =
      Some (mkFeatures "" hw).

(** The one write an enrolment can make, and what it has found before. *)
Definition only_creates_request (name namespace : string) (info : models.EnrolmentInfo)
    (t : list Event) : Prop :=
  forall e, e ∈ t -> is_write (ev_req e) ->
    exists r err, e = Ev (CreateEDSR r) err /\ unapproved_request name namespace info r /\
      (exists d e1, Ev (GetEdgeDevice namespace name) (d, Some e1) ∈ t) /\
      (exists q e2, Ev (GetEDSR initialNamespace name) (q, Some e2) ∈ t).

(** C30: enrolment: "already created" is answered only for a device that
    exists, in the namespace asked for or in the one its request targets.
    Otherwise a request is found, or one request is created, which nobody has
    approved.  Nothing is ever created while the device or a request can be
    read, nothing else is ever written, and the only error is the API server
    refusing the request.  Without features, or with a nil element in the
    hardware, it panics having written nothing. *)
Theorem Enrol_spec name namespace info t o :
  exec (k8s.Enrol initialNamespace name namespace info) t o ->
  only_creates_request name namespace info t /\
  match o with
  | Done (true, err) => err = None /\ exists ns d, Ev (GetEdgeDevice ns name) (d, None) ∈ t
  | Done (false, err) =>
      (err = None /\ exists q, Ev (GetEDSR initialNamespace name) (q, None) ∈ t) \/
      (exists r, unapproved_request name namespace info r /\ Ev (CreateEDSR r) err ∈ t)
  | Panicked =>
      k8s.signed_request initialNamespace name namespace info = Panicked
  end.
Proof.
  intros He. unfold k8s.Enrol, facade.GetEdgeDevice, edgedevice.Read,
    facade.GetEdgeDeviceSignedRequest, edgedevicesignedrequest.Read in He.
  assert (forall t, Forall (fun e => ~ is_write (ev_req e)) t ->
    only_creates_request name namespace info t) as Hquiet.
  { intros t0 Ht0 e Hin Hw. rewrite Forall_forall in Ht0. by destruct (Ht0 _ Hin). }
  exec_call He as ([d [e|]] & t1 & -> & He).
  2:{ apply exec_Ret_inv in He as [-> ->]. split; [apply Hquiet; repeat constructor; auto|].
      split; [done|]. exists namespace, d. left. }
  exec_call He as ([q [e1|]] & t2 & -> & He).
  2:{ case_decide as Hn.
      - exec_call He as ([d2 [e2|]] & t3 & -> & He); apply exec_Ret_inv in He as [-> ->];
          (split; [apply Hquiet; repeat constructor; auto|]).
        + left. split; [done|]. exists q. set_solver.
        + split; [done|]. eexists _, d2. do 2 right. left.
      - apply exec_Ret_inv in He as [-> ->]. split; [apply Hquiet; repeat constructor; auto|].
        left. split; [done|]. exists q. set_solver. }
  apply exec_bind_inv in He
    as [[[-> Hs]%exec_lift_inv ->]|(r & t1 & t3 & -> & [-> Hs]%exec_lift_inv & He)].
  { split; [apply Hquiet; repeat constructor; auto|done]. }
  assert (unapproved_request name namespace info r) as Hr.
  { unfold k8s.signed_request in Hs. destruct (models.EnrolmentInfo_Features info) as [f|] eqn:Ef; [|done].
    cbn in Hs. destruct (MapHardware _) as [hw|] eqn:Eh; [|done]. injection Hs as <-.
    unfold unapproved_request. split_and!; [done..|]. by exists f, hw. }
  unfold facade.CreateEdgeDeviceSignedRequest, edgedevicesignedrequest.Create in He.
  exec_call He as (err & t4 & -> & He). apply exec_Ret_inv in He as [-> ->]. split.
  - intros e' Hin Hw. cbn [app] in Hin. apply elem_of_cons in Hin as [->|Hin]; [done|].
    apply elem_of_cons in Hin as [->|Hin]; [done|]. apply list_elem_of_singleton in Hin as ->.
    exists r, err. split_and!; [done..| |]; [exists d, e|exists q, e1]; set_solver.
  - right. exists r. split; [done|set_solver].
Qed.

(** Whether the namespace is that of the request: the certificate is not the
    device's own and names the namespace all devices start from. *)
Definition asks_where (identityNamespace : string) (matches : bool) : Prop :=
  identityNamespace = initialNamespace /\ matches = false.
#[local] Instance asks_where_dec identityNamespace matches : Decision (asks_where identityNamespace matches).
Proof. unfold asks_where. apply _. Defined.

(** The namespace the device is looked up in, and what was asked to find it:
    the one its request targets, if it targets one; in all other cases the one
    of the certificate. *)
Definition targeted (name identityNamespace : string) (matches : bool) (ns : string)
    (t : list Event) : Prop :=
  if decide (asks_where identityNamespace matches) then
    exists q, t = [Ev (GetEDSR initialNamespace name) (q, None)] /\
      let target := EdgeDeviceSignedRequestSpec_TargetNamespace (EdgeDeviceSignedRequest_Spec q) in
      ns = if decide (target = "") then identityNamespace else target
  else t = [] /\ ns = identityNamespace.

(** The mark of a device that has never registered. *)
Definition never_registered (d : EdgeDevice) : Prop :=
  map_get (Labels (EdgeDevice_ObjectMeta d)) "edgedeviceSignedRequest" = Some "true".

Lemma has_init_label_spec d : never_registered d <-> k8s.has_init_label d = true.
Proof. unfold k8s.has_init_label. by rewrite bool_decide_eq_true. Qed.

Lemma exec_GetTargetNamespace name identityNamespace matches t o :
  exec (k8s.GetTargetNamespace initialNamespace name identityNamespace matches) t o ->
  (exists q e, asks_where identityNamespace matches /\
    t = [Ev (GetEDSR initialNamespace name) (q, Some e)] /\ o = Done ("", Some e)) \/
  (exists ns t0 d err, targeted name identityNamespace matches ns t0 /\
    t = t0 ++ [Ev (GetEdgeDevice ns name) (d, err)] /\
    o = Done (match err with
              | Some e => ("", Some (if IsNotFound e then NotApproved e else e))
              | None =>
                  if decide (never_registered d \/ matches = true) then (ns, None)
                  else ("", Some (ErrorString "forbidden"))
              end)).
Proof.
  intros He. unfold k8s.GetTargetNamespace, facade.GetEdgeDevice, edgedevice.Read,
    facade.GetEdgeDeviceSignedRequest, edgedevicesignedrequest.Read in He.
  apply exec_bind_inv in He as [[He ->]|([ns err] & t1 & t2 & -> & H1 & He)].
  { case_decide; [|by apply exec_Ret_inv in He as [_ ?]].
    exec_call He as ([q [e|]] & t' & -> & He); by apply exec_Ret_inv in He as [_ ?]. }
  assert (match err with
          | Some e => exists q, asks_where identityNamespace matches /\ ns = "" /\
              t1 = [Ev (GetEDSR initialNamespace name) (q, Some e)]
          | None => targeted name identityNamespace matches ns t1
          end) as Hns.
  { unfold targeted. destruct (decide (asks_where _ _)) as [Hd|Hd].
    - rewrite decide_True in H1 by exact Hd.
      exec_call H1 as ([q [e|]] & t' & -> & H1); apply exec_Ret_inv in H1 as [-> [= -> ->]].
      + by exists q.
      + exists q. split; [done|]. cbv zeta. repeat case_decide; tauto.
    - rewrite decide_False in H1 by exact Hd. by apply exec_Ret_inv in H1 as [-> [= -> ->]]. }
  clear H1. destruct err as [e|].
  { apply exec_Ret_inv in He as [-> ->]. left. destruct Hns as (q & Ha & -> & ->).
    exists q, e. by rewrite app_nil_r. }
  right. exec_call He as ([d [e|]] & t3 & -> & He).
  { exists ns, t1, d, (Some e). split; [done|].
    destruct (IsNotFound e); by apply exec_Ret_inv in He as [-> ->]. }
  cbv zeta in He. exists ns, t1, d, None. split; [done|].
  pose proof (has_init_label_spec d) as Hi.
  destruct (negb (k8s.has_init_label d) && negb matches) eqn:Hf; apply exec_Ret_inv in He as [-> ->];
    (split; [done|]).
  - apply andb_true_iff in Hf as [H1%negb_true_iff ->%negb_true_iff].
    rewrite decide_False; [done|]. rewrite Hi, H1. by intros [?|?].
  - rewrite decide_True; [done|]. rewrite Hi. destruct (k8s.has_init_label d), matches; auto.
Qed.

(** C14: who may register where, in every case.  With a certificate of its own,
    or one that names another namespace than the one devices start from, a
    device registers in the namespace of the certificate and nothing else is
    asked; with the shared certificate its signed request is read, and it
    registers where that targets, or where devices start from if it targets
    nothing.  The device is then read there, and may register when it carries
    the mark of a device that never registered, or the certificate is its own;
    otherwise it is forbidden.  A device without a resource is not approved;
    any other error is that of the read that failed. *)
Theorem GetTargetNamespace_spec name identityNamespace matches t o :
  exec (k8s.GetTargetNamespace initialNamespace name identityNamespace matches) t o ->
  (exists q e, asks_where identityNamespace matches /\
    t = [Ev (GetEDSR initialNamespace name) (q, Some e)] /\ o = Done ("", Some e)) \/
  (exists ns t0 d err, targeted name identityNamespace matches ns t0 /\
    t = t0 ++ [Ev (GetEdgeDevice ns name) (d, err)] /\
    o = Done (match err with
              | Some e => ("", Some (if IsNotFound e then NotApproved e else e))
              | None =>
                  if decide (never_registered d \/ matches = true) then (ns, None)
                  else ("", Some (ErrorString "forbidden"))
              end)).
Proof. apply exec_GetTargetNamespace. Qed.

Definition config_label (kv : string * string) : bool := IsEdgeConfigLabel kv.1.

(** What a device is sent of a playbook execution. *)
Definition sent_playbook (pe : PlaybookExecution) : models.PlaybookExecution :=
  models.mkPlaybookExecution
    (Playbook_Content (PlaybookExecutionSpec_Playbook (PlaybookExecution_Spec pe))) 0
    (Name (PlaybookExecution_ObjectMeta pe)).

(** The executions [l] answer the config labels among [labels], each under the
    name the label's value gives it. *)
Definition playbooks_read (deviceID namespace : string) (labels : list (string * string))
    (res : slice (option models.PlaybookExecution)) (t : list Event) : Prop :=
  exists l : list ((string * string) * PlaybookExecution),
    l.*1 = List.filter config_label labels /\ res = Some (map (fun x => Some (sent_playbook x.2)) l) /\
    Forall (fun '((_, v), pe) =>
      Ev (GetPlaybookExecution namespace (deviceID +:+ "-" +:+ v)) (pe, None) ∈ t) l.

Lemma exec_GetPlaybookExecutions_loop deviceID namespace d seed t o :
  exec (for_range (range seed (Labels (EdgeDevice_ObjectMeta d))) (Some [])
    (k8s.GetPlaybookExecutions_one deviceID namespace)) t o ->
  match o with
  | Done (Next res) => playbooks_read deviceID namespace
      (range seed (Labels (EdgeDevice_ObjectMeta d))) res t
  | Done (Return e) => exists k v pe,
      map_get (Labels (EdgeDevice_ObjectMeta d)) k = Some v /\ IsEdgeConfigLabel k = true /\
      Ev (GetPlaybookExecution namespace (deviceID +:+ "-" +:+ v)) (pe, Some e) ∈ t
  | Panicked => False
  end.
Proof.
  apply (for_range_rule (playbooks_read deviceID namespace)
    (fun e t => exists k v pe,
      map_get (Labels (EdgeDevice_ObjectMeta d)) k = Some v /\ IsEdgeConfigLabel k = true /\
      Ev (GetPlaybookExecution namespace (deviceID +:+ "-" +:+ v)) (pe, Some e) ∈ t)
    (fun _ => False)); [|by exists []].
  intros pre [k v] post res t1 t2 o2 Hl (l & Hl1 & -> & HF) Hb.
  unfold k8s.GetPlaybookExecutions_one, facade.GetPlaybookExecution, playbookexecution.Read in Hb.
  destruct (IsEdgeConfigLabel k) eqn:Ek.
  - exec_call Hb as ([pe [e|]] & t4 & -> & Hb); apply exec_Ret_inv in Hb as [-> ->].
    + exists k, v, pe. split; [|split; [done|set_solver]]. apply elem_of_range with seed.
      rewrite Hl. set_solver.
    + exists (l ++ [((k, v), pe)]). split; [|split].
      * rewrite fmap_app, Hl1, List.filter_app. cbn [List.filter].
        by replace (config_label (k, v)) with true.
      * unfold append. cbn [elems default from_option id]. by rewrite map_app.
      * apply Forall_app. split; [|apply Forall_singleton; set_solver].
        eapply Forall_impl; [exact HF|]. intros [[? ?] ?] ?. set_solver.
  - apply exec_Ret_inv in Hb as [-> ->]. exists l. split_and!; [|done|by rewrite app_nil_r].
    rewrite List.filter_app, Hl1. cbn [List.filter].
    replace (config_label (k, v)) with false. by rewrite app_nil_r.
Qed.

(** The playbooks of a device: on success the answer holds exactly one
    execution for each of the device's config labels, read under the name the
    label's value gives; any failing read is the error of the whole answer. *)
Theorem GetPlaybookExecutions_spec deviceID namespace t o :
  exec (k8s.GetPlaybookExecutions deviceID namespace) t o ->
  exists d err0 res err, o = Done (res, err) /\
    Ev (GetEdgeDevice namespace deviceID) (d, err0) ∈ t /\
    match err with
    | None => err0 = None /\ exists labels,
        labels ≡ₚ map_to_list (entries (Labels (EdgeDevice_ObjectMeta d))) /\
        playbooks_read deviceID namespace labels res t
    | Some e => res = None /\ (err0 = Some e \/ exists k v pe,
        map_get (Labels (EdgeDevice_ObjectMeta d)) k = Some v /\ IsEdgeConfigLabel k = true /\
        Ev (GetPlaybookExecution namespace (deviceID +:+ "-" +:+ v)) (pe, Some e) ∈ t)
    end.
Proof.
  intros He. unfold k8s.GetPlaybookExecutions, facade.GetEdgeDevice, edgedevice.Read in He.
  exec_call He as ([d [e|]] & t1 & -> & He).
  { apply exec_Ret_inv in He as [-> ->]. exists d, (Some e), None, (Some e). split; [done|].
    split; [left|]. split; [done|by left]. }
  apply exec_bind_inv in He as [[Hr ->]|(labels & t2 & t3 & -> & Hr & He)];
    [by apply exec_range_map in Hr as (? & _ & ?)|].
  apply exec_range_map in Hr as (seed & -> & [= ->]).
  apply exec_bind_inv in He as [[Hl ->]|([res|e] & t1 & t4 & -> & Hl & He)].
  { by apply exec_GetPlaybookExecutions_loop in Hl. }
  - apply exec_GetPlaybookExecutions_loop in Hl as (l & Hl1 & -> & HF). apply exec_Ret_inv in He as [-> ->].
    exists d, None. eexists _, None. split; [done|]. split; [left|]. split; [done|].
    eexists. split; [apply range_Permutation|]. exists l. split_and!; [exact Hl1|done|].
    eapply Forall_impl; [exact HF|]. intros [[? ?] ?] ?. set_solver.
  - apply exec_GetPlaybookExecutions_loop in Hl as (k & v & pe & ? & ? & ?). apply exec_Ret_inv in He as [-> ->].
    exists d, None, None, (Some e). split; [done|]. split; [left|]. split; [done|right].
    exists k, v, pe. split_and!; [done..|]. set_solver.
Qed.
End BackendProperties.

(** A device the operator created from an approved request, with a playbook. *)
Definition fresh_device : EdgeDevice :=
  mkEdgeDevice empty_TypeMeta
    (mkObjectMeta "d1" "ns" "u" "1" None
       (Some {[EdgeDeviceSignedRequestLabelName := EdgeDeviceSignedRequestLabelValue;
               "config/device-by-config" := "c"]}) None None None)
    empty_EdgeDeviceSpec empty_EdgeDeviceStatus.
Definition small_hardware : models.HardwareInfo :=
  models.mkHardwareInfo None None None None None None "Host-1" None None None None.
Definition backend_world : World :=
  set_devices {[("ns", "d1") := fresh_device]}
  (set_playbooks {[("ns", "d1-c") := upd_PlaybookMeta (fun _ => named "d1-c" "ns") empty_PlaybookExecution]}
  (set_requests {[("init", "d1") := mkEdgeDeviceSignedRequest empty_TypeMeta (named "d1" "init")
      (mkEdgeDeviceSignedRequestSpec "ns" "" true None) (mkEdgeDeviceSignedRequestStatus None)]}
    empty_world)).

Lemma Register_spec_witness :
  let info := models.mkRegistrationInfo "csr" (Some small_hardware) in
  let p := @k8s.Register ascii_tables "d1" "ns" info in
  run_result p backend_world = Done None /\
  exists d err seed t', run_trace p backend_world =
    Ev (GetEdgeDevice "ns" "d1") (d, err) :: Ev MapOrder seed :: t'.
Proof.
  cbv zeta. match goal with |- run_result ?p _ = ?o /\ _ =>
    assert (run_result p backend_world = o) as Hr by (vm_compute; reflexivity) end.
  split; [exact Hr|].
  destruct (@Register_spec ascii_tables _ _ _ _ _ (run_result_exec_as _ _ _ Hr))
    as (d & err & seed & t' & Ht & _).
  exists d, err, seed, t'. exact Ht.
Defined.

Lemma Enrol_spec_witness :
  let info := models.mkEnrolmentInfo (Some (models.mkEnrolmentInfoFeatures None "")) (Some "ns") in
  let p := k8s.Enrol "init" "d2" "ns" info in
  run_result p backend_world = Done (false, None) /\
  only_creates_request "init" "d2" "ns" info (run_trace p backend_world).
Proof.
  cbv zeta. match goal with |- run_result ?p _ = ?o /\ _ =>
    assert (run_result p backend_world = o) as Hr by (vm_compute; reflexivity) end.
  split; [exact Hr|].
  exact (proj1 (Enrol_spec _ _ _ _ _ _ (run_result_exec_as _ _ _ Hr))).
Defined.

Lemma GetTargetNamespace_spec_witness :
  let p := k8s.GetTargetNamespace "init" "d1" "init" false in
  run_result p backend_world = Done ("ns", None) /\
  exists ns t0 d err, targeted "init" "d1" "init" false ns t0 /\
    run_trace p backend_world = t0 ++ [Ev (GetEdgeDevice ns "d1") (d, err)].
Proof.
  cbv zeta. match goal with |- run_result ?p _ = ?o /\ _ =>
    assert (run_result p backend_world = o) as Hr by (vm_compute; reflexivity) end.
  split; [exact Hr|].
  destruct (GetTargetNamespace_spec _ _ _ _ _ _ (run_result_exec_as _ _ _ Hr))
    as [(q & e & _ & _ & Ho)|(ns & t0 & d & err & Ht & Htr & _)]; [discriminate Ho|].
  exists ns, t0, d, err. split; [exact Ht|exact Htr].
Defined.

Lemma GetPlaybookExecutions_spec_witness :
  let p := k8s.GetPlaybookExecutions "d1" "ns" in
  let answer := Some [Some (models.mkPlaybookExecution "" 0 "d1-c")] in
  run_result p backend_world = Done (answer, None) /\
  exists d err0, Ev (GetEdgeDevice "ns" "d1") (d, err0) ∈ run_trace p backend_world.
Proof.
  cbv zeta. match goal with |- run_result ?p _ = ?o /\ _ =>
    assert (run_result p backend_world = o) as Hr by (vm_compute; reflexivity) end.
  split; [exact Hr|].
  destruct (GetPlaybookExecutions_spec _ _ _ _ (run_result_exec_as _ _ _ Hr))
    as (d & err0 & res & err & _ & Hd & _).
  exists d, err0. exact Hd.
Defined.
