(* ===== verification/Crypto.v ===== *)
(** * Cryptographic operations

    What pkg/mtls uses of Go's crypto packages.  The data are the fields the
    code reads and writes; the operations are the methods of [Crypto], and what
    the code relies on are the laws of [CryptoLaws].  A PEM text and a DER text
    are strings; a key is the name of a key pair.  [symbolic] is one instance:
    a certificate's text spells out its content and the key that signed it. *)
From Stdlib Require Import Ascii.
From S2P Require Import Prelude GoData V1alpha1 Env.

(** ** crypto/x509, as far as the code uses it *)

Inductive PublicKey := ECDSAPublicKey (key_pair : N) | RSAPublicKey (key_pair : N).
#[global] Instance PublicKey_eq_dec : EqDecision PublicKey.
Proof. solve_decision. Defined.

(** The dynamic types of a [crypto.PrivateKey] the code distinguishes; nil or
    any other type is [None]. *)
Inductive PrivateKey := ECDSAPrivateKey (key_pair : N) | RSAPrivateKey (key_pair : N).
#[global] Instance PrivateKey_eq_dec : EqDecision PrivateKey.
Proof. solve_decision. Defined.

Definition Public (k : PrivateKey) : PublicKey :=
  match k with ECDSAPrivateKey p => ECDSAPublicKey p | RSAPrivateKey p => RSAPublicKey p end.

Record pkixName := mkName {
  Name_CommonName : string;
  Name_Organization : slice string;
  Name_OrganizationalUnit : slice string;
  Name_SerialNumber : string;
}.
#[global] Instance pkixName_eq_dec : EqDecision pkixName.
Proof. solve_decision. Defined.

(** The fields of a certificate that the code sets or reads; [Raw] is the DER
    text of a parsed certificate, empty in a template. *)
Record Certificate := mkCertificate {
  Cert_Raw : string;
  Cert_SerialNumber : Z;
  Cert_Subject : pkixName;
  Cert_NotBefore : Time;
  Cert_NotAfter : Time;
  Cert_IsCA : bool;
  Cert_BasicConstraintsValid : bool;
  Cert_KeyUsage : Z;
  Cert_ExtKeyUsage : slice Z;
  Cert_SubjectKeyId : slice Z;
  Cert_DNSNames : slice string;
  Cert_IPAddresses : slice string;
  Cert_PublicKey : option PublicKey;
  Cert_Signature : string;
  Cert_SignatureAlgorithm : Z;
  Cert_PublicKeyAlgorithm : Z;
}.
#[global] Instance Certificate_eq_dec : EqDecision Certificate.
Proof. solve_decision. Defined.

Record CertificateRequest := mkCSR {
  CSR_Subject : pkixName;
  CSR_PublicKey : option PublicKey;
  CSR_Signature : string;
  CSR_SignatureAlgorithm : Z;
  CSR_PublicKeyAlgorithm : Z;
}.

Definition KeyUsageDigitalSignature : Z := 1.
Definition KeyUsageCertSign : Z := 32.
Definition ExtKeyUsageServerAuth : Z := 1.
Definition ExtKeyUsageClientAuth : Z := 2.

(** [tls.Config], the fields [InitCertificates] computes: the server's
    certificate, and the PEM texts added to the pool of client authorities. *)
Record TLS := mkTLS { TLS_Certificate : string; TLS_ClientCAs : list string }.

Class Crypto := {
  pem_Encode : string -> string -> string;
  pem_Decode : string -> option (string * string);
  (** [ecdsa.GenerateKey], [rsa.GenerateKey]: the new pair, or an error. *)
  ecdsa_GenerateKey : nat -> N + error;
  rsa_GenerateKey : nat -> N + error;
  MarshalECPrivateKey : N -> string + error;
  ParseECPrivateKey : string -> N + error;
  MarshalPKCS1PrivateKey : N -> string;
  ParsePKCS1PrivateKey : string -> N + error;
  ParseCertificate : string -> Certificate + error;
  ParseCertificateRequest : string -> CertificateRequest + error;
  (** [x509.CreateCertificate(rand, template, parent, pub, priv)]. *)
  CreateCertificate : nat -> Certificate -> Certificate -> option PublicKey ->
    option PrivateKey -> string + error;
  (** [c.CheckSignatureFrom(parent)]. *)
  CheckSignatureFrom : Certificate -> Certificate -> option error;
  (** [c.Verify(opts)] at an instant, with the pool of CA texts as roots. *)
  Verify : list string -> Time -> Certificate -> option error;
  (** [tls.X509KeyPair]. *)
  X509KeyPair : string -> string -> string + error;
}.


(** ** What the code relies on in crypto/x509 and encoding/pem *)

(** What a parsed certificate keeps of the template it was created from.  The
    values of a name that repeat are a set, which DER sorts; the usages of a key
    are nine bits. *)
Record issued_from (template : Certificate) (pub : option PublicKey) (c : Certificate) : Prop := {
  issued_CommonName :
    Name_CommonName (Cert_Subject c) = Name_CommonName (Cert_Subject template);
  issued_OrganizationalUnit :
    elems (Name_OrganizationalUnit (Cert_Subject c)) ≡ₚ
      elems (Name_OrganizationalUnit (Cert_Subject template));
  issued_PublicKey : Cert_PublicKey c = pub;
  issued_BasicConstraintsValid :
    Cert_BasicConstraintsValid c = Cert_BasicConstraintsValid template;
  issued_IsCA : Cert_BasicConstraintsValid template = true -> Cert_IsCA c = Cert_IsCA template;
  issued_KeyUsage :
    (0 <= Cert_KeyUsage template < 512)%Z -> Cert_KeyUsage c = Cert_KeyUsage template;
}.

(** A key that may sign certificates, or whose usage is not restricted. *)
Definition signing_usage (usage : Z) : bool :=
  bool_decide (usage = 0%Z) || negb (bool_decide (Z.land usage KeyUsageCertSign = 0%Z)).

(** What [CheckSignatureFrom] asks of the parent: that it is marked as an
    authority, that its key may sign certificates, and that the key is [k]. *)
Record may_sign (parent : Certificate) (k : PrivateKey) : Prop := {
  may_IsCA : Cert_IsCA parent = true;
  may_BasicConstraintsValid : Cert_BasicConstraintsValid parent = true;
  may_KeyUsage : signing_usage (Cert_KeyUsage parent) = true;
  may_PublicKey : Cert_PublicKey parent = Some (Public k);
}.

(** The algorithms whose signatures [CheckSignatureFrom] does not accept:
    MD2WithRSA, MD5WithRSA, SHA1WithRSA, DSAWithSHA1, ECDSAWithSHA1. *)
Definition secure_algorithm (a : Z) : bool := negb (bool_decide (a ∈ [1; 2; 3; 7; 9]%Z)).

(** The algorithms a key signs with; zero leaves the choice to the library. *)
Definition algorithm_fits (a : Z) (k : PrivateKey) : bool :=
  bool_decide (a = 0%Z) ||
  match k with
  | ECDSAPrivateKey _ => bool_decide (9 <= a <= 12)%Z
  | RSAPrivateKey _ => bool_decide (1 <= a <= 6 \/ 13 <= a <= 15)%Z
  end.

Class CryptoLaws `{Crypto} : Prop := {
  pem_Decode_Encode block bytes : pem_Decode (pem_Encode block bytes) = Some (block, bytes);
  ParseECPrivateKey_Marshal k bytes :
    MarshalECPrivateKey k = inl bytes -> ParseECPrivateKey bytes = inl k;
  ParsePKCS1PrivateKey_Marshal k : ParsePKCS1PrivateKey (MarshalPKCS1PrivateKey k) = inl k;
  CreateCertificate_Parse seed template parent pub priv bytes :
    CreateCertificate seed template parent pub priv = inl bytes ->
    exists c, ParseCertificate bytes = inl c /\ issued_from template pub c;
  CreateCertificate_signs seed template parent pub k bytes c :
    CreateCertificate seed template parent pub (Some k) = inl bytes ->
    ParseCertificate bytes = inl c -> may_sign parent k ->
    secure_algorithm (Cert_SignatureAlgorithm template) = true ->
    CheckSignatureFrom c parent = None;
  CreateCertificate_algorithm seed template parent pub k bytes :
    CreateCertificate seed template parent pub (Some k) = inl bytes ->
    algorithm_fits (Cert_SignatureAlgorithm template) k = true;
}.


(** ** A symbolic instance *)

Fixpoint bits (p : positive) : string :=
  match p with
  | xH => ""
  | xO p => String "0"%char (bits p)
  | xI p => String "1"%char (bits p)
  end.
Fixpoint of_bits (s : string) : positive :=
  match s with
  | "" => xH
  | String c s => if decide (c = "0"%char) then xO (of_bits s) else xI (of_bits s)
  end.
Lemma of_bits_bits p : of_bits (bits p) = p.
Proof. induction p as [p IH|p IH|]; simpl; [by rewrite IH..|done]. Qed.

(** A text for any value, and back. *)
Definition text {A} `{Countable A} (a : A) : string := bits (encode a).
Definition of_text {A} `{Countable A} (s : string) : option A := decode (of_bits s).
Lemma of_text_text {A} `{Countable A} (a : A) : of_text (text a) = Some a.
Proof. unfold of_text, text. by rewrite of_bits_bits, decode_encode. Qed.

(** A block: its type spelled in bits, a dot, its bytes. *)
Fixpoint split_dot (s : string) : option (string * string) :=
  match s with
  | "" => None
  | String c s =>
      if decide (c = "."%char) then Some ("", s)
      else option_map (fun ab => (String c ab.1, ab.2)) (split_dot s)
  end.
Lemma split_dot_bits p s : split_dot (bits p +:+ String "."%char s) = Some (bits p, s).
Proof.
  induction p as [p IH|p IH|]; [..|done]; cbn [bits];
    match goal with |- split_dot (String ?c ?a +:+ ?b) = _ =>
      change (split_dot (String c (a +:+ b)) = Some (String c a, s)) end;
    cbn [split_dot]; rewrite decide_False by done; by rewrite IH.
Qed.

Definition block_text (block bytes : string) : string := text block +:+ String "."%char bytes.
Definition of_block_text (s : string) : option (string * string) :=
  '(block, bytes) ← split_dot s;
  block ← of_text block;
  Some (block, bytes).
Lemma of_block_text_text block bytes : of_block_text (block_text block bytes) = Some (block, bytes).
Proof.
  unfold of_block_text, block_text, text at 1. rewrite split_dot_bits. cbn.
  change (bits (encode block)) with (text block). by rewrite of_text_text.
Qed.

#[global] Instance PublicKey_countable : Countable PublicKey.
Proof.
  refine (inj_countable' (fun k => match k with
    | ECDSAPublicKey n => inl n | RSAPublicKey n => inr n end)
    (fun x => match x with inl n => ECDSAPublicKey n | inr n => RSAPublicKey n end) _).
  by intros [].
Defined.

(** A record spelled as the list of its encoded fields: its size is linear in
    theirs, that of nested pairs is not. *)
Definition fields_of_name (n : pkixName) : list positive :=
  [encode (Name_CommonName n); encode (Name_Organization n : option (list string));
   encode (Name_OrganizationalUnit n : option (list string)); encode (Name_SerialNumber n)].
Definition name_of_fields (l : list positive) : option pkixName :=
  match l with
  | [a; b; c; d] => a ← decode a; b ← decode b; c ← decode c; d ← decode d; Some (mkName a b c d)
  | _ => None
  end.
#[global] Instance pkixName_countable : Countable pkixName.
Proof.
  refine (inj_countable fields_of_name name_of_fields _).
  intros [? ? ? ?]. unfold fields_of_name, name_of_fields. by rewrite !decode_encode.
Defined.

Definition fields_of_cert (c : Certificate) : list positive :=
  [encode (Cert_Raw c); encode (Cert_SerialNumber c); encode (Cert_Subject c);
   encode (Cert_NotBefore c); encode (Cert_NotAfter c); encode (Cert_IsCA c);
   encode (Cert_BasicConstraintsValid c); encode (Cert_KeyUsage c);
   encode (Cert_ExtKeyUsage c : option (list Z)); encode (Cert_SubjectKeyId c : option (list Z));
   encode (Cert_DNSNames c : option (list string)); encode (Cert_IPAddresses c : option (list string));
   encode (Cert_PublicKey c); encode (Cert_Signature c); encode (Cert_SignatureAlgorithm c);
   encode (Cert_PublicKeyAlgorithm c)].
Definition cert_of_fields (l : list positive) : option Certificate :=
  match l with
  | [a; b; c; d; e; f; g; h; i; j; k; l; m; n; o; p] =>
      a ← decode a; b ← decode b; c ← decode c; d ← decode d; e ← decode e; f ← decode f;
      g ← decode g; h ← decode h; i ← decode i; j ← decode j; k ← decode k; l ← decode l;
      m ← decode m; n ← decode n; o ← decode o; p ← decode p;
      Some (mkCertificate a b c d e f g h i j k l m n o p)
  | _ => None
  end.
#[global] Instance Certificate_countable : Countable Certificate.
Proof.
  refine (inj_countable fields_of_cert cert_of_fields _).
  intros []. unfold fields_of_cert, cert_of_fields. by rewrite !decode_encode.
Defined.

Definition set_Raw (raw : string) (c : Certificate) : Certificate :=
  mkCertificate raw (Cert_SerialNumber c) (Cert_Subject c) (Cert_NotBefore c) (Cert_NotAfter c)
    (Cert_IsCA c) (Cert_BasicConstraintsValid c) (Cert_KeyUsage c) (Cert_ExtKeyUsage c)
    (Cert_SubjectKeyId c) (Cert_DNSNames c) (Cert_IPAddresses c) (Cert_PublicKey c)
    (Cert_Signature c) (Cert_SignatureAlgorithm c) (Cert_PublicKeyAlgorithm c).
Definition set_PublicKey (k : option PublicKey) (c : Certificate) : Certificate :=
  mkCertificate (Cert_Raw c) (Cert_SerialNumber c) (Cert_Subject c) (Cert_NotBefore c)
    (Cert_NotAfter c) (Cert_IsCA c) (Cert_BasicConstraintsValid c) (Cert_KeyUsage c)
    (Cert_ExtKeyUsage c) (Cert_SubjectKeyId c) (Cert_DNSNames c) (Cert_IPAddresses c) k
    (Cert_Signature c) (Cert_SignatureAlgorithm c) (Cert_PublicKeyAlgorithm c).

Definition or_error {A} (o : option A) : A + error :=
  match o with Some a => inl a | None => inr (ErrorString "malformed") end.

(** The content of a certificate's text, and the key that signed it. *)
Definition signed_content (der : string) : option (Certificate * PublicKey) := of_text der.

Definition signed_under (c parent : Certificate) : option error :=
  if negb (Cert_BasicConstraintsValid parent && Cert_IsCA parent &&
           signing_usage (Cert_KeyUsage parent))
  then Some (ErrorString "invalid signature: parent certificate cannot sign this kind of certificate")
  else if negb (secure_algorithm (Cert_SignatureAlgorithm c))
  then Some (ErrorString "cannot verify signature: insecure algorithm")
  else
    match signed_content (Cert_Raw c), Cert_PublicKey parent with
    | Some (_, k), Some k' =>
        if decide (k = k') then None else Some (ErrorString "wrong signature")
    | _, _ => Some (ErrorString "not signed")
    end.

#[export] Instance symbolic : Crypto := {|
  pem_Encode := block_text;
  pem_Decode := of_block_text;
  ecdsa_GenerateKey seed := inl (N.of_nat seed);
  rsa_GenerateKey seed := inl (N.of_nat seed);
  MarshalECPrivateKey k := inl (text k);
  ParseECPrivateKey s := or_error (of_text s);
  MarshalPKCS1PrivateKey k := text k;
  ParsePKCS1PrivateKey s := or_error (of_text s);
  ParseCertificate der :=
    or_error (option_map (fun ck => set_Raw der ck.1) (signed_content der));
  ParseCertificateRequest der :=
    or_error (option_map (fun '(cn, k, a) => mkCSR (mkName cn None None "") k "" a 0) (of_text der));
  CreateCertificate _ template _ pub priv :=
    match priv with
    | Some k =>
        if algorithm_fits (Cert_SignatureAlgorithm template) k
        then inl (text (set_PublicKey pub template, Public k))
        else inr (ErrorString "requested SignatureAlgorithm does not match private key type")
    | None => inr (ErrorString "no key")
    end;
  CheckSignatureFrom := signed_under;
  Verify _ now c :=
    if decide (Cert_NotBefore c <= now <= Cert_NotAfter c)%Z then None
    else Some (ErrorString "expired");
  X509KeyPair c k := inl (c +:+ k);
|}.

#[export] Instance symbolic_laws : CryptoLaws (H := symbolic).
Proof.
  constructor; cbn.
  - apply of_block_text_text.
  - intros k ? [= <-]. by rewrite of_text_text.
  - intros. by rewrite of_text_text.
  - intros seed template parent pub [k|] bytes; [|done]. case_match; [|done]. intros [= <-].
    unfold signed_content. rewrite of_text_text. cbn. eexists. split; [done|]. by destruct template.
  - intros seed template parent pub k bytes c. case_match; [|done]. intros [= <-].
    unfold signed_content. rewrite of_text_text. intros [= <-] [Hca Hbc Hu Hk] Hs.
    unfold signed_under, signed_content. rewrite Hca, Hbc, Hu, Hk.
    cbn [Cert_Raw set_Raw set_PublicKey Cert_SignatureAlgorithm andb negb]. rewrite Hs.
    cbn [negb fst snd]. by rewrite of_text_text, decide_True.
  - intros seed template parent pub k bytes. by case_match.
Qed.
