(* ===== verification/MTLS.v ===== *)
(** * Certificates

    pkg/mtls: the certificate authority kept in a secret, server and
    registration certificates, the certificates signed for devices, and the
    verification of the certificates a request presents.

    The cryptographic operations are those of the class [Crypto] (Crypto.v). *)
From S2P Require Import Prelude GoData GoTime GoStrings V1alpha1 Models Env Testbed BackendApi Crypto.
Import v1alpha1.

(** ** cert_utils.go *)

Definition ECPrivateKeyBlockType : string := "EC PRIVATE KEY".
Definition RSAPrivateKeyBlockType : string := "RSA PRIVATE KEY".
Definition caCertSecretKey : string := "ca.key".
Definition caCertCertKey : string := "ca.crt".
Definition serverSecretKey : string := "server.key".
Definition serverCert : string := "server.crt".
Definition clientCertSecretKey : string := "client.key".
Definition clientCertCertKey : string := "client.crt".
Definition certOrganization : string := "flotta-operator".
Definition serverCertOrganization : string := "flotta-operator".
Definition CertRegisterCN : string := "register".
Definition certDefaultExpiration : Z := 1.
Definition CASecretName : string := "flotta-ca".
Definition HostTLSCertName : string := "flotta-host-certificate".
Definition providerName : string := "secret".

Record CertificateGroup := mkCertificateGroup {
  cert : option Certificate;
  signedCert : option Certificate;
  privKey : option PrivateKey;
  certBytes : string;
  CertPEM : option string;
  PrivKeyPEM : option string;
}.

Section CertUtils.
Context `{Crypto}.

Definition decodePrivKeyFromPEM (c : CertificateGroup) : outcome (CertificateGroup * option error) :=
  keyPEM ← deref (PrivKeyPEM c);
  let with_key k := mkCertificateGroup (cert c) (signedCert c) (Some k) (certBytes c)
                      (CertPEM c) (PrivKeyPEM c) in
  match pem_Decode keyPEM with
  | None => Done (c, Some (ErrorString "Cannot get Certificate key"))
  | Some (blockType, bytes) =>
      if decide (blockType = ECPrivateKeyBlockType) then
        match ParseECPrivateKey bytes with
        | inr e => Done (c, Some e)
        | inl k => Done (with_key (ECDSAPrivateKey k), None)
        end
      else if decide (blockType = RSAPrivateKeyBlockType) then
        match ParsePKCS1PrivateKey bytes with
        | inr e => Done (c, Some (WrapError "failing parsing key: " e))
        | inl k => Done (with_key (RSAPrivateKey k), None)
        end
      else Done (c, Some (ErrorString "Cannot decode PEM cert key"))
  end.

Definition ImportFromPem (c : CertificateGroup) : outcome (CertificateGroup * option error) :=
  certPEM ← deref (CertPEM c);
  match pem_Decode certPEM with
  | None => Done (c, Some (ErrorString "Cannot get CA certificate"))
  | Some (_, bytes) =>
      match ParseCertificate bytes with
      | inr e => Done (c, Some (WrapError "Failing parsing cert: " e))
      | inl crt =>
          '(c, err) ← decodePrivKeyFromPEM c;
          match err with
          | Some e => Done (c, Some e)
          | None => Done (mkCertificateGroup (Some crt) (Some crt) (privKey c) (certBytes c)
                            (CertPEM c) (PrivKeyPEM c), None)
          end
      end
  end.

(** A group with the two PEM texts only. *)
Definition pem_group (certPEM keyPEM : string) : CertificateGroup :=
  mkCertificateGroup None None None "" (Some certPEM) (Some keyPEM).

Definition NewCACertificateGroupFromSecret (secretData : gomap string)
    : outcome (option CertificateGroup * option error) :=
  '(certGroup, err) ← ImportFromPem (pem_group (default "" (map_get secretData caCertCertKey))
                                       (default "" (map_get secretData caCertSecretKey)));
  match err with
  | Some e => Done (None, Some e)
  | None => Done (Some certGroup, None)
  end.

(** [pem.Encode] to a buffer without headers does not fail. *)
Definition MarshalKeyToPem (privKey : option PrivateKey) : option string * option error :=
  match privKey with
  | Some (ECDSAPrivateKey k) =>
      match MarshalECPrivateKey k with
      | inr e => (None, Some e)
      | inl res => (Some (pem_Encode ECPrivateKeyBlockType res), None)
      end
  | Some (RSAPrivateKey k) =>
      (Some (pem_Encode RSAPrivateKeyBlockType (MarshalPKCS1PrivateKey k)), None)
  | None => (None, Some (ErrorString "Provider key not supported"))
  end.

Definition CreatePem (c : CertificateGroup) : CertificateGroup * option error :=
  let caPEM := pem_Encode "CERTIFICATE" (certBytes c) in
  match MarshalKeyToPem (privKey c) with
  | (_, Some e) => (c, Some (WrapError "Cannot marshal to PEM: " e))
  | (keyPEM, None) =>
      (mkCertificateGroup (cert c) (signedCert c) (privKey c) (certBytes c) (Some caPEM) keyPEM,
       None)
  end.

Definition GetNewKey (c : CertificateGroup) : M (option PrivateKey * option error) :=
  match privKey c with
  | Some (ECDSAPrivateKey _) =>
      seed ← (call Entropy : M nat);
      mret (match ecdsa_GenerateKey seed with
            | inl k => (Some (ECDSAPrivateKey k), None)
            | inr e => (None, Some e)
            end)
  | Some (RSAPrivateKey _) =>
      seed ← (call Entropy : M nat);
      mret (match rsa_GenerateKey seed with
            | inl k => (Some (RSAPrivateKey k), None)
            | inr e => (None, Some e)
            end)
  | None => mret (None, Some (ErrorString "unknown algorithm to create the key"))
  end.

Definition parseSignedCertificate (c : CertificateGroup) : CertificateGroup * option error :=
  match ParseCertificate (certBytes c) with
  | inl crt => (mkCertificateGroup (cert c) (Some crt) (privKey c) (certBytes c)
                  (CertPEM c) (PrivKeyPEM c), None)
  | inr e => (mkCertificateGroup (cert c) None (privKey c) (certBytes c)
                (CertPEM c) (PrivKeyPEM c), Some e)
  end.

Definition GetCertificate (c : CertificateGroup) : outcome (string + error) :=
  certPEM ← deref (CertPEM c);
  keyPEM ← deref (PrivKeyPEM c);
  Done (X509KeyPair certPEM keyPEM).

(** The group of a freshly signed certificate: its PEM texts and the parsed
    signed certificate. *)
Definition signed_group (template : Certificate) (key : PrivateKey) (bytes : string)
    : option CertificateGroup * option error :=
  match CreatePem (mkCertificateGroup (Some template) None (Some key) bytes None None) with
  | (_, Some e) => (None, Some (WrapError "Cannot encode certificate: " e))
  | (g, None) =>
      match parseSignedCertificate g with
      | (_, Some e) => (None, Some (WrapError "Cannot parse PEM certificate: " e))
      | (g, None) => (Some g, None)
      end
  end.

Definition set_cert (crt : option Certificate) (g : CertificateGroup) : CertificateGroup :=
  mkCertificateGroup crt (signedCert g) (privKey g) (certBytes g) (CertPEM g) (PrivKeyPEM g).

Definition getCACertificate : M (option CertificateGroup * option error) :=
  serial ← (call Now : M Time);
  notBefore ← (call Now : M Time);
  notAfter ← (call Now : M Time);
  let ca := mkCertificate "" (Unix serial)
    (mkName "" (Some [serverCertOrganization]) None "") notBefore (AddDate notAfter 10 0)
    true true (Z.lor KeyUsageDigitalSignature KeyUsageCertSign)
    (Some [ExtKeyUsageClientAuth; ExtKeyUsageServerAuth]) None None None None "" 0 0 in
  seed ← (call Entropy : M nat);
  match ecdsa_GenerateKey seed with
  | inr _ => mret (None, Some (ErrorString "Cannot generate CA Key"))
  | inl k =>
      let caPrivKey := ECDSAPrivateKey k in
      seed ← (call Entropy : M nat);
      match CreateCertificate seed ca ca (Some (Public caPrivKey)) (Some caPrivKey) with
      | inr e => mret (None, Some e)
      | inl caBytes =>
          match signed_group ca caPrivKey caBytes with
          | (Some g, None) => mret (Some (set_cert (signedCert g) g), None)
          | (_, err) => mret (None, err)
          end
      end
  end.

Definition createKeyAndCSR (template : Certificate) (caCert : CertificateGroup)
    : M (option CertificateGroup * option error) :=
  '(certKey, err) ← GetNewKey caCert;
  match err with
  | Some e => mret (None, Some (WrapError "Cannot generate cert Key: " e))
  | None =>
      certKey ← lift (deref certKey);
      parent ← lift (deref (cert caCert));
      seed ← (call Entropy : M nat);
      match CreateCertificate seed template parent (Some (Public certKey)) (privKey caCert) with
      | inr e => mret (None, Some (WrapError "cannot sign certificate: " e))
      | inl bytes => mret (signed_group template certKey bytes)
      end
  end.

Definition getServerCertificate (dnsNames : slice string) (localhostEnabled : bool)
    (CACert : CertificateGroup) : M (option CertificateGroup * option error) :=
  let ips := if localhostEnabled then Some ["127.0.0.1"; "::1"] else Some [] in
  ca ← lift (deref (cert CACert));
  notBefore ← (call Now : M Time);
  notAfter ← (call Now : M Time);
  createKeyAndCSR
    (mkCertificate "" (Cert_SerialNumber ca) (mkName "*" (Some [serverCertOrganization]) None "")
       notBefore (AddDate notAfter certDefaultExpiration 0) false false KeyUsageDigitalSignature
       (Some [ExtKeyUsageClientAuth; ExtKeyUsageServerAuth]) (Some [1; 2; 3; 4; 6]%Z) dnsNames ips
       None "" 0 0)
    CACert.
End CertUtils.

(** ** caprovider_secret.go *)

Record CASecretProvider := mkCASecretProvider {
  CASecretProvider_namespace : string;
  latestCA : option CertificateGroup;
}.

(** [&CASecretProvider{client, namespace}]. *)
Definition NewCASecretProvider (namespace : string) : CASecretProvider :=
  mkCASecretProvider namespace None.

Definition set_latestCA (g : CertificateGroup) (config : CASecretProvider) : CASecretProvider :=
  mkCASecretProvider (CASecretProvider_namespace config) (Some g).

(** [certGroup.CertPEM.Bytes()] and [certGroup.PrivKeyPEM.Bytes()] under two keys. *)
Definition pem_data (certKey keyKey : string) (g : CertificateGroup)
    : outcome (gmap string string) :=
  c ← deref (CertPEM g);
  k ← deref (PrivKeyPEM g);
  Done (<[keyKey := k]> {[certKey := c]}).

Module secret_provider.
Section Provider.
Context `{Crypto}.

Definition GetName (config : CASecretProvider) : string := providerName.

Definition GetCACertificate (config : CASecretProvider)
    : M (CASecretProvider * (option CertificateGroup * option error)) :=
  let namespace := CASecretProvider_namespace config in
  '(secret, err) ← (call (GetSecret namespace CASecretName) : M _);
  match err with
  | None =>
      '(certGroup, err) ← lift (NewCACertificateGroupFromSecret (corev1.Secret_Data secret));
      match err, certGroup with
      | Some e, _ => mret (config, (None, Some e))
      | None, Some g => mret (set_latestCA g config, (Some g, None))
      | None, None => mret (config, (None, None))
      end
  | Some e =>
      if negb (IsNotFound e) then mret (config, (None, Some e)) else
      '(certificateGroup, err) ← getCACertificate;
      match err with
      | Some _ => mret (config, (None, Some (ErrorString "cannot create sample certificate")))
      | None =>
          g ← lift (deref certificateGroup);
          data ← lift (pem_data caCertCertKey caCertSecretKey g);
          err ← (call (CreateSecret (corev1.mkSecret (named CASecretName namespace) (Some data)))
                  : M (option error));
          match err with
          | Some e => mret (config, (None, Some e))
          | None => mret (set_latestCA g config, (Some g, None))
          end
      end
  end.

Definition GetServerCertificate (config : CASecretProvider) (dnsNames : slice string)
    (localhostEnabled : bool) : M (CASecretProvider * (option CertificateGroup * option error)) :=
  let namespace := CASecretProvider_namespace config in
  '(secret, err) ← (call (GetSecret namespace HostTLSCertName) : M _);
  match err with
  | None =>
      let data := corev1.Secret_Data secret in
      '(certGroup, err) ← lift (ImportFromPem (pem_group (default "" (map_get data serverCert))
                                                 (default "" (map_get data serverSecretKey))));
      match err with
      | Some e => mret (config, (None, Some (WrapError "cannot import server cert from configmap: " e)))
      | None => mret (config, (Some certGroup, None))
      end
  | Some e =>
      if negb (IsNotFound e) then
        mret (config, (None, Some (WrapError "cannot get Host TLS cert: " e)))
      else
        '(config, (CACert, err)) ← GetCACertificate config;
        match err with
        | Some e => mret (config, (None, Some (WrapError "cannot get Host CA TLS cert: " e)))
        | None =>
            CACert ← lift (deref CACert);
            '(cert, err) ← getServerCertificate dnsNames localhostEnabled CACert;
            match err with
            | Some e => mret (config, (None, Some (WrapError "cannot create host TLS cert: " e)))
            | None =>
                g ← lift (deref cert);
                data ← lift (pem_data serverCert serverSecretKey g);
                err ← (call (CreateSecret (corev1.mkSecret (named HostTLSCertName namespace)
                               (Some data))) : M (option error));
                match err with
                | Some e => mret (config, (None, Some (WrapError "cannot store server cert: " e)))
                | None => mret (config, (Some g, None))
                end
            end
        end
  end.

Definition CreateRegistrationCertificate (config : CASecretProvider) (name : string)
    : M (CASecretProvider * (gomap string * option error)) :=
  '(config, (CACert, err)) ← GetCACertificate config;
  match err with
  | Some _ => mret (config, (None, Some (ErrorString "Cannot retrieve caCert")))
  | None =>
      CACert ← lift (deref CACert);
      ca ← lift (deref (cert CACert));
      notBefore ← (call Now : M Time);
      notAfter ← (call Now : M Time);
      let template := mkCertificate "" (Cert_SerialNumber ca)
        (mkName CertRegisterCN (Some [certOrganization]) None name)
        notBefore (AddDate notAfter certDefaultExpiration 0) false false KeyUsageDigitalSignature
        (Some [ExtKeyUsageClientAuth; ExtKeyUsageServerAuth]) (Some [1; 2; 3; 4; 6]%Z) None None
        None "" 0 0 in
      '(certGroup, err) ← createKeyAndCSR template CACert;
      match err with
      | Some e => mret (config, (None, Some (WrapError "Cannot sign certificate request: " e)))
      | None =>
          certGroup ← lift (deref certGroup);
          match CreatePem certGroup with
          | (_, Some e) => mret (config, (None, Some (WrapError "Cannot encode certs: " e)))
          | (certGroup, None) =>
              data ← lift (pem_data clientCertCertKey clientCertSecretKey certGroup);
              mret (config, (Some data, None))
          end
      end
  end.

(** The certificate the CSR of [namespace]/[commonName] is signed as. *)
Definition client_template (csr : CertificateRequest) (commonName namespace : string)
    (serial notBefore expiration : Time) : Certificate :=
  mkCertificate "" (Unix serial)
    (mkName commonName (Some [certOrganization]) (Some [namespace])
       (Name_SerialNumber (CSR_Subject csr)))
    (AddDate notBefore 0 (-1)) expiration false false KeyUsageDigitalSignature
    (Some [ExtKeyUsageClientAuth; ExtKeyUsageServerAuth]) None None None (CSR_PublicKey csr)
    (CSR_Signature csr) (CSR_SignatureAlgorithm csr) (CSR_PublicKeyAlgorithm csr).

Definition SignCSR (config : CASecretProvider) (CSRPem commonName namespace : string)
    (expiration : Time) : M (option string * option error) :=
  match latestCA config with
  | None => mret (None, Some (ErrorString "Cannot get CA certificate"))
  | Some ca =>
      match pem_Decode CSRPem with
      | None => mret (None, Some (ErrorString "cannot decode CSR certificate"))
      | Some (_, bytes) =>
          match ParseCertificateRequest bytes with
          | inr e => mret (None, Some (WrapError "cannot parse CSR: " e))
          | inl csr =>
              serial ← (call Now : M Time);
              notBefore ← (call Now : M Time);
              parent ← lift (deref (cert ca));
              seed ← (call Entropy : M nat);
              match CreateCertificate seed
                      (client_template csr commonName namespace serial notBefore expiration)
                      parent (CSR_PublicKey csr) (privKey ca) with
              | inr e => mret (None, Some (WrapError "Cannot sign certificate reques: " e))
              | inl certBytes => mret (Some (pem_Encode "CERTIFICATE" certBytes), None)
              end
          end
      end
  end.
End Provider.
End secret_provider.

(** ** ca.go *)

(** A certificate provider is a value of type [P] that its operations may
    change. *)
Class CAProvider (P : Type) := {
  GetName : P -> string;
  GetCACertificate : P -> M (P * (option CertificateGroup * option error));
  CreateRegistrationCertificate : P -> string -> M (P * (gomap string * option error));
  SignCSR (p : P) (CSRPem commonName namespace : string) (expiration : Time)
    : M (option string * option error);
  GetServerCertificate : P -> slice string -> bool ->
    M (P * (option CertificateGroup * option error));
}.

#[export] Instance CASecretProvider_CAProvider `{Crypto} : CAProvider CASecretProvider := {|
  GetName := secret_provider.GetName;
  GetCACertificate := secret_provider.GetCACertificate;
  CreateRegistrationCertificate := secret_provider.CreateRegistrationCertificate;
  SignCSR := secret_provider.SignCSR;
  GetServerCertificate := secret_provider.GetServerCertificate;
|}.

Definition regClientSecretNameRandomLen : nat := 10.
Definition regClientSecretNamePrefix : string := "reg-client-ca".
Definition regClientSecretLabelKey : string := "reg-client-ca".
Definition YggdrasilRegisterAuth : Z := 1.
Definition YggdrasilCompleteAuth : Z := 0.
Definition defaultDaysToExpireClientCertificate : Z := 7.

Record TLSConfig (P : Type) := mkTLSConfig {
  caProvider : list P;
  Domains : slice string;
  LocalhostEnabled : bool;
  TLSConfig_namespace : string;
  clientExpirationDays : Z;
}.
Arguments mkTLSConfig {P}.
Arguments caProvider {P}.
Arguments Domains {P}.
Arguments LocalhostEnabled {P}.
Arguments TLSConfig_namespace {P}.
Arguments clientExpirationDays {P}.

Definition set_caProvider {P} (l : list P) (conf : TLSConfig P) : TLSConfig P :=
  mkTLSConfig l (Domains conf) (LocalhostEnabled conf) (TLSConfig_namespace conf)
    (clientExpirationDays conf).

Definition NewMTLSConfig (namespace : string) (domains : slice string) (localhostEnabled : bool)
    : TLSConfig CASecretProvider :=
  mkTLSConfig [NewCASecretProvider namespace] domains localhostEnabled namespace
    defaultDaysToExpireClientCertificate.

(** [multierror.Append(errors, err)] on an [error]. *)
Definition multierror_Append (errors : option error) (err : error) : option error :=
  match errors with
  | None => Some (MultiError [err])
  | Some (MultiError l) => Some (MultiError (l ++ [err]))
  | Some e => Some (MultiError [e; err])
  end.

Section CA.
Context `{Unicode} `{Crypto} {P : Type} `{CAProvider P}.

Definition SetClientExpiration (conf : TLSConfig P) (days : Z) : TLSConfig P * option error :=
  if decide (days <= 0)%Z then (conf, Some (ErrorString "Cannot set 1 day expiration time"))
  else (mkTLSConfig (caProvider conf) (Domains conf) (LocalhostEnabled conf)
          (TLSConfig_namespace conf) days, None).

Definition TLSConfig_SignCSR (conf : TLSConfig P) (CSRPem commonName namespace : string)
    : M (option string * option error) :=
  match caProvider conf with
  | [] => mret (None, Some (ErrorString "Cannot get caProvider to sign the CSR"))
  | p :: _ =>
      now ← (call Now : M Time);
      SignCSR p CSRPem commonName namespace (AddDate now 0 (clientExpirationDays conf))
  end.

(** The variables of the loop of [InitCertificates]: the providers already
    asked, [errors], [caCerts], [CACertChain] and the texts in [caCertPool]. *)
Record InitState := mkInit {
  init_providers : list P;
  init_errors : option error;
  init_caCerts : list CertificateGroup;
  init_chain : list (option Certificate);
  init_pool : list string;
}.

Definition InitCertificates_one (s : InitState) (p : P) : M InitState :=
  '(p, (caCert, err)) ← GetCACertificate p;
  match err with
  | Some e =>
      mret (mkInit (init_providers s ++ [p])
        (multierror_Append (init_errors s)
           (WrapError ("cannot get CA certificate for provider " +:+ GetName p +:+ ": ") e))
        (init_caCerts s) (init_chain s) (init_pool s))
  | None =>
      g ← lift (deref caCert);
      pem ← lift (deref (CertPEM g));
      mret (mkInit (init_providers s ++ [p]) (init_errors s) (init_caCerts s ++ [g])
        (init_chain s ++ [cert g]) (init_pool s ++ [pem]))
  end.

Definition InitCertificates (conf : TLSConfig P)
    : M (TLSConfig P * (option TLS * list (option Certificate) * option error)) :=
  if decide (caProvider conf = []) then
    mret (conf, (None, [], Some (ErrorString "no CA provider is set")))
  else
    s ← for_each (caProvider conf) (mkInit [] None [] [] []) InitCertificates_one;
    let conf := set_caProvider (init_providers s) conf in
    match init_errors s with
    | Some e => mret (conf, (None, [], Some e))
    | None =>
        if decide (init_caCerts s = []) then
          mret (conf, (None, [], Some (ErrorString "cannot get any CA certificate")))
        else
          match caProvider conf with
          | [] => Panic
          | p :: rest =>
              '(p, (serverCert, err)) ← GetServerCertificate p (Domains conf) (LocalhostEnabled conf);
              let conf := set_caProvider (p :: rest) conf in
              match err with
              | Some e => mret (conf, (None, [], Some e))
              | None =>
                  g ← lift (deref serverCert);
                  certificate ← lift (GetCertificate g);
                  match certificate with
                  | inr e => mret (conf, (None, [],
                               Some (WrapError "Cannot create server certfificate: " e)))
                  | inl crt => mret (conf, (Some (mkTLS crt (init_pool s)), init_chain s, None))
                  end
              end
          end
    end.

Definition CreateRegistrationClientCerts (conf : TLSConfig P) : M (TLSConfig P * option error) :=
  match caProvider conf with
  | [] => mret (conf, Some (ErrorString "Cannot get ca provider"))
  | p :: rest =>
      random ← (call (RandString regClientSecretNameRandomLen) : M string);
      let name := regClientSecretNamePrefix +:+ "-" +:+ random in
      '(p, (certData, err)) ← CreateRegistrationCertificate p name;
      let conf := set_caProvider (p :: rest) conf in
      match err with
      | Some _ => mret (conf, Some (ErrorString "Cannot create client certificate"))
      | None =>
          err ← (call (CreateSecret (corev1.mkSecret
                   (set_Labels (Some {[regClientSecretLabelKey := "true"]})
                      (named name (TLSConfig_namespace conf))) certData)) : M (option error));
          mret (conf, err)
      end
  end.

(** The inner loop: the first authority that signed [crt], or the errors. *)
Fixpoint signed_by_chain (crt : Certificate) (CAChain : list (option Certificate))
    (merr : list error) : outcome (bool * list error) :=
  match CAChain with
  | [] => Done (false, merr)
  | ca :: CAChain' =>
      ca ← deref ca;
      match CheckSignatureFrom crt ca with
      | None => Done (true, merr)
      | Some e => signed_by_chain crt CAChain' (merr ++ [e])
      end
  end.

Fixpoint isClientCertificateSigned_loop (PeerCertificates : list Certificate)
    (CAChain : list (option Certificate)) (merr : list error) : outcome (bool * option error) :=
  match PeerCertificates with
  | [] => Done (false, Some (MultiError merr))
  | crt :: PeerCertificates' =>
      '(ok, merr) ← signed_by_chain crt CAChain merr;
      if ok : bool then Done (true, None)
      else isClientCertificateSigned_loop PeerCertificates' CAChain merr
  end.

(** The error is a [*multierror.Error] in an [error]: never nil when the answer
    is false, even if nothing was appended to it. *)
Definition isClientCertificateSigned (PeerCertificates : list Certificate)
    (CAChain : list (option Certificate)) : outcome (bool * option error) :=
  isClientCertificateSigned_loop PeerCertificates CAChain [].

(** The identity the request is given: that of the first certificate. *)
Definition request_identity (leaf : Certificate) : RequestAuthVal :=
  mkRequestAuthVal (ToLower (Name_CommonName (Cert_Subject leaf)))
    (default "" (head (elems (Name_OrganizationalUnit (Cert_Subject leaf))))).

(** The result of [VerifyRequest], and the identity it leaves in the context. *)
Abbreviation Verified := (option RequestAuthVal * (bool * option error))%type.

(** One round of the last loop: [cert.Verify] looks at the clock. *)
Definition VerifyRequest_one (roots : list string) (_ : unit) (crt : Certificate)
    : M (ctl unit error) :=
  if decide (Name_CommonName (Cert_Subject crt) = CertRegisterCN) then
    mret (Return InvalidCertificateKindError)
  else
    now ← (call Now : M Time);
    match Verify roots now crt with
    | Some e => mret (Return (ClientCertificateVerifyError e))
    | None => mret (Next tt)
    end.

Definition VerifyRequest (PeerCertificates : list Certificate) (verifyType : Z)
    (roots : list string) (CACertChain : list (option Certificate)) : M Verified :=
  match PeerCertificates with
  | [] => mret (None, (false, Some NoClientCertSendError))
  | leaf :: _ =>
      let keyVal := Some (request_identity leaf) in
      if decide (verifyType = YggdrasilRegisterAuth) then
        '(res, err) ← lift (isClientCertificateSigned PeerCertificates CACertChain);
        match err with
        | Some e => mret (keyVal, (res, Some (RegisterClientVerifyError e)))
        | None => mret (keyVal, (res, None))
        end
      else
        res ← for_range PeerCertificates tt (VerifyRequest_one roots);
        match res with
        | Return e => mret (keyVal, (false, Some e))
        | Next _ => mret (keyVal, (true, None))
        end
  end.
End CA.

(** ** Lemmas *)

Lemma ImportFromPem_total `{Crypto} certPEM keyPEM :
  exists g err, ImportFromPem (pem_group certPEM keyPEM) = Done (g, err).
Proof.
  unfold ImportFromPem, decodePrivKeyFromPEM. cbn.
  repeat (case_match; cbn; try (by eexists _, _)).
Qed.

Lemma NewCACertificateGroupFromSecret_cases `{Crypto} data :
  (exists g, NewCACertificateGroupFromSecret data = Done (Some g, None)) \/
  (exists e, NewCACertificateGroupFromSecret data = Done (None, Some e)).
Proof.
  unfold NewCACertificateGroupFromSecret.
  match goal with |- context [ImportFromPem (pem_group ?a ?b)] =>
    destruct (ImportFromPem_total a b) as (g & [e|] & ->) end; cbn; eauto.
Qed.

Section CertLemmas.
Context `{Crypto} `{!CryptoLaws}.

(** [CreatePem] and [ImportFromPem] are inverse on the certificate and the key. *)
Lemma CreatePem_Import g g' bytes c :
  CreatePem g = (g', None) -> certBytes g = bytes -> ParseCertificate bytes = inl c ->
  exists certPEM keyPEM, CertPEM g' = Some certPEM /\ PrivKeyPEM g' = Some keyPEM /\
    cert g' = cert g /\ privKey g' = privKey g /\ certBytes g' = bytes /\
    ImportFromPem (pem_group certPEM keyPEM) =
      Done (mkCertificateGroup (Some c) (Some c) (privKey g) "" (Some certPEM) (Some keyPEM), None).
Proof using Type*.
  intros Hp Hb Hc. unfold CreatePem in Hp. rewrite Hb in Hp.
  assert (exists block bytes k, privKey g = Some k /\
    MarshalKeyToPem (privKey g) = (Some (pem_Encode block bytes), None) /\
    ((block = ECPrivateKeyBlockType /\ exists n, k = ECDSAPrivateKey n /\ ParseECPrivateKey bytes = inl n) \/
     (block = RSAPrivateKeyBlockType /\ exists n, k = RSAPrivateKey n /\ ParsePKCS1PrivateKey bytes = inl n)))
    as (block & kb & k & Hk & Hm & Hkind).
  { unfold MarshalKeyToPem in *. destruct (privKey g) as [[n|n]|]; [| |done].
    - destruct (MarshalECPrivateKey n) as [kb|e] eqn:Em; [|done].
      eexists _, kb, _. split_and!; [done..|]. left. split; [done|]. exists n.
      split; [done|]. by apply ParseECPrivateKey_Marshal.
    - eexists _, _, _. split_and!; [done..|]. right. split; [done|]. exists n.
      split; [done|]. apply ParsePKCS1PrivateKey_Marshal. }
  rewrite Hm in Hp. injection Hp as <-. eexists _, _. split_and!; [done..|].
  unfold ImportFromPem, decodePrivKeyFromPEM, pem_group. cbn.
  rewrite !pem_Decode_Encode, Hc. rewrite Hk.
  destruct Hkind as [(-> & n & -> & ->)|(-> & n & -> & ->)]; done.
Qed.

(** A group fit to sign, with its two PEM texts: reading them back gives the
    same certificate and key. *)
Definition authority (g : CertificateGroup) : Prop :=
  exists c k certPEM keyPEM, cert g = Some c /\ privKey g = Some k /\ may_sign c k /\
    CertPEM g = Some certPEM /\ PrivKeyPEM g = Some keyPEM /\
    exists g', ImportFromPem (pem_group certPEM keyPEM) = Done (g', None) /\
      cert g' = Some c /\ privKey g' = Some k.

Lemma exec_getCACertificate t o :
  exec getCACertificate t o ->
  Forall (fun e => match ev_req e with Now | Entropy => True | _ => False end) t /\
  exists g err, o = Done (g, err) /\
    match err with
    | None => exists g', g = Some g' /\ authority g'
    | Some _ => g = None
    end.
Proof using Type*.
  intros He. unfold getCACertificate in He. do 4 (exec_call He as (? & ? & -> & He)).
  destruct (ecdsa_GenerateKey _) as [k|e].
  2:{ apply exec_Ret_inv in He as [-> ->]. split; [by repeat constructor|]. by eexists _, _. }
  cbv zeta in He. exec_call He as (? & ? & -> & He).
  match type of He with exec (match CreateCertificate ?s ?c ?p ?pub ?k with _ => _ end) _ _ =>
    destruct (CreateCertificate s c p pub k) as [der|e] eqn:Ec end.
  2:{ apply exec_Ret_inv in He as [-> ->]. split; [by repeat constructor|]. by eexists _, _. }
  destruct (CreateCertificate_Parse _ _ _ _ _ _ Ec) as (c & Hc & Hi).
  unfold signed_group in He.
  destruct (CreatePem _) as [g [e|]] eqn:Ep.
  { apply exec_Ret_inv in He as [-> ->]. split; [by repeat constructor|]. by eexists _, _. }
  destruct (CreatePem_Import _ _ der c Ep eq_refl Hc)
    as (cp & kp & H1 & H2 & H3 & H4 & H5 & H6).
  unfold parseSignedCertificate in He. rewrite H5, Hc in He.
  apply exec_Ret_inv in He as [-> ->]. split; [by repeat constructor|].
  eexists _, None. split; [done|]. eexists. split; [done|].
  exists c, (ECDSAPrivateKey k), cp, kp. cbn. split_and!; [done..| | | |].
  - destruct Hi as [_ _ Hpub Hbc Hca Hu]. split; [by apply Hca|exact Hbc| |exact Hpub].
    by rewrite Hu.
  - done.
  - done.
  - eexists. split; [exact H6|done].
Qed.
End CertLemmas.

(** ** Properties *)

Section CertProperties.
Context `{Crypto} `{!CryptoLaws}.

(** The secret of the authority can be read back to what [g] holds. *)
Definition stored_as (namespace : string) (g : CertificateGroup) (s : corev1.Secret) : Prop :=
  corev1.Secret_ObjectMeta s = named CASecretName namespace /\
  exists g', NewCACertificateGroupFromSecret (corev1.Secret_Data s) = Done (Some g', None) /\
    cert g' = cert g /\ privKey g' = privKey g.

Lemma exec_GetCACertificate config t o :
  exec (secret_provider.GetCACertificate config) t o ->
  let namespace := CASecretProvider_namespace config in
  exists config' g err s read_err, o = Done (config', (g, err)) /\
    head t = Some (Ev (GetSecret namespace CASecretName) (s, read_err)) /\
    match err with
    | Some _ => config' = config /\ g = None
    | None => exists g', g = Some g' /\ config' = set_latestCA g' config /\
        match read_err with
        | None => NewCACertificateGroupFromSecret (corev1.Secret_Data s) = Done (Some g', None) /\
            Forall (fun e => no_write (ev_req e)) t
        | Some e => IsNotFound e = true /\ authority g' /\
            exists t1 s', stored_as namespace g' s' /\ t = t1 ++ [Ev (CreateSecret s') None] /\
              Forall (fun e => no_write (ev_req e)) t1
        end
    end.
Proof using Type*.
  intros He namespace. unfold secret_provider.GetCACertificate in He. fold namespace in He.
  exec_call He as ([s [e|]] & t1 & -> & He); cbn zeta in He.
  2:{ destruct (NewCACertificateGroupFromSecret_cases (corev1.Secret_Data s)) as [[g Hg]|[e Hg]];
        rewrite Hg in He; cbn in He; apply exec_Ret_inv in He as [-> ->].
      - eexists _, (Some g), None, s, None. split; [done|]. split; [done|].
        exists g. split_and!; [done..|]. constructor; [by intros ?|done].
      - exists config, None, (Some e), s, None. split; [done|]. by split. }
  destruct (IsNotFound e) eqn:Ee; cbn [negb] in He.
  2:{ apply exec_Ret_inv in He as [-> ->]. exists config, None, (Some e), s, (Some e).
      split; [done|]. by split. }
  apply exec_bind_inv in He as [[Hg ->]|([g err] & t2 & t3 & -> & Hg & He)].
  { by apply exec_getCACertificate in Hg as (_ & ? & ? & ? & _). }
  apply exec_getCACertificate in Hg as (Hq & g0 & err0 & [= <- <-] & Hg).
  destruct err as [e'|].
  { apply exec_Ret_inv in He as [-> ->]. eexists config, None, _, s, _. split; [done|].
    by split. }
  destruct Hg as (g' & -> & Ha). pose proof Ha as (c & k & cp & kp & Hc & Hk & _ & Hcp & Hkp & g2 & Hi & Hc2 & Hk2).
  cbn in He. unfold pem_data in He. rewrite Hcp, Hkp in He. cbn in He.
  apply exec_Call_inv in He as ([e'|] & t4 & -> & He); apply exec_Ret_inv in He as [-> ->].
  { eexists config, None, _, s, _. split; [done|]. by split. }
  eexists _, (Some g'), None, s, (Some e). split; [done|]. split; [done|].
  exists g'. split_and!; [done..|]. eexists (Ev (GetSecret namespace CASecretName) (s, Some e) :: t2), _.
  split; [|split; [done|]].
  2:{ constructor; [by intros ?|]. eapply Forall_impl; [exact Hq|].
      intros [[] rr]; unfold no_write; simpl; tauto. }
  split; [done|]. unfold NewCACertificateGroupFromSecret. cbn [corev1.Secret_Data].
  replace (default "" (map_get (Some _) caCertCertKey)) with cp by reflexivity.
  replace (default "" (map_get (Some _) caCertSecretKey)) with kp by reflexivity.
  rewrite Hi. cbn. exists g2. rewrite Hc2, Hk2. done.
Qed.

(** C26: the certificate authority outlives restarts: it is read from its secret
    when there is one, and then nothing is written.  Only when the API server
    says there is none is a new authority created, fit to sign, and stored in
    one secret from which it will be read back with the same certificate and
    key.  A provider that answers with an error still has the authority it had,
    and it never panics. *)
Theorem GetCACertificate_spec config t o :
  exec (secret_provider.GetCACertificate config) t o ->
  let namespace := CASecretProvider_namespace config in
  exists config' g err s read_err, o = Done (config', (g, err)) /\
    Ev (GetSecret namespace CASecretName) (s, read_err) ∈ t /\
    match err with
    | Some _ => config' = config /\ g = None
    | None => exists g', g = Some g' /\ config' = set_latestCA g' config /\
        match read_err with
        | None => NewCACertificateGroupFromSecret (corev1.Secret_Data s) = Done (Some g', None) /\
            Forall (fun e => no_write (ev_req e)) t
        | Some e => IsNotFound e = true /\ authority g' /\
            exists t1 s', stored_as namespace g' s' /\ t = t1 ++ [Ev (CreateSecret s') None] /\
              Forall (fun e => no_write (ev_req e)) t1
        end
    end.
Proof using Type*.
  intros (config' & g & err & s & e & -> & Hh & Hspec)%exec_GetCACertificate.
  exists config', g, err, s, e. split_and!; [done|by apply head_Some_elem_of|done].
Qed.
End CertProperties.

(** ** Verification of requests *)

Section VerifyLemmas.
Context `{Crypto}.

(** Some authority of the chain signed the certificate. *)
Definition signed_by (chain : list (option Certificate)) (crt : Certificate) : Prop :=
  exists ca, Some ca ∈ chain /\ CheckSignatureFrom crt ca = None.

Lemma signed_by_chain_spec crt chain merr :
  Forall is_Some chain ->
  (signed_by chain crt /\ exists merr', signed_by_chain crt chain merr = Done (true, merr')) \/
  (~ signed_by chain crt /\ exists merr', signed_by_chain crt chain merr = Done (false, merr')).
Proof.
  intros Hc. revert merr. induction Hc as [|p chain [ca ->] _ IH]; intros merr.
  - right. split; [|by exists merr]. by intros (ca & ?%elem_of_nil & _).
  - cbn. destruct (CheckSignatureFrom crt ca) as [e|] eqn:Ec.
    + destruct (IH (merr ++ [e])) as [[(ca' & Hin & ?) Hd]|[Hn Hd]]; [left|right].
      * split; [|exact Hd]. exists ca'. split; [by right|done].
      * split; [|exact Hd]. intros (ca' & [[= ->]|Hin]%elem_of_cons & Hs); [congruence|].
        apply Hn. by exists ca'.
    + left. split; [|by exists merr]. exists ca. split; [left|done].
Qed.

Lemma isClientCertificateSigned_spec peers chain :
  Forall is_Some chain ->
  (Exists (signed_by chain) peers /\ isClientCertificateSigned peers chain = Done (true, None)) \/
  (~ Exists (signed_by chain) peers /\
   exists e, isClientCertificateSigned peers chain = Done (false, Some e)).
Proof.
  intros Hc. unfold isClientCertificateSigned. generalize (@nil error) as merr.
  induction peers as [|crt peers IH]; intros merr.
  - right. split; [by intros ?%Exists_nil|]. by eexists.
  - cbn. destruct (signed_by_chain_spec crt chain merr Hc) as [[Hs [m ->]]|[Hs [m ->]]]; cbn.
    + left. split; [by left|done].
    + destruct (IH m) as [[? Hd]|[? Hd]]; [left|right]; (split; [|exact Hd]); [by right|].
      by intros [?|?]%Exists_cons.
Qed.
End VerifyLemmas.

Section VerifyProperties.
Context `{Unicode} `{Crypto}.

Lemma exec_VerifyRequest_register leaf peers roots chain t o :
  Forall is_Some chain ->
  exec (VerifyRequest (leaf :: peers) YggdrasilRegisterAuth roots chain) t o ->
  t = [] /\
  ((Exists (signed_by chain) (leaf :: peers) /\
    o = Done (Some (request_identity leaf), (true, None))) \/
   (~ Exists (signed_by chain) (leaf :: peers) /\
    exists e, o = Done (Some (request_identity leaf),
                        (false, Some (RegisterClientVerifyError e))))).
Proof.
  intros Hc He. unfold VerifyRequest in He. rewrite decide_True in He by done.
  destruct (isClientCertificateSigned_spec (leaf :: peers) chain Hc) as [[Hs Hd]|[Hs [e Hd]]];
    rewrite Hd in He; apply exec_Ret_inv in He as [-> ->]; (split; [done|]); [by left|].
  right. split; [done|]. by eexists.
Qed.

(** The registration check accepts a request exactly when one of the
    certificates it presents, in whatever position, is signed by an authority
    of the chain, and never looks at validity dates.  The identity it gives the
    request is that of the first certificate, which nothing has verified. *)
Theorem VerifyRequest_register leaf peers roots chain t o :
  Forall is_Some chain ->
  exec (VerifyRequest (leaf :: peers) YggdrasilRegisterAuth roots chain) t o ->
  t = [] /\
  ((Exists (signed_by chain) (leaf :: peers) /\
    o = Done (Some (request_identity leaf), (true, None))) \/
   (~ Exists (signed_by chain) (leaf :: peers) /\
    exists e, o = Done (Some (request_identity leaf),
                        (false, Some (RegisterClientVerifyError e))))).
Proof. apply exec_VerifyRequest_register. Qed.

(** Who holds any certificate signed by the authority, even an expired one
    or that of the shared registration secret, passes the registration check as
    any device in any namespace: it is enough to present a certificate made up
    for that identity, signed by nobody, before the genuine one. *)
Theorem VerifyRequest_identity_forgeable forged genuine roots chain commonName namespace t o :
  Forall is_Some chain -> signed_by chain genuine ->
  Name_CommonName (Cert_Subject forged) = commonName ->
  Name_OrganizationalUnit (Cert_Subject forged) = Some [namespace] ->
  exec (VerifyRequest [forged; genuine] YggdrasilRegisterAuth roots chain) t o ->
  o = Done (Some (mkRequestAuthVal (ToLower commonName) namespace), (true, None)).
Proof.
  intros Hc Hs Hcn Hou [_ [[_ ->]|[Hn _]]]%(exec_VerifyRequest_register _ _ _ _ _ _ Hc).
  - unfold request_identity. by rewrite Hcn, Hou.
  - destruct Hn. right. by left.
Qed.

(** The complete check accepts a request exactly when every certificate it
    presents is no registration certificate and verifies against the roots at
    the moment it is looked at; the identity is that of the first. *)
Theorem VerifyRequest_complete leaf peers verifyType roots chain t o :
  verifyType <> YggdrasilRegisterAuth ->
  exec (VerifyRequest (leaf :: peers) verifyType roots chain) t o ->
  exists ok err, o = Done (Some (request_identity leaf), (ok, err)) /\
  match err with
  | None => ok = true /\
      Forall (fun crt => Name_CommonName (Cert_Subject crt) <> CertRegisterCN /\
                exists now, Ev Now now ∈ t /\ Verify roots now crt = None) (leaf :: peers)
  | Some e => ok = false /\ exists crt, crt ∈ leaf :: peers /\
      ((Name_CommonName (Cert_Subject crt) = CertRegisterCN /\ e = InvalidCertificateKindError) \/
       exists now e', Ev Now now ∈ t /\ Verify roots now crt = Some e' /\
         e = ClientCertificateVerifyError e')
  end.
Proof.
  intros Hv He. unfold VerifyRequest in He. rewrite decide_False in He by done.
  assert (forall t o, exec (for_range (leaf :: peers) tt (VerifyRequest_one roots)) t o ->
    match o with
    | Done (Next _) =>
      Forall (fun crt => Name_CommonName (Cert_Subject crt) <> CertRegisterCN /\
                exists now, Ev Now now ∈ t /\ Verify roots now crt = None) (leaf :: peers)
    | Done (Return e) => exists crt, crt ∈ leaf :: peers /\
      ((Name_CommonName (Cert_Subject crt) = CertRegisterCN /\ e = InvalidCertificateKindError) \/
       exists now e', Ev Now now ∈ t /\ Verify roots now crt = Some e' /\
         e = ClientCertificateVerifyError e')
    | Panicked => False
    end) as Hloop.
  { intros t0 o0. apply (for_range_rule
      (fun pre _ t => Forall (fun crt => Name_CommonName (Cert_Subject crt) <> CertRegisterCN /\
                exists now, Ev Now now ∈ t /\ Verify roots now crt = None) pre)
      (fun e t => exists crt, crt ∈ leaf :: peers /\
      ((Name_CommonName (Cert_Subject crt) = CertRegisterCN /\ e = InvalidCertificateKindError) \/
       exists now e', Ev Now now ∈ t /\ Verify roots now crt = Some e' /\
         e = ClientCertificateVerifyError e'))
      (fun _ => False)); [|constructor].
    intros pre crt post [] t1 t2 o2 Hl HF Hb. unfold VerifyRequest_one in Hb.
    assert (crt ∈ leaf :: peers) as Hin by (rewrite Hl; set_solver).
    case_decide as Hcn.
    { apply exec_Ret_inv in Hb as [-> ->]. exists crt. split; [done|]. by left. }
    exec_call Hb as (now & t3 & -> & Hb).
    destruct (Verify roots now crt) as [e|] eqn:Ev; apply exec_Ret_inv in Hb as [-> ->].
    - exists crt. split; [done|]. right. exists now, e. split; [set_solver|done].
    - apply Forall_app. split.
      + eapply Forall_impl; [exact HF|]. intros c (? & now' & ? & ?). split; [done|].
        exists now'. split; [set_solver|done].
      + apply Forall_singleton. split; [done|]. exists now. split; [set_solver|done]. }
  apply exec_bind_inv in He as [[Hl ->]|([u|e] & t1 & t2 & -> & Hl & He)].
  { by apply Hloop in Hl. }
  - apply Hloop in Hl. apply exec_Ret_inv in He as [-> ->]. rewrite app_nil_r.
    exists true, None. done.
  - apply Hloop in Hl. apply exec_Ret_inv in He as [-> ->]. rewrite app_nil_r.
    exists false, (Some e). done.
Qed.

(** [pem] is a certificate for the key of the request [CSRPem], in the name of
    a device and its namespace. *)
Record certificate_for (CSRPem commonName namespace pem : string) (csr : CertificateRequest)
    (crt : Certificate) : Prop := {
  for_request : exists block bytes, pem_Decode CSRPem = Some (block, bytes) /\
    ParseCertificateRequest bytes = inl csr;
  for_text : exists der, pem_Decode pem = Some ("CERTIFICATE", der) /\ ParseCertificate der = inl crt;
  for_name : Name_CommonName (Cert_Subject crt) = commonName;
  for_namespace : elems (Name_OrganizationalUnit (Cert_Subject crt)) = [namespace];
  for_key : Cert_PublicKey crt = CSR_PublicKey csr;
}.

Lemma certificate_for_identity CSRPem commonName namespace pem csr crt :
  certificate_for CSRPem commonName namespace pem csr crt ->
  request_identity crt = mkRequestAuthVal (ToLower commonName) namespace.
Proof. intros [_ _ Hcn Hou _]. unfold request_identity. by rewrite Hcn, Hou. Qed.

Lemma exec_TLSConfig_SignCSR `{!CryptoLaws} conf p rest CSRPem commonName namespace t pem :
  caProvider conf = p :: rest ->
  exec (TLSConfig_SignCSR conf CSRPem commonName namespace) t (Done (pem, None)) ->
  exists g ca text csr crt, latestCA p = Some g /\ cert g = Some ca /\ pem = Some text /\
    certificate_for CSRPem commonName namespace text csr crt /\
    exists der seed serial notBefore now, ParseCertificate der = inl crt /\ Ev Now now ∈ t /\
    CreateCertificate seed
      (secret_provider.client_template csr commonName namespace serial notBefore
         (now + clientExpirationDays conf * ns_per_day)%Z) ca (CSR_PublicKey csr) (privKey g) = inl der.
Proof.
  intros Hp He. unfold TLSConfig_SignCSR in He. rewrite Hp in He.
  exec_call He as (now & t1 & -> & He). cbn [SignCSR CASecretProvider_CAProvider] in He.
  unfold secret_provider.SignCSR in He.
  destruct (latestCA p) as [g|] eqn:Hg; [|by apply exec_Ret_inv in He as [_ ?]].
  destruct (pem_Decode CSRPem) as [[b csrBytes]|] eqn:Hb; [|by apply exec_Ret_inv in He as [_ ?]].
  destruct (ParseCertificateRequest csrBytes) as [csr|e] eqn:Hr; [|by apply exec_Ret_inv in He as [_ ?]].
  exec_call He as (serial & t2 & -> & He). exec_call He as (notBefore & t3 & -> & He).
  destruct (cert g) as [ca|] eqn:Hca; [|by apply exec_Panic_inv in He as [_ ?]].
  cbn [lift deref] in He. rewrite bind_ret_l in He.
  exec_call He as (seed & t4 & -> & He). rewrite AddDate_days in He.
  destruct (CreateCertificate _ _ _ _ _) as [der|e] eqn:Ec;
    apply exec_Ret_inv in He as [-> [= ->]].
  destruct (CreateCertificate_Parse _ _ _ _ _ _ Ec) as (crt & Hc & [Hcn Hou Hpub _ _ _]).
  exists g, ca, (pem_Encode "CERTIFICATE" der), csr, crt. split_and!; [done..| |].
  - split; [by exists b, csrBytes| |exact Hcn|by apply Permutation_singleton_r in Hou|exact Hpub].
    exists der. by rewrite pem_Decode_Encode.
  - exists der, seed, serial, notBefore, now. split_and!; [done|left|exact Ec].
Qed.

Lemma TLSConfig_SignCSR_calls (conf : TLSConfig CASecretProvider) CSRPem commonName namespace t o :
  exec (TLSConfig_SignCSR conf CSRPem commonName namespace) t o ->
  Forall (fun e => ev_req e = Now \/ ev_req e = Entropy) t.
Proof.
  apply (calls_exec (fun c => c = Now \/ c = Entropy)). unfold TLSConfig_SignCSR.
  destruct (caProvider conf); [done|]. split; [by left|]. intros now.
  cbn [SignCSR CASecretProvider_CAProvider]. unfold secret_provider.SignCSR.
  destruct (latestCA _) as [g|]; [|done]. destruct (pem_Decode _) as [[? ?]|]; [|done].
  destruct (ParseCertificateRequest _); [|done]. do 2 (split; [by left|intros ?]).
  destruct (cert g); [|done]. split; [by right|]. intros seed.
  cbn. by destruct (CreateCertificate _ _ _ _ _).
Qed.

(** A certificate that an authority fit to sign has signed is checked to be. *)
Lemma exec_TLSConfig_SignCSR_signed `{!CryptoLaws} conf p ca k g rest CSRPem commonName namespace t pem :
  caProvider conf = p :: rest -> latestCA p = Some g ->
  cert g = Some ca -> privKey g = Some k -> may_sign ca k ->
  exec (TLSConfig_SignCSR conf CSRPem commonName namespace) t (Done (Some pem, None)) ->
  exists csr crt, certificate_for CSRPem commonName namespace pem csr crt /\
    (exists der seed serial notBefore now, ParseCertificate der = inl crt /\ Ev Now now ∈ t /\
     CreateCertificate seed
      (secret_provider.client_template csr commonName namespace serial notBefore
         (now + clientExpirationDays conf * ns_per_day)%Z) ca (CSR_PublicKey csr) (Some k) = inl der) /\
    (secure_algorithm (CSR_SignatureAlgorithm csr) = true -> CheckSignatureFrom crt ca = None).
Proof.
  intros Hp Hg Hca Hk Hm He. eapply exec_TLSConfig_SignCSR in He
    as (g' & ca' & text & csr & crt & Hg' & Hca' & [= <-] & Hfor & der & seed & serial & notBefore &
        now & Hc & Hnow & Ec); [|exact Hp].
  rewrite Hg in Hg'. injection Hg' as <-. rewrite Hca in Hca'. injection Hca' as <-. rewrite Hk in Ec.
  exists csr, crt. split_and!; [done|by exists der, seed, serial, notBefore, now|].
  intros Hs. by eapply CreateCertificate_signs.
Qed.

(** The certificate signed for a device names that device and its
    namespace and nothing the device asked for, expires after the configured
    number of days, and, presented in a request, is accepted with exactly that
    identity by whoever trusts the authority. *)
Theorem SignCSR_identity `{!CryptoLaws} conf p ca k g rest CSRPem commonName namespace t pem :
  caProvider conf = p :: rest -> latestCA p = Some g ->
  cert g = Some ca -> privKey g = Some k -> may_sign ca k ->
  exec (TLSConfig_SignCSR conf CSRPem commonName namespace) t (Done (Some pem, None)) ->
  exists csr crt, certificate_for CSRPem commonName namespace pem csr crt /\
    (exists der seed serial notBefore now, ParseCertificate der = inl crt /\ Ev Now now ∈ t /\
     CreateCertificate seed
      (secret_provider.client_template csr commonName namespace serial notBefore
         (now + clientExpirationDays conf * ns_per_day)%Z) ca (CSR_PublicKey csr) (Some k) = inl der) /\
    (secure_algorithm (CSR_SignatureAlgorithm csr) = true ->
     forall chain roots peers t' o, Forall is_Some chain -> Some ca ∈ chain ->
      exec (VerifyRequest (crt :: peers) YggdrasilRegisterAuth roots chain) t' o ->
      o = Done (Some (mkRequestAuthVal (ToLower commonName) namespace), (true, None))).
Proof.
  intros Hp Hg Hca Hk Hm He.
  edestruct exec_TLSConfig_SignCSR_signed as (csr & crt & Hfor & Hc & Hs); [done..|].
  exists csr, crt. split_and!; [done..|].
  intros Hsec chain roots peers t' o Hch Hin [_ [[_ ->]|[Hn _]]]%(exec_VerifyRequest_register _ _ _ _ _ _ Hch).
  - by rewrite (certificate_for_identity _ _ _ _ _ _ Hfor).
  - destruct Hn. left. exists ca. split; [done|by apply Hs].
Qed.

(** The signature algorithm of the request is copied into the certificate to be
    signed, so that a device whose key is of another kind than that of the
    authority gets no certificate: the authority the operator creates has an
    ECDSA key, and refuses every request made with an RSA key. *)
Theorem SignCSR_needs_fitting_algorithm `{!CryptoLaws} conf p k g rest CSRPem commonName
    namespace t pem :
  caProvider conf = p :: rest -> latestCA p = Some g -> privKey g = Some k ->
  exec (TLSConfig_SignCSR conf CSRPem commonName namespace) t (Done (Some pem, None)) ->
  exists block bytes csr, pem_Decode CSRPem = Some (block, bytes) /\
    ParseCertificateRequest bytes = inl csr /\
    algorithm_fits (CSR_SignatureAlgorithm csr) k = true.
Proof.
  intros Hp Hg Hk He. eapply exec_TLSConfig_SignCSR in He
    as (g' & ca & text & csr & crt & Hg' & _ & _ & [(b & bytes & ? & ?) _ _ _ _] & der & seed & serial &
        notBefore & now & _ & _ & Ec); [|exact Hp].
  rewrite Hg in Hg'. injection Hg' as <-. rewrite Hk in Ec.
  exists b, bytes, csr. split_and!; [done..|].
  exact (CreateCertificate_algorithm _ _ _ _ _ _ Ec).
Qed.
End VerifyProperties.

(** The loop of [InitCertificates] has collected the authorities of [ps]. *)
Definition trusted {P} `{CAProvider P} (ps : list P) (s : @InitState P) (t : list Event) : Prop :=
  init_errors s = None ->
  Forall2 (fun p g => exists t' p', t' ⊆ t /\
    exec (GetCACertificate p) t' (Done (p', (Some g, None)))) ps (init_caCerts s) /\
  init_chain s = map cert (init_caCerts s) /\
  map Some (init_pool s) = map CertPEM (init_caCerts s).

(** The server starts only when every configured provider has produced its
    authority; it then trusts exactly these, in the order of the providers:
    their certificates are the chain requests are checked against, their texts
    the pool of client authorities. *)
Theorem InitCertificates_trusts_all `{Crypto} {P} `{CAProvider P} (conf : TLSConfig P) t conf' tls chain :
  exec (InitCertificates conf) t (Done (conf', (tls, chain, None))) ->
  exists gs pool crt,
    Forall2 (fun p g => exists t' p', t' ⊆ t /\
      exec (GetCACertificate p) t' (Done (p', (Some g, None)))) (caProvider conf) gs /\
    gs <> [] /\ chain = map cert gs /\ tls = Some (mkTLS crt pool) /\
    map Some pool = map CertPEM gs.
Proof.
  intros He. unfold InitCertificates in He. case_decide; [by apply exec_Ret_inv in He as [_ ?]|].
  apply exec_bind_inv in He as [[_ ?]|(s & t1 & t2 & -> & Hl & He)]; [done|].
  assert (trusted (caProvider conf) s t1) as Hs.
  { refine (for_each_rule trusted (fun _ => True) InitCertificates_one (caProvider conf) _
      _ t1 (Done s) _ Hl); [|done].
    intros pre p post s0 t0 t' o _ HI Hb. destruct o as [s'|]; [|done].
    unfold InitCertificates_one in Hb.
    apply exec_bind_inv in Hb as [[_ ?]|([p' [g err]] & t3 & t4 & -> & Hg & Hb)]; [done|].
    destruct err as [e|].
    { apply exec_Ret_inv in Hb as [-> [= ->]]. cbn. by destruct (init_errors s0) as [[]|]. }
    apply exec_bind_inv in Hb
      as [[_ ?]|(g' & t5 & t6 & -> & [-> Hd]%exec_lift_inv & Hb)]; [done|].
    destruct g as [g|]; [|done]. injection Hd as ->.
    apply exec_bind_inv in Hb
      as [[_ ?]|(pem & t7 & t8 & -> & [-> Hp]%exec_lift_inv & Hb)]; [done|].
    destruct (CertPEM g') as [pem'|] eqn:Eg; [|done]. injection Hp as ->.
    apply exec_Ret_inv in Hb as [-> [= ->]]. cbn. intros Hn.
    destruct (HI Hn) as (HF & Hch & Hm). cbn [init_caCerts init_chain init_pool].
    rewrite Hch, !map_app, Hm. cbn [map]. rewrite Eg.
    split; [|done]. apply Forall2_app.
    - eapply Forall2_impl; [exact HF|]. intros x y (t9 & p9 & ? & ?). exists t9, p9.
      split; [set_solver|done].
    - constructor; [|constructor]. exists t3, p'. split; [set_solver|done]. }
  cbv zeta in He. destruct (init_errors s) as [e|] eqn:Ee; [by apply exec_Ret_inv in He as [_ ?]|].
  destruct (Hs Ee) as (HF & Hc & Hm). clear Hs.
  case_decide as Hca; [by apply exec_Ret_inv in He as [_ ?]|].
  destruct (caProvider (set_caProvider _ conf)) as [|p rest];
    [by apply exec_Panic_inv in He as [_ ?]|].
  apply exec_bind_inv in He as [[_ ?]|([p' [g err]] & t3 & t4 & -> & _ & He)]; [done|].
  cbv zeta in He. destruct err as [e|]; [by apply exec_Ret_inv in He as [_ ?]|].
  apply exec_bind_inv in He as [[_ ?]|(g' & t5 & t6 & -> & _ & He)]; [done|].
  apply exec_bind_inv in He as [[_ ?]|([crt|e] & t7 & t8 & -> & _ & He)]; [done| |];
    apply exec_Ret_inv in He as [_ [= ? ? ?]]. subst.
  exists (init_caCerts s), (init_pool s), crt. split_and!; [|done|done|done|done].
  eapply Forall2_impl; [exact HF|]. intros x y (t9 & p9 & ? & ?). exists t9, p9.
  split; [set_solver|done].
Qed.

(** ** Examples: a whole start-up under the symbolic instance *)

Definition started : M (TLSConfig CASecretProvider * (option TLS * list (option Certificate) * option error)) :=
  InitCertificates (NewMTLSConfig "flotta" (Some ["host"]) false).

Definition example_ca : Certificate :=
  set_PublicKey (Some (ECDSAPublicKey 0))
    (mkCertificate "" 0 (mkName "" (Some [serverCertOrganization]) None "") 0 10 true true 33
       (Some [2; 1]%Z) None None None None "" 0 0).
Definition example_group : CertificateGroup :=
  mkCertificateGroup (Some example_ca) None (Some (ECDSAPrivateKey 0)) "" None None.
Definition example_conf : TLSConfig CASecretProvider :=
  mkTLSConfig [mkCASecretProvider "flotta" (Some example_group)] None false "flotta" 7.
Definition example_csr : string := block_text "CERTIFICATE REQUEST" (text ("evil", Some (ECDSAPublicKey 5), 10%Z)).
Definition forged_certificate : Certificate :=
  mkCertificate "" 0 (mkName "Victim" None (Some ["prod"]) "") 0 0 false false 0 None None None None
    (Some (ECDSAPublicKey 9)) "" 0 0.
(** The registration certificate, as the authority signed it. *)
Definition register_cert : Certificate :=
  let template := mkCertificate "" 0 (mkName CertRegisterCN None None "n") 0 10 false false 1 None
                    None None None (Some (ECDSAPublicKey 1)) "" 0 0 in
  set_Raw (text (template, ECDSAPublicKey 0)) template.

Lemma InitCertificates_trusts_all_witness :
  exists conf' tls chain, run_result started empty_world = Done (conf', (tls, chain, None)) /\
    exists gs, gs <> [] /\ chain = map cert gs.
Proof.
  destruct (run_result started empty_world) as [[conf' [[tls chain] [e|]]]|] eqn:Hr;
    [exfalso; vm_compute in Hr; discriminate Hr| |exfalso; vm_compute in Hr; discriminate Hr].
  exists conf', tls, chain. split; [reflexivity|].
  destruct (InitCertificates_trusts_all _ _ _ _ _ (run_result_exec_as _ _ _ Hr))
    as (gs & _ & _ & _ & Hn & Hc & _). exists gs. split; [exact Hn|exact Hc].
Defined.

Lemma GetCACertificate_spec_witness :
  let p := secret_provider.GetCACertificate (NewCASecretProvider "flotta") in
  exists config g, run_result p empty_world = Done (config, (g, None)) /\
    exists g', g = Some g' /\ config = set_latestCA g' (NewCASecretProvider "flotta").
Proof.
  cbv zeta.
  destruct (run_result (secret_provider.GetCACertificate (NewCASecretProvider "flotta")) empty_world)
    as [[config [g [e|]]]|] eqn:Hr;
    [exfalso; vm_compute in Hr; discriminate Hr| |exfalso; vm_compute in Hr; discriminate Hr].
  exists config, g. split; [reflexivity|].
  destruct (GetCACertificate_spec _ _ _ (run_result_exec_as _ _ _ Hr))
    as (config' & g0 & err & s & e & [= <- <- <-] & _ & g' & -> & -> & _).
  exists g'. split; reflexivity.
Defined.

Lemma VerifyRequest_identity_forgeable_witness :
  signed_by [Some example_ca] register_cert /\
  run_result (@VerifyRequest ascii_tables symbolic [forged_certificate; register_cert]
                YggdrasilRegisterAuth [] [Some example_ca]) empty_world =
    Done (Some (mkRequestAuthVal "victim" "prod"), (true, None)).
Proof.
  assert (signed_by [Some example_ca] register_cert) as Hs.
  { exists example_ca. split; [left|vm_compute; reflexivity]. }
  assert (Forall is_Some [Some example_ca]) as Hc by (repeat constructor; eauto).
  split; [exact Hs|].
  exact (VerifyRequest_identity_forgeable (H := ascii_tables) forged_certificate
           register_cert [] [Some example_ca] "Victim" "prod" _ _
           Hc Hs eq_refl eq_refl (run_result_exec _ empty_world)).
Defined.

Lemma VerifyRequest_register_witness :
  Forall is_Some [Some example_ca] /\
  run_trace (@VerifyRequest ascii_tables symbolic [register_cert]
               YggdrasilRegisterAuth [] [Some example_ca]) empty_world = [].
Proof.
  assert (Forall is_Some [Some example_ca]) as Hc by (repeat constructor; eauto).
  split; [exact Hc|].
  exact (proj1 (VerifyRequest_register (H := ascii_tables) _ _ _ _ _ _ Hc
                  (run_result_exec _ empty_world))).
Defined.

Lemma VerifyRequest_complete_witness :
  run_result (@VerifyRequest ascii_tables symbolic [register_cert]
                YggdrasilCompleteAuth [] [Some example_ca]) empty_world =
    Done (Some (mkRequestAuthVal "register" ""), (false, Some InvalidCertificateKindError)) /\
  exists crt, crt ∈ [register_cert].
Proof.
  match goal with |- run_result ?p _ = ?o /\ _ =>
    assert (run_result p empty_world = o) as Hr by (vm_compute; reflexivity) end.
  split; [exact Hr|].
  assert (YggdrasilCompleteAuth <> YggdrasilRegisterAuth) as Hv by discriminate.
  destruct (VerifyRequest_complete (H := ascii_tables) _ _ _ _ _ _ _ Hv
              (run_result_exec_as _ _ _ Hr)) as (ok & err & [= <- <-] & _ & crt & Hin & _).
  exists crt. exact Hin.
Defined.

Lemma SignCSR_identity_witness :
  may_sign example_ca (ECDSAPrivateKey 0) /\
  exists pem, run_result (TLSConfig_SignCSR example_conf example_csr "Device" "ns") empty_world =
      Done (Some pem, None) /\
    exists der, pem_Decode pem = Some ("CERTIFICATE", der).
Proof.
  assert (may_sign example_ca (ECDSAPrivateKey 0)) as Hm by (by split).
  split; [exact Hm|].
  destruct (run_result (TLSConfig_SignCSR example_conf example_csr "Device" "ns") empty_world)
    as [[[pem|] [e|]]|] eqn:Hr; try (exfalso; vm_compute in Hr; discriminate Hr).
  exists pem. split; [reflexivity|].
  destruct (SignCSR_identity (H := ascii_tables) example_conf _ _ _ _ [] example_csr "Device" "ns" _ _
    eq_refl eq_refl eq_refl eq_refl Hm (run_result_exec_as _ _ _ Hr)) as (csr & crt & [_ (der & Hd & _) _ _ _] & _).
  exists der. exact Hd.
Defined.
