(* ===== verification/Yggdrasil.v ===== *)
(** * The HTTP handlers of the edge API

    internal/edgeapi/yggdrasil/yggdrasil.go, and the authentication in front of
    them (the inner middleware of cmd/httpapi/main.go).  The handlers are
    written against the interfaces [EdgeDeviceBackend] and [CAProvider].

    The wire format of the messages is that of the generated models and of
    their third-party string formats: decoding and encoding are the parameters
    of the class [Wire]. *)
From S2P Require Import Prelude GoData GoTime GoStrings V1alpha1 Models Env Testbed Utils.
From S2P Require Import Repository Hardware Facade Assembler Heartbeat BackendApi Backend Crypto MTLS.
Import v1alpha1.

Class Wire := {
  (** [json.Unmarshal(json.Marshal(msg.Content), &v)]. *)
  decode_Heartbeat : models.any -> models.Heartbeat + error;
  decode_EnrolmentInfo : models.any -> models.EnrolmentInfo + error;
  decode_RegistrationInfo : models.any -> models.RegistrationInfo + error;
  (** [json.Marshal(playbookExecutions)]. *)
  encode_PlaybookExecutions : slice (option models.PlaybookExecution) -> string + error;
}.

(** ** Responses *)

(** The operation whose responder is built, its status code and payload. *)
Inductive Operation :=
  | GetControlMessageForDevice | GetDataMessageForDevice
  | PostControlMessageForDevice | PostDataMessageForDevice.
Inductive Payload :=
  | NoPayload
  | MessagePayload (m : models.Message)
  | ResponsePayload (m : models.MessageResponse).
Record Responder := Respond { operation : Operation; code : Z; payload : Payload }.

Definition StatusOK : Z := 200.
Definition StatusAlreadyReported : Z := 208.
Definition StatusBadRequest : Z := 400.
Definition StatusUnauthorized : Z := 401.
Definition StatusForbidden : Z := 403.
Definition StatusNotFound : Z := 404.
Definition StatusInternalServerError : Z := 500.

(** ** yggdrasil.go *)

Definition metric (op : MetricOp) : M unit := call (Metric op).

Section Handler.
Context `{Unicode} `{Crypto} {P : Type} `{CAProvider P} `{EdgeDeviceBackend} `{Wire}.
Context (initialNamespace : string) (mtlsConfig : TLSConfig P).

(** [ctx.Value(AuthzKey)] is [auth]. *)
Definition IsOwnDevice (auth : option RequestAuthVal) (deviceID : string) : bool :=
  if decide (deviceID = "") then false
  else match auth with
       | None => false
       | Some val => bool_decide (CommonName val = ToLower deviceID)
       end.

Definition getNamespace (auth : option RequestAuthVal) : string :=
  match auth with
  | None => initialNamespace
  | Some val => if decide (RequestAuthVal_Namespace val <> "") then RequestAuthVal_Namespace val
                else initialNamespace
  end.

Definition createDisconnectCommand : M models.Message :=
  uuid ← (call NewUUID : M string);
  now ← (call Now : M Time);
  mret (models.mkMessage (models.AnyCommand "disconnect" None) "" uuid models.AnyNil "" now
          models.MessageTypeCommand 1).

Definition HandleGetControlMessage (auth : option RequestAuthVal) (deviceID : string) : M Responder :=
  let op := GetControlMessageForDevice in
  if negb (IsOwnDevice auth deviceID) then
    _ ← metric IncInvalidOwner;
    mret (Respond op StatusForbidden NoPayload)
  else
    '(regStatus, err) ← GetRegistrationStatus deviceID (getNamespace auth);
    match err with
    | Some e =>
        if IsNotFound e then mret (Respond op StatusNotFound NoPayload)
        else mret (Respond op StatusInternalServerError NoPayload)
    | None =>
        if decide (regStatus = Unregistered) then
          _ ← metric IncUnregistration;
          message ← createDisconnectCommand;
          mret (Respond op StatusOK (MessagePayload message))
        else mret (Respond op StatusOK NoPayload)
    end.

Definition HandleGetDataMessage (auth : option RequestAuthVal) (deviceID : string) : M Responder :=
  let op := GetDataMessageForDevice in
  if negb (IsOwnDevice auth deviceID) then
    _ ← metric IncInvalidOwner;
    mret (Respond op StatusForbidden NoPayload)
  else
    '(dc, err) ← GetConfiguration deviceID (getNamespace auth);
    match err with
    | Some e =>
        if IsNotFound e then mret (Respond op StatusNotFound NoPayload)
        else mret (Respond op StatusInternalServerError NoPayload)
    | None =>
        uuid ← (call NewUUID : M string);
        now ← (call Now : M Time);
        dc ← lift (deref dc);
        mret (Respond op StatusOK (MessagePayload
          (models.mkMessage (models.AnyDeviceConfiguration dc) "device" uuid models.AnyNil "" now
             models.MessageTypeData 1)))
    end.

(** The refusal is the responder of the data operation. *)
Definition HandlePostControlMessage (auth : option RequestAuthVal) (deviceID : string) : M Responder :=
  if negb (IsOwnDevice auth deviceID) then
    _ ← metric IncInvalidOwner;
    mret (Respond PostDataMessageForDevice StatusForbidden NoPayload)
  else mret (Respond PostControlMessageForDevice StatusOK NoPayload).

(** What the handler prints of a heartbeat reads every event and workload. *)
Definition print_heartbeat (hb : models.Heartbeat) : outcome unit :=
  _ ← mapM (fun event => e ← deref event; Done (models.EventInfo_Message e))
        (elems (models.Heartbeat_Events hb));
  _ ← mapM (fun workload => w ← deref workload; Done (models.WorkloadStatus_Name w))
        (elems (models.Heartbeat_Workloads hb));
  Done tt.

Definition post (code : Z) : Responder := Respond PostDataMessageForDevice code NoPayload.

Definition PostHeartbeat (auth : option RequestAuthVal) (deviceID : string) (msg : models.Message)
    : M Responder :=
  match decode_Heartbeat (models.Message_Content msg) with
  | inr _ => mret (post StatusBadRequest)
  | inl hb =>
      _ ← lift (print_heartbeat hb);
      err ← RetryingProcess (fun retry =>
              UpdateStatus (Some retry) deviceID (getNamespace auth) hb);
      match err with
      | Some e =>
          if IsNotFound e then mret (post StatusNotFound)
          else mret (post StatusInternalServerError)
      | None =>
          _ ← metric (RecordPresence (getNamespace auth) deviceID);
          mret (post StatusOK)
      end
  end.

Definition PostEnrolment (deviceID : string) (msg : models.Message) : M Responder :=
  match decode_EnrolmentInfo (models.Message_Content msg) with
  | inr _ => mret (post StatusBadRequest)
  | inl enrolmentInfo =>
      let targetNamespace :=
        match models.EnrolmentInfo_TargetNamespace enrolmentInfo with
        | Some ns => ns
        | None => initialNamespace
        end in
      '(alreadyCreated, err) ← Enrol deviceID targetNamespace enrolmentInfo;
      match err with
      | Some _ => mret (post StatusBadRequest)
      | None => mret (post (if alreadyCreated : bool then StatusAlreadyReported else StatusOK))
      end
  end.

Definition PostRegistration (auth : option RequestAuthVal) (deviceID : string)
    (msg : models.Message) : M Responder :=
  match decode_RegistrationInfo (models.Message_Content msg) with
  | inr _ => mret (post StatusBadRequest)
  | inl registrationInfo =>
      '(ns, err) ← GetTargetNamespace deviceID (getNamespace auth) (IsOwnDevice auth deviceID);
      match err with
      | Some e =>
          if negb (IsNotFound e) then
            _ ← metric IncFailedRegistration;
            mret (post StatusInternalServerError)
          else
            _ ← match e with NotApproved _ => mret tt | _ => metric IncFailedRegistration end;
            mret (post StatusNotFound)
      | None =>
          '(cert, err) ← TLSConfig_SignCSR mtlsConfig
                           (models.RegistrationInfo_CertificateRequest registrationInfo) deviceID ns;
          match err with
          | Some _ => mret (post StatusBadRequest)
          | None =>
              let content := models.mkRegistrationResponse (default "" cert) in
              let res := models.mkMessageResponse (models.AnyRegistrationResponse content)
                           (models.Message_Directive msg) (models.Message_MessageID msg)
                           models.AnyNil in
              err ← Register deviceID ns registrationInfo;
              match err with
              | Some _ =>
                  _ ← metric IncFailedRegistration;
                  mret (post StatusInternalServerError)
              | None =>
                  _ ← metric IncSuccessfulRegistration;
                  mret (Respond PostDataMessageForDevice StatusOK (ResponsePayload res))
              end
          end
      end
  end.

Definition PostAnsible (auth : option RequestAuthVal) (deviceID : string) (msg : models.Message)
    : M Responder :=
  '(playbookExecutions, err) ← GetPlaybookExecutions deviceID (getNamespace auth);
  match err with
  | Some e =>
      if IsNotFound e then mret (Respond GetDataMessageForDevice StatusNotFound NoPayload)
      else mret (Respond GetDataMessageForDevice StatusInternalServerError NoPayload)
  | None =>
      if decide (elems playbookExecutions = []) then mret (post StatusInternalServerError)
      else
        match encode_PlaybookExecutions playbookExecutions with
        | inr _ => mret (post StatusInternalServerError)
        | inl peBytes =>
            uuid ← (call NewUUID : M string);
            mret (Respond PostDataMessageForDevice StatusOK (ResponsePayload
              (models.mkMessageResponse (models.AnyString peBytes) (models.Message_Directive msg)
                 (models.Message_MessageID msg)
                 (models.AnyStringMap (<["message-id" := uuid]>
                   (<["crc_dispatcher_correlation_id" := "fake-crc-id"]>
                   {["return_url" := "return_url"]}))))))
        end
  end.

(** Directives that need no certificate of the device itself. *)
Definition open_directive (directive : string) : bool :=
  bool_decide (directive = "registration" \/ directive = "enrolment").

Definition HandlePostDataMessage (auth : option RequestAuthVal) (deviceID : string)
    (msg : models.Message) : M Responder :=
  let directive := models.Message_Directive msg in
  if negb (open_directive directive) && negb (IsOwnDevice auth deviceID) then
    _ ← metric IncInvalidOwner;
    mret (post StatusForbidden)
  else if decide (directive = "heartbeat") then PostHeartbeat auth deviceID msg
  else if decide (directive = "enrolment") then PostEnrolment deviceID msg
  else if decide (directive = "registration") then PostRegistration auth deviceID msg
  else if decide (directive = "ansible") then PostAnsible auth deviceID msg
  else mret (post StatusBadRequest).

(** [GetAuthType(r, api)]: [api] is nil while the server starts; the route a
    request matches names its operation. *)
Definition YggrasilAPIRegistrationOperation : string := "PostDataMessageForDevice".
Definition GetAuthType {R} (r : R) (api : option (R -> option (option string))) : Z :=
  let res := 1%Z in
  match api with
  | None => res
  | Some RouteInfo =>
      match RouteInfo r with
      | None => res
      | Some (Some ID) =>
          if decide (ID = YggrasilAPIRegistrationOperation) then MTLS.YggdrasilRegisterAuth else res
      | Some None => res
      end
  end.

(** ** The requests of a device, and the middleware of cmd/httpapi/main.go *)

Inductive DeviceRequest :=
  | GetControl (deviceID : string)
  | GetData (deviceID : string)
  | PostControl (deviceID : string)
  | PostData (deviceID : string) (msg : models.Message).

Definition operation_of (r : DeviceRequest) : Operation :=
  match r with
  | GetControl _ => GetControlMessageForDevice
  | GetData _ => GetDataMessageForDevice
  | PostControl _ => PostControlMessageForDevice
  | PostData _ _ => PostDataMessageForDevice
  end.

Definition operation_ID (op : Operation) : string :=
  match op with
  | GetControlMessageForDevice => "GetControlMessageForDevice"
  | GetDataMessageForDevice => "GetDataMessageForDevice"
  | PostControlMessageForDevice => "PostControlMessageForDevice"
  | PostDataMessageForDevice => "PostDataMessageForDevice"
  end.

Definition handle (auth : option RequestAuthVal) (r : DeviceRequest) : M Responder :=
  match r with
  | GetControl deviceID => HandleGetControlMessage auth deviceID
  | GetData deviceID => HandleGetDataMessage auth deviceID
  | PostControl deviceID => HandlePostControlMessage auth deviceID
  | PostData deviceID msg => HandlePostDataMessage auth deviceID msg
  end.

(** [InnerMiddleware]: a bare status code, or what the handler answers.
    [r.TLS] is [None] when the connection is not encrypted. *)
Definition InnerMiddleware (roots : list string) (CACertChain : list (option Certificate))
    (tls : option (list Certificate)) (r : DeviceRequest) : M (Z + Responder) :=
  match tls with
  | None => mret (inl StatusBadRequest)
  | Some peers =>
      let authType := GetAuthType r (Some (fun r => Some (Some (operation_ID (operation_of r))))) in
      '(auth, (ok, _)) ← VerifyRequest peers authType roots CACertChain;
      if ok : bool then
        res ← handle auth r;
        mret (inr res)
      else
        _ ← metric IncFailedAuthentication;
        mret (inl StatusUnauthorized)
  end.
End Handler.

(** ** Lemmas *)

(** The device a request speaks for. *)
Definition device_of (r : DeviceRequest) : string :=
  match r with GetControl id | GetData id | PostControl id | PostData id _ => id end.

(** The request may be made without the device's own certificate. *)
Definition open_request (r : DeviceRequest) : bool :=
  match r with PostData _ msg => open_directive (models.Message_Directive msg) | _ => false end.

(** The request only asks for something. *)
Definition query (r : DeviceRequest) : Prop :=
  match r with
  | PostData _ msg =>
      models.Message_Directive msg <> "heartbeat" /\
      open_directive (models.Message_Directive msg) = false
  | _ => True
  end.

Section HandlerLemmas.
Context `{Unicode} `{Crypto} {P : Type} `{CAProvider P} (B : EdgeDeviceBackend) `{Wire}.
Context (initialNamespace : string) (mtlsConfig : TLSConfig P).

Lemma metric_bind {A} op (f : unit -> M A) t o :
  exec (metric op ≫= f) t o -> exists t', t = Ev (Metric op) tt :: t' /\ exec (f tt) t' o.
Proof.
  intros He. unfold metric in He. exec_call He as ([] & t' & -> & He). by exists t'.
Qed.

Lemma calls_metric (Q : Req -> Prop) op : Q (Metric op) -> calls Q (metric op).
Proof. apply calls_call. Qed.

(** What the handlers add around the backend's queries changes nothing. *)
Lemma handle_query_calls `{!BackendLaws B} auth r :
  query r -> calls no_write (handle initialNamespace mtlsConfig auth r).
Proof.
  assert (forall op, calls no_write (metric op)) as Hm by (intros; apply calls_metric; by intros ?).
  assert (forall op resp, calls no_write (_ ← metric op; mret resp : M Responder)) as Hr
    by (intros; apply calls_bind; [apply Hm|done]).
  destruct r as [id|id|id|id msg]; cbn [handle query]; intros Hq.
  - unfold HandleGetControlMessage, createDisconnectCommand. case_match; [apply Hr|].
    apply calls_bind; [apply GetRegistrationStatus_no_write|]. intros [st [e|]]; [by case_match|].
    case_decide; [|done]. apply calls_bind; [apply Hm|]. intros _.
    apply calls_bind; [|done]. repeat (split; [by intros ?|intros ?]); done.
  - unfold HandleGetDataMessage. case_match; [apply Hr|].
    apply calls_bind; [apply GetConfiguration_no_write|]. intros [dc [e|]]; [by case_match|].
    repeat (split; [by intros ?|intros ?]). apply calls_bind; [apply calls_lift|done].
  - unfold HandlePostControlMessage. case_match; [apply Hr|done].
  - destruct Hq as [Hb Ho]. unfold HandlePostDataMessage.
    rewrite Ho. unfold open_directive in Ho. apply bool_decide_eq_false in Ho.
    case_match; [apply Hr|]. do 3 (rewrite decide_False by tauto).
    case_decide; [|done]. unfold PostAnsible.
    apply calls_bind; [apply GetPlaybookExecutions_no_write|]. intros [pes [e|]]; [by case_match|].
    case_decide; [done|]. destruct (encode_PlaybookExecutions pes); [|done].
    split; [by intros ?|done].
Qed.

(** A registration, step by step: what has happened when it ends well. *)
Lemma exec_PostRegistration auth deviceID msg t resp :
  exec (PostRegistration initialNamespace mtlsConfig auth deviceID msg) t (Done resp) ->
  code resp <> StatusOK /\ payload resp = NoPayload \/
  code resp = StatusOK /\ exists info ns cert t1 t2 t3,
    decode_RegistrationInfo (models.Message_Content msg) = inl info /\
    t = t1 ++ t2 ++ t3 ++ [Ev (Metric IncSuccessfulRegistration) tt] /\
    exec (GetTargetNamespace deviceID (getNamespace initialNamespace auth)
            (IsOwnDevice auth deviceID)) t1 (Done (ns, None)) /\
    exec (TLSConfig_SignCSR mtlsConfig (models.RegistrationInfo_CertificateRequest info)
            deviceID ns) t2 (Done (cert, None)) /\
    exec (Register deviceID ns info) t3 (Done None) /\
    payload resp = ResponsePayload (models.mkMessageResponse
      (models.AnyRegistrationResponse (models.mkRegistrationResponse (default "" cert)))
      (models.Message_Directive msg) (models.Message_MessageID msg) models.AnyNil).
Proof.
  intros He. unfold PostRegistration in He.
  destruct (decode_RegistrationInfo _) as [info|e] eqn:Ed.
  2:{ apply exec_Ret_inv in He as [_ [= ->]]. by left. }
  apply exec_bind_inv in He as [[_ ?]|([ns [e|]] & t1 & t' & -> & Hns & He)]; [done|left|].
  { destruct (IsNotFound e); cbn [negb] in He.
    - destruct e; try (apply metric_bind in He as (? & -> & He));
        apply exec_Ret_inv in He as [_ [= ->]]; done.
    - apply metric_bind in He as (? & -> & He). by apply exec_Ret_inv in He as [_ [= ->]]. }
  apply exec_bind_inv in He as [[_ ?]|([cert [e|]] & t2 & t3 & -> & Hsig & He)]; [done|left|].
  { by apply exec_Ret_inv in He as [_ [= ->]]. }
  cbv zeta in He.
  apply exec_bind_inv in He as [[_ ?]|([e|] & t4 & t5 & -> & Hreg & He)]; [done|left|right];
    apply metric_bind in He as (? & -> & He); apply exec_Ret_inv in He as [-> [= ->]]; [done|].
  split; [done|]. by exists info, ns, cert, t1, t2, t4.
Qed.

Lemma GetAuthType_register {R} (r : R) api : GetAuthType r api = MTLS.YggdrasilRegisterAuth.
Proof. unfold GetAuthType. destruct api as [f|]; [|done]. destruct (f r) as [[ID|]|]; try done. by case_decide. Qed.

(** Whoever presents [auth] is not the device [id]: nobody is the device
    without a name, and without an identity one is nobody. *)
Definition foreign (auth : option RequestAuthVal) (id : string) : Prop :=
  id = "" \/ forall val, auth = Some val -> CommonName val <> ToLower id.

Lemma IsOwnDevice_foreign auth id : foreign auth id -> IsOwnDevice auth id = false.
Proof.
  unfold IsOwnDevice, foreign. intros [->|Hf]; [done|]. case_decide; [done|].
  destruct auth as [val|]; [|done]. apply bool_decide_eq_false. by apply Hf.
Qed.
End HandlerLemmas.

(** ** Properties *)

Section HandlerProperties.
Context `{Unicode} `{Crypto} {P : Type} `{CAProvider P} (B : EdgeDeviceBackend) `{Wire}.
Context (initialNamespace : string) (mtlsConfig : TLSConfig P).

(** C8: isolation of devices: a request in the name of another device, or of
    none, is refused with 403 before the backend is asked anything, whatever
    the backend and whatever the request; registration and enrolment alone are
    exempt. *)
Theorem handle_foreign_device auth r t o :
  foreign auth (device_of r) -> open_request r = false ->
  exec (handle initialNamespace mtlsConfig auth r) t o ->
  t = [Ev (Metric IncInvalidOwner) tt] /\
  o = Done (Respond (match r with
                     | PostControl _ => PostDataMessageForDevice
                     | _ => operation_of r
                     end) StatusForbidden NoPayload).
Proof.
  intros Ho%IsOwnDevice_foreign Hr He.
  destruct r as [id|id|id|id msg]; cbn [handle device_of open_request] in *;
    unfold HandleGetControlMessage, HandleGetDataMessage, HandlePostControlMessage,
      HandlePostDataMessage in He; rewrite ?Hr, Ho in He; cbn [negb andb] in He;
    apply metric_bind in He as (t' & -> & He); by apply exec_Ret_inv in He as [-> ->].
Qed.

(** C39: the queries of a device (its control and data messages, its playbooks,
    and anything unknown) never change the cluster, for every backend that
    keeps the contract. *)
Theorem handle_query_read_only `{!BackendLaws B} auth r t o :
  query r -> exec (handle initialNamespace mtlsConfig auth r) t o ->
  Forall (fun e => no_write (ev_req e)) t.
Proof. intros Hq. apply calls_exec. by apply handle_query_calls. Qed.

(** A certificate is issued only at the end of a complete registration: the
    backend has granted the device a namespace, the certificate has been signed
    for that device in that namespace, and the backend has recorded the
    registration, in this order.  Every other registration ends with another
    status and nothing in the payload. *)
Theorem certificate_after_registration auth deviceID msg t resp :
  models.Message_Directive msg = "registration" ->
  exec (HandlePostDataMessage initialNamespace mtlsConfig auth deviceID msg) t (Done resp) ->
  code resp <> StatusOK /\ payload resp = NoPayload \/
  code resp = StatusOK /\ exists info ns cert t1 t2 t3,
    decode_RegistrationInfo (models.Message_Content msg) = inl info /\
    t = t1 ++ t2 ++ t3 ++ [Ev (Metric IncSuccessfulRegistration) tt] /\
    exec (GetTargetNamespace deviceID (getNamespace initialNamespace auth)
            (IsOwnDevice auth deviceID)) t1 (Done (ns, None)) /\
    exec (TLSConfig_SignCSR mtlsConfig (models.RegistrationInfo_CertificateRequest info)
            deviceID ns) t2 (Done (cert, None)) /\
    exec (Register deviceID ns info) t3 (Done None) /\
    payload resp = ResponsePayload (models.mkMessageResponse
      (models.AnyRegistrationResponse (models.mkRegistrationResponse (default "" cert)))
      "registration" (models.Message_MessageID msg) models.AnyNil).
Proof.
  intros Hd He. unfold HandlePostDataMessage in He. rewrite Hd in He. cbn in He.
  apply exec_PostRegistration in He. by rewrite Hd in He.
Qed.

(** C25: the middleware in front of the handlers: without TLS the answer is 400;
    without a certificate, or when none of those presented is signed by an
    authority of the chain, it is 401 and the handlers are not reached;
    otherwise the request is handled under the identity of the first
    certificate presented.  Validity dates are looked at for no route at all,
    since every route gets the registration check. *)
Theorem InnerMiddleware_gate roots chain tls r t o :
  Forall is_Some chain ->
  exec (InnerMiddleware initialNamespace mtlsConfig roots chain tls r) t o ->
  match tls with
  | None => t = [] /\ o = Done (inl StatusBadRequest)
  | Some peers =>
      (~ Exists (signed_by chain) peers /\ t = [Ev (Metric IncFailedAuthentication) tt] /\
       o = Done (inl StatusUnauthorized)) \/
      (Exists (signed_by chain) peers /\ exists leaf o', head peers = Some leaf /\
       exec (handle initialNamespace mtlsConfig (Some (request_identity leaf)) r) t o' /\
       o = (res ← o'; Done (inr res)))
  end.
Proof.
  intros Hc He. unfold InnerMiddleware in He. destruct tls as [peers|].
  2:{ by apply exec_Ret_inv in He. }
  rewrite GetAuthType_register in He. destruct peers as [|leaf peers].
  { left. split; [by intros ?%Exists_nil|]. cbn in He.
    apply metric_bind in He as (t' & -> & He). by apply exec_Ret_inv in He as [-> ->]. }
  apply exec_bind_inv in He as [[Hv ->]|([auth [ok err]] & t1 & t2 & -> & Hv & He)].
  { by apply (exec_VerifyRequest_register _ _ _ _ _ _ Hc) in Hv as [_ [[_ ?]|[_ [e ?]]]]. }
  apply (exec_VerifyRequest_register _ _ _ _ _ _ Hc) in Hv
    as [-> [[Hs [= -> -> ->]]|[Hs [e [= -> -> ->]]]]].
  - right. split; [done|]. apply exec_bind_inv in He as [[Hh ->]|(res & t1 & t3 & -> & Hh & He)].
    + by exists leaf, Panicked.
    + apply exec_Ret_inv in He as [-> ->]. rewrite app_nil_r. by exists leaf, (Done res).
  - left. split; [done|]. apply metric_bind in He as (t' & -> & He).
    by apply exec_Ret_inv in He as [-> ->].
Qed.
End HandlerProperties.

(** A request that presents a certificate of the chain is handled under the
    identity of the first certificate it presents. *)
Lemma exec_InnerMiddleware_signed `{Unicode} `{Crypto} {P} `{CAProvider P} (B : EdgeDeviceBackend)
    `{Wire} initialNamespace (mtlsConfig : TLSConfig P) roots chain leaf peers r t o :
  Forall is_Some chain -> Exists (signed_by chain) (leaf :: peers) ->
  exec (InnerMiddleware initialNamespace mtlsConfig roots chain (Some (leaf :: peers)) r) t o ->
  exists o', exec (handle initialNamespace mtlsConfig (Some (request_identity leaf)) r) t o' /\
    o = (res ← o'; Done (inr res)).
Proof.
  intros Hc Hex He. unfold InnerMiddleware in He. rewrite GetAuthType_register in He.
  apply exec_bind_inv in He as [[Hv ->]|([auth [ok err]] & t1 & t2 & -> & Hv & He)];
    apply (exec_VerifyRequest_register _ _ _ _ _ _ Hc) in Hv as [? [[_ Hv]|[? _]]]; try done.
  injection Hv as -> -> ->. subst t1.
  apply exec_bind_inv in He as [[Hh ->]|(res & t1 & t3 & -> & Hh & He)]; [by exists Panicked|].
  apply exec_Ret_inv in He as [-> ->]. rewrite app_nil_r. by exists (Done res).
Qed.

(** C24: the identity gap, end to end: whoever holds one certificate signed by
    the authority, for instance that of the shared registration secret, has any
    request handled as if it came from the device of their choice in the
    namespace of their choice, and the check of ownership succeeds. *)
Theorem impersonation `{Unicode} `{Crypto} {P} `{CAProvider P} (B : EdgeDeviceBackend) `{Wire}
    initialNamespace (mtlsConfig : TLSConfig P) roots chain forged genuine r namespace t o :
  Forall is_Some chain -> signed_by chain genuine -> device_of r <> "" ->
  Name_CommonName (Cert_Subject forged) = device_of r ->
  Name_OrganizationalUnit (Cert_Subject forged) = Some [namespace] ->
  exec (InnerMiddleware initialNamespace mtlsConfig roots chain (Some [forged; genuine]) r) t o ->
  exists auth o', IsOwnDevice auth (device_of r) = true /\
    getNamespace initialNamespace auth =
      (if decide (namespace <> "") then namespace else initialNamespace) /\
    exec (handle initialNamespace mtlsConfig auth r) t o' /\ o = (res ← o'; Done (inr res)).
Proof.
  intros Hc Hs Hd Hcn Hou He. exists (Some (request_identity forged)).
  apply exec_InnerMiddleware_signed in He as (o' & Hh & ->); [|done|by right; left].
  exists o'. split_and!; [| |done|done].
  - unfold IsOwnDevice. rewrite decide_False by done. apply bool_decide_eq_true.
    unfold request_identity. cbn. by rewrite Hcn.
  - unfold getNamespace, request_identity. cbn. by rewrite Hou.
Qed.

(** A request that is answered by a handler: it came with certificates, and the
    first of them says who asks. *)
Lemma exec_InnerMiddleware_answered `{Unicode} `{Crypto} {P} `{CAProvider P} (B : EdgeDeviceBackend)
    `{Wire} initialNamespace (mtlsConfig : TLSConfig P) roots chain tls r t resp :
  exec (InnerMiddleware initialNamespace mtlsConfig roots chain tls r) t (Done (inr resp)) ->
  exists leaf peers, tls = Some (leaf :: peers) /\
    exec (handle initialNamespace mtlsConfig (Some (request_identity leaf)) r) t (Done resp).
Proof.
  intros He. unfold InnerMiddleware in He. destruct tls as [peers|].
  2:{ by apply exec_Ret_inv in He as [_ ?]. }
  rewrite GetAuthType_register in He.
  apply exec_bind_inv in He as [[_ ?]|([auth [ok err]] & t1 & t2 & -> & Hv & He)]; [done|].
  destruct ok.
  2:{ apply metric_bind in He as (t' & -> & He). by apply exec_Ret_inv in He as [_ ?]. }
  apply exec_bind_inv in He as [[_ ?]|(res & t3 & t4 & -> & Hh & He)]; [done|].
  apply exec_Ret_inv in He as [-> [= ->]]. rewrite app_nil_r.
  unfold VerifyRequest in Hv. destruct peers as [|leaf peers]; [by apply exec_Ret_inv in Hv as [_ ?]|].
  rewrite decide_True in Hv by done.
  apply exec_bind_inv in Hv as [[_ ?]|([res' err'] & t5 & t6 & -> & [-> Hs]%exec_lift_inv & Hv)]; [done|].
  exists leaf, peers. split; [done|].
  destruct err'; apply exec_Ret_inv in Hv as [-> Hr]; by injection Hr as -> _ _.
Qed.

(** ** Registration with the Kubernetes backend *)

(** The namespace the identity of a request names. *)
Definition certified_namespace (initialNamespace : string) (auth : option RequestAuthVal) : string :=
  match auth with
  | None => initialNamespace
  | Some val => if decide (RequestAuthVal_Namespace val = "") then initialNamespace
                else RequestAuthVal_Namespace val
  end.

(** The request is made with the device's own certificate. *)
Definition own_certificate_of `{Unicode} (auth : option RequestAuthVal) (deviceID : string) : Prop :=
  deviceID <> "" /\ exists val, auth = Some val /\ CommonName val = ToLower deviceID.

Lemma own_certificate_of_spec `{Unicode} auth deviceID :
  IsOwnDevice auth deviceID = true <-> own_certificate_of auth deviceID.
Proof.
  unfold IsOwnDevice, own_certificate_of. case_decide; [by split; [|intros [? _]]|].
  destruct auth as [val|]; [|split; [done|by intros (_ & ? & ? & _)]].
  rewrite bool_decide_eq_true. split; [by eauto|]. by intros (_ & ? & [= <-] & ?).
Qed.

Lemma getNamespace_certified initialNamespace auth :
  getNamespace initialNamespace auth = certified_namespace initialNamespace auth.
Proof. destruct auth as [val|]; [|done]. cbn. by repeat case_decide. Qed.

(** The exchanges [t] have granted a device the namespace [ns]: where it is
    looked up has been found out, it has been read there, and it may register. *)
Definition grants `{Unicode} (initialNamespace deviceID : string) (auth : option RequestAuthVal) (ns : string)
    (t : list Event) : Prop :=
  exists t0 d, t = t0 ++ [Ev (GetEdgeDevice ns deviceID) (d, None)] /\
    targeted initialNamespace deviceID (certified_namespace initialNamespace auth)
      (IsOwnDevice auth deviceID) ns t0 /\
    (never_registered d \/ own_certificate_of auth deviceID).

(** The exchanges [t] have recorded the registration of a device and its
    hardware. *)
Definition registers `{Unicode} (deviceID ns : string) (hw : option models.HardwareInfo)
    (t : list Event) : Prop :=
  exists d err obj r, head t = Some (Ev (GetEdgeDevice ns deviceID) (d, err)) /\
    label_patch d hw obj /\ Ev (PatchEdgeDevice d obj) (r, None) ∈ t /\
    status_applied (with_hardware hw) d t.

(** A registration with the Kubernetes backend that ends with a certificate. *)
Lemma exec_k8s_registration `{Unicode} `{Libs} `{Crypto} {P} `{CAProvider P} `{Wire}
    initialNamespace (mtlsConfig : TLSConfig P) auth deviceID msg t resp :
  models.Message_Directive msg = "registration" ->
  exec (HandlePostDataMessage (H2 := k8s.backend initialNamespace) initialNamespace mtlsConfig
          auth deviceID msg) t (Done resp) ->
  payload resp <> NoPayload ->
  exists info ns crt t1 t2 t3,
    decode_RegistrationInfo (models.Message_Content msg) = inl info /\
    t = t1 ++ t2 ++ t3 ++ [Ev (Metric IncSuccessfulRegistration) tt] /\
    grants initialNamespace deviceID auth ns t1 /\
    exec (TLSConfig_SignCSR mtlsConfig (models.RegistrationInfo_CertificateRequest info)
            deviceID ns) t2 (Done (crt, None)) /\
    registers deviceID ns (models.RegistrationInfo_Hardware info) t3 /\
    payload resp = ResponsePayload (models.mkMessageResponse
      (models.AnyRegistrationResponse (models.mkRegistrationResponse (default "" crt)))
      "registration" (models.Message_MessageID msg) models.AnyNil).
Proof.
  intros Hd He Hp. unfold HandlePostDataMessage in He. rewrite Hd in He. cbn [open_directive] in He.
  replace (open_directive "registration") with true in He by reflexivity.
  cbn [negb andb] in He. do 2 (rewrite decide_False in He by done). rewrite decide_True in He by done.
  apply exec_PostRegistration in He
    as [[_ ?]|(_ & info & ns & crt & t1 & t2 & t3 & Hi & -> & Hns & Hsig & Hreg & Hres)]; [done|].
  exists info, ns, crt, t1, t2, t3. rewrite Hd in Hres. split_and!; [done|done| |done| |done].
  - cbn [BackendApi.GetTargetNamespace k8s.backend] in Hns. rewrite getNamespace_certified in Hns.
    apply exec_GetTargetNamespace in Hns as [(q & e & _ & _ & [=])|(ns' & t0 & d & err & Ht & -> & Ho)].
    destruct err as [e|]; [done|]. case_decide as Hok; [|done]. injection Ho as ->.
    exists t0, d. by rewrite <-own_certificate_of_spec.
  - cbn [BackendApi.Register k8s.backend] in Hreg.
    apply exec_Register in Hreg as (d & err & seed & t' & -> & [(_ & _ & _ & ?)|(_ & obj & r & err' & t'' & Hl & -> & Hst)]);
      [done|]. destruct err' as [e|]; [by destruct Hst|].
    exists d, err, obj, r. split_and!; [done|exact Hl|set_solver|].
    eapply status_applied_mono; [|by apply status_update_applied]. set_solver.
Qed.

(** C7: under the Kubernetes backend and with the authority in its secret, a
    certificate goes only to an approved device, and is that device's.  The
    device has first been granted a namespace: the one of the certificate of the
    request, or the one its signed request targets, where its resource was
    there and had never registered, or the request carried the device's own
    certificate.  Then a certificate was signed, for the key of the request in
    the message and in the name of that device and that namespace, and it is
    what the answer holds.  Last, and before the answer, the mark that allowed a
    first registration was taken off the resource of the device in that
    namespace, and the hardware in the message was recorded in its status. *)
Theorem k8s_registration_approved `{Unicode} `{Libs} `{Crypto} `{!CryptoLaws} `{Wire}
    initialNamespace (mtlsConfig : TLSConfig CASecretProvider) auth deviceID msg t resp :
  models.Message_Directive msg = "registration" ->
  exec (HandlePostDataMessage (H2 := k8s.backend initialNamespace) initialNamespace mtlsConfig
          auth deviceID msg) t (Done resp) ->
  payload resp <> NoPayload ->
  exists info ns pem csr crt t1 t2 t3,
    decode_RegistrationInfo (models.Message_Content msg) = inl info /\
    t = t1 ++ t2 ++ t3 ++ [Ev (Metric IncSuccessfulRegistration) tt] /\
    grants initialNamespace deviceID auth ns t1 /\
    certificate_for (models.RegistrationInfo_CertificateRequest info) deviceID ns pem csr crt /\
    Forall (fun e => ev_req e = Now \/ ev_req e = Entropy) t2 /\
    registers deviceID ns (models.RegistrationInfo_Hardware info) t3 /\
    payload resp = ResponsePayload (models.mkMessageResponse
      (models.AnyRegistrationResponse (models.mkRegistrationResponse pem))
      "registration" (models.Message_MessageID msg) models.AnyNil).
Proof.
  intros Hd He Hp. eapply exec_k8s_registration in He
    as (info & ns & pem & t1 & t2 & t3 & Hi & Ht & Hg & Hsig & Hreg & Hres); [|done..].
  pose proof (TLSConfig_SignCSR_calls mtlsConfig _ _ _ _ _ Hsig) as Hq.
  destruct (caProvider mtlsConfig) as [|p rest] eqn:Hca.
  { unfold TLSConfig_SignCSR in Hsig. rewrite Hca in Hsig. by apply exec_Ret_inv in Hsig as [_ ?]. }
  eapply exec_TLSConfig_SignCSR in Hsig
    as (g & ca & text & csr & crt & _ & _ & -> & Hfor & _); [|exact Hca].
  by exists info, ns, text, csr, crt, t1, t2, t3.
Qed.

(** A report with a nil event or workload. *)
Definition nil_report (hb : models.Heartbeat) : Prop :=
  (None ∈ elems (models.Heartbeat_Events hb)) \/ (None ∈ elems (models.Heartbeat_Workloads hb)).

Lemma print_heartbeat_cases hb :
  (nil_report hb /\ print_heartbeat hb = Panicked) \/
  (~ nil_report hb /\ print_heartbeat hb = Done tt).
Proof.
  unfold print_heartbeat, nil_report.
  destruct (None_in_dec (elems (models.Heartbeat_Events hb))) as [Hn|Hs].
  { left. split; [by left|]. rewrite (mapM_deref_Panicked models.EventInfo_Message) by done. reflexivity. }
  rewrite (mapM_deref_Done models.EventInfo_Message) by done. cbn.
  destruct (None_in_dec (elems (models.Heartbeat_Workloads hb))) as [Hn|Hs'].
  { left. split; [by right|]. rewrite (mapM_deref_Panicked models.WorkloadStatus_Name) by done. reflexivity. }
  rewrite (mapM_deref_Done models.WorkloadStatus_Name) by done. right. split; [|done].
  intros [Hn|Hn]; [exact (Forall_is_Some_None _ Hs Hn)|exact (Forall_is_Some_None _ Hs' Hn)].
Qed.

(** C38: a heartbeat is answered 200 exactly when one of the attempts of the
    backend succeeded, and only then is the presence of the device counted;
    404 when the device is gone, 500 for any other failure, 400 when it cannot
    be decoded.  A nil event or workload in it makes the handler panic before
    the backend is asked. *)
Theorem heartbeat_response `{Unicode} (B : EdgeDeviceBackend) `{Wire} initialNamespace auth deviceID msg t o :
  exec (PostHeartbeat initialNamespace auth deviceID msg) t o ->
  let ns := getNamespace initialNamespace auth in
  match decode_Heartbeat (models.Message_Content msg) with
  | inr _ => t = [] /\ o = Done (post StatusBadRequest)
  | inl hb =>
      let process := RetryingProcess (fun retry => UpdateStatus (Some retry) deviceID ns hb) in
      (nil_report hb /\ t = [] /\ o = Panicked) \/
      (~ nil_report hb /\ exists t' res, exec process t' res /\
        match res with
        | Done None => t = t' ++ [Ev (Metric (RecordPresence ns deviceID)) tt] /\
            o = Done (post StatusOK)
        | Done (Some e) => t = t' /\
            o = Done (post (if IsNotFound e then StatusNotFound else StatusInternalServerError))
        | Panicked => t = t' /\ o = Panicked
        end)
  end.
Proof.
  intros He ns. unfold PostHeartbeat in He. fold ns in He.
  destruct (decode_Heartbeat _) as [hb|e]; [|by apply exec_Ret_inv in He].
  destruct (print_heartbeat_cases hb) as [[Hn Hp]|[Hn Hp]]; rewrite Hp in He; [left|right].
  { by apply exec_Panic_inv in He as [-> ->]. }
  split; [done|].
  cbn [lift] in He. rewrite bind_ret_l in He.
  apply exec_bind_inv in He as [[Hr ->]|([e|] & t1 & t2 & -> & Hr & He)].
  - by exists t, Panicked.
  - exists t1, (Done (Some e)). split; [done|].
    destruct (IsNotFound e); apply exec_Ret_inv in He as [-> ->]; by rewrite app_nil_r.
  - apply metric_bind in He as (t' & -> & He). apply exec_Ret_inv in He as [-> ->].
    by exists t1, (Done None).
Qed.

(** ** Examples *)

Definition example_wire : Wire := {|
  decode_Heartbeat _ := inl degraded_heartbeat;
  decode_EnrolmentInfo _ := inl (models.mkEnrolmentInfo (Some (models.mkEnrolmentInfoFeatures None "")) None);
  decode_RegistrationInfo _ := inl (models.mkRegistrationInfo example_csr (Some small_hardware));
  encode_PlaybookExecutions _ := inl "[]";
|}.
Definition example_backend : EdgeDeviceBackend := @k8s.backend ascii_tables trivial_libs "init".
Definition message (directive : string) : models.Message :=
  models.mkMessage models.AnyNil directive "id" models.AnyNil "" 0 models.MessageTypeData 1.
Definition own_certificate : option RequestAuthVal := Some (mkRequestAuthVal "d1" "ns").

Section Examples.
#[local] Existing Instance ascii_tables.
#[local] Existing Instance trivial_libs.
#[local] Existing Instance example_wire.
#[local] Existing Instance example_backend.

Definition example_handle (auth : option RequestAuthVal) (r : DeviceRequest) : M Responder :=
  handle "init" example_conf auth r.
Definition forged_for_d1 : Certificate :=
  mkCertificate "" 0 (mkName "d1" None (Some ["ns"]) "") 0 0 false false 0 None None None None
    (Some (ECDSAPublicKey 9)) "" 0 0.

Lemma handle_foreign_device_witness :
  foreign own_certificate "d2" /\
  run_result (example_handle own_certificate (GetData "d2")) backend_world =
    Done (Respond GetDataMessageForDevice StatusForbidden NoPayload).
Proof.
  assert (foreign own_certificate (device_of (GetData "d2"))) as Ho.
  { right. intros val [= <-]. vm_compute. discriminate. }
  split; [exact Ho|].
  exact (proj2 (handle_foreign_device _ _ _ own_certificate (GetData "d2") _ _ Ho eq_refl
                  (run_result_exec _ backend_world))).
Defined.

Lemma handle_query_read_only_witness :
  query (GetControl "d1") /\
  run_result (example_handle own_certificate (GetControl "d1")) backend_world =
    Done (Respond GetControlMessageForDevice StatusOK NoPayload) /\
  Forall (fun e => no_write (ev_req e))
    (run_trace (example_handle own_certificate (GetControl "d1")) backend_world).
Proof.
  split; [exact I|]. split; [vm_compute; reflexivity|].
  exact (handle_query_read_only (BackendLaws0 := k8s_laws "init") _ _ _ own_certificate
           (GetControl "d1") _ _ I (run_result_exec _ backend_world)).
Defined.

Definition example_registration : M Responder :=
  HandlePostDataMessage "init" example_conf (Some (mkRequestAuthVal "register" "")) "d1"
    (message "registration").

Lemma certificate_after_registration_witness :
  exists resp, run_result example_registration backend_world = Done resp /\
    code resp = StatusOK /\
    (code resp <> StatusOK /\ payload resp = NoPayload \/ code resp = StatusOK).
Proof.
  destruct (run_result example_registration backend_world) as [resp|] eqn:Hr;
    [|exfalso; vm_compute in Hr; discriminate Hr].
  exists resp. split; [reflexivity|].
  assert (code resp = StatusOK) as Hc.
  { assert (match run_result example_registration backend_world with
            | Done r => code r = StatusOK | Panicked => False end) as Hx by (vm_compute; reflexivity).
    rewrite Hr in Hx. exact Hx. }
  split; [exact Hc|].
  destruct (certificate_after_registration _ _ _ _ _ (message "registration") _ _ eq_refl
              (run_result_exec_as _ _ _ Hr)) as [Hn|[Hok _]]; [left; exact Hn|right; exact Hok].
Defined.

Lemma k8s_registration_approved_witness :
  exists resp, run_result example_registration backend_world = Done resp /\
    payload resp <> NoPayload /\
    exists info ns pem csr crt,
      certificate_for (models.RegistrationInfo_CertificateRequest info) "d1" ns pem csr crt /\
      payload resp = ResponsePayload (models.mkMessageResponse
        (models.AnyRegistrationResponse (models.mkRegistrationResponse pem))
        "registration" "id" models.AnyNil).
Proof.
  destruct (run_result example_registration backend_world) as [resp|] eqn:Hr;
    [|exfalso; vm_compute in Hr; discriminate Hr].
  exists resp. split; [reflexivity|].
  assert (payload resp <> NoPayload) as Hp.
  { assert (match run_result example_registration backend_world with
            | Done r => payload r <> NoPayload | Panicked => False end) as Hx
      by (vm_compute; discriminate).
    rewrite Hr in Hx. exact Hx. }
  split; [exact Hp|].
  destruct (k8s_registration_approved "init" example_conf _ "d1" (message "registration") _ _ eq_refl
              (run_result_exec_as _ _ _ Hr) Hp)
    as (info & ns & pem & csr & crt & t1 & t2 & t3 & _ & _ & _ & Hfor & _ & _ & Hres).
  exists info, ns, pem, csr, crt. split; [exact Hfor|exact Hres].
Defined.

Lemma InnerMiddleware_gate_witness :
  Forall is_Some [Some example_ca] /\
  run_result (InnerMiddleware "init" example_conf [] [Some example_ca] None (GetControl "d1"))
    backend_world = Done (inl StatusBadRequest).
Proof.
  assert (Forall is_Some [Some example_ca]) as Hc by (repeat constructor; eauto).
  split; [exact Hc|].
  exact (proj2 (InnerMiddleware_gate _ _ _ [] _ None (GetControl "d1") _ _ Hc
                  (run_result_exec _ backend_world))).
Defined.

Lemma impersonation_witness :
  signed_by [Some example_ca] register_cert /\
  run_result (InnerMiddleware "init" example_conf [] [Some example_ca]
                (Some [forged_for_d1; register_cert]) (GetControl "d1")) backend_world =
    Done (inr (Respond GetControlMessageForDevice StatusOK NoPayload)) /\
  exists auth, IsOwnDevice auth "d1" = true.
Proof.
  assert (Forall is_Some [Some example_ca]) as Hc by (repeat constructor; eauto).
  assert (signed_by [Some example_ca] register_cert) as Hs.
  { exists example_ca. split; [left|vm_compute; reflexivity]. }
  assert (device_of (GetControl "d1") <> "") as Hd by discriminate.
  split; [exact Hs|]. split; [vm_compute; reflexivity|].
  destruct (impersonation _ "init" example_conf [] _ forged_for_d1 _ (GetControl "d1") "ns" _ _
              Hc Hs Hd eq_refl eq_refl (run_result_exec _ backend_world)) as (auth & _ & Ho & _).
  exists auth. exact Ho.
Defined.

Lemma heartbeat_response_witness :
  run_result (PostHeartbeat "init" own_certificate "d1" (message "heartbeat")) backend_world =
    Done (post StatusOK) /\
  (nil_report degraded_heartbeat \/ ~ nil_report degraded_heartbeat).
Proof.
  split; [vm_compute; reflexivity|].
  destruct (heartbeat_response _ "init" own_certificate "d1" (message "heartbeat") _ _
              (run_result_exec _ backend_world)) as [[Hn _]|[Hn _]]; [left; exact Hn|right; exact Hn].
Defined.
End Examples.
