(* ===== verification/Controller.v ===== *)
(** * What the reconcilers share

    The results of controller-runtime, the merging of error messages and the
    concurrent execution over devices (controllers/edgeworkload_controller.go). *)
From S2P Require Import Prelude GoData GoStrings V1alpha1 Models Env.
Import v1alpha1.

(** [ctrl.Result]; durations in nanoseconds. *)
Record Result := mkResult { Requeue : bool; RequeueAfter : Z }.
Definition no_result : Result := mkResult false 0.
Definition requeue : Result := mkResult true 0.

(** [return ctrl.Result{Requeue: true}, err]. *)
Definition retry_with (e : error) : M (Result * option error) := mret (requeue, Some e).
Definition finished : M (Result * option error) := mret (no_result, None).

(** [fmt.Errorf(message)] with a message that is not a constant: the text of
    [fmt.Sprintf] of a format without operands. *)
Class Formatter := { Sprintf : string -> string }.

(** The messages are joined by commas; empty ones at the front leave no trace. *)
Definition mergeErrorMessages_one (message : string) (err : error) : string :=
  if decide (message = "") then error_text err
  else message +:+ ", " +:+ error_text err.
Definition mergeErrorMessages (errs : list error) : string :=
  foldl mergeErrorMessages_one "" errs.

(** ** splitEdgeDevices *)

(** [l[i:j]]: out of range panics. *)
Definition subslice {A} (l : list A) (i j : Z) : outcome (list A) :=
  if decide (0 <= i <= j /\ j <= Z.of_nat (length l))%Z
  then Done (take (Z.to_nat (j - i)) (drop (Z.to_nat i) l))
  else Panicked.

(** The loop; [fuel] bounds its rounds. *)
Fixpoint splitEdgeDevices_loop {A} (fuel : nat) (edgeDevices : list A)
    (splitLen residueLen usedLen : Z) (result : list (list A)) : outcome (list (list A)) :=
  if decide (usedLen < Z.of_nat (length edgeDevices))%Z then
    match fuel with
    | 0 => Panicked
    | S fuel' =>
        let '(residueExtra, residueLen) :=
          if decide (0 < residueLen)%Z then (1, residueLen - 1)%Z else (0, residueLen)%Z in
        let newSliceLen := (splitLen + residueExtra)%Z in
        newSlice ← subslice edgeDevices usedLen (usedLen + newSliceLen);
        splitEdgeDevices_loop fuel' edgeDevices splitLen residueLen (usedLen + newSliceLen)
          (result ++ [newSlice])
    end
  else Done result.

(** [splitSize] is a [uint]: its conversion to [int] may be negative. *)
Definition splitEdgeDevices {A} (edgeDevices : list A) (splitSize : Z) : outcome (list (list A)) :=
  if decide (splitSize = 0)%Z then Done []
  else
    let intX := to_int64 splitSize in
    let sLen := Z.of_nat (length edgeDevices) in
    let splitLen := Z.quot sLen intX in
    let residueLen := (sLen - splitLen * intX)%Z in
    splitEdgeDevices_loop (length edgeDevices) edgeDevices splitLen residueLen 0 [].

(** ** ExecuteConcurrent *)

(** A piece of work on some devices, which returns its errors. *)
Definition ConcurrentFunc : Type := list EdgeDevice -> M (list error).

(** One goroutine per part, which the scheduler interleaves. *)
Definition ExecuteConcurrent (concurrency : Z) (f : ConcurrentFunc) (edgeDevices : list EdgeDevice)
    : M (list error) :=
  if decide (edgeDevices = [] \/ concurrency = 0%Z) then mret []
  else
    inputs ← lift (splitEdgeDevices edgeDevices concurrency);
    returnValues ← par_list Schedule (fun b => b) (f <$> inputs);
    mret (concat returnValues).

(** [Concurrency] is the reconciler's; one means no goroutine. *)
Definition executeConcurrent (Concurrency : Z) (f : ConcurrentFunc) (edgeDevices : list EdgeDevice)
    : M (list error) :=
  if decide (Concurrency = 1)%Z then f edgeDevices
  else ExecuteConcurrent Concurrency f edgeDevices.

(** The work of one goroutine: a cancelled context ends it. *)
Definition until_cancelled (work : EdgeDevice -> M (list error)) (input : list EdgeDevice)
    : M (list error) :=
  res ← for_range input [] (fun errs device =>
    cancelled ← (call ContextDone : M (option error));
    match cancelled with
    | Some e => mret (Return (errs ++ [WrapError "context canceled: " e]))
    | None =>
        errs' ← work device;
        mret (Next (errs ++ errs'))
    end);
  match res with Next errs => mret errs | Return errs => mret errs end.

(** [errs = append(errs, err); continue] at the first error of a device. *)
Definition at_most_one (work : EdgeDevice -> M (option error)) (device : EdgeDevice)
    : M (list error) :=
  err ← work device;
  mret (option_list err).

(** [if len(errs) != 0 { return fmt.Errorf(mergeErrorMessages(errs)) }]. *)
Definition merged_error `{Formatter} (errs : list error) : option error :=
  match errs with
  | [] => None
  | _ => Some (ErrorString (Sprintf (mergeErrorMessages errs)))
  end.

(** ** Lemmas: splitting *)

Lemma subslice_app {A} (l1 l2 l3 : list A) :
  subslice (l1 ++ l2 ++ l3) (Z.of_nat (length l1)) (Z.of_nat (length l1) + Z.of_nat (length l2))
  = Done l2.
Proof.
  unfold subslice. rewrite decide_True by (rewrite !length_app; lia).
  rewrite Z.add_simpl_l, !Nat2Z.id, drop_app_length. by rewrite take_app_length.
Qed.

(** With [k] parts to go, of which [residue] get one element more, the loop cuts
    the rest into exactly [k] parts. *)
Lemma splitEdgeDevices_loop_spec {A} (splitLen k : nat) : forall fuel (front rest : list A) residue result,
  length rest = k * splitLen + residue -> residue <= k -> (splitLen = 0 -> residue = k) ->
  k <= fuel ->
  exists parts,
    splitEdgeDevices_loop fuel (front ++ rest) (Z.of_nat splitLen) (Z.of_nat residue)
      (Z.of_nat (length front)) result = Done (result ++ parts) /\
    concat parts = rest /\ length parts = k /\
    Forall (fun p => 0 < length p /\ (length p = splitLen \/ length p = splitLen + 1)) parts.
Proof.
  induction k as [|k IH]; intros fuel front rest residue result Hl Hr H0 Hf.
  - destruct rest; [|simpl in Hl; lia]. exists [].
    assert (splitEdgeDevices_loop fuel (front ++ []) (Z.of_nat splitLen) (Z.of_nat residue)
              (Z.of_nat (length front)) result = Done result) as ->.
    { rewrite app_nil_r. destruct fuel; cbn [splitEdgeDevices_loop]; by rewrite decide_False by lia. }
    by rewrite app_nil_r.
  - destruct fuel as [|fuel]; [lia|]. cbn [splitEdgeDevices_loop].
    set (extra := if decide (residue = 0) then 0 else 1).
    assert (extra <= residue /\ (extra = 0 <-> residue = 0) /\ extra <= 1) as (He1 & He2 & He3)
      by (unfold extra; destruct (decide (residue = 0)); lia).
    assert (0 < splitLen + extra) as Hpos by (destruct splitLen; [|lia]; specialize (H0 eq_refl); lia).
    assert (length rest = splitLen + extra + (k * splitLen + (residue - extra))) as Hl' by lia.
    rewrite decide_True by (rewrite length_app; lia).
    assert ((if decide (0 < Z.of_nat residue)%Z then (1%Z, (Z.of_nat residue - 1)%Z)
             else (0%Z, Z.of_nat residue)) = (Z.of_nat extra, Z.of_nat (residue - extra))) as ->.
    { unfold extra. destruct (decide (residue = 0)) as [->|Hne]; [done|].
      rewrite decide_True by lia. f_equal; lia. }
    pose proof (take_drop (splitLen + extra) rest) as Hsplit.
    pose proof (length_take_le rest (splitLen + extra) ltac:(lia)) as Ht.
    pose proof (length_drop rest (splitLen + extra)) as Hd.
    revert Hsplit Ht Hd. generalize (take (splitLen + extra) rest), (drop (splitLen + extra) rest).
    intros part rest' <- Ht Hd. cbv beta iota zeta.
    replace (Z.of_nat splitLen + Z.of_nat extra)%Z with (Z.of_nat (length part)) by lia.
    rewrite subslice_app. cbn [mbind outcome_mbind].
    replace (Z.of_nat (length front) + Z.of_nat (length part))%Z
      with (Z.of_nat (length (front ++ part))) by (rewrite length_app; lia).
    rewrite (assoc_L (++) front part rest').
    destruct (IH fuel (front ++ part) rest' (residue - extra) (result ++ [part]))
      as (parts & -> & Hc & Hk & HF); [lia..|].
    exists (part :: parts). rewrite <-(assoc_L (++)). split; [done|]. cbn. rewrite Hc, Hk.
    split_and!; [done..|]. constructor; [|done]. split; [lia|]. destruct extra as [|[|]]; lia.
Qed.

(** The conversion of the split size is harmless: whatever it gives, the lengths
    are those of a division by at least the number of devices. *)
Lemma splitEdgeDevices_parts {A} (l : list A) (splitSize : Z) :
  (0 < splitSize < 2 ^ 63)%Z ->
  exists parts, splitEdgeDevices l splitSize = Done parts /\ concat parts = l /\
    Z.of_nat (length parts) = Z.min splitSize (Z.of_nat (length l)) /\
    Forall (fun p => 0 < length p /\
      (Z.of_nat (length p) = Z.of_nat (length l) / splitSize \/
       Z.of_nat (length p) = Z.of_nat (length l) / splitSize + 1)%Z) parts.
Proof.
  intros Hs. unfold splitEdgeDevices. rewrite decide_False by lia.
  rewrite to_int64_id by lia. cbv zeta. rewrite Z.quot_div_nonneg by lia.
  set (q := (Z.of_nat (length l) / splitSize)%Z).
  assert (0 <= q /\ 0 <= Z.of_nat (length l) - q * splitSize < splitSize)%Z as [Hq Hr].
  { unfold q. pose proof (Z.div_pos (Z.of_nat (length l)) splitSize).
    pose proof (Z.mod_pos_bound (Z.of_nat (length l)) splitSize).
    pose proof (Z.div_mod (Z.of_nat (length l)) splitSize). lia. }
  set (residue := Z.to_nat (Z.of_nat (length l) - q * splitSize)).
  set (k := if decide (q = 0)%Z then residue else Z.to_nat splitSize).
  destruct (splitEdgeDevices_loop_spec (Z.to_nat q) k (length l) [] l residue [])
    as (parts & Hp & Hc & Hk & HF).
  - unfold k. destruct (decide (q = 0)%Z) as [E|E]; unfold residue; [rewrite E; lia|nia].
  - unfold k, residue. destruct (decide (q = 0)%Z); lia.
  - intros Hq0. unfold k. rewrite decide_True by lia. done.
  - unfold k, residue. destruct (decide (q = 0)%Z); nia.
  - exists parts. simpl in Hp. rewrite Z2Nat.id in Hp by done.
    unfold residue in Hp. rewrite Z2Nat.id in Hp by lia. split; [done|]. split; [done|].
    split.
    + rewrite Hk. unfold k, residue. destruct (decide (q = 0)%Z); [lia|]. nia.
    + eapply Forall_impl; [exact HF|]. intros p [? ?]. split; [done|]. lia.
Qed.

(** ** Lemmas: concurrent execution *)

(** The devices have been worked on part by part, each part by one run of [f];
    the exchanges are those of the runs, interleaved, and the scheduler's; the
    errors are those of the runs in the order of the parts. *)
Definition worked_on (f : ConcurrentFunc) (edgeDevices : list EdgeDevice) (t : list Event)
    (errs : list error) : Prop :=
  exists runs : list (list EdgeDevice * (list Event * list error)),
    concat runs.*1 = edgeDevices /\
    Forall (fun '(part, (t', errs')) => exec (f part) t' (Done errs')) runs /\
    errs = concat (map (fun r => r.2.2) runs) /\
    exists t0, t ≡ₚ t0 ++ concat (map (fun r => r.2.1) runs) /\
      Forall (fun e => ev_req e = Schedule) t0.

Lemma exec_ExecuteConcurrent concurrency f ds t errs :
  (0 < concurrency < 2 ^ 63)%Z ->
  exec (ExecuteConcurrent concurrency f ds) t (Done errs) -> worked_on f ds t errs.
Proof.
  intros Hc He. unfold ExecuteConcurrent in He. case_decide as Hd.
  { apply exec_Ret_inv in He as [-> [= ->]]. destruct Hd as [->|]; [|lia].
    exists []. split_and!; [done..|]. by exists []. }
  destruct (splitEdgeDevices_parts ds concurrency Hc) as (parts & Hp & <- & _ & _).
  rewrite Hp in He. cbn [lift] in He. rewrite bind_ret_l in He.
  apply exec_bind_inv in He as [[_ ?]|(rs & t1 & t2 & -> & He & Hr)]; [done|].
  apply exec_Ret_inv in Hr as [-> [= ->]]. rewrite app_nil_r.
  apply exec_par_list in He as (ts & t0 & HF & Hlen & Hperm & Hs).
  assert (length parts = length rs) as Hlp.
  { pose proof (Forall2_length _ _ _ HF) as Hl. rewrite length_fmap, length_zip in Hl. lia. }
  exists (zip parts (zip ts rs)).
  assert (length parts <= length (zip ts rs)) by (rewrite length_zip; lia).
  assert (map (fun r => r.2.1) (zip parts (zip ts rs)) = ts /\
          map (fun r => r.2.2) (zip parts (zip ts rs)) = rs) as [Ht Hr].
  { clear -Hlen Hlp. revert ts rs Hlen Hlp.
    induction parts as [|p parts IH]; intros [|t ts] [|r rs] H1 H2; simpl in *; try lia; [done|].
    destruct (IH ts rs) as [-> ->]; [lia..|done]. }
  rewrite Ht, Hr. split_and!; [|  |done|by exists t0].
  - by rewrite fst_zip.
  - clear -HF. apply Forall2_fmap_l in HF. revert HF. generalize (zip ts rs).
    induction parts as [|p parts IH]; intros l HF; [constructor|].
    apply Forall2_cons_inv_l in HF as ([t' r'] & l' & Hx & HF & ->). constructor; [exact Hx|by apply IH].
Qed.

Lemma exec_executeConcurrent Concurrency f ds t errs :
  (0 < Concurrency < 2 ^ 63)%Z ->
  exec (executeConcurrent Concurrency f ds) t (Done errs) -> worked_on f ds t errs.
Proof.
  intros Hc He. unfold executeConcurrent in He. case_decide.
  - exists [(ds, (t, errs))]. cbn. rewrite !app_nil_r. split_and!; [done|by repeat constructor|done|].
    by exists [].
  - by apply (exec_ExecuteConcurrent Concurrency).
Qed.

(** Concurrent work makes the calls the pieces make. *)
Lemma worked_on_calls (P : Req -> Prop) f ds t errs :
  P Schedule -> (forall part, calls P (f part)) -> worked_on f ds t errs ->
  Forall (fun e => P (ev_req e)) t.
Proof.
  intros HS Hf (runs & _ & HF & _ & t0 & Hperm & H0). rewrite Hperm. apply Forall_app. split.
  - eapply Forall_impl; [exact H0|]. by intros e ->.
  - rewrite Forall_forall in HF. rewrite Forall_forall. intros e (t' & He & Hin)%elem_of_concat.
    apply list_elem_of_fmap in Hin as ([part [t2 errs']] & -> & Hin).
    pose proof (calls_exec _ _ _ _ (Hf part) (HF _ Hin)) as Hc. rewrite Forall_forall in Hc.
    by apply Hc.
Qed.

(** Without an error, every device has been worked on without one. *)
Definition all_done (P : EdgeDevice -> list Event -> Prop) (ds : list EdgeDevice) (t : list Event)
    : Prop := Forall (fun d => exists t', t' ⊆ t /\ P d t') ds.

Lemma all_done_snoc P ds d t t' : all_done P ds t -> P d t' -> all_done P (ds ++ [d]) (t ++ t').
Proof.
  intros H1 H2. apply Forall_app. split.
  - eapply Forall_impl; [exact H1|]. intros d' (t2 & Hs & ?). exists t2. split; [|done]. set_solver.
  - constructor; [|done]. exists t'. split; [|done]. set_solver.
Qed.

Lemma exec_until_cancelled work ds t :
  exec (until_cancelled work ds) t (Done []) ->
  all_done (fun d t => exec (work d) t (Done [])) ds t.
Proof.
  intros He. unfold until_cancelled in He.
  apply exec_bind_inv in He as [[_ ?]|(res & t1 & t2 & -> & Hl & He)]; [done|].
  assert (t2 = [] /\ (res = Next [] \/ res = Return [])) as [-> Hres].
  { destruct res; apply exec_Ret_inv in He as [-> [= <-]]; auto. }
  rewrite app_nil_r.
  assert (match res with
          | Next errs => errs = [] -> all_done (fun d t => exec (work d) t (Done [])) ds t1
          | Return errs => errs <> []
          end) as Hr.
  { refine (for_range_rule (fun pre errs t => errs = [] ->
              all_done (fun d t => exec (work d) t (Done [])) pre t)
              (fun errs _ => errs <> []) (fun _ => True) _ ds _ [] t1 (Done res) _ Hl);
      [|intros _; constructor].
    intros pre d post errs t0 t' o' _ HI Hb.
    exec_call Hb as (c & t3 & -> & Hb). destruct c as [e|].
    { apply exec_Ret_inv in Hb as [_ ->]. by destruct errs. }
    apply exec_bind_inv in Hb as [[_ ->]|(errs' & t4 & t5 & -> & Hw & Hb)]; [done|].
    apply exec_Ret_inv in Hb as [-> ->]. rewrite app_nil_r. intros [-> ->]%app_nil.
    rewrite (cons_middle _ t0 t4), app_assoc.
    apply (all_done_snoc (fun d t => exec (work d) t (Done []))); [|done].
    eapply Forall_impl; [exact (HI eq_refl)|]. intros d' (t6 & Hs & ?). exists t6.
    split; [|done]. set_solver. }
  destruct Hres as [-> | ->]; [by apply Hr|done].
Qed.

Lemma exec_at_most_one work d t : exec (at_most_one work d) t (Done []) -> exec (work d) t (Done None).
Proof.
  intros He. apply exec_bind_inv in He as [[_ ?]|(err & t1 & t2 & -> & He & Hr)]; [done|].
  apply exec_Ret_inv in Hr as [-> [= Hr]]. rewrite app_nil_r. by destruct err.
Qed.

Lemma merged_error_None `{Formatter} errs : merged_error errs = None -> errs = [].
Proof. by destruct errs. Qed.

(** The same, whatever the concurrency. *)
Lemma worked_on_all_done f P ds t :
  (forall part t', exec (f part) t' (Done []) -> all_done P part t') ->
  worked_on f ds t [] -> all_done P ds t.
Proof.
  intros Hf (runs & <- & HF & Herr & t0 & Hperm & _).
  unfold all_done. rewrite Forall_forall. intros d (part & Hd & Hin)%elem_of_concat.
  apply list_elem_of_fmap in Hin as ([part' [t' errs']] & -> & Hin). simpl in Hd.
  rewrite Forall_forall in HF. pose proof (HF _ Hin) as Hx. simpl in Hx.
  assert (errs' = []) as ->.
  { destruct errs' as [|e errs']; [done|]. exfalso.
    assert (e ∈ concat (map (fun r : list EdgeDevice * (list Event * list error) => r.2.2) runs)) as He.
    { apply elem_of_concat. exists (e :: errs'). split; [left|]. apply list_elem_of_fmap.
      by exists (part', (t', e :: errs')). }
    rewrite <-Herr in He. by apply elem_of_nil in He. }
  apply Hf in Hx. unfold all_done in Hx. rewrite Forall_forall in Hx.
  destruct (Hx d Hd) as (t2 & Hs & HP). exists t2. split; [|done].
  intros e He. rewrite Hperm. apply elem_of_app. right. apply elem_of_concat. exists t'.
  split; [by apply Hs|]. apply list_elem_of_fmap. by exists (part', (t', [])).
Qed.

(** Concurrent work cannot panic if its pieces cannot. *)
Lemma no_panic_executeConcurrent Concurrency f ds :
  (0 < Concurrency < 2 ^ 63)%Z -> (forall part, no_panic (f part)) ->
  no_panic (executeConcurrent Concurrency f ds).
Proof.
  intros HC Hf. unfold executeConcurrent. case_decide; [done|].
  unfold ExecuteConcurrent. case_decide; [done|].
  destruct (splitEdgeDevices_parts ds Concurrency HC) as (parts & -> & _). simpl.
  apply no_panic_bind; [|done]. apply no_panic_par_list. apply Forall_fmap, Forall_forall.
  intros part _. apply Hf.
Qed.

Lemma no_panic_until_cancelled work input :
  (forall d, no_panic (work d)) -> no_panic (until_cancelled work input).
Proof. intros Hw. unfold until_cancelled. no_panic_tac. Qed.

Lemma no_panic_at_most_one work d : no_panic (work d) -> no_panic (at_most_one work d).
Proof. intros Hw. unfold at_most_one. no_panic_tac. Qed.

(** The same for the calls made: the parts hold nothing but the devices. *)
Lemma splitEdgeDevices_loop_in {A} (l : list A) splitLen : forall fuel residueLen usedLen result parts,
  splitEdgeDevices_loop fuel l splitLen residueLen usedLen result = Done parts ->
  Forall (fun part => part ⊆ l) result -> Forall (fun part => part ⊆ l) parts.
Proof.
  induction fuel as [|fuel IH]; intros residueLen usedLen result parts; cbn [splitEdgeDevices_loop];
    (case_decide; [|by intros [= <-]]); [done|].
  destruct (if decide (0 < residueLen)%Z then _ else _) as [extra residueLen'].
  unfold subslice. case_decide; [|done]. cbn [mbind outcome_mbind]. intros Hl Hr.
  eapply IH; [exact Hl|]. apply Forall_app. split; [done|]. apply Forall_singleton.
  etrans; [apply subseteq_take|apply subseteq_drop].
Qed.

Lemma splitEdgeDevices_in {A} (l : list A) splitSize parts :
  splitEdgeDevices l splitSize = Done parts -> Forall (fun part => part ⊆ l) parts.
Proof.
  unfold splitEdgeDevices. case_decide; [by intros [= <-]|]. cbv zeta. intros Hl.
  eapply splitEdgeDevices_loop_in; [exact Hl|constructor].
Qed.

Lemma calls_executeConcurrent_in P Concurrency f ds :
  P Schedule -> (forall part, part ⊆ ds -> calls P (f part)) ->
  calls P (executeConcurrent Concurrency f ds).
Proof.
  intros Hs Hf. unfold executeConcurrent. case_decide; [by apply Hf|].
  unfold ExecuteConcurrent. case_decide; [done|].
  destruct (splitEdgeDevices ds Concurrency) as [parts|] eqn:Hp; cbn [lift]; [|done].
  rewrite bind_ret_l. apply splitEdgeDevices_in in Hp.
  apply calls_bind; [|done]. apply calls_par_list; [done|]. apply Forall_fmap.
  eapply Forall_impl; [exact Hp|]. intros part. apply Hf.
Qed.

Lemma follows_executeConcurrent_in P h Concurrency f ds :
  (forall h h' c, h ⊆ h' -> P h c -> P h' c) ->
  P h Schedule -> (forall part, part ⊆ ds -> follows P h (f part)) ->
  follows P h (executeConcurrent Concurrency f ds).
Proof.
  intros Hmono Hs Hf. unfold executeConcurrent. case_decide; [by apply Hf|].
  unfold ExecuteConcurrent. case_decide; [done|].
  destruct (splitEdgeDevices ds Concurrency) as [parts|] eqn:Hp; cbn [lift]; [|done].
  rewrite bind_ret_l. apply splitEdgeDevices_in in Hp.
  apply follows_bind; [|done]. apply follows_par_list; [done..|]. apply Forall_fmap.
  eapply Forall_impl; [exact Hp|]. intros part. apply Hf.
Qed.

Lemma follows_until_cancelled_in P h work input :
  (forall h h' c, h ⊆ h' -> P h c -> P h' c) ->
  P h ContextDone -> (forall d, d ∈ input -> follows P h (work d)) ->
  follows P h (until_cancelled work input).
Proof.
  intros Hmono Hs Hw. unfold until_cancelled. apply follows_bind; [|by intros t [?|?] _].
  apply follows_for_range_kept; [done|]. intros errs d Hd.
  apply follows_bind; [by split|]. intros t [e|] _; [done|].
  apply follows_bind; [|done]. eapply follows_mono; [done| |by apply Hw]. by apply list_subseteq_app_l.
Qed.

Lemma calls_until_cancelled_in P work input :
  P ContextDone -> (forall d, d ∈ input -> calls P (work d)) -> calls P (until_cancelled work input).
Proof.
  intros Hs Hw. unfold until_cancelled. apply calls_bind; [|by intros [?|?]].
  apply calls_for_range_in. intros errs d Hd. apply calls_bind; [by split|]. intros [e|]; [done|].
  apply calls_bind; [by apply Hw|done].
Qed.

Lemma calls_executeConcurrent P Concurrency f ds :
  P Schedule -> (forall part, calls P (f part)) -> calls P (executeConcurrent Concurrency f ds).
Proof. intros Hs Hf. by apply calls_executeConcurrent_in. Qed.

Lemma calls_until_cancelled P work input :
  P ContextDone -> (forall d, calls P (work d)) -> calls P (until_cancelled work input).
Proof. intros Hs Hw. by apply calls_until_cancelled_in. Qed.

Lemma calls_at_most_one P work d : calls P (work d) -> calls P (at_most_one work d).
Proof. intros Hw. unfold at_most_one. calls_tac. Qed.

Lemma mergeErrorMessages_nil : mergeErrorMessages [] = "".
Proof. done. Qed.

(** ** Properties *)

(** C33: the devices are split into the parts that run concurrently without loss:
    in order, as many parts as asked for but no more than there are devices,
    none of them empty, their sizes differing by at most one; no index goes out
    of range and the loop ends within as many rounds as there are devices. *)
Theorem splitEdgeDevices_partition {A} (l : list A) splitSize :
  (0 < splitSize < 2 ^ 63)%Z ->
  exists parts, splitEdgeDevices l splitSize = Done parts /\ concat parts = l /\
    Z.of_nat (length parts) = Z.min splitSize (Z.of_nat (length l)) /\
    Forall (fun p => 0 < length p /\
      (Z.of_nat (length p) = Z.of_nat (length l) / splitSize \/
       Z.of_nat (length p) = Z.of_nat (length l) / splitSize + 1)%Z) parts.
Proof. apply splitEdgeDevices_parts. Qed.

Lemma splitEdgeDevices_partition_witness :
  splitEdgeDevices [1; 2; 3; 4; 5; 6; 7] 3 = Done [[1; 2; 3]; [4; 5]; [6; 7]] /\
  exists parts, splitEdgeDevices [1; 2; 3; 4; 5; 6; 7] 3 = Done parts /\
    concat parts = [1; 2; 3; 4; 5; 6; 7].
Proof.
  split; [vm_compute; reflexivity|].
  destruct (splitEdgeDevices_partition [1; 2; 3; 4; 5; 6; 7] 3 ltac:(lia)) as (parts & Hp & Hc & _).
  exists parts. split; [exact Hp|exact Hc].
Defined.
