(* ===== verification/EdgeWorkload.v ===== *)
(** * The edge workload reconciler

    controllers/edgeworkload_controller.go: keeps the workloads listed in the
    status of the devices, and the labels of workloads and devices, in line
    with the device or the selector a workload names. *)
From S2P Require Import Prelude GoData GoStrings V1alpha1 Models Env Testbed Labels Utils.
From S2P Require Import Repository Controller.
Import v1alpha1.

Definition YggdrasilDeviceReferenceFinalizer : string := "yggdrasil-device-reference-finalizer".

(** ** Selector labels *)

(** The label that stands for a requirement of a selector. *)
Definition requirement_label (requirement : LabelSelectorRequirement) : string :=
  if decide (Requirement_Operator requirement = LabelSelectorOpDoesNotExist)
  then CreateSelectorLabel DoesNotExistLabel
  else CreateSelectorLabel (Requirement_Key requirement).

(** One workload of [UpdateSelectorLabels].  The labels are visited while they
    are deleted; a deleted label is one already reached. *)
Definition UpdateSelectorLabels_one (edgeWorkload : EdgeWorkload) : M EdgeWorkload :=
  let spec := EdgeWorkload_Spec edgeWorkload in
  let workloadLabels := Some (map_make_if_nil (Labels (EdgeWorkload_ObjectMeta edgeWorkload))) in
  order ← range_map workloadLabels;
  let workloadLabels :=
    foldl (fun m '(label, _) => if IsSelectorLabel label then delete label m else m)
      (entries workloadLabels) order in
  workloadLabels ←
    (if decide (EdgeWorkloadSpec_Device spec <> "") then
       mret (<[CreateSelectorLabel DeviceNameLabel := EdgeWorkloadSpec_Device spec]> workloadLabels)
     else
       match EdgeWorkloadSpec_DeviceSelector spec with
       | None => mret workloadLabels
       | Some labelSelector =>
           order ← range_map (MatchLabels labelSelector);
           let workloadLabels :=
             foldl (fun m '(label, _) => <[CreateSelectorLabel label := "true"]> m)
               workloadLabels order in
           mret (foldl (fun m requirement => <[requirement_label requirement := "true"]> m)
                   workloadLabels (elems (MatchExpressions labelSelector)))
       end);
  mret (upd_WorkloadMeta (set_Labels (Some workloadLabels)) edgeWorkload).

Definition UpdateSelectorLabels (edgeWorkloads : list EdgeWorkload) : M (list EdgeWorkload) :=
  for_each edgeWorkloads [] (fun acc edgeWorkload =>
    w ← UpdateSelectorLabels_one edgeWorkload;
    mret (acc ++ [w])).

(** Also returns what the patch leaves in the copy. *)
Definition updateLabelsFromSelector (edgeWorkload : EdgeWorkload) : M (bool * option error) :=
  edgeWorkloadCopy ← UpdateSelectorLabels_one edgeWorkload;
  let newLabels := Labels (EdgeWorkload_ObjectMeta edgeWorkloadCopy) in
  let oldLabels := Labels (EdgeWorkload_ObjectMeta edgeWorkload) in
  if decide ((len newLabels = 0 /\ oldLabels = None) \/ newLabels = oldLabels) then mret (false, None)
  else
    '(_, err) ← edgeworkload.Patch edgeWorkload edgeWorkloadCopy;
    mret (true, err).

(** ** Devices *)

Definition hasLabelForWorkload (edgeDevice : EdgeDevice) (WorkloadName : string) : bool :=
  bool_decide (is_Some (map_get (Labels (EdgeDevice_ObjectMeta edgeDevice)) (WorkloadLabel WorkloadName))).

Definition hasWorkload (edgeDevice : EdgeDevice) (name : string) : bool :=
  existsb (fun w => bool_decide (Workload_Name w = name))
    (elems (EdgeDeviceStatus_Workloads (EdgeDevice_Status edgeDevice))).

Definition device_name (d : EdgeDevice) : string := Name (EdgeDevice_ObjectMeta d).

(** [matchingDevicesMap[device.Name] = struct{}{}] for every device. *)
Definition names_of (edgeDevices : list EdgeDevice) : gset string :=
  foldl (fun s d => {[device_name d]} ∪ s) ∅ edgeDevices.

Definition merge (edgeDevices1 edgeDevices2 : list EdgeDevice) : list EdgeDevice :=
  edgeDevices1 ++
  List.filter (fun d => negb (bool_decide (device_name d ∈ names_of edgeDevices1))) edgeDevices2.

(** The workloads of a status without one of them; nil when none is left. *)
Definition without_workload (name : string) (workloads : slice Workload) : slice Workload :=
  foldl (fun acc w => if decide (Workload_Name w <> name) then append acc w else acc) None
    (elems workloads).

Definition removeWorkloadFromDevice (name : string) (edgeDevice : EdgeDevice) : M (option error) :=
  let newWorkloads := without_workload name (EdgeDeviceStatus_Workloads (EdgeDevice_Status edgeDevice)) in
  let base := edgeDevice in
  let edgeDevice := upd_Status (set_Workloads newWorkloads) edgeDevice in
  '(edgeDevice, err) ← edgedevice.PatchStatus edgeDevice base;
  match err with
  | Some e => mret (Some e)
  | None =>
      match Labels (EdgeDevice_ObjectMeta edgeDevice) with
      | None => mret None
      | Some labels =>
          let deviceCopy := upd_Meta (set_Labels (Some (delete (WorkloadLabel name) labels))) edgeDevice in
          '(_, err) ← edgedevice.Patch edgeDevice deviceCopy;
          mret err
      end
  end.

(** [errs = append(errs, err)] when there is one. *)
Definition collect_error (errs : list error) (err : option error) : list error :=
  errs ++ option_list err.

Definition removeWorkloadFromDevices (edgeDevices : list EdgeDevice) (edgeWorkload : string)
    : M (list error) :=
  for_each edgeDevices [] (fun errs edgeDevice =>
    err ← removeWorkloadFromDevice edgeWorkload edgeDevice;
    mret (collect_error errs err)).

Definition removeFromNonMatching (name : string) (matchingDevicesMap : gset string)
    (device : EdgeDevice) : M (option error) :=
  if decide (device_name device ∈ matchingDevicesMap) then mret None
  else removeWorkloadFromDevice name device.

(** The label is computed from what the status patch has answered. *)
Definition addWorkloadToDevice (name : string) (edgeDevice : EdgeDevice) : M (option error) :=
  '(edgeDevice, err) ←
    (if hasWorkload edgeDevice name then mret (edgeDevice, None)
     else
       let status := mkWorkload name Deploying 0 0 in
       let base := edgeDevice in
       edgedevice.PatchStatus
         (upd_Status (fun s => set_Workloads (append (EdgeDeviceStatus_Workloads s) status) s) edgeDevice)
         base);
  match err with
  | Some e => mret (Some e)
  | None =>
      if hasLabelForWorkload edgeDevice name then mret None
      else
        let deviceCopy := upd_Meta (fun m =>
          set_Labels (Some (<[WorkloadLabel name := "true"]> (map_make_if_nil (Labels m)))) m)
          edgeDevice in
        '(_, err) ← edgedevice.Patch edgeDevice deviceCopy;
        mret err
  end.

Section Reconciler.
Context `{Libs} `{Formatter} (Concurrency : Z).

Definition removeWorkloadFromNonMatchingDevices (name : string)
    (matchingDevices labelledDevices : list EdgeDevice) : M (option error) :=
  let matchingDevicesMap := names_of matchingDevices in
  errs ← executeConcurrent Concurrency
           (until_cancelled (at_most_one (removeFromNonMatching name matchingDevicesMap))) labelledDevices;
  mret (merged_error errs).

Definition addWorkloadsToDevices (name : string) (edgeDevices : list EdgeDevice) : M (option error) :=
  errs ← executeConcurrent Concurrency (until_cancelled (at_most_one (addWorkloadToDevice name))) edgeDevices;
  mret (merged_error errs).

Definition finalizeRemoval (edgeDevices : list EdgeDevice) (edgeWorkload : EdgeWorkload)
    : M (option error) :=
  errs ← executeConcurrent Concurrency
           (fun input => removeWorkloadFromDevices input (Name (EdgeWorkload_ObjectMeta edgeWorkload)))
           edgeDevices;
  match merged_error errs with
  | Some e => mret (Some e)
  | None =>
      '(_, err) ← edgeworkload.RemoveFinalizer edgeWorkload YggdrasilDeviceReferenceFinalizer;
      mret err
  end.

Definition getMatchingEdgeDevices (edgeWorkload : EdgeWorkload) : M (list EdgeDevice * option error) :=
  let spec := EdgeWorkload_Spec edgeWorkload in
  let namespace := Namespace (EdgeWorkload_ObjectMeta edgeWorkload) in
  if decide (EdgeWorkloadSpec_Device spec <> "") then
    '(edgeDevice, err) ← edgedevice.Read (EdgeWorkloadSpec_Device spec) namespace;
    match err with
    | Some e => mret ([], Some e)
    | None => mret ([edgeDevice], None)
    end
  else
    match EdgeWorkloadSpec_DeviceSelector spec with
    | None => mret ([], None)
    | Some selector =>
        '(ed, err) ← edgedevice.ListForSelector selector namespace;
        match err with
        | Some e => mret ([], Some e)
        | None => mret (ed, None)
        end
    end.

Definition getLabelledEdgeDevices (name namespace : string) : M (list EdgeDevice * option error) :=
  edgedevice.ListForWorkload name namespace.

(** An error other than "not found" ends the reconciliation. *)
Definition fatal (err : option error) : option error :=
  match err with
  | Some e => if IsNotFound e then None else Some e
  | None => None
  end.

(** The second half of [Reconcile], once finalizer and labels are in place. *)
Definition reconcileDevices (edgeWorkload : EdgeWorkload) : M (Result * option error) :=
  let meta := EdgeWorkload_ObjectMeta edgeWorkload in
  '(labelledDevices, err) ← getLabelledEdgeDevices (Name meta) (Namespace meta);
  match fatal err with
  | Some e => retry_with e
  | None =>
  '(edgeDevices, err) ← getMatchingEdgeDevices edgeWorkload;
  match fatal err with
  | Some e => retry_with e
  | None =>
      match DeletionTimestamp meta with
      | Some _ =>
          if HasFinalizer meta YggdrasilDeviceReferenceFinalizer then
            err ← finalizeRemoval (merge edgeDevices labelledDevices) edgeWorkload;
            match err with Some e => retry_with e | None => finished end
          else finished
      | None =>
          err ← addWorkloadsToDevices (Name meta) edgeDevices;
          match err with
          | Some e => retry_with e
          | None =>
              err ← removeWorkloadFromNonMatchingDevices (Name meta) edgeDevices labelledDevices;
              match err with Some e => retry_with e | None => finished end
          end
      end
  end end.

Definition Reconcile (name namespace : string) : M (Result * option error) :=
  '(edgeWorkload, err) ← edgeworkload.Read name namespace;
  match err with
  | Some e => if IsNotFound e then finished else retry_with e
  | None =>
      let meta := EdgeWorkload_ObjectMeta edgeWorkload in
      match DeletionTimestamp meta with
      | Some _ => reconcileDevices edgeWorkload
      | None =>
          if negb (HasFinalizer meta YggdrasilDeviceReferenceFinalizer) then
            let WorkloadCopy :=
              upd_WorkloadMeta (set_Finalizers (Some [YggdrasilDeviceReferenceFinalizer])) edgeWorkload in
            '(_, err) ← edgeworkload.Patch edgeWorkload WorkloadCopy;
            match err with Some e => retry_with e | None => mret (requeue, None) end
          else
            '(updated, err) ← updateLabelsFromSelector edgeWorkload;
            match err with
            | Some e => retry_with e
            | None => if updated : bool then finished else reconcileDevices edgeWorkload
            end
      end
  end.
End Reconciler.

(** ** Lemmas: selector labels *)

(** The selector labels a specification asks for. *)
Definition selector_labels (spec : EdgeWorkloadSpec) : gmap string string :=
  if decide (EdgeWorkloadSpec_Device spec <> "")
  then {[CreateSelectorLabel DeviceNameLabel := EdgeWorkloadSpec_Device spec]}
  else
    match EdgeWorkloadSpec_DeviceSelector spec with
    | None => ∅
    | Some s =>
        gset_to_gmap "true"
          (set_map CreateSelectorLabel (dom (entries (MatchLabels s))) ∪
           list_to_set (requirement_label <$> elems (MatchExpressions s)))
    end.

Definition other_labels (m : gomap string) : gmap string string :=
  filter (fun '(k, _) => IsSelectorLabel k = false) (entries m).

(** The workload with its selector labels in line with its specification. *)
Definition in_line (w : EdgeWorkload) : EdgeWorkload :=
  upd_WorkloadMeta (set_Labels (Some
    (selector_labels (EdgeWorkload_Spec w) ∪
     other_labels (Labels (EdgeWorkload_ObjectMeta w))))) w.

Lemma gset_to_gmap_union {V} (x : V) (X Y : gset string) :
  gset_to_gmap x (X ∪ Y) = gset_to_gmap x X ∪ gset_to_gmap x Y.
Proof.
  apply map_eq. intros k. apply option_eq. intros v.
  rewrite lookup_union_Some_raw, !lookup_gset_to_gmap_Some, lookup_gset_to_gmap_None, elem_of_union.
  destruct (decide (k ∈ X)); naive_solver.
Qed.

Lemma requirement_label_selector r : IsSelectorLabel (requirement_label r) = true.
Proof. unfold requirement_label. case_decide; apply IsSelectorLabel_CreateSelectorLabel. Qed.

Lemma selector_labels_selector spec k :
  is_Some (selector_labels spec !! k) -> IsSelectorLabel k = true.
Proof.
  unfold selector_labels. case_decide; [|destruct (EdgeWorkloadSpec_DeviceSelector spec) as [s|]].
  - intros [v [<- _]%lookup_singleton_Some]. apply IsSelectorLabel_CreateSelectorLabel.
  - rewrite lookup_gset_to_gmap. intros [v Hv].
    apply bind_Some in Hv as (Hin & _ & _). apply elem_of_union in Hin as [Hin|Hin].
    + apply elem_of_map in Hin as (l & -> & _). apply IsSelectorLabel_CreateSelectorLabel.
    + apply elem_of_list_to_set, list_elem_of_fmap in Hin as (r & -> & _).
      apply requirement_label_selector.
  - intros [v Hv]. by rewrite lookup_empty in Hv.
Qed.

Lemma other_labels_union spec m :
  other_labels (Some (selector_labels spec ∪ other_labels m)) = other_labels m.
Proof.
  unfold other_labels at 1. simpl. rewrite map_filter_union.
  - rewrite (proj2 (map_empty_filter _ _)), (left_id_L ∅ (∪)).
    + unfold other_labels. apply map_filter_filter_l. by intros.
    + intros k v Hk Hf. rewrite (selector_labels_selector spec k) in Hf; [done|eauto].
  - apply map_disjoint_spec. intros k v v' Hk [_ Ho]%map_lookup_filter_Some.
    rewrite (selector_labels_selector spec k) in Ho; [done|eauto].
Qed.

Lemma in_line_idemp w : in_line (in_line w) = in_line w.
Proof.
  unfold in_line at 1. destruct w as [ty [] [] st]. cbn -[selector_labels other_labels].
  by rewrite other_labels_union.
Qed.

Lemma exec_UpdateSelectorLabels_one w t o :
  exec (UpdateSelectorLabels_one w) t o ->
  Forall (fun e => ev_req e = MapOrder) t /\ o = Done (in_line w).
Proof.
  intros He. unfold UpdateSelectorLabels_one in He.
  apply exec_bind_inv in He as [[He ->]|(order & t1 & t2 & -> & H1 & He)];
    [by apply exec_range_map in He as (? & _ & ?)|].
  apply exec_range_map in H1 as (seed & -> & [= ->]). cbn [map_make_if_nil entries default] in He.
  rewrite foldl_delete_range in He. unfold in_line, selector_labels, other_labels.
  destruct (decide (EdgeWorkloadSpec_Device (EdgeWorkload_Spec w) <> "")) as [Hd|Hd].
  - rewrite bind_ret_l in He. apply exec_Ret_inv in He as [-> ->].
    split; [by repeat constructor|]. by rewrite <-insert_union_singleton_l.
  - destruct (EdgeWorkloadSpec_DeviceSelector (EdgeWorkload_Spec w)) as [s|].
    + apply exec_bind_inv in He as [[He ->]|(m & t3 & t4 & -> & H3 & He)].
      { apply exec_bind_inv in He as [[He _]|(? & ? & ? & -> & _ & He)];
          [by apply exec_range_map in He as (? & _ & ?)|by apply exec_Ret_inv in He as [_ ?]]. }
      apply exec_bind_inv in H3 as [[_ ?]|(order & ? & ? & -> & H3 & H4)]; [done|].
      apply exec_range_map in H3 as (seed' & -> & [= ->]).
      apply exec_Ret_inv in H4 as [-> [= ->]]. apply exec_Ret_inv in He as [-> ->].
      split; [by repeat constructor|]. do 4 f_equal.
      assert (forall l (m : gmap string string),
        foldl (fun m '(label, _) => <[CreateSelectorLabel label := "true"]> m) m l =
        foldl (fun m x => <[CreateSelectorLabel x.1 := "true"]> m) m l) as ->.
      { induction l as [|[] l IH]; intros m; [done|]. apply IH. }
      rewrite !foldl_insert_const, (assoc_L (∪)). f_equal.
      assert (list_to_set ((fun x => CreateSelectorLabel x.1) <$> range seed' (MatchLabels s)) =
              (set_map CreateSelectorLabel (dom (entries (MatchLabels s))) : gset string)) as ->.
      { apply set_eq. intros l. rewrite elem_of_list_to_set, list_elem_of_fmap, elem_of_map.
        setoid_rewrite elem_of_dom. split.
        - intros ([k v] & -> & Hin%elem_of_range). eauto.
        - intros (k & -> & v & Hv). exists (k, v). split; [done|]. by apply elem_of_range. }
      by rewrite <-gset_to_gmap_union, (comm_L (∪) (set_map _ _)).
    + rewrite bind_ret_l in He. apply exec_Ret_inv in He as [-> ->].
      split; [by repeat constructor|]. by rewrite (left_id_L ∅ (∪)).
Qed.

Lemma exec_UpdateSelectorLabels ws t o :
  exec (UpdateSelectorLabels ws) t o ->
  Forall (fun e => ev_req e = MapOrder) t /\ o = Done (in_line <$> ws).
Proof.
  intros He.
  assert (match o with
          | Done ws' => ws' = in_line <$> ws /\ Forall (fun e => ev_req e = MapOrder) t
          | Panicked => False
          end) as Ho.
  { refine (for_each_rule (fun pre acc t => acc = in_line <$> pre /\
              Forall (fun e => ev_req e = MapOrder) t) (fun _ => False) _ ws _ [] t o _ He); [|done].
    intros pre w post acc t1 t' o' _ [-> HF] Hb.
    apply exec_bind_inv in Hb as [[Hb ->]|(w' & t2 & t3 & -> & Hb & Hr)];
      [by apply exec_UpdateSelectorLabels_one in Hb as [_ ?]|].
    apply exec_UpdateSelectorLabels_one in Hb as [Ht [= ->]].
    apply exec_Ret_inv in Hr as [-> ->]. rewrite fmap_app, app_nil_r. split; [done|].
    by apply Forall_app. }
  destruct o as [ws'|]; [|done]. destruct Ho as [-> HF]. by split.
Qed.

(** The labels of the workload are those its specification asks for. *)
Definition aligned (w : EdgeWorkload) : Prop :=
  let labels := Labels (EdgeWorkload_ObjectMeta w) in
  Labels (EdgeWorkload_ObjectMeta (in_line w)) = labels \/
  (len (Labels (EdgeWorkload_ObjectMeta (in_line w))) = 0 /\ labels = None).
#[export] Instance aligned_dec w : Decision (aligned w).
Proof. unfold aligned. apply _. Defined.

Lemma exec_updateLabelsFromSelector w t o :
  exec (updateLabelsFromSelector w) t o ->
  exists t0, Forall (fun e => ev_req e = MapOrder) t0 /\
    ((aligned w /\ t = t0 /\ o = Done (false, None)) \/
     (~ aligned w /\ exists obj err,
        t = t0 ++ [Ev (PatchEdgeWorkload w (in_line w)) (obj, err)] /\ o = Done (true, err))).
Proof.
  intros He. unfold updateLabelsFromSelector in He.
  apply exec_bind_inv in He as [[He ->]|(w' & t0 & t1 & -> & Hu & He)];
    [by apply exec_UpdateSelectorLabels_one in He as [_ ?]|].
  apply exec_UpdateSelectorLabels_one in Hu as [Ht [= ->]]. exists t0. split; [done|].
  case_decide as Hc.
  - apply exec_Ret_inv in He as [-> ->]. left. rewrite app_nil_r. split; [|done].
    unfold aligned. destruct Hc; auto.
  - right. split; [unfold aligned; naive_solver|]. unfold edgeworkload.Patch in He.
    exec_call He as ([obj err] & t2 & -> & He). apply exec_Ret_inv in He as [-> ->].
    by exists obj, err.
Qed.

(** ** Lemmas: work on devices *)

(** The workload and its label are on the device, or the API server accepted
    the patches that put them there. *)
Definition with_workload (name : string) (d : EdgeDevice) : EdgeDevice :=
  upd_Status (fun s =>
    set_Workloads (append (EdgeDeviceStatus_Workloads s) (mkWorkload name Deploying 0 0)) s) d.
Definition with_label (name : string) (d : EdgeDevice) : EdgeDevice :=
  upd_Meta (fun m => set_Labels (Some (<[WorkloadLabel name := "true"]> (entries (Labels m)))) m) d.
(** The device lists the workload, and bears its label. *)
Definition lists (name : string) (d : EdgeDevice) : Prop :=
  name ∈ Workload_Name <$> elems (EdgeDeviceStatus_Workloads (EdgeDevice_Status d)).
Definition bears (name : string) (d : EdgeDevice) : Prop :=
  is_Some (map_get (Labels (EdgeDevice_ObjectMeta d)) ("workload/" +:+ name)).

Lemma hasWorkload_lists d name : hasWorkload d name = true <-> lists name d.
Proof.
  unfold hasWorkload, lists. rewrite existsb_exists, list_elem_of_fmap.
  setoid_rewrite list_elem_of_In. setoid_rewrite bool_decide_eq_true. naive_solver.
Qed.
Lemma hasLabelForWorkload_bears d name : hasLabelForWorkload d name = true <-> bears name d.
Proof. apply bool_decide_eq_true. Qed.

Definition assigned (name : string) (d : EdgeDevice) (t : list Event) : Prop :=
  exists d',
    ((lists name d /\ d' = d) \/
     (~ lists name d /\
      Ev (PatchEdgeDeviceStatus d (with_workload name d)) (d', None) ∈ t)) /\
    (bears name d' \/
     exists obj, Ev (PatchEdgeDevice d' (with_label name d')) (obj, None) ∈ t).

(** The API server accepted the patches that take the workload and its label
    off the device. *)
Definition unassigned (name : string) (d : EdgeDevice) (t : list Event) : Prop :=
  exists ws d', elems ws = filter (fun w => Workload_Name w <> name)
      (elems (EdgeDeviceStatus_Workloads (EdgeDevice_Status d))) /\
    Ev (PatchEdgeDeviceStatus d (upd_Status (set_Workloads ws) d)) (d', None) ∈ t /\
    match Labels (EdgeDevice_ObjectMeta d') with
    | None => True
    | Some labels => exists obj,
        Ev (PatchEdgeDevice d'
              (upd_Meta (set_Labels (Some (delete ("workload/" +:+ name) labels))) d'))
           (obj, None) ∈ t
    end.

Lemma assigned_mono name d t t' : t ⊆ t' -> assigned name d t -> assigned name d t'.
Proof.
  intros Hs (d' & Hw & Hl). exists d'. split.
  - destruct Hw as [?|[? Hw]]; [by left|right]. split; [done|]. by apply Hs.
  - destruct Hl as [?|[obj Hl]]; [by left|right]. exists obj. by apply Hs.
Qed.

Lemma unassigned_mono name d t t' : t ⊆ t' -> unassigned name d t -> unassigned name d t'.
Proof.
  intros Hs (ws & d' & Hf & Hw & Hl). exists ws, d'. split; [done|]. split; [by apply Hs|].
  destruct (Labels _); [|done]. destruct Hl as [obj Hl]. exists obj. by apply Hs.
Qed.

Lemma without_workload_elems name ws :
  elems (without_workload name ws) = filter (fun w => Workload_Name w <> name) (elems ws).
Proof.
  unfold without_workload.
  assert (forall l acc, elems (foldl (fun acc w =>
            if decide (Workload_Name w <> name) then append acc w else acc) acc l) =
          elems acc ++ filter (fun w => Workload_Name w <> name) l) as Hl.
  { induction l as [|w l IH]; intros acc; cbn [foldl]; [by rewrite filter_nil, app_nil_r|].
    rewrite IH, filter_cons. case_decide; [|done]. by rewrite elems_append, <-app_assoc. }
  apply (Hl _ None).
Qed.

Lemma exec_addWorkloadToDevice name d t :
  exec (addWorkloadToDevice name d) t (Done None) -> assigned name d t.
Proof.
  intros He. unfold addWorkloadToDevice in He.
  assert (forall d' t, exec (if hasLabelForWorkload d' name then mret None
            else '(_, err) ← edgedevice.Patch d' (with_label name d'); mret err) t (Done None) ->
          bears name d' \/
          exists obj, (Ev (PatchEdgeDevice d' (with_label name d')) (obj, None) : Event) ∈ t) as Hlabel.
  { intros d' t' H. destruct (hasLabelForWorkload d' name) eqn:Hl;
      [left; by apply hasLabelForWorkload_bears|right].
    unfold edgedevice.Patch in H. exec_call H as ([obj err] & t2 & -> & H).
    apply exec_Ret_inv in H as [-> [= ->]]. exists obj. left. }
  unfold assigned. destruct (hasWorkload d name) eqn:Hw.
  - rewrite bind_ret_l in He. exists d. split; [left; by rewrite <-hasWorkload_lists|]. by apply Hlabel.
  - assert (~ lists name d) as Hn by (by rewrite <-hasWorkload_lists, Hw).
    unfold edgedevice.PatchStatus in He. exec_call He as ([d' err] & t2 & -> & He).
    destruct err as [e|]; [by apply exec_Ret_inv in He as [_ ?]|].
    exists d'. split; [right; split; [done|left]|].
    apply Hlabel in He as [?|[obj ?]]; [by left|]. right. exists obj. by right.
Qed.

Lemma exec_removeWorkloadFromDevice name d t :
  exec (removeWorkloadFromDevice name d) t (Done None) -> unassigned name d t.
Proof.
  intros He. unfold removeWorkloadFromDevice, edgedevice.PatchStatus in He.
  exec_call He as ([d' err] & t2 & -> & He).
  destruct err as [e|]; [by apply exec_Ret_inv in He as [_ ?]|].
  eexists _, d'. split; [apply without_workload_elems|]. split; [left|].
  destruct (Labels (EdgeDevice_ObjectMeta d')) as [labels|]; [|done].
  unfold edgedevice.Patch in He. exec_call He as ([obj err] & t3 & -> & He).
  apply exec_Ret_inv in He as [-> [= ->]]. exists obj. right. left.
Qed.

Lemma collect_error_nil errs err : collect_error errs err = [] -> errs = [] /\ err = None.
Proof. unfold collect_error. intros [-> H]%app_nil. split; [done|]. by destruct err. Qed.

Lemma exec_removeWorkloadFromDevices ds name t :
  exec (removeWorkloadFromDevices ds name) t (Done []) ->
  all_done (fun d t => exec (removeWorkloadFromDevice name d) t (Done None)) ds t.
Proof.
  intros He.
  refine (for_each_rule (fun pre errs t => errs = [] ->
            all_done (fun d t => exec (removeWorkloadFromDevice name d) t (Done None)) pre t)
            (fun _ => True) _ ds _ [] t (Done []) _ He eq_refl); [|intros _; constructor].
  intros pre d post errs t0 t' o' _ HI Hb.
  apply exec_bind_inv in Hb as [[_ ->]|(err & t4 & t5 & -> & Hw & Hb)]; [done|].
  apply exec_Ret_inv in Hb as [-> ->]. rewrite app_nil_r. intros [-> ->]%collect_error_nil.
  by apply (all_done_snoc (fun d t => exec (removeWorkloadFromDevice name d) t (Done None)));
    [apply HI|].
Qed.

Lemma elem_of_names_of n ds : n ∈ names_of ds <-> n ∈ device_name <$> ds.
Proof.
  unfold names_of.
  assert (forall s : gset string, n ∈ foldl (fun s d => {[device_name d]} ∪ s) s ds <->
            n ∈ s \/ n ∈ device_name <$> ds) as Hl.
  { induction ds as [|d ds IH]; intros s; cbn [foldl fmap list_fmap].
    - rewrite elem_of_nil. tauto.
    - rewrite IH, elem_of_cons. set_solver. }
  rewrite Hl. set_solver.
Qed.

(** The devices [merge] gives: the first, and those of the second that have no
    name of the first. *)
Lemma elem_of_merge d l1 l2 :
  d ∈ merge l1 l2 <-> d ∈ l1 \/ (d ∈ l2 /\ device_name d ∉ device_name <$> l1).
Proof.
  unfold merge. rewrite elem_of_app, list_elem_of_In, (list_elem_of_In (List.filter _ _)), filter_In,
    <-!list_elem_of_In, negb_true_iff, bool_decide_eq_false, elem_of_names_of. done.
Qed.

(** ** Lemmas: reconciliation *)

Section Spec.
Context `{Libs} `{Formatter} (Concurrency : Z) (HC : (0 < Concurrency < 2 ^ 63)%Z).

(** What a call that answered [items] and [err] contributes without ending the
    reconciliation: what it answered, or nothing when there is nothing to find;
    any other error ends it. *)
Definition answered (items : list EdgeDevice) (err : option error) (ds : list EdgeDevice) : Prop :=
  match err with
  | None => ds = items
  | Some e => IsNotFound e = true /\ ds = []
  end.

Lemma answered_not_fatal items err :
  fatal err = None -> answered items err (match err with Some _ => [] | None => items end).
Proof. unfold fatal, answered. destruct err as [e|]; [|done]. by destruct (IsNotFound e). Qed.

(** The devices that bear the label the controller looks up. *)
Definition labelled_devices (w : EdgeWorkload) (ds : list EdgeDevice) (t : list Event) : Prop :=
  exists items err, answered items err ds /\
    Ev (ListEdgeDevices
          (MatchingLabels DeviceByWorkloadIndexKey (Name (EdgeWorkload_ObjectMeta w)))
          (Namespace (EdgeWorkload_ObjectMeta w))) (items, err) ∈ t.

(** The devices the specification of the workload names. *)
Definition matching_devices (w : EdgeWorkload) (ds : list EdgeDevice) (t : list Event) : Prop :=
  let spec := EdgeWorkload_Spec w in
  let ns := Namespace (EdgeWorkload_ObjectMeta w) in
  if decide (EdgeWorkloadSpec_Device spec <> "") then
    exists d err, answered [d] err ds /\
      Ev (GetEdgeDevice ns (EdgeWorkloadSpec_Device spec)) (d, err) ∈ t
  else
    match EdgeWorkloadSpec_DeviceSelector spec with
    | None => ds = []
    | Some s =>
        match selector_error s with
        | Some e => IsNotFound e = true /\ ds = []
        | None => exists items err, answered items err ds /\
            Ev (ListEdgeDevices (MatchingSelector s) ns) (items, err) ∈ t
        end
    end.

Lemma labelled_devices_mono w ds t t' : t ⊆ t' -> labelled_devices w ds t -> labelled_devices w ds t'.
Proof. intros Hs (items & err & Ha & Hin). exists items, err. split; [done|]. by apply Hs. Qed.

Lemma matching_devices_mono w ds t t' : t ⊆ t' -> matching_devices w ds t -> matching_devices w ds t'.
Proof.
  intros Hs. unfold matching_devices. case_decide.
  - intros (d & err & Ha & Hin). exists d, err. split; [done|]. by apply Hs.
  - destruct (EdgeWorkloadSpec_DeviceSelector _) as [s|]; [|done].
    destruct (selector_error s); [done|].
    intros (items & err & Ha & Hin). exists items, err. split; [done|]. by apply Hs.
Qed.

Lemma exec_getLabelledEdgeDevices w t o :
  exec (getLabelledEdgeDevices (Name (EdgeWorkload_ObjectMeta w))
          (Namespace (EdgeWorkload_ObjectMeta w))) t o ->
  exists ds err, o = Done (ds, err) /\ (fatal err = None -> labelled_devices w ds t).
Proof.
  intros He. unfold getLabelledEdgeDevices, edgedevice.ListForWorkload in He.
  exec_call He as ([items err] & t2 & -> & He).
  exists (match err with Some _ => [] | None => items end), err.
  destruct err; apply exec_Ret_inv in He as [-> ->]; (split; [done|]); intros Hf;
    eexists items, _; (split; [exact (answered_not_fatal items _ Hf)|left]).
Qed.

Lemma exec_getMatchingEdgeDevices w t o :
  exec (getMatchingEdgeDevices w) t o ->
  exists ds err, o = Done (ds, err) /\ (fatal err = None -> matching_devices w ds t).
Proof.
  intros He. unfold getMatchingEdgeDevices in He. unfold matching_devices.
  destruct (decide (EdgeWorkloadSpec_Device (EdgeWorkload_Spec w) <> "")) as [Hd|Hd].
  - unfold edgedevice.Read in He. exec_call He as ([d err] & t2 & -> & He).
    exists (match err with Some _ => [] | None => [d] end), err.
    destruct err; apply exec_Ret_inv in He as [-> ->]; (split; [done|]); intros Hf;
      eexists d, _; (split; [exact (answered_not_fatal [d] _ Hf)|left]).
  - destruct (EdgeWorkloadSpec_DeviceSelector (EdgeWorkload_Spec w)) as [s|];
      [|apply exec_Ret_inv in He as [-> ->]; by eexists _, _].
    unfold edgedevice.ListForSelector in He. destruct (selector_error s) as [e|] eqn:Hs.
    + rewrite bind_ret_l in He. apply exec_Ret_inv in He as [-> ->]. eexists _, _. split; [done|].
      exact (answered_not_fatal [] (Some e)).
    + apply exec_bind_inv in He as [[He ->]|([ds err] & t1 & t2 & -> & Hl & He)];
        [exec_call He as ([? [?|]] & t2 & -> & He); by apply exec_Ret_inv in He as [_ ?]|].
      exec_call Hl as ([items err'] & t3 & -> & Hl).
      exists (match err' with Some _ => [] | None => items end), err'.
      destruct err' as [e|]; apply exec_Ret_inv in Hl as [-> [= -> ->]];
        apply exec_Ret_inv in He as [-> ->]; (split; [done|]); intros Hf;
        eexists items, _; (split; [exact (answered_not_fatal items _ Hf)|left]).
Qed.

Lemma exec_addWorkloadsToDevices name ds t :
  exec (addWorkloadsToDevices Concurrency name ds) t (Done None) ->
  Forall (fun d => assigned name d t) ds.
Proof using HC.
  intros He. unfold addWorkloadsToDevices in He.
  apply exec_bind_inv in He as [[_ ?]|(errs & t1 & t2 & -> & He & Hr)]; [done|].
  apply exec_Ret_inv in Hr as [-> [= Hr]]. symmetry in Hr. apply merged_error_None in Hr as ->.
  apply exec_executeConcurrent in He; [|done]. rewrite app_nil_r.
  apply (worked_on_all_done _ (fun d t => exec (at_most_one (addWorkloadToDevice name) d) t (Done [])))
    in He; [|intros part t'; apply exec_until_cancelled].
  eapply Forall_impl; [exact He|]. intros d (t' & Hs & Hd).
  eapply assigned_mono; [exact Hs|]. by apply exec_addWorkloadToDevice, exec_at_most_one.
Qed.

Lemma exec_removeWorkloadFromNonMatchingDevices name matching labelled t :
  exec (removeWorkloadFromNonMatchingDevices Concurrency name matching labelled) t (Done None) ->
  Forall (fun d => device_name d ∉ names_of matching -> unassigned name d t) labelled.
Proof using HC.
  intros He. unfold removeWorkloadFromNonMatchingDevices in He.
  apply exec_bind_inv in He as [[_ ?]|(errs & t1 & t2 & -> & He & Hr)]; [done|].
  apply exec_Ret_inv in Hr as [-> [= Hr]]. symmetry in Hr. apply merged_error_None in Hr as ->.
  apply exec_executeConcurrent in He; [|done]. rewrite app_nil_r.
  apply (worked_on_all_done _ (fun d t =>
           exec (at_most_one (removeFromNonMatching name (names_of matching)) d) t (Done []))) in He;
    [|intros part t'; apply exec_until_cancelled].
  eapply Forall_impl; [exact He|]. intros d (t' & Hs & Hd%exec_at_most_one) Hn.
  unfold removeFromNonMatching in Hd. rewrite decide_False in Hd by done.
  eapply unassigned_mono; [exact Hs|]. by apply exec_removeWorkloadFromDevice.
Qed.

Lemma exec_RemoveFinalizer w f t o :
  exec (edgeworkload.RemoveFinalizer w f) t o ->
  exists r obj, o = Done (r, None) /\
    t = [Ev (PatchEdgeWorkload w (upd_WorkloadMeta (set_Finalizers
           (without_finalizer f (Finalizers (EdgeWorkload_ObjectMeta w)))) w)) obj].
Proof.
  intros He. unfold edgeworkload.RemoveFinalizer, edgeworkload.Patch in He.
  exec_call He as ([obj err] & t2 & -> & He).
  destruct err; apply exec_Ret_inv in He as [-> ->]; by eexists _, _.
Qed.

(** The calls of a removal are patches of devices. *)
Definition patches_devices (c : Req) : Prop :=
  match c with
  | PatchEdgeDeviceStatus _ _ | PatchEdgeDevice _ _ | Schedule => True
  | _ => False
  end.

Lemma removeWorkloadFromDevices_calls ds name :
  calls patches_devices (removeWorkloadFromDevices ds name).
Proof.
  unfold removeWorkloadFromDevices. apply calls_for_each. intros errs d.
  apply calls_bind; [|done]. unfold removeWorkloadFromDevice, edgedevice.PatchStatus.
  split; [done|]. intros [d' [e|]]; [done|].
  cbn. destruct (Labels (EdgeDevice_ObjectMeta d')); [|done]. split; [done|]. by intros [].
Qed.

(** The finalizer goes last, and only if every removal succeeded. *)
Lemma exec_finalizeRemoval ds w t o :
  exec (finalizeRemoval Concurrency ds w) t (Done o) ->
  match o with
  | Some _ => Forall (fun e => patches_devices (ev_req e)) t
  | None => exists t1 obj, t = t1 ++ [Ev (PatchEdgeWorkload w (upd_WorkloadMeta (set_Finalizers
      (without_finalizer YggdrasilDeviceReferenceFinalizer
         (Finalizers (EdgeWorkload_ObjectMeta w)))) w)) obj] /\
      Forall (fun e => patches_devices (ev_req e)) t1 /\
      Forall (fun d => unassigned (Name (EdgeWorkload_ObjectMeta w)) d t1) ds
  end.
Proof using HC.
  intros He. unfold finalizeRemoval in He.
  apply exec_bind_inv in He as [[_ ?]|(errs & t1 & t2 & -> & He & Hr)]; [done|].
  apply exec_executeConcurrent in He; [|done].
  assert (Forall (fun e => patches_devices (ev_req e)) t1) as HF
    by (eapply worked_on_calls; [done| |exact He]; intros; apply removeWorkloadFromDevices_calls).
  destruct (merged_error errs) as [e|] eqn:Hm.
  - apply exec_Ret_inv in Hr as [-> [= ->]]. by rewrite app_nil_r.
  - apply merged_error_None in Hm as ->.
    apply exec_bind_inv in Hr as [[Hr _]|([r err] & t3 & t4 & -> & Hr & Hr')].
    { by apply exec_RemoveFinalizer in Hr as (? & ? & ? & _). }
    apply exec_RemoveFinalizer in Hr as (? & obj & [= -> ->] & ->).
    apply exec_Ret_inv in Hr' as [-> [= ->]]. exists t1, obj. split; [done|]. split; [done|].
    apply (worked_on_all_done _ (fun d t => exec (removeWorkloadFromDevice
             (Name (EdgeWorkload_ObjectMeta w)) d) t (Done None))) in He;
      [|intros part t'; apply exec_removeWorkloadFromDevices].
    eapply Forall_impl; [exact He|]. intros d (t' & Hs & Hd).
    eapply unassigned_mono; [exact Hs|]. by apply exec_removeWorkloadFromDevice.
Qed.

Lemma fatal_bind {A} err (p : M A) (f : error -> M A) t o :
  exec (match fatal err with Some e => f e | None => p end) t o ->
  (exists e, err = Some e /\ exec (f e) t o) \/ fatal err = None /\ exec p t o.
Proof.
  unfold fatal. destruct err as [e|]; [|by right]. destruct (IsNotFound e); [by right|left; eauto].
Qed.

(** How the second half of a reconciliation goes: it stops at an error of the
    lists, removes a workload that is going, or keeps the devices in line. *)
Lemma exec_reconcileDevices w t o :
  exec (reconcileDevices Concurrency w) t o ->
  (exists e, o = Done (requeue, Some e) /\ Forall (fun e => is_read (ev_req e)) t) \/
  exists labelled matching t1 t2, t = t1 ++ t2 /\
    Forall (fun e => is_read (ev_req e)) t1 /\
    labelled_devices w labelled t1 /\ matching_devices w matching t1 /\
    let name := Name (EdgeWorkload_ObjectMeta w) in
    exec (match DeletionTimestamp (EdgeWorkload_ObjectMeta w) with
      | Some _ =>
          if HasFinalizer (EdgeWorkload_ObjectMeta w) YggdrasilDeviceReferenceFinalizer then
            err ← finalizeRemoval Concurrency (merge matching labelled) w;
            match err with Some e => retry_with e | None => finished end
          else finished
      | None =>
          err ← addWorkloadsToDevices Concurrency name matching;
          match err with
          | Some e => retry_with e
          | None =>
              err ← removeWorkloadFromNonMatchingDevices Concurrency name matching labelled;
              match err with Some e => retry_with e | None => finished end
          end
      end) t2 o.
Proof.
  clear HC. intros He. unfold reconcileDevices in He. cbv zeta in He.
  assert (calls is_read (getLabelledEdgeDevices (Name (EdgeWorkload_ObjectMeta w))
    (Namespace (EdgeWorkload_ObjectMeta w)))) as Hr1.
  { split; [done|]. by intros [? [?|]]. }
  assert (calls is_read (getMatchingEdgeDevices w)) as Hr2.
  { unfold getMatchingEdgeDevices. case_decide; [split; [done|]; by intros [? [?|]]|].
    destruct (EdgeWorkloadSpec_DeviceSelector _) as [s|]; [|done].
    apply calls_bind; [|by intros [? [?|]]]. unfold edgedevice.ListForSelector.
    destruct (selector_error s); [done|]. split; [done|]. by intros [? [?|]]. }
  apply exec_bind_inv in He as [[He ->]|([labelled err] & t1 & t2 & -> & Hl & He)];
    [by apply exec_getLabelledEdgeDevices in He as (? & ? & ? & _)|].
  pose proof (calls_exec _ _ _ _ Hr1 Hl) as HF1.
  apply exec_getLabelledEdgeDevices in Hl as (? & ? & [= <- <-] & Hl).
  apply fatal_bind in He as [(e & -> & He)|[Hf1 He]].
  { apply exec_Ret_inv in He as [-> ->]. left. rewrite app_nil_r. by exists e. }
  apply exec_bind_inv in He as [[He ->]|([matching err'] & t3 & t4 & -> & Hm & He)];
    [by apply exec_getMatchingEdgeDevices in He as (? & ? & ? & _)|].
  pose proof (calls_exec _ _ _ _ Hr2 Hm) as HF2.
  apply exec_getMatchingEdgeDevices in Hm as (? & ? & [= <- <-] & Hm).
  assert (Forall (fun e => is_read (ev_req e)) (t1 ++ t3)) as HF by by apply Forall_app.
  apply fatal_bind in He as [(e & -> & He)|[Hf2 He]].
  { apply exec_Ret_inv in He as [-> ->]. left. rewrite app_nil_r. by exists e. }
  right. exists labelled, matching, (t1 ++ t3), t4. split; [by rewrite (assoc_L (++))|].
  split; [done|]. split; [|split; [|done]].
  - eapply labelled_devices_mono; [|exact (Hl Hf1)]. set_solver.
  - eapply matching_devices_mono; [|exact (Hm Hf2)]. set_solver.
Qed.

(** The first pass over a workload, the second, and the following ones. *)
Lemma exec_Reconcile name ns w t o :
  exec (Reconcile Concurrency name ns) (Ev (GetEdgeWorkload ns name) (w, None) :: t) o ->
  let meta := EdgeWorkload_ObjectMeta w in
  match DeletionTimestamp meta with
  | Some _ => exec (reconcileDevices Concurrency w) t o
  | None =>
      if HasFinalizer meta YggdrasilDeviceReferenceFinalizer then
        exists t0 t1, t = t0 ++ t1 /\ Forall (fun e => ev_req e = MapOrder) t0 /\
          if decide (aligned w) then exec (reconcileDevices Concurrency w) t1 o
          else exists obj err, t1 = [Ev (PatchEdgeWorkload w (in_line w)) (obj, err)] /\
            o = Done (match err with Some e => (requeue, Some e) | None => (no_result, None) end)
      else exists obj err,
        t = [Ev (PatchEdgeWorkload w (upd_WorkloadMeta
               (set_Finalizers (Some [YggdrasilDeviceReferenceFinalizer])) w)) (obj, err)] /\
        o = Done (match err with Some e => (requeue, Some e) | None => (requeue, None) end)
  end.
Proof.
  clear HC. intros He. unfold Reconcile, edgeworkload.Read in He.
  apply (exec_bind_call_resp (Resp := Resp) (GetEdgeWorkload ns name)) in He. cbv zeta in He |- *.
  destruct (DeletionTimestamp (EdgeWorkload_ObjectMeta w)); [done|].
  destruct (HasFinalizer _ _); cbn [negb] in He.
  - apply exec_bind_inv in He as [[He ->]|([updated err] & t1 & t2 & -> & Hu & He)].
    { apply exec_updateLabelsFromSelector in He as (? & _ & [(_ & _ & ?)|(_ & ? & ? & _ & ?)]); done. }
    apply exec_updateLabelsFromSelector in Hu
      as (t0 & HF & [(Ha & -> & [= -> ->])|(Ha & obj & err' & -> & [= -> ->])]).
    + exists t0, t2. by rewrite decide_True.
    + exists t0, ([Ev (PatchEdgeWorkload w (in_line w)) (obj, err')] ++ t2).
      rewrite (assoc_L (++)). split; [done|]. split; [done|]. rewrite decide_False by done.
      exists obj, err'. destruct err'; apply exec_Ret_inv in He as [-> ->]; done.
  - unfold edgeworkload.Patch in He. exec_call He as ([obj err] & t2 & -> & He). exists obj, err.
    destruct err; apply exec_Ret_inv in He as [-> ->]; done.
Qed.
End Spec.

(** ** Properties *)

(** C28: the selector labels of workloads, which let label changes of devices
    find them: the code's loops over the maps of each workload, in whatever
    order they run, leave exactly the labels its specification asks for and
    its labels of other kinds, change nothing else, and change nothing when
    run again. *)
Theorem UpdateSelectorLabels_exact ws t o :
  exec (UpdateSelectorLabels ws) t o ->
  o = Done (in_line <$> ws) /\ Forall (fun e => ev_req e = MapOrder) t /\
  forall t' o', exec (UpdateSelectorLabels (in_line <$> ws)) t' o' -> o' = Done (in_line <$> ws).
Proof.
  intros [HF ->]%exec_UpdateSelectorLabels. split; [done|]. split; [done|].
  intros t' o' [_ ->]%exec_UpdateSelectorLabels. f_equal. rewrite <-list_fmap_compose.
  apply list_fmap_ext. intros i w _. apply in_line_idemp.
Qed.

(** C12: a reconciliation that ends without an error leaves the devices in line
    with a workload that is not going and whose finalizer and labels are in
    place.  It has been told which devices the specification names and which
    bear the label of the workload, or that there are none of them: any other
    error of these reads would have ended it with that error.  Every device
    named lists the workload and bears its label, because it already did or
    because the API server accepted the patches; and from every other device
    found by its label both have been removed.  This holds for every
    concurrency, schedule and order of the goroutines. *)
Theorem Reconcile_devices_in_line `{Libs} `{Formatter} Concurrency name ns w t :
  (0 < Concurrency < 2 ^ 63)%Z ->
  exec (Reconcile Concurrency name ns)
    (Ev (GetEdgeWorkload ns name) (w, None) :: t) (Done (no_result, None)) ->
  DeletionTimestamp (EdgeWorkload_ObjectMeta w) = None -> aligned w ->
  exists matching labelled,
    matching_devices w matching t /\ labelled_devices w labelled t /\
    Forall (fun d => assigned (Name (EdgeWorkload_ObjectMeta w)) d t) matching /\
    Forall (fun d => device_name d ∉ device_name <$> matching ->
              unassigned (Name (EdgeWorkload_ObjectMeta w)) d t) labelled.
Proof.
  intros HC He%exec_Reconcile Hdel Ha. cbv zeta in He. rewrite Hdel in He.
  destruct (HasFinalizer _ _); [|by destruct He as (? & [?|] & _ & ?)].
  destruct He as (t0 & t1 & -> & _ & He). rewrite decide_True in He by done.
  apply exec_reconcileDevices in He
    as [(e & ? & _)|(labelled & matching & t2 & t3 & -> & _ & Hl & Hm & He)]; [done|].
  cbv zeta in He. rewrite Hdel in He.
  apply exec_bind_inv in He as [[_ ?]|(err & t4 & t5 & -> & Hadd & He)]; [done|].
  destruct err as [e|]; [by apply exec_Ret_inv in He as [_ ?]|].
  apply exec_bind_inv in He as [[_ ?]|(err & t6 & t7 & -> & Hrem & He)]; [done|].
  destruct err as [e|]; apply exec_Ret_inv in He as [-> ?]; [done|].
  apply exec_addWorkloadsToDevices in Hadd; [|done].
  apply exec_removeWorkloadFromNonMatchingDevices in Hrem; [|done].
  exists matching, labelled. split_and!.
  - revert Hm. apply matching_devices_mono. set_solver.
  - revert Hl. apply labelled_devices_mono. set_solver.
  - eapply Forall_impl; [exact Hadd|]. intros d. apply assigned_mono. set_solver.
  - eapply Forall_impl; [exact Hrem|]. intros d Hd Hn. eapply unassigned_mono; [|apply Hd].
    + set_solver.
    + by rewrite elem_of_names_of.
Qed.

(** C13: a workload that is going is let go, by the patch that takes the
    operator's finalizer off and keeps the others, only as the last exchange
    of a reconciliation, only after it has been told which devices the
    specification names and which bear the label of the workload (or that there
    are none of them; no other error of these reads lets it go), and only after
    the API server has accepted the patches that take the workload and its label
    off every one of them. *)
Theorem Reconcile_lets_go_last `{Libs} `{Formatter} Concurrency name ns w t o base obj r :
  (0 < Concurrency < 2 ^ 63)%Z ->
  exec (Reconcile Concurrency name ns) (Ev (GetEdgeWorkload ns name) (w, None) :: t) (Done o) ->
  DeletionTimestamp (EdgeWorkload_ObjectMeta w) <> None ->
  Ev (PatchEdgeWorkload base obj) r ∈ t ->
  exists fs, base = w /\ obj = upd_WorkloadMeta (set_Finalizers fs) w /\
    elems fs = filter (fun f => f <> YggdrasilDeviceReferenceFinalizer)
                 (elems (Finalizers (EdgeWorkload_ObjectMeta w))) /\
  exists t1 matching labelled, t = t1 ++ [Ev (PatchEdgeWorkload base obj) r] /\
    matching_devices w matching t1 /\ labelled_devices w labelled t1 /\
    (forall d, d ∈ matching -> unassigned (Name (EdgeWorkload_ObjectMeta w)) d t1) /\
    (forall d, d ∈ labelled -> device_name d ∉ device_name <$> matching ->
       unassigned (Name (EdgeWorkload_ObjectMeta w)) d t1).
Proof.
  intros HC He%exec_Reconcile Hdel Hin. cbv zeta in He.
  destruct (DeletionTimestamp (EdgeWorkload_ObjectMeta w)) as [ts|] eqn:Hd; [|done]. clear Hdel.
  assert (forall c, is_read c -> c <> PatchEdgeWorkload base obj) as Hread by by intros c ? ->.
  assert (forall c, patches_devices c -> c <> PatchEdgeWorkload base obj) as Hpatch by by intros c ? ->.
  assert (forall (P : Req -> Prop) t, (forall c, P c -> c <> PatchEdgeWorkload base obj) ->
            Forall (fun e => P (ev_req e)) t -> Ev (PatchEdgeWorkload base obj) r ∉ t) as Hno.
  { intros P t' HP HF Hin'. rewrite Forall_forall in HF. by apply HF, HP in Hin'. }
  apply exec_reconcileDevices in He
    as [(e & _ & HF)|(labelled & matching & t2 & t3 & -> & HF & Hl & Hm & He)].
  { by eapply Hno in HF. }
  eapply Hno in HF; [|exact Hread]. apply elem_of_app in Hin as [?|Hin]; [done|].
  cbv zeta in He. rewrite Hd in He.
  destruct (HasFinalizer _ _); [|by apply exec_Ret_inv in He as [-> _]; apply elem_of_nil in Hin].
  apply exec_bind_inv in He as [[_ ?]|(err & t4 & t5 & -> & Hf & He)]; [done|].
  assert (t5 = []) as -> by (by destruct err; apply exec_Ret_inv in He as [-> _]).
  rewrite app_nil_r in Hin |- *. apply exec_finalizeRemoval in Hf; [|done]. destruct err as [e|].
  { by eapply Hno in Hf; [|exact Hpatch]. }
  destruct Hf as (t1 & obj' & -> & HF1 & Hun). rewrite Forall_forall in Hun. eapply Hno in HF1; [|exact Hpatch].
  apply elem_of_app in Hin as [?|Hin]; [done|]. apply list_elem_of_singleton in Hin.
  pose proof (f_equal ev_req Hin) as E. simpl in E. injection E as -> ->.
  eexists. split; [done|]. split; [done|]. split; [apply without_finalizer_elems|].
  exists (t2 ++ t1), matching, labelled. rewrite Hin, (assoc_L (++)). split; [done|]. split_and!.
  - revert Hm. apply matching_devices_mono. set_solver.
  - revert Hl. apply labelled_devices_mono. set_solver.
  - intros d Hin1. eapply unassigned_mono; [|apply Hun; apply elem_of_merge; by left]. set_solver.
  - intros d Hin1 Hn. eapply unassigned_mono; [|apply Hun; apply elem_of_merge; by right]. set_solver.
Qed.

(** What the first reconciliation of a workload writes: its finalizers become
    the operator's alone, whichever it had. *)
Theorem Reconcile_overwrites_finalizers `{Libs} `{Formatter} Concurrency name ns w t o :
  exec (Reconcile Concurrency name ns) (Ev (GetEdgeWorkload ns name) (w, None) :: t) o ->
  DeletionTimestamp (EdgeWorkload_ObjectMeta w) = None ->
  HasFinalizer (EdgeWorkload_ObjectMeta w) YggdrasilDeviceReferenceFinalizer = false ->
  exists obj err,
    t = [Ev (PatchEdgeWorkload w (upd_WorkloadMeta
           (set_Finalizers (Some [YggdrasilDeviceReferenceFinalizer])) w)) (obj, err)].
Proof.
  intros He%exec_Reconcile Hdel Hf. cbv zeta in He. rewrite Hdel, Hf in He.
  destruct He as (obj & err & -> & _). by exists obj, err.
Qed.

(** ** Examples *)

(** A workload bound to one device; another device still lists it. *)
Definition plain_format : Formatter := {| Sprintf s := s |}.
Definition w1 : EdgeWorkload :=
  mkEdgeWorkload empty_TypeMeta
    (mkObjectMeta "w1" "ns" "u" "1" None (Some {["selector/devicename" := "d1"]}) None None
       (Some ["other"; YggdrasilDeviceReferenceFinalizer]))
    (mkEdgeWorkloadSpec None "d1" "" (mkPod (corev1.mkPodSpec None None None "")) None None None "")
    mkEdgeWorkloadStatus.
Definition going (w : EdgeWorkload) : EdgeWorkload :=
  upd_WorkloadMeta (fun m => mkObjectMeta (Name m) (Namespace m) (UID m) (ResourceVersion m)
    (Some 900%Z) (Labels m) (Annotations m) (OwnerReferences m) (Finalizers m)) w.
Definition device_named (n : string) (labels : gomap string) (ws : slice Workload) : EdgeDevice :=
  upd_Status (set_Workloads ws)
    (upd_Meta (fun _ => mkObjectMeta n "ns" "u" "1" None labels None None None) empty_EdgeDevice).
Definition d1 : EdgeDevice := device_named "d1" None None.
Definition d2 : EdgeDevice :=
  device_named "d2" (Some {["device-by-workload" := "w1"; "workload/w1" := "true"]})
    (Some [mkWorkload "w1" Deploying 0 0; mkWorkload "w2" Deploying 0 0]).
Definition two_devices (w : EdgeWorkload) : World :=
  set_workloads {[("ns", "w1") := w]}
    (set_devices {[("ns", "d1") := d1; ("ns", "d2") := d2]} empty_world).

Lemma UpdateSelectorLabels_exact_witness :
  let w := upd_WorkloadMeta (set_Labels (Some {["selector/gone" := "true"; "a" := "b"]})) w1 in
  Labels (EdgeWorkload_ObjectMeta (in_line w)) =
    Some {["a" := "b"; "selector/devicename" := "d1"]} /\
  run_result (UpdateSelectorLabels [w]) empty_world = Done (in_line <$> [w]).
Proof.
  set (w := upd_WorkloadMeta _ w1). cbv zeta. split; [vm_compute; reflexivity|].
  exact (proj1 (UpdateSelectorLabels_exact [w] _ _ (run_result_exec _ empty_world))).
Defined.

Lemma Reconcile_devices_in_line_witness :
  let t := tl (run_trace (@Reconcile trivial_libs plain_format 2 "w1" "ns") (two_devices w1)) in
  exists matching labelled,
    @matching_devices trivial_libs w1 matching t /\ labelled_devices w1 labelled t /\
    Forall (fun d => assigned "w1" d t) matching /\
    Forall (fun d => device_name d ∉ device_name <$> matching -> unassigned "w1" d t) labelled.
Proof.
  cbv zeta.
  assert (exec (@Reconcile trivial_libs plain_format 2 "w1" "ns")
    (Ev (GetEdgeWorkload "ns" "w1") (w1, None) ::
     tl (run_trace (@Reconcile trivial_libs plain_format 2 "w1" "ns") (two_devices w1)))
    (Done (no_result, None))) as He
    by (apply run_starts_with; vm_compute; reflexivity).
  apply (@Reconcile_devices_in_line trivial_libs plain_format 2 "w1" "ns" w1 _ ltac:(lia) He).
  - reflexivity.
  - left. vm_compute. reflexivity.
Defined.

Lemma Reconcile_lets_go_last_witness :
  let t := tl (run_trace (@Reconcile trivial_libs plain_format 1 "w1" "ns") (two_devices (going w1))) in
  exists base obj r fs, Ev (PatchEdgeWorkload base obj) r ∈ t /\
    obj = upd_WorkloadMeta (set_Finalizers fs) base /\ elems fs = ["other"].
Proof.
  cbv zeta.
  assert (exec (@Reconcile trivial_libs plain_format 1 "w1" "ns")
    (Ev (GetEdgeWorkload "ns" "w1") (going w1, None) ::
     tl (run_trace (@Reconcile trivial_libs plain_format 1 "w1" "ns") (two_devices (going w1))))
    (Done (no_result, None))) as He
    by (apply run_starts_with; vm_compute; reflexivity).
  set (base := going w1).
  set (obj := upd_WorkloadMeta (set_Finalizers (Some ["other"])) (going w1)).
  assert (Ev (PatchEdgeWorkload base obj) (obj, None) ∈
    tl (run_trace (@Reconcile trivial_libs plain_format 1 "w1" "ns") (two_devices (going w1)))) as Hin.
  { apply (list_elem_of_lookup_2 _ 5). vm_compute. reflexivity. }
  exists base, obj, (obj, None).
  destruct (@Reconcile_lets_go_last trivial_libs plain_format 1 "w1" "ns" (going w1) _ _ base obj
              (obj, None) ltac:(lia) He ltac:(done) Hin) as (fs & _ & Ho & Hfs & _).
  exists fs. split; [exact Hin|]. split; [exact Ho|]. rewrite Hfs. vm_compute. reflexivity.
Defined.
