(* ===== verification/Rollout.v ===== *)
(** * A workload reaches its device

    The reconciler of workloads against the API server of ApiServer.v, from the
    creation of a workload that names a device to the configuration the device
    is sent. *)
From S2P Require Import Prelude GoData GoStrings V1alpha1 Models Env Testbed Labels Utils.
From S2P Require Import ApiServer Repository Facade ConfigSources Assembler Backend Controller EdgeWorkload.
Import v1alpha1.

(** ** One device at a time *)

Lemma splitEdgeDevices_one {A} (a : A) C :
  (0 < C < 2 ^ 63)%Z -> splitEdgeDevices [a] C = Done [[a]].
Proof.
  intros HC. destruct (splitEdgeDevices_parts [a] C HC) as (parts & -> & Hc & Hl & _).
  cbn [length] in Hl. destruct parts as [|p [|q ps]]; cbn [length] in Hl; try lia.
  cbn in Hc. rewrite app_nil_r in Hc. by subst.
Qed.

Lemma runs_executeConcurrent C f d w w' errs :
  (0 < C < 2 ^ 63)%Z -> runs (f [d]) w w' (Done errs) ->
  runs (executeConcurrent C f [d]) w w' (Done errs).
Proof.
  intros HC Hf. unfold executeConcurrent. case_decide; [done|]. unfold ExecuteConcurrent.
  rewrite decide_False by (intros [?|?]; [done|lia]). rewrite splitEdgeDevices_one by done.
  cbn [lift]. rewrite bind_ret_l. cbn [fmap list_fmap].
  eapply runs_bind; [by apply runs_par_one|]. cbn [concat]. rewrite app_nil_r. apply runs_ret.
Qed.

Lemma runs_executeConcurrent_none C f w :
  runs (f []) w w (Done []) -> runs (executeConcurrent C f []) w w (Done []).
Proof.
  intros Hf. unfold executeConcurrent. case_decide; [done|]. unfold ExecuteConcurrent.
  rewrite decide_True by (by left). apply runs_ret.
Qed.

Lemma runs_until_cancelled work d w w' err :
  runs (work d) w w' (Done err) ->
  runs (until_cancelled (at_most_one work) [d]) w w' (Done (option_list err)).
Proof.
  intros Hw. unfold until_cancelled.
  eapply (runs_bind _ _ w w' (Next (option_list err))); [cbn [for_range]|apply runs_ret].
  eapply (runs_bind _ _ w w' (Next (option_list err))); [|apply runs_ret].
  eapply runs_call; [reflexivity|]. cbn beta iota.
  eapply (runs_bind _ _ w w' (option_list err)); [|apply runs_ret].
  unfold at_most_one. eapply runs_bind; [exact Hw|apply runs_ret].
Qed.

(** ** The devices *)

Definition workloads_of (d : EdgeDevice) : list Workload :=
  elems (EdgeDeviceStatus_Workloads (EdgeDevice_Status d)).
Definition labels_of (d : EdgeDevice) : gmap string string :=
  entries (Labels (EdgeDevice_ObjectMeta d)).

Lemma hasWorkload_spec d name :
  hasWorkload d name = true <-> exists x, x ∈ workloads_of d /\ Workload_Name x = name.
Proof.
  unfold hasWorkload, workloads_of. rewrite existsb_exists.
  setoid_rewrite list_elem_of_In. setoid_rewrite bool_decide_eq_true. done.
Qed.

(** [d'] is [d] with other workloads and other labels, and is [d] in all else. *)
Definition rewritten (d d' : EdgeDevice) (ws : list Workload) (ls : gmap string string) : Prop :=
  exists workloads labels,
    d' = upd_Meta (set_Labels labels) (upd_Status (set_Workloads workloads) d) /\
    elems workloads = ws /\ entries labels = ls.

(** [d'] is [d] with the workload [name] and its label, each added only where
    it was not there, and nothing else changed. *)
Definition gains (name : string) (d d' : EdgeDevice) : Prop :=
  rewritten d d'
    (if hasWorkload d name then workloads_of d else workloads_of d ++ [mkWorkload name Deploying 0 0])
    (if hasLabelForWorkload d name then labels_of d
     else <[WorkloadLabel name := "true"]> (labels_of d)).

(** [d'] is [d] without them, and nothing else changed. *)
Definition loses (name : string) (d d' : EdgeDevice) : Prop :=
  rewritten d d' (filter (fun x => Workload_Name x <> name) (workloads_of d))
    (delete (WorkloadLabel name) (labels_of d)).

Lemma rewritten_facts d d' ws ls :
  rewritten d d' ws ls ->
  device_key d' = device_key d /\
  DeletionTimestamp (EdgeDevice_ObjectMeta d') = DeletionTimestamp (EdgeDevice_ObjectMeta d) /\
  workloads_of d' = ws /\ labels_of d' = ls.
Proof. by intros (? & ? & -> & <- & <-). Qed.

(** [d'] is [d] with other labels. *)
Definition relabelled (d d' : EdgeDevice) (ls : gmap string string) : Prop :=
  exists labels, d' = upd_Meta (set_Labels labels) d /\ entries labels = ls.

Lemma relabelled_same d : relabelled d d (labels_of d).
Proof. exists (Labels (EdgeDevice_ObjectMeta d)). split; [by destruct d as [? [] ? ?]|done]. Qed.

(** First the workloads, then the labels. *)
Lemma rewritten_relabelled d d' workloads ls :
  relabelled (upd_Status (set_Workloads workloads) d) d' ls -> rewritten d d' (elems workloads) ls.
Proof. intros (labels & -> & <-). by exists workloads, labels. Qed.
Lemma rewritten_labels d d' ls : relabelled d d' ls -> rewritten d d' (workloads_of d) ls.
Proof.
  intros (labels & -> & <-). exists (EdgeDeviceStatus_Workloads (EdgeDevice_Status d)), labels.
  split; [by destruct d as [? ? ? []]|done].
Qed.

(** The device [k] of the cluster becomes [d]. *)
Definition with_device (k : key) (d : EdgeDevice) (w : World) : World :=
  set_devices (<[k := d]> (w_devices w)) w.

Lemma with_device_twice k d d' w : with_device k d' (with_device k d w) = with_device k d' w.
Proof. unfold with_device, set_devices. cbn. by rewrite insert_insert_eq. Qed.
Lemma with_device_id k d w : w_devices w !! k = Some d -> with_device k d w = w.
Proof. intros Hd. unfold with_device. rewrite insert_id by done. by destruct w. Qed.
Lemma with_device_lookup k d w : w_devices (with_device k d w) !! k = Some d.
Proof. apply lookup_insert_eq. Qed.

Lemma runs_PatchStatus k base obj w :
  w_devices w !! k = Some base -> device_key obj = k ->
  EdgeDevice_ObjectMeta obj = EdgeDevice_ObjectMeta base -> EdgeDevice_Spec obj = EdgeDevice_Spec base ->
  EdgeDevice_TypeMeta obj = EdgeDevice_TypeMeta base ->
  runs (edgedevice.PatchStatus obj base) w (with_device k obj w) (Done (obj, None)).
Proof.
  intros Hb Hk Hm Hs Ht. unfold edgedevice.PatchStatus.
  apply (runs_answer (PatchEdgeDeviceStatus base obj) w _ (obj, None)). cbn [api].
  rewrite Hk, (modify_found _ _ _ _ _ _ _ Hb).
  assert (patched_device_status base obj base = obj) as ->; [|done].
  unfold patched_device_status, upd_Status. rewrite merge_status_same, <-Hm, <-Hs, <-Ht.
  by destruct obj.
Qed.

(** A patch of the labels leaves the labels of the object sent, up to nil. *)
Lemma runs_PatchLabels k base labels w :
  w_devices w !! k = Some base -> device_key base = k ->
  runs (edgedevice.Patch base (upd_Meta (set_Labels labels) base)) w
    (with_device k (patched_device base (upd_Meta (set_Labels labels) base) base) w)
    (Done (patched_device base (upd_Meta (set_Labels labels) base) base, None)).
Proof.
  intros Hb Hk. unfold edgedevice.Patch.
  apply (runs_answer (PatchEdgeDevice _ _) w _ (_, None)). cbn [api].
  change (device_key (upd_Meta (set_Labels labels) base)) with (device_key base).
  by rewrite Hk, (modify_found _ _ _ _ _ _ _ Hb).
Qed.

Lemma patched_labels base labels :
  relabelled base (patched_device base (upd_Meta (set_Labels labels) base) base) (entries labels).
Proof.
  exists (merge_labels (Labels (EdgeDevice_ObjectMeta base)) labels (Labels (EdgeDevice_ObjectMeta base))).
  split; [|apply entries_merge_labels]. unfold patched_device, merge_meta, upd_Meta.
  cbn [EdgeDevice_ObjectMeta EdgeDevice_Spec set_Labels Labels Finalizers]. by rewrite !merge_field_same.
Qed.

(** ** Adding and removing a workload *)

Lemma hasLabelForWorkload_labels d name :
  hasLabelForWorkload d name = bool_decide (is_Some (labels_of d !! WorkloadLabel name)).
Proof. done. Qed.

(** The label, and what it does to a device that has the workload. *)
Lemma runs_label name k d w :
  w_devices w !! k = Some d -> device_key d = k ->
  exists d', runs
    (if hasLabelForWorkload d name then mret None
     else
       '(_, err) ← edgedevice.Patch d (upd_Meta (fun m =>
          set_Labels (Some (<[WorkloadLabel name := "true"]> (map_make_if_nil (Labels m)))) m) d);
       mret err) w (with_device k d' w) (Done None) /\
    relabelled d d' (if hasLabelForWorkload d name then labels_of d
                     else <[WorkloadLabel name := "true"]> (labels_of d)).
Proof.
  intros Hd Hk. destruct (hasLabelForWorkload d name).
  { exists d. split; [|apply relabelled_same]. rewrite with_device_id by done. apply runs_ret. }
  set (labels := Some (<[WorkloadLabel name := "true"]>
    (map_make_if_nil (Labels (EdgeDevice_ObjectMeta d))))).
  exists (patched_device d (upd_Meta (set_Labels labels) d) d).
  split; [|exact (patched_labels d labels)].
  eapply (runs_bind _ _ w _ (_, None)); [by apply (runs_PatchLabels k d labels)|apply runs_ret].
Qed.

Lemma runs_addWorkloadToDevice name k d w :
  w_devices w !! k = Some d -> device_key d = k ->
  exists d', runs (addWorkloadToDevice name d) w (with_device k d' w) (Done None) /\ gains name d d'.
Proof.
  intros Hd Hk. unfold addWorkloadToDevice, gains. destruct (hasWorkload d name).
  - destruct (runs_label name k d w) as (d' & Hr & Hl); [done..|].
    exists d'. split; [|by apply rewritten_labels].
    eapply (runs_bind _ _ w w (d, None)); [apply runs_ret|exact Hr].
  - set (d1 := EdgeWorkload.with_workload name d).
    destruct (runs_label name k d1 (with_device k d1 w)) as (d' & Hr & Hl);
      [apply with_device_lookup|done|]. rewrite with_device_twice in Hr.
    exists d'. split.
    + eapply (runs_bind _ _ w (with_device k d1 w) (d1, None)); [by apply runs_PatchStatus|exact Hr].
    + unfold workloads_of. rewrite <-elems_append. by apply rewritten_relabelled.
Qed.

(** ** The workload *)

(** The workload [k] of the cluster becomes [v]. *)
Definition with_workload (k : key) (v : EdgeWorkload) (w : World) : World :=
  set_workloads (<[k := v]> (w_workloads w)) w.

Lemma with_workload_lookup k v w : w_workloads (with_workload k v w) !! k = Some v.
Proof. apply lookup_insert_eq. Qed.

Lemma patched_finalizers base fs :
  patched_workload base (upd_WorkloadMeta (set_Finalizers fs) base) base =
    upd_WorkloadMeta (set_Finalizers fs) base.
Proof.
  unfold patched_workload, merge_meta, upd_WorkloadMeta.
  cbn [EdgeWorkload_ObjectMeta EdgeWorkload_Spec EdgeWorkload_TypeMeta EdgeWorkload_Status
    set_Finalizers Labels Finalizers].
  unfold merge_labels. rewrite decide_True by done. rewrite !merge_field_same.
  by destruct base as [? [] ? ?].
Qed.

Lemma patched_workload_labels base m :
  patched_workload base (upd_WorkloadMeta (set_Labels (Some m)) base) base =
    upd_WorkloadMeta (set_Labels (Some m)) base.
Proof.
  unfold patched_workload, merge_meta, upd_WorkloadMeta.
  cbn [EdgeWorkload_ObjectMeta EdgeWorkload_Spec EdgeWorkload_TypeMeta EdgeWorkload_Status
    set_Labels Labels Finalizers].
  rewrite !merge_field_same. unfold merge_labels. destruct (decide _) as [E|_]; [rewrite E|].
  - by destruct base as [? [] ? ?].
  - cbn [entries default from_option id]. rewrite merge_map_same. by destruct base as [? [] ? ?].
Qed.

Lemma runs_PatchWorkload k base obj w :
  w_workloads w !! k = Some base -> workload_key obj = k -> patched_workload base obj base = obj ->
  runs (edgeworkload.Patch base obj) w (set_workloads (keep_workload k obj (w_workloads w)) w)
    (Done (obj, None)).
Proof.
  intros Hb Hk Hp. unfold edgeworkload.Patch.
  apply (runs_answer (PatchEdgeWorkload base obj) w _ (obj, None)). cbn [api].
  unfold modify_workload. by rewrite Hk, Hb, Hp.
Qed.

Lemma keep_live k v m :
  DeletionTimestamp (EdgeWorkload_ObjectMeta v) = None -> keep_workload k v m = <[k := v]> m.
Proof. unfold keep_workload. by intros ->. Qed.

Lemma runs_UpdateSelectorLabels_one v w :
  runs (UpdateSelectorLabels_one v) w w (Done (in_line v)).
Proof.
  destruct (run api (UpdateSelectorLabels_one v) w) as [[w' t] o] eqn:E.
  pose proof E as Hr. apply (run_looks (fun c => c = MapOrder)) in Hr as (-> & He & _).
  - apply exec_UpdateSelectorLabels_one in He as [_ ->]. unfold runs. by rewrite E.
  - by intros c ->.
  - unfold UpdateSelectorLabels_one, range_map. calls_tac; repeat case_match; calls_tac.
Qed.

(** ** Nobody else has the workload *)

Lemma list_of_none {V} (m : gmap key V) meta sel ns :
  (forall k v, m !! k = Some v -> matches sel (meta v) = false) ->
  list_of None m meta sel ns = ([], None).
Proof.
  intros Hm. unfold list_of. f_equal. destruct (List.filter _ _) as [|v l] eqn:E; [done|].
  assert (In v (v :: l)) as Hin by (by left). rewrite <-E in Hin.
  apply filter_In in Hin as [Hin [_ Hs]%andb_true_iff].
  apply list_elem_of_In, list_elem_of_fmap in Hin as ([k v'] & -> & Hin).
  apply elem_of_map_to_list in Hin. by rewrite (Hm k) in Hs.
Qed.

(** No device of the cluster has the label by which devices are looked up. *)
Definition unindexed (name : string) (w : World) : Prop :=
  forall k d, w_devices w !! k = Some d ->
    map_get (Labels (EdgeDevice_ObjectMeta d)) DeviceByWorkloadIndexKey <> Some name.

Lemma runs_getLabelledEdgeDevices name ns w :
  healthy w -> unindexed name w ->
  runs (getLabelledEdgeDevices name ns) w w (Done ([], None)).
Proof.
  intros Hw Hu. unfold getLabelledEdgeDevices, edgedevice.ListForWorkload.
  eapply (runs_call (ListEdgeDevices _ _) _ w w ([], None)); [|apply runs_ret]. cbn [api server]. rewrite Hw.
  f_equal. apply list_of_none. intros k d Hd. cbn [matches]. apply bool_decide_eq_false.
  by apply (Hu k).
Qed.

(** ** What the device is sent *)

Lemma api_observes c w : observes c -> (api c w).1 = w.
Proof. unfold observes. destruct c; cbn; tauto. Qed.

(** A device that lists a workload is sent it. *)
Lemma runs_GetConfiguration_names `{Libs} ns device name d wl w w' dc err :
  healthy w -> w_devices w !! (ns, device) = Some d -> device_key d = (ns, device) ->
  DeletionTimestamp (EdgeDevice_ObjectMeta d) = None -> hasWorkload d name = true ->
  w_workloads w !! (ns, name) = Some wl -> workload_key wl = (ns, name) ->
  DeletionTimestamp (EdgeWorkload_ObjectMeta wl) = None -> (yaml_PodSpec (pod_of wl)).2 = None ->
  runs (k8s.GetConfiguration device ns) w w' (Done (Some dc, err)) ->
  w' = w /\ err = None /\
  exists m, Some m ∈ elems (models.DeviceConfigurationMessage_Workloads dc) /\
    models.Workload_Name m = name /\ models.Workload_Namespace m = ns /\
    models.Workload_Specification m = (yaml_PodSpec (pod_of wl)).1.
Proof.
  intros Hw Hd Hk Hdel Hhas Hs Hkw Hlive Hyaml Hr.
  assert (runs (GetDeviceConfiguration d) w w' (Done (Some dc, err))) as Hr'.
  { unfold k8s.GetConfiguration, facade.GetEdgeDevice, edgedevice.Read in Hr.
    unfold runs in *. unfold mbind, prog_mbind, call in Hr. cbn [prog_bind run] in Hr.
    rewrite (api_GetEdgeDevice ns device w Hw), Hd in Hr.
    by destruct (run api (GetDeviceConfiguration d) w) as [[? ?] ?]. }
  destruct (run api (GetDeviceConfiguration d) w) as [[w1 t] o] eqn:E. unfold runs in Hr'.
  rewrite E in Hr'. destruct Hr' as [Hw1 Ho]. cbn in Hw1, Ho. subst w1 o.
  apply (run_looks observes) in E as (-> & He & Hans);
    [|intros; by apply api_observes|apply GetDeviceConfiguration_calls].
  split; [done|]. apply exec_GetDeviceConfiguration in He as (-> & _ & _ & Hc). split; [done|].
  rewrite Hdel in Hc. destruct Hc as (ews & ws & ss & t1 & t2 & t3 & t4 & -> & H1 & Hws & H2 & _).
  assert (Namespace (EdgeDevice_ObjectMeta d) = ns) as Hns by (by injection Hk).
  rewrite Hns in H1, H2.
  apply hasWorkload_spec in Hhas as (x & Hx & Hxn).
  destruct (collected_elem _ _ _ _ _ x H1 Hx) as (y & t' & Ht' & Hgot & Hin).
  assert (forall ew e, Ev (GetEdgeWorkload ns (Workload_Name x)) (ew, e) ∈ t' -> ew = wl /\ e = None)
    as Hread.
  { intros ew e Hev. rewrite Forall_forall in Hans. specialize (Hans _ (list_subseteq_app_l _ _ _ Ht' _ Hev)).
    cbn [ev_resp ev_req] in Hans. rewrite (api_GetEdgeWorkload ns _ w Hw), Hxn, Hs in Hans.
    by injection Hans. }
  assert (wl ∈ ews) as Hwl.
  { destruct y as [ew|]; cbn in Hgot.
    - destruct Hgot as [Hev _]. destruct (Hread _ _ Hev) as [-> _]. by apply Hin.
    - destruct Hgot as (ew & e & Hev & He). by destruct (Hread _ _ Hev) as [-> ->]. }
  destruct (collected_elem _ _ _ _ _ wl H2 Hwl) as (m & t'' & _ & Hsent & Hm).
  destruct m as [m|]; cbn in Hsent; [|by destruct Hsent].
  destruct Hsent as (Hmn & Hmns & Hspec & _). injection Hkw as Hkns Hkn. exists m.
  rewrite Hws, Hspec, Hmn, Hmns. split_and!; [|done..]. cbn [elems default from_option id].
  apply list_elem_of_fmap. exists m. split; [done|]. by apply Hm.
Qed.

Section Reconciling.
Context `{Libs} `{Formatter} (Concurrency : Z) (HC : (0 < Concurrency < 2 ^ 63)%Z).
Context (name ns device : string) (Hdevice : device <> "").
Implicit Types (wl : EdgeWorkload) (d : EdgeDevice) (w : World).

(** A workload for the device. *)
Definition workload_for wl : Prop :=
  workload_key wl = (ns, name) /\ EdgeWorkloadSpec_Device (EdgeWorkload_Spec wl) = device.

Lemma runs_getMatchingEdgeDevices wl d w :
  healthy w -> workload_for wl -> w_devices w !! (ns, device) = Some d ->
  runs (getMatchingEdgeDevices wl) w w (Done ([d], None)).
Proof using Hdevice.
  intros Hw [Hk Hd] Hdev. unfold getMatchingEdgeDevices. rewrite Hd, decide_True by done.
  injection Hk as Hns _. rewrite Hns. unfold edgedevice.Read. runs_read api_GetEdgeDevice Hdev.
  apply runs_ret.
Qed.

Lemma runs_addWorkloadsToDevices d w w' :
  runs (addWorkloadToDevice name d) w w' (Done None) ->
  runs (addWorkloadsToDevices Concurrency name [d]) w w' (Done None).
Proof using HC.
  intros Hr. unfold addWorkloadsToDevices.
  eapply (runs_bind _ _ w w' []); [|apply runs_ret]. apply runs_executeConcurrent; [exact HC|].
  by apply (runs_until_cancelled _ d w w' None).
Qed.

(** The devices, when the workload stays. *)
Lemma runs_reconcileDevices wl d w w' :
  healthy w -> unindexed name w -> workload_for wl ->
  DeletionTimestamp (EdgeWorkload_ObjectMeta wl) = None ->
  w_devices w !! (ns, device) = Some d ->
  runs (addWorkloadToDevice name d) w w' (Done None) ->
  runs (reconcileDevices Concurrency wl) w w' (Done (no_result, None)).
Proof using HC Hdevice.
  intros Hw Hu Hwl Hdel Hd Hadd. unfold reconcileDevices.
  assert (Name (EdgeWorkload_ObjectMeta wl) = name /\ Namespace (EdgeWorkload_ObjectMeta wl) = ns)
    as [-> ->] by (destruct Hwl as [Hk _]; by injection Hk).
  eapply runs_bind; [by apply runs_getLabelledEdgeDevices|]. cbn [fatal].
  eapply runs_bind; [by apply (runs_getMatchingEdgeDevices wl d)|]. cbn [fatal].
  rewrite Hdel. eapply runs_bind; [by apply runs_addWorkloadsToDevices|]. cbn beta iota.
  unfold removeWorkloadFromNonMatchingDevices.
  eapply (runs_bind _ _ w' w' None); [|apply runs_ret].
  eapply (runs_bind _ _ w' w' []); [|apply runs_ret].
  apply runs_executeConcurrent_none, runs_ret.
Qed.

(** Its finalizer and labels are in place. *)
Lemma runs_Reconcile_devices wl d w w' :
  healthy w -> unindexed name w -> workload_for wl ->
  w_workloads w !! (ns, name) = Some wl -> w_devices w !! (ns, device) = Some d ->
  DeletionTimestamp (EdgeWorkload_ObjectMeta wl) = None ->
  HasFinalizer (EdgeWorkload_ObjectMeta wl) YggdrasilDeviceReferenceFinalizer = true ->
  in_line wl = wl ->
  runs (addWorkloadToDevice name d) w w' (Done None) ->
  runs (Reconcile Concurrency name ns) w w' (Done (no_result, None)).
Proof using HC Hdevice.
  intros Hw Hu Hwl Hs Hd Hdel Hf Hl Hadd. unfold Reconcile, edgeworkload.Read.
  runs_read api_GetEdgeWorkload Hs.
  rewrite Hdel, Hf. cbn [negb]. eapply (runs_bind _ _ w w (false, None)).
  - unfold updateLabelsFromSelector. eapply runs_bind; [apply runs_UpdateSelectorLabels_one|].
    cbn beta iota zeta. rewrite Hl, decide_True by (by right). apply runs_ret.
  - cbn beta iota. by eapply runs_reconcileDevices.
Qed.

(** The first two reconciliations of a new workload. *)
Lemma runs_Reconcile_finalizer wl w :
  healthy w -> w_workloads w !! (ns, name) = Some wl -> workload_key wl = (ns, name) ->
  DeletionTimestamp (EdgeWorkload_ObjectMeta wl) = None ->
  HasFinalizer (EdgeWorkload_ObjectMeta wl) YggdrasilDeviceReferenceFinalizer = false ->
  let wl' := upd_WorkloadMeta (set_Finalizers (Some [YggdrasilDeviceReferenceFinalizer])) wl in
  runs (Reconcile Concurrency name ns) w (with_workload (ns, name) wl' w) (Done (requeue, None)).
Proof.
  intros Hw Hs Hk Hdel Hf wl'. unfold Reconcile, edgeworkload.Read.
  runs_read api_GetEdgeWorkload Hs. rewrite Hdel, Hf. cbn [negb]. fold wl'.
  eapply (runs_bind _ _ w (with_workload (ns, name) wl' w) (wl', None)); [|apply runs_ret].
  unfold with_workload. rewrite <-(keep_live _ wl') by exact Hdel.
  apply runs_PatchWorkload; [done|exact Hk|apply patched_finalizers].
Qed.

Lemma runs_Reconcile_labels wl w :
  healthy w -> w_workloads w !! (ns, name) = Some wl -> workload_key wl = (ns, name) ->
  DeletionTimestamp (EdgeWorkload_ObjectMeta wl) = None ->
  HasFinalizer (EdgeWorkload_ObjectMeta wl) YggdrasilDeviceReferenceFinalizer = true ->
  ~ aligned wl ->
  runs (Reconcile Concurrency name ns) w (with_workload (ns, name) (in_line wl) w)
    (Done (no_result, None)).
Proof.
  intros Hw Hs Hk Hdel Hf Ha. unfold Reconcile, edgeworkload.Read.
  runs_read api_GetEdgeWorkload Hs. rewrite Hdel, Hf. cbn [negb].
  eapply (runs_bind _ _ w (with_workload (ns, name) (in_line wl) w) (true, None)); [|apply runs_ret].
  unfold updateLabelsFromSelector. eapply runs_bind; [apply runs_UpdateSelectorLabels_one|].
  cbn beta iota zeta. rewrite decide_False by (unfold aligned in Ha; clear HC Hdevice; tauto).
  eapply (runs_bind _ _ w _ (in_line wl, None)); [|apply runs_ret].
  unfold with_workload. rewrite <-(keep_live _ (in_line wl)) by exact Hdel.
  apply runs_PatchWorkload; [done|exact Hk|apply patched_workload_labels].
Qed.

Lemma unlabelled_not_aligned wl :
  workload_for wl ->
  map_get (Labels (EdgeWorkload_ObjectMeta wl)) (CreateSelectorLabel DeviceNameLabel) = None ->
  ~ aligned wl.
Proof using Hdevice.
  intros [_ Hd] Hm Ha. unfold aligned in Ha. cbn [in_line EdgeWorkload_ObjectMeta upd_WorkloadMeta
    set_Labels Labels] in Ha.
  assert (selector_labels (EdgeWorkload_Spec wl) = {[CreateSelectorLabel DeviceNameLabel := device]}) as E
    by (unfold selector_labels; by rewrite Hd, decide_True).
  rewrite E in Ha. set (m := {[_ := _]} ∪ _) in Ha.
  assert (m !! CreateSelectorLabel DeviceNameLabel = None) as Hnone.
  { destruct Ha as [Ha|[Ha _]].
    - by rewrite <-Ha in Hm.
    - apply map_size_empty_inv in Ha. cbn [entries default from_option id] in Ha.
      by rewrite Ha, lookup_empty. }
  apply lookup_union_None in Hnone as [Hnone _]. by rewrite lookup_singleton_eq in Hnone.
Qed.

End Reconciling.

(** ** Properties *)

Lemma WorkloadLabel_not_index name : WorkloadLabel name <> DeviceByWorkloadIndexKey.
Proof. done. Qed.

Lemma gains_has name d d' :
  gains name d d' -> hasWorkload d' name = true /\ hasLabelForWorkload d' name = true.
Proof.
  intros (_ & _ & Hw & Hl)%rewritten_facts. split.
  - apply hasWorkload_spec. rewrite Hw. destruct (hasWorkload d name) eqn:E.
    + by apply hasWorkload_spec in E.
    + eexists. split; [apply elem_of_app; right; left|done].
  - rewrite hasLabelForWorkload_labels, Hl. destruct (hasLabelForWorkload d name) eqn:E; [done|].
    apply bool_decide_eq_true. rewrite lookup_insert_eq. by eexists.
Qed.

Lemma gains_unindexed name k d d' w :
  unindexed name w -> w_devices w !! k = Some d -> gains name d d' ->
  unindexed name (with_device k d' w).
Proof.
  intros Hu Hd (_ & _ & _ & Hl)%rewritten_facts k1 d1 Hd1. cbn [with_device set_devices w_devices] in Hd1.
  apply lookup_insert_Some in Hd1 as [[<- <-]|[_ Hd1]]; [|by apply (Hu k1)].
  change (labels_of d' !! DeviceByWorkloadIndexKey <> Some name). rewrite Hl.
  pose proof (Hu k d Hd) as Hn. destruct (hasLabelForWorkload d name); [exact Hn|].
  rewrite lookup_insert_ne by apply WorkloadLabel_not_index. exact Hn.
Qed.

Lemma runs_addWorkloadToDevice_again name d w :
  hasWorkload d name = true -> hasLabelForWorkload d name = true ->
  runs (addWorkloadToDevice name d) w w (Done None).
Proof.
  intros Hw Hl. unfold addWorkloadToDevice. rewrite Hw. eapply runs_bind; [apply runs_ret|].
  cbn beta iota. rewrite Hl. apply runs_ret.
Qed.

(** C9: a workload reaches the device it names: after three reconciliations of
    a workload that is new, whatever the concurrency, the device lists it
    and bears its label, and no other device has changed; a further
    reconciliation changes nothing; and the configuration the device is then
    sent, when it is sent one, has the workload with its specification. *)
Theorem workload_rolls_out `{Libs} `{Formatter} Concurrency ns name device wl d w :
  (0 < Concurrency < 2 ^ 63)%Z -> device <> "" -> healthy w -> unindexed name w ->
  w_workloads w !! (ns, name) = Some wl -> workload_for name ns device wl ->
  DeletionTimestamp (EdgeWorkload_ObjectMeta wl) = None ->
  HasFinalizer (EdgeWorkload_ObjectMeta wl) YggdrasilDeviceReferenceFinalizer = false ->
  map_get (Labels (EdgeWorkload_ObjectMeta wl)) (CreateSelectorLabel DeviceNameLabel) = None ->
  w_devices w !! (ns, device) = Some d -> device_key d = (ns, device) ->
  DeletionTimestamp (EdgeDevice_ObjectMeta d) = None ->
  exists w1 w2 w3 d',
    runs (Reconcile Concurrency name ns) w w1 (Done (requeue, None)) /\
    runs (Reconcile Concurrency name ns) w1 w2 (Done (no_result, None)) /\
    runs (Reconcile Concurrency name ns) w2 w3 (Done (no_result, None)) /\
    w_devices w3 = <[(ns, device) := d']> (w_devices w) /\ gains name d d' /\
    runs (Reconcile Concurrency name ns) w3 w3 (Done (no_result, None)) /\
    ((yaml_PodSpec (pod_of wl)).2 = None -> forall w4 dc err,
      runs (k8s.GetConfiguration device ns) w3 w4 (Done (Some dc, err)) ->
      w4 = w3 /\ err = None /\
      exists m, Some m ∈ elems (models.DeviceConfigurationMessage_Workloads dc) /\
        models.Workload_Name m = name /\ models.Workload_Namespace m = ns /\
        models.Workload_Specification m = (yaml_PodSpec (pod_of wl)).1).
Proof.
  intros HC Hdev Hw Hu Hs Hwl Hdel Hf Hlabel Hd Hkd Hlive.
  set (wl1 := upd_WorkloadMeta (set_Finalizers (Some [YggdrasilDeviceReferenceFinalizer])) wl).
  set (wl2 := in_line wl1).
  set (w1 := with_workload (ns, name) wl1 w). set (w2 := with_workload (ns, name) wl2 w1).
  destruct (runs_addWorkloadToDevice name (ns, device) d w2 Hd Hkd) as (d' & Hadd & Hg).
  set (w3 := with_device (ns, device) d' w2) in *.
  assert (HasFinalizer (EdgeWorkload_ObjectMeta wl1) YggdrasilDeviceReferenceFinalizer = true) as Hf1
    by (apply HasFinalizer_spec; left).
  assert (w_workloads w3 !! (ns, name) = Some wl2) as Hs3 by apply with_workload_lookup.
  assert (w_devices w3 !! (ns, device) = Some d') as Hd3 by apply with_device_lookup.
  assert (unindexed name w3) as Hu3 by exact (gains_unindexed name _ d d' w2 Hu Hd Hg).
  destruct (gains_has name d d' Hg) as [Hhas Hlab].
  exists w1, w2, w3, d'. refine (conj _ (conj _ (conj _ (conj _ (conj _ (conj _ _)))))).
  - apply runs_Reconcile_finalizer; [done|done|apply Hwl|done|done].
  - apply runs_Reconcile_labels; [done|apply with_workload_lookup|apply Hwl|done|done|].
    by apply (unlabelled_not_aligned name ns device Hdev wl1).
  - apply (runs_Reconcile_devices Concurrency HC name ns device Hdev wl2 d); try done.
    apply in_line_idemp.
  - done.
  - exact Hg.
  - apply (runs_Reconcile_devices Concurrency HC name ns device Hdev wl2 d'); try done.
    + apply in_line_idemp.
    + by apply runs_addWorkloadToDevice_again.
  - intros Hyaml w4 dc err. destruct (rewritten_facts _ _ _ _ Hg) as (Hk' & Hdel' & _).
    apply (runs_GetConfiguration_names ns device name d' wl2 w3); try done.
    + by rewrite Hk'.
    + by rewrite Hdel'.
    + apply Hwl.
Qed.

(** ** Examples *)

#[local] Existing Instance trivial_libs.
#[local] Existing Instance plain_format.

Definition new_workload : EdgeWorkload := upd_WorkloadMeta (fun _ => named "w1" "ns") w1.
Definition new_world : World :=
  set_workloads {[("ns", "w1") := new_workload]} (set_devices {[("ns", "d1") := d1]} empty_world).
Lemma unindexed_single name k d wl :
  map_get (Labels (EdgeDevice_ObjectMeta d)) DeviceByWorkloadIndexKey = None ->
  unindexed name (set_workloads wl (set_devices {[k := d]} empty_world)).
Proof.
  intros Hd k' d' Hd'. cbn in Hd'. apply lookup_singleton_Some in Hd' as [_ <-]. by rewrite Hd.
Qed.

Lemma workload_rolls_out_witness :
  exists w3 d', runs (Reconcile 3 "w1" "ns") w3 w3 (Done (no_result, None)) /\
    w_devices w3 = <[("ns", "d1") := d']> (w_devices new_world) /\ gains "w1" d1 d' /\
    forall w4 dc err, runs (k8s.GetConfiguration "d1" "ns") w3 w4 (Done (Some dc, err)) ->
      w4 = w3 /\ err = None.
Proof.
  assert ((0 < 3 < 2 ^ 63)%Z) as HC by lia.
  destruct (workload_rolls_out 3 "ns" "w1" "d1" new_workload d1 new_world HC) as
    (w1 & w2 & w3 & d' & _ & _ & _ & Hd & Hg & Hr & Hc).
  - discriminate.
  - intros c. reflexivity.
  - apply unindexed_single. vm_compute. reflexivity.
  - vm_compute. reflexivity.
  - split; vm_compute; reflexivity.
  - reflexivity.
  - vm_compute. reflexivity.
  - vm_compute. reflexivity.
  - vm_compute. reflexivity.
  - reflexivity.
  - reflexivity.
  - exists w3, d'. split; [exact Hr|]. split; [exact Hd|]. split; [exact Hg|].
    intros w4 dc err Hcfg. assert ((yaml_PodSpec (pod_of new_workload)).2 = None) as Hy by reflexivity.
    destruct (Hc Hy w4 dc err Hcfg) as (Hw4 & He & _). split; [exact Hw4|exact He].
Defined.
