(* ===== verification/Ownership.v ===== *)
(** * Goroutines that own their devices

    A weakest precondition for programs against a cluster that may answer in
    more than one way, and what it says of goroutines: each is given devices of
    its own, nobody else touches them, so what holds of each goroutine alone
    holds of all of them together, for every schedule. *)
From S2P Require Import Prelude GoData GoStrings V1alpha1 Models Env Testbed Labels Utils.
From S2P Require Import ApiServer Repository Controller.
Import v1alpha1.

(** ** The weakest precondition *)

Section Wp.
Context {Req : Type} {Resp : Req -> Type} {S : Type}.
(** The calls that are possible in a state, and how they may end. *)
Context (may : S -> Req -> Prop) (acts : S -> forall c : Req, Resp c -> S -> Prop).

Fixpoint wp {A} (Q : A -> S -> Prop) (p : prog Resp A) (s : S) : Prop :=
  match p with
  | Ret a => Q a s
  | Panic => False
  | Call c k => may s c /\ forall r s', acts s c r s' -> wp Q (k r) s'
  end.

Lemma wp_mono {A} (Q R : A -> S -> Prop) (p : prog Resp A) s :
  (forall a s', Q a s' -> R a s') -> wp Q p s -> wp R p s.
Proof.
  intros HQR. revert s. induction p as [a| |c k IH]; intros s; [apply HQR|done|].
  intros [Hc Hk]. split; [done|]. intros r s' Ha. by apply IH, Hk.
Qed.

Lemma wp_bind {A B} (Q : B -> S -> Prop) (p : prog Resp A) (f : A -> prog Resp B) s :
  wp (fun a s' => wp Q (f a) s') p s -> wp Q (p ≫= f) s.
Proof.
  revert s. induction p as [a| |c k IH]; intros s Hp; [exact Hp|done|].
  destruct Hp as [Hc Hk]. split; [done|]. intros r s' Ha. exact (IH r s' (Hk r s' Ha)).
Qed.

Lemma wp_seq {A B} (R : A -> S -> Prop) (Q : B -> S -> Prop) (p : prog Resp A)
    (f : A -> prog Resp B) s :
  wp R p s -> (forall a s', R a s' -> wp Q (f a) s') -> wp Q (p ≫= f) s.
Proof. intros Hp Hf. apply wp_bind. eapply wp_mono; [|exact Hp]. exact Hf. Qed.

(** The states a run goes through. *)
Fixpoint goes (s : S) (t : list (event Resp)) (s' : S) : Prop :=
  match t with
  | [] => s' = s
  | e :: t => exists s1, acts s (ev_req e) (ev_resp e) s1 /\ goes s1 t s'
  end.

(** The run against a server that answers in one of the ways. *)
Lemma run_goes {A} (srv : forall c : Req, S -> S * Resp c) (p : prog Resp A) s s' t o :
  (forall c s, acts s c (srv c s).2 (srv c s).1) -> run srv p s = (s', t, o) -> goes s t s'.
Proof.
  intros Hsrv. revert s s' t o. induction p as [a| |c k IH]; intros s s' t o; cbn [run].
  - by intros [= <- <- <-].
  - by intros [= <- <- <-].
  - specialize (Hsrv c s). destruct (srv c s) as [s1 r]. cbn [fst snd] in Hsrv.
    destruct (run srv (k r) s1) as [[s2 t'] o'] eqn:E. intros [= <- <- <-].
    exists s1. split; [exact Hsrv|]. exact (IH r _ _ _ _ E).
Qed.

(** Every run ends without a panic, where it should. *)
Lemma wp_exec {A} (Q : A -> S -> Prop) (p : prog Resp A) s t o s' :
  wp Q p s -> exec p t o -> goes s t s' -> exists a, o = Done a /\ Q a s'.
Proof.
  intros Hp He. revert s Hp. induction He as [a| |c k r t o He IH]; intros s Hp Hg.
  - cbn in Hg. subst. by exists a.
  - done.
  - destruct Hg as (s1 & Ha & Hg). destruct Hp as [_ Hk]. by apply (IH s1); [apply Hk|].
Qed.
End Wp.

(** A state that simulates another. *)
Lemma wp_simulate {Req} {Resp : Req -> Type} {S S'} may acts may' acts' (R : S -> S' -> Prop)
    {A} (Q : A -> S -> Prop) (p : prog Resp A) s s' :
  (forall s s' c, R s s' -> may s c -> may' s' c /\ forall r s2', acts' s' c r s2' ->
     exists s2, acts s c r s2 /\ R s2 s2') ->
  R s s' -> wp may acts Q p s -> wp may' acts' (fun a s2' => exists s2, R s2 s2' /\ Q a s2) p s'.
Proof.
  intros Hsim. revert s s'. induction p as [a| |c k IH]; intros s s' HR Hp; [by exists s|done|].
  destruct Hp as [Hc Hk]. destruct (Hsim _ _ _ HR Hc) as [Hc' Ha]. split; [done|].
  intros r s2' (s2 & H1 & H2)%Ha. eapply IH; [exact H2|by apply Hk].
Qed.

(** ** Devices of one's own *)

Notation owned := (gmap key EdgeDevice).

(** A goroutine only patches devices it owns. *)
Definition local (m : owned) (c : Req) : Prop :=
  match c with
  | Schedule | ContextDone => True
  | PatchEdgeDevice _ obj | PatchEdgeDeviceStatus _ obj => is_Some (m !! device_key obj)
  | _ => False
  end.

Definition patches (m : owned) (k : key) (f : EdgeDevice -> EdgeDevice)
    (r : EdgeDevice * option error) (m' : owned) : Prop :=
  exists d, m !! k = Some d /\ r = (f d, None) /\ m' = <[k := f d]> m.

Definition acts_on (m : owned) (c : Req) : Resp c -> owned -> Prop :=
  match c return Resp c -> owned -> Prop with
  | Schedule => fun _ m' => m' = m
  | ContextDone => fun r m' => r = None /\ m' = m
  | PatchEdgeDevice base obj => patches m (device_key obj) (patched_device base obj)
  | PatchEdgeDeviceStatus base obj => patches m (device_key obj) (patched_device_status base obj)
  | _ => fun _ _ => False
  end.

Notation owns := (wp local acts_on).

Lemma local_frame m mf c : local m c -> local (m ∪ mf) c.
Proof. destruct c; try done; cbn [local]; intros [d Hd]; exists d; by apply lookup_union_Some_l. Qed.

Lemma acts_frame m mf c r m2 :
  m ##ₘ mf -> local m c -> acts_on (m ∪ mf) c r m2 ->
  exists m', m2 = m' ∪ mf /\ m' ##ₘ mf /\ acts_on m c r m'.
Proof.
  intros Hd Hl.
  assert (forall k f r', is_Some (m !! k) -> patches (m ∪ mf) k f r' m2 ->
    exists m', m2 = m' ∪ mf /\ m' ##ₘ mf /\ patches m k f r' m') as Hp.
  { intros k f r' [d Hk] (d' & Hk' & -> & ->). rewrite (lookup_union_Some_l m mf k d Hk) in Hk'.
    injection Hk' as <-. exists (<[k := f d]> m). split; [by apply insert_union_l|].
    split; [|by exists d]. apply map_disjoint_insert_l. split; [|done].
    by apply (map_disjoint_Some_l m mf k d). }
  destruct c; try done; cbn [acts_on local] in *.
  - by apply Hp.
  - by apply Hp.
  - intros ->. by exists m.
  - intros [-> ->]. by exists m.
Qed.

(** What is not owned stays as it is. *)
Lemma owns_frame {A : Type} (Q : A -> owned -> Prop) (p : M A) m mf :
  m ##ₘ mf -> owns Q p m ->
  owns (fun a m2 => exists m', m2 = m' ∪ mf /\ m' ##ₘ mf /\ Q a m') p (m ∪ mf).
Proof.
  intros Hd Hp.
  refine (wp_mono _ _ _ _ p _ _ (wp_simulate local acts_on local acts_on
    (fun m m2 => m2 = m ∪ mf /\ m ##ₘ mf) Q p m (m ∪ mf) _ (conj eq_refl Hd) Hp)).
  - intros a m2 (m' & [-> ?] & ?). by exists m'.
  - clear. intros m m2 c [-> Hd] Hl. split; [by apply local_frame|]. intros r m2 Ha.
    destruct (acts_frame m mf c r m2 Hd Hl Ha) as (m' & -> & ? & ?). by exists m'.
Qed.

(** Two results over two parts of what is owned. *)
Definition apart {A B : Type} (Q1 : A -> owned -> Prop) (Q2 : B -> owned -> Prop) (ab : A * B) (m : owned) :
  Prop := exists m1 m2, m = m1 ∪ m2 /\ m1 ##ₘ m2 /\ Q1 ab.1 m1 /\ Q2 ab.2 m2.

(** Goroutines that own different devices do not disturb each other. *)
Lemma owns_par2 {A B : Type} (Q1 : A -> owned -> Prop) (Q2 : B -> owned -> Prop) (p : M A) (q : M B) m1 m2 :
  m1 ##ₘ m2 -> owns Q1 p m1 -> owns Q2 q m2 ->
  owns (apart Q1 Q2) (par2 Schedule (fun b => b) p q) (m1 ∪ m2).
Proof.
  revert q m1 m2. induction p as [a| |c k IHp]; intros q m1 m2 Hd Hp Hq; [|done|].
  - rewrite par2_Ret_l. apply (wp_bind local acts_on (apart Q1 Q2) q (fun b => Ret (a, b))).
    rewrite map_union_comm by done.
    eapply wp_mono; [|apply owns_frame, Hq; by symmetry].
    intros b m (m' & -> & Hd' & HQ). exists m1, m'. split_and!; [by apply map_union_comm|by symmetry|done..].
  - revert m1 m2 Hd Hp Hq. induction q as [b| |d l IHq]; intros m1 m2 Hd Hp Hq; [|done|].
    + apply (wp_bind local acts_on (apart Q1 Q2) (Call c k) (fun a => Ret (a, b))).
      eapply wp_mono; [|by apply owns_frame, Hp]. intros a m (m' & -> & Hd' & HQ). by exists m', m2.
    + split; [done|]. intros s m ->. destruct s.
      * pose proof Hp as [Hc Hk]. split; [by apply local_frame|]. intros r m Ha.
        destruct (acts_frame m1 m2 c r m Hd Hc Ha) as (m' & -> & Hd' & Ha'). by apply IHp; [|apply Hk|].
      * pose proof Hq as [Hc Hk]. rewrite map_union_comm by done.
        split; [by apply local_frame|]. intros r m Ha.
        destruct (acts_frame m2 m1 d r m (symmetry Hd) Hc Ha) as (m' & -> & Hd' & Ha').
        rewrite map_union_comm by done. by apply IHq; [|done|apply Hk].
Qed.

(** ** Devices worked on one by one *)

Definition owned_of (ds : list EdgeDevice) : owned :=
  list_to_map ((fun d => (device_key d, d)) <$> ds).

(** Every device has become one that [R] relates to it. *)
Definition changed (R : EdgeDevice -> EdgeDevice -> Prop) : owned -> owned -> Prop :=
  map_Forall2 (fun _ => R).

Lemma owned_of_cons d ds : owned_of (d :: ds) = <[device_key d := d]> (owned_of ds).
Proof. done. Qed.

Lemma owned_of_none d ds : device_key d ∉ device_key <$> ds -> owned_of ds !! device_key d = None.
Proof.
  intros Hd. apply not_elem_of_list_to_map. rewrite <-list_fmap_compose. exact Hd.
Qed.

Lemma owned_of_app ds1 ds2 : owned_of (ds1 ++ ds2) = owned_of ds1 ∪ owned_of ds2.
Proof.
  induction ds1 as [|d ds1 IH]; [change (owned_of ds2 = ∅ ∪ owned_of ds2); by rewrite (left_id_L ∅ (∪))|].
  cbn [app]. rewrite !owned_of_cons, IH. by apply insert_union_l.
Qed.

Lemma owned_of_disjoint ds1 ds2 :
  NoDup (device_key <$> ds1 ++ ds2) -> owned_of ds1 ##ₘ owned_of ds2.
Proof.
  induction ds1 as [|d ds1 IH]; cbn [app fmap list_fmap]; [intros _; apply map_disjoint_empty_l|].
  intros [Hn Hnd]%NoDup_cons. rewrite owned_of_cons. apply map_disjoint_insert_l. split; [|by apply IH].
  apply owned_of_none. rewrite fmap_app, not_elem_of_app in Hn. apply Hn.
Qed.

Lemma changed_union R m1 m1' m2 m2' :
  changed R m1 m1' -> changed R m2 m2' -> changed R (m1 ∪ m2) (m1' ∪ m2').
Proof.
  intros H1 H2 k. specialize (H1 k). specialize (H2 k). rewrite !lookup_union.
  destruct H1, H2; by constructor.
Qed.

Section Each.
Context (R : EdgeDevice -> EdgeDevice -> Prop).

Definition well_done (ds : list EdgeDevice) (errs : list error) (m' : owned) : Prop :=
  errs = [] /\ changed R (owned_of ds) m'.

(** A loop over the devices, whose body does well on each. *)
Lemma owns_for_range (body : list error -> EdgeDevice -> M (ctl (list error) (list error))) ds :
  NoDup (device_key <$> ds) ->
  (forall d, d ∈ ds -> owns (fun c m' => c = Next [] /\ changed R (owned_of [d]) m') (body [] d) (owned_of [d])) ->
  owns (fun c m' => c = Next [] /\ changed R (owned_of ds) m') (for_range ds [] body) (owned_of ds).
Proof.
  induction ds as [|d ds IH]; intros Hnd Hb; cbn [for_range].
  { split; [done|]. apply map_Forall2_empty. }
  pose proof Hnd as [_ Hnd']%NoDup_cons.
  change (owned_of (d :: ds)) with (owned_of ([d] ++ ds)). rewrite (owned_of_app [d] ds).
  apply (owned_of_disjoint [d] ds) in Hnd.
  eapply wp_seq; [apply owns_frame, Hb; [exact Hnd|left]|].
  intros c m (m1 & -> & Hd1 & -> & Hc1). cbn beta iota.
  rewrite (map_union_comm m1) by done.
  eapply wp_mono; [|apply owns_frame, IH; [by symmetry|done|intros; apply Hb; by right]].
  intros c m (m2 & -> & Hd2 & -> & Hc2). split; [done|].
  rewrite (map_union_comm m2) by done. by apply changed_union.
Qed.

Lemma owns_until_cancelled work ds :
  NoDup (device_key <$> ds) ->
  (forall d, d ∈ ds -> owns (well_done [d]) (work d) (owned_of [d])) ->
  owns (well_done ds) (until_cancelled work ds) (owned_of ds).
Proof.
  intros Hnd Hw. unfold until_cancelled. eapply wp_seq.
  - apply owns_for_range; [done|]. intros d Hd. split; [done|]. intros r m [-> ->].
    eapply wp_seq; [by apply Hw|]. intros errs m' [-> Hc]. by split.
  - intros c m' [-> Hc]. by split.
Qed.

(** As many goroutines as the concurrency says, however they are scheduled. *)
Lemma owns_par_list (f : ConcurrentFunc) parts :
  NoDup (device_key <$> concat parts) ->
  (forall part, part ∈ parts -> owns (well_done part) (f part) (owned_of part)) ->
  owns (fun rs m' => concat rs = [] /\ changed R (owned_of (concat parts)) m')
    (par_list Schedule (fun b => b) (f <$> parts)) (owned_of (concat parts)).
Proof.
  induction parts as [|part parts IH]; intros Hnd Hf.
  { split; [done|]. apply map_Forall2_empty. }
  cbn [fmap list_fmap par_list concat] in *. rewrite owned_of_app.
  pose proof (owned_of_disjoint _ _ Hnd) as Hd.
  rewrite fmap_app in Hnd. apply NoDup_app in Hnd as (_ & _ & Hnd).
  set (Q := fun (rs : list (list error)) m' => concat rs = [] /\ changed R (owned_of (concat parts)) m').
  assert (owns Q (par_list Schedule (fun b => b) (f <$> parts)) (owned_of (concat parts))) as IHp
    by (apply IH; [done|intros; apply Hf; by right]).
  eapply wp_seq; [apply owns_par2; [exact Hd|apply Hf; left|exact IHp]|].
  intros [errs rs] m' (m1 & m2 & -> & Hd' & [E1 Hc1] & [E2 Hc2]). cbn [fst snd] in *.
  split; [cbn [concat]; by rewrite E1, E2|]. by apply changed_union.
Qed.

Lemma owns_executeConcurrent Concurrency (f : ConcurrentFunc) ds :
  (0 < Concurrency < 2 ^ 63)%Z -> NoDup (device_key <$> ds) ->
  (forall part, part ⊆ ds -> NoDup (device_key <$> part) -> owns (well_done part) (f part) (owned_of part)) ->
  owns (well_done ds) (executeConcurrent Concurrency f ds) (owned_of ds).
Proof.
  intros HC Hnd Hf. unfold executeConcurrent. case_decide; [by apply Hf|].
  unfold ExecuteConcurrent. destruct (decide _) as [[->|?]|Hne]; [|lia|].
  { split; [done|]. apply map_Forall2_empty. }
  destruct (splitEdgeDevices_parts ds Concurrency HC) as (parts & -> & <- & _).
  cbn [lift]. rewrite bind_ret_l. eapply wp_seq; [apply owns_par_list; [done|]|].
  - intros part Hp. assert (exists l1 l2, concat parts = l1 ++ part ++ l2) as (l1 & l2 & E).
    { apply list_elem_of_split in Hp as (p1 & p2 & ->). exists (concat p1), (concat p2).
      by rewrite concat_app. }
    rewrite E in *. apply Hf; [set_solver|]. rewrite !fmap_app in Hnd.
    apply NoDup_app in Hnd as (_ & _ & Hnd). by apply NoDup_app in Hnd as [? _].
  - intros rs m' [Hrs Hc]. by split.
Qed.
End Each.
