(* ===== verification/Placement.v ===== *)
(** * Workloads for many devices

    The reconciler of workloads against a cluster that works, for workloads
    that name a device or select devices by their labels: however the
    goroutines are scheduled, in whatever order the devices are listed and the
    maps visited, and whatever the concurrency, one reconciliation leaves the
    devices the workload is meant for with it and all others alone, or takes
    it off them when it is being deleted. *)
From S2P Require Import Prelude GoData GoStrings V1alpha1 Models Env Testbed Labels Utils.
From S2P Require Import ApiServer Repository Controller EdgeWorkload Rollout Ownership.
Import v1alpha1.

(** ** One device *)

(** Nothing is done to a device that has the workload and its label. *)
Definition provided (name : string) (d d' : EdgeDevice) : Prop :=
  gains name d d' /\ (hasWorkload d name = true -> hasLabelForWorkload d name = true -> d' = d).

Lemma patched_status_same base obj :
  EdgeDevice_ObjectMeta obj = EdgeDevice_ObjectMeta base -> EdgeDevice_Spec obj = EdgeDevice_Spec base ->
  EdgeDevice_TypeMeta obj = EdgeDevice_TypeMeta base -> patched_device_status base obj base = obj.
Proof.
  intros Hm Hs Ht. unfold patched_device_status, upd_Status.
  rewrite merge_status_same, <-Hm, <-Hs, <-Ht. by destruct obj.
Qed.

Lemma owns_PatchStatus {B} (Q : B -> owned -> Prop) base obj (f : EdgeDevice * option error -> M B) :
  EdgeDevice_ObjectMeta obj = EdgeDevice_ObjectMeta base -> EdgeDevice_Spec obj = EdgeDevice_Spec base ->
  EdgeDevice_TypeMeta obj = EdgeDevice_TypeMeta base ->
  owns Q (f (obj, None)) (owned_of [obj]) ->
  owns Q (edgedevice.PatchStatus obj base ≫= f) (owned_of [base]).
Proof.
  intros Hm Hs Ht Hf. assert (device_key obj = device_key base) as Hk by (unfold device_key; by rewrite Hm).
  split.
  - cbn [local]. rewrite Hk. exists base. apply lookup_insert_eq.
  - intros r m (d & Hd & -> & ->). rewrite Hk in *.
    rewrite owned_of_cons, lookup_insert_eq in Hd. injection Hd as <-.
    rewrite patched_status_same by done.
    rewrite owned_of_cons, insert_insert_eq, <-Hk. exact Hf.
Qed.

Lemma owns_PatchLabels {B} (Q : B -> owned -> Prop) base labels (f : EdgeDevice * option error -> M B) :
  let obj := upd_Meta (set_Labels labels) base in
  let d := patched_device base obj base in
  owns Q (f (d, None)) (owned_of [d]) ->
  owns Q (edgedevice.Patch base obj ≫= f) (owned_of [base]).
Proof.
  intros obj d Hf. split.
  - cbn [local]. exists base. apply lookup_insert_eq.
  - intros r m (d0 & Hd & -> & ->). change (device_key obj) with (device_key base) in *.
    rewrite owned_of_cons, lookup_insert_eq in Hd. injection Hd as <-.
    rewrite owned_of_cons, insert_insert_eq. exact Hf.
Qed.

Lemma changed_one (R : EdgeDevice -> EdgeDevice -> Prop) d d' :
  device_key d' = device_key d -> R d d' -> changed R (owned_of [d]) (owned_of [d']).
Proof.
  intros Hk HR. unfold changed. rewrite !owned_of_cons, Hk.
  apply map_Forall2_insert_2; [done|apply map_Forall2_empty].
Qed.

(** The label, on a device that has the workload. *)
Lemma owns_label name d :
  owns (fun err m' => err = None /\ exists d', m' = owned_of [d'] /\ device_key d' = device_key d /\
      relabelled d d' (if hasLabelForWorkload d name then labels_of d
                       else <[WorkloadLabel name := "true"]> (labels_of d)) /\
      (hasLabelForWorkload d name = true -> d' = d))
    (if hasLabelForWorkload d name then mret None
     else
       '(_, err) ← edgedevice.Patch d (with_label name d);
       mret err) (owned_of [d]).
Proof.
  destruct (hasLabelForWorkload d name).
  { split; [done|]. exists d. split_and!; [done..|apply relabelled_same|done]. }
  set (labels := Some (<[WorkloadLabel name := "true"]>
    (map_make_if_nil (Labels (EdgeDevice_ObjectMeta d))))).
  apply (owns_PatchLabels _ d labels). split; [done|].
  eexists. split; [reflexivity|]. split; [done|]. split; [exact (patched_labels d labels)|done].
Qed.

Lemma owns_addWorkloadToDevice name d :
  owns (fun err m' => err = None /\ changed (provided name) (owned_of [d]) m')
    (addWorkloadToDevice name d) (owned_of [d]).
Proof.
  unfold addWorkloadToDevice, provided, gains. destruct (hasWorkload d name) eqn:Hw.
  - rewrite bind_ret_l. eapply wp_mono; [|apply owns_label].
    intros err m (-> & d' & -> & Hk & Hl & Hsame). split; [done|]. apply changed_one; [done|].
    rewrite Hw. split; [by apply rewritten_labels|auto].
  - apply owns_PatchStatus; [done..|]. fold (EdgeWorkload.with_workload name d).
    eapply wp_mono; [|apply owns_label].
    intros err m (-> & d' & -> & Hk & Hl & _). split; [done|]. apply changed_one; [done|].
    rewrite Hw. split; [|done]. unfold workloads_of. rewrite <-elems_append.
    by apply rewritten_relabelled.
Qed.

Lemma owns_removeWorkloadFromDevice name d :
  owns (fun err m' => err = None /\ changed (loses name) (owned_of [d]) m')
    (removeWorkloadFromDevice name d) (owned_of [d]).
Proof.
  unfold removeWorkloadFromDevice, loses. apply owns_PatchStatus; [done..|].
  set (d1 := upd_Status _ d).
  assert (forall d' ls, relabelled d1 d' ls ->
    rewritten d d' (filter (fun x => Workload_Name x <> name) (workloads_of d)) ls) as Hd1
    by (intros d' ls Hl; apply rewritten_relabelled in Hl; by rewrite without_workload_elems in Hl).
  cbn beta iota. change (Labels (EdgeDevice_ObjectMeta d1)) with (Labels (EdgeDevice_ObjectMeta d)).
  unfold labels_of at 1. destruct (Labels (EdgeDevice_ObjectMeta d)) as [labels|] eqn:El.
  - apply (owns_PatchLabels _ d1 (Some (delete (WorkloadLabel name) labels))). split; [done|].
    apply changed_one; [done|]. apply Hd1. unfold labels_of. rewrite El.
    exact (patched_labels d1 (Some (delete (WorkloadLabel name) labels))).
  - split; [done|]. apply changed_one; [done|]. apply Hd1. unfold labels_of. rewrite El.
    rewrite delete_id by apply lookup_empty. pose proof (relabelled_same d1) as Hs.
    change (labels_of d1) with (labels_of d) in Hs. unfold labels_of in Hs. by rewrite El in Hs.
Qed.

(** ** The cluster *)

Section Cluster.
Context `{Libs}.

(** The devices of a namespace that a selector selects. *)
Definition selected (s : LabelSelector) (ns : string) (w : World) : gmap key EdgeDevice :=
  filter (fun '(k, d) => k.1 = ns /\ selector_matches s (labels_of d) = true) (w_devices w).

(** The API server of ApiServer.v, with the selectors of Kubernetes; devices
    are listed, maps visited and goroutines scheduled in any order. *)
Definition answers (w : World) (c : Req) : Resp c -> World -> Prop :=
  match c return Resp c -> World -> Prop with
  | Schedule | MapOrder => fun _ w' => w' = w
  | ListEdgeDevices (MatchingSelector s) ns => fun r w' =>
      w' = w /\ r.2 = None /\ r.1 ≡ₚ (map_to_list (selected s ns w)).*2
  | c => fun r w' => api c w = (w', r)
  end.

Notation works := (wp (fun _ _ => True) answers).

(** What goroutines do with the devices they own is what the cluster sees. *)
Lemma works_owned {A : Type} (Q : A -> owned -> Prop) (p : M A) m w :
  m ⊆ w_devices w -> owns Q p m ->
  works (fun a w' => exists m', w' = set_devices (m' ∪ w_devices w) w /\ Q a m') p w.
Proof.
  intros Hm Hp.
  refine (wp_simulate local acts_on _ _ (fun m w' => w' = set_devices (m ∪ w_devices w) w)
    Q p m w _ _ Hp).
  - clear. intros m w' c -> Hl. split; [done|]. intros r w2.
    assert (forall k f (zero : EdgeDevice) (r' : EdgeDevice * option error), is_Some (m !! k) ->
      modify (m ∪ w_devices w) k f zero set_devices (set_devices (m ∪ w_devices w) w) = (w2, r') ->
      exists m2, patches m k f r' m2 /\ w2 = set_devices (m2 ∪ w_devices w) w) as Hp.
    { intros k f zero r' [d Hd].
      rewrite (modify_found _ _ _ _ _ _ d) by by apply lookup_union_Some_l. intros [= <- <-].
      exists (<[k := f d]> m). split; [by exists d|]. by rewrite <-insert_union_l. }
    destruct c; try done; cbn [answers api local acts_on] in *.
    + by apply Hp.
    + by apply Hp.
    + intros ->. by exists m.
    + intros [= <- <-]. by exists m.
  - rewrite map_subseteq_union by done. by destruct w.
Qed.

(** A program of calls that change nothing. *)
Lemma works_quiet {A} (P : Req -> Prop) (Q : A -> Prop) (p : M A) w :
  (forall c r w', P c -> answers w c r w' -> w' = w) -> calls P p ->
  (forall t o, exec p t o -> exists a, o = Done a /\ Q a) ->
  works (fun a w' => Q a /\ w' = w) p w.
Proof.
  intros HP. induction p as [a| |c k IH]; intros Hc He.
  - destruct (He [] (Done a)) as (a' & [= <-] & ?); [constructor|]. done.
  - destruct (He [] Panicked) as (a' & ? & _); [constructor|done].
  - destruct Hc as [Hc Hk]. split; [done|]. intros r w' Ha. rewrite (HP _ _ _ Hc Ha).
    apply IH; [apply Hk|]. intros t o Hx. apply (He (Ev c r :: t)). by constructor.
Qed.

(** ** The devices a workload is meant for *)

Definition targets (wl : EdgeWorkload) (w : World) : gmap key EdgeDevice :=
  let spec := EdgeWorkload_Spec wl in
  let ns := Namespace (EdgeWorkload_ObjectMeta wl) in
  if decide (EdgeWorkloadSpec_Device spec <> "") then
    match w_devices w !! (ns, EdgeWorkloadSpec_Device spec) with
    | Some d => {[(ns, EdgeWorkloadSpec_Device spec) := d]}
    | None => ∅
    end
  else
    match EdgeWorkloadSpec_DeviceSelector spec with
    | Some s => selected s ns w
    | None => ∅
    end.

Definition devices_by_name (w : World) : Prop :=
  forall k d, w_devices w !! k = Some d -> device_key d = k.
Definition valid_selector (wl : EdgeWorkload) : Prop :=
  forall s, EdgeWorkloadSpec_DeviceSelector (EdgeWorkload_Spec wl) = Some s -> selector_error s = None.

Lemma targets_subseteq wl w : targets wl w ⊆ w_devices w.
Proof.
  unfold targets. case_decide.
  - destruct (w_devices w !! _) as [d|] eqn:Hd; [|apply map_empty_subseteq].
    by apply map_singleton_subseteq_l.
  - destruct (EdgeWorkloadSpec_DeviceSelector _); [|apply map_empty_subseteq]. apply map_filter_subseteq.
Qed.

(** The devices listed are the ones to be owned. *)
Lemma owned_of_values (m : owned) ds :
  (forall k d, m !! k = Some d -> device_key d = k) -> ds ≡ₚ (map_to_list m).*2 ->
  owned_of ds = m /\ NoDup (device_key <$> ds).
Proof.
  intros Hm Hds.
  assert ((fun d => (device_key d, d)) <$> (map_to_list m).*2 = map_to_list m) as Hl.
  { rewrite <-list_fmap_compose. rewrite <-(list_fmap_id (map_to_list m)) at 2.
    apply list_fmap_ext. intros i [k d] Hi%list_elem_of_lookup_2%elem_of_map_to_list. cbn.
    by rewrite (Hm k d). }
  assert (NoDup (device_key <$> ds)) as Hnd.
  { rewrite Hds, <-list_fmap_compose.
    rewrite (list_fmap_ext _ fst (map_to_list m)); [apply NoDup_fst_map_to_list|].
    intros i [k d] Hi%list_elem_of_lookup_2%elem_of_map_to_list. by apply Hm. }
  split; [|done]. symmetry. apply list_to_map_flip. by rewrite Hds, Hl.
Qed.

Lemma works_getMatchingEdgeDevices wl w :
  healthy w -> valid_selector wl -> devices_by_name w ->
  works (fun r w' => fatal r.2 = None /\ owned_of r.1 = targets wl w /\ NoDup (device_key <$> r.1) /\
      w' = w) (getMatchingEdgeDevices wl) w.
Proof.
  intros Hw Hv Hk.
  assert (forall ds, ds ≡ₚ (map_to_list (targets wl w)).*2 ->
    owned_of ds = targets wl w /\ NoDup (device_key <$> ds)) as Ht.
  { intros ds. apply owned_of_values. intros k d Hd. apply Hk.
    by apply (lookup_weaken _ _ _ _ Hd), targets_subseteq. }
  assert (targets wl w = ∅ -> owned_of [] = targets wl w /\ NoDup (device_key <$> [])) as Hnone
    by (intros ->; split; [done|constructor]).
  unfold getMatchingEdgeDevices. unfold targets in *. destruct (decide _) as [Hd|Hd].
  - split; [done|]. intros r w' Ha. cbn [answers] in Ha. rewrite (api_GetEdgeDevice _ _ w Hw) in Ha.
    destruct (w_devices w !! _) as [d|]; injection Ha as <- <-.
    + destruct (Ht [d]) as [? ?]; [|by split_and!]. by rewrite map_to_list_singleton.
    + destruct Hnone as [? ?]; [done|]. by split_and!.
  - destruct (EdgeWorkloadSpec_DeviceSelector _) as [s|] eqn:Hs.
    2:{ destruct Hnone as [? ?]; [done|]. by split_and!. }
    unfold edgedevice.ListForSelector. rewrite (Hv s Hs). split; [done|].
    intros [ds e] w' (-> & He & Hds). cbn in He, Hds. subst e.
    destruct (Ht ds Hds) as [? ?]. by split_and!.
Qed.

Lemma works_getLabelledEdgeDevices name ns w :
  healthy w -> unindexed name w ->
  works (fun r w' => r = ([], None) /\ w' = w) (getLabelledEdgeDevices name ns) w.
Proof.
  intros Hw Hu. split; [done|]. intros r w' Ha. cbn [answers api server] in Ha.
  rewrite Hw, list_of_none in Ha; [by injection Ha as <- <-|].
  intros k d Hd. cbn [matches]. apply bool_decide_eq_false. by apply (Hu k).
Qed.

(** ** A reconciliation *)

(** The workload once the first reconciliation has set its finalizer. *)
Definition finalized (wl : EdgeWorkload) : EdgeWorkload :=
  upd_WorkloadMeta (set_Finalizers (Some [YggdrasilDeviceReferenceFinalizer])) wl.

(** The cluster once the workload, which is being deleted, has lost it. *)
Definition released (wl : EdgeWorkload) (w : World) : World :=
  set_workloads (keep_workload (workload_key wl)
    (upd_WorkloadMeta (set_Finalizers (without_finalizer YggdrasilDeviceReferenceFinalizer
       (Finalizers (EdgeWorkload_ObjectMeta wl)))) wl) (w_workloads w)) w.

Context `{Formatter} (Concurrency : Z) (HC : (0 < Concurrency < 2 ^ 63)%Z).

(** [R] relates what the devices [m] were and are; the others are unchanged. *)
Definition only_changed (R : EdgeDevice -> EdgeDevice -> Prop) (m : gmap key EdgeDevice) (w w' : World) :
  Prop :=
  map_Forall2 (fun k d d' => if decide (is_Some (m !! k)) then R d d' else d' = d)
    (w_devices w) (w_devices w').

Lemma changed_only R m m' w :
  m ⊆ w_devices w -> changed R m m' ->
  only_changed R m w (set_devices (m' ∪ w_devices w) w).
Proof.
  intros Hm Hc k. cbn [set_devices w_devices]. specialize (Hc k). rewrite lookup_union.
  destruct (m !! k) as [d|] eqn:Hk; inversion Hc as [d0 d' HR|]; subst.
  - rewrite (lookup_weaken _ _ _ _ Hk Hm). constructor. by rewrite decide_True by eauto.
  - rewrite (left_id_L None (∪)). destruct (w_devices w !! k); constructor.
    by rewrite decide_False by (by intros [? ?]).
Qed.

Lemma works_executeConcurrent R f ds m w :
  m ⊆ w_devices w -> owned_of ds = m -> NoDup (device_key <$> ds) ->
  (forall part, NoDup (device_key <$> part) -> owns (well_done R part) (f part) (owned_of part)) ->
  works (fun errs w' => errs = [] /\ w' = set_devices (w_devices w') w /\ only_changed R m w w')
    (executeConcurrent Concurrency f ds) w.
Proof using HC.
  intros Hm <- Hnd Hf. eapply wp_mono;
    [|by apply (works_owned (well_done R ds) _ (owned_of ds)), owns_executeConcurrent; auto].
  intros errs w' (m' & -> & -> & Hc). split_and!; [done..|]. by apply changed_only.
Qed.

Lemma works_addWorkloadsToDevices name ds m w :
  m ⊆ w_devices w -> owned_of ds = m -> NoDup (device_key <$> ds) ->
  works (fun err w' => err = None /\ w' = set_devices (w_devices w') w /\
      only_changed (provided name) m w w') (addWorkloadsToDevices Concurrency name ds) w.
Proof using HC.
  intros Hm Hds Hnd. unfold addWorkloadsToDevices. eapply wp_seq.
  - apply (works_executeConcurrent (provided name)); [exact Hm|done..|]. intros part Hp.
    apply owns_until_cancelled; [done|]. intros d _. unfold at_most_one.
    eapply wp_seq; [apply owns_addWorkloadToDevice|]. intros err m' [-> Hc]. by split.
  - intros errs w' (-> & ? & ?). by split_and!.
Qed.

(** Removal goes on after an error; there is none. *)
Lemma owns_removeWorkloadFromDevices name ds :
  NoDup (device_key <$> ds) ->
  owns (well_done (loses name) ds) (removeWorkloadFromDevices ds name) (owned_of ds).
Proof.
  unfold removeWorkloadFromDevices. induction ds as [|d ds IH]; intros Hnd; cbn [for_each].
  { split; [done|]. apply map_Forall2_empty. }
  pose proof Hnd as [_ Hnd']%NoDup_cons.
  change (owned_of (d :: ds)) with (owned_of ([d] ++ ds)). rewrite (owned_of_app [d] ds).
  apply (owned_of_disjoint [d] ds) in Hnd.
  apply (wp_seq _ _ (fun errs m => errs = [] /\ exists m1, m = m1 ∪ owned_of ds /\ m1 ##ₘ owned_of ds /\
    changed (loses name) (owned_of [d]) m1)).
  - eapply wp_seq; [apply owns_frame; [exact Hnd|apply owns_removeWorkloadFromDevice]|].
    intros err m (m1 & -> & Hd1 & -> & Hc1). split; [done|]. by exists m1.
  - intros errs m (-> & m1 & -> & Hd1 & Hc1). rewrite (map_union_comm m1) by done.
    eapply wp_mono; [|apply owns_frame, IH; [by symmetry|done]].
    intros errs m (m2 & -> & Hd2 & -> & Hc2). split; [done|].
    change (owned_of (d :: ds)) with (owned_of ([d] ++ ds)).
    rewrite (owned_of_app [d] ds), (map_union_comm m2) by done. by apply changed_union.
Qed.

Variables (name ns : string) (wl : EdgeWorkload).
Context (Hkey : workload_key wl = (ns, name)) (Hvalid : valid_selector wl).

Lemma works_reconcileDevices w :
  healthy w -> unindexed name w -> devices_by_name w ->
  DeletionTimestamp (EdgeWorkload_ObjectMeta wl) = None ->
  works (fun r w' => r = (no_result, None) /\ w' = set_devices (w_devices w') w /\
      only_changed (provided name) (targets wl w) w w') (reconcileDevices Concurrency wl) w.
Proof using HC Hkey Hvalid.
  intros Hw Hu Hk Hdel. unfold reconcileDevices.
  assert (Name (EdgeWorkload_ObjectMeta wl) = name /\ Namespace (EdgeWorkload_ObjectMeta wl) = ns)
    as [-> ->] by (by injection Hkey).
  eapply wp_seq; [by apply works_getLabelledEdgeDevices|]. intros r w' [-> ->]. cbn [fatal].
  eapply wp_seq; [by apply works_getMatchingEdgeDevices|].
  intros [ds err] w' (Hf & Hds & Hnd & ->). cbn [fst snd] in *. rewrite Hf, Hdel.
  eapply wp_seq; [apply works_addWorkloadsToDevices; [apply targets_subseteq|exact Hds|exact Hnd]|].
  intros e w' (-> & Hw' & Ho). unfold removeWorkloadFromNonMatchingDevices.
  assert (executeConcurrent Concurrency
    (until_cancelled (at_most_one (removeFromNonMatching name (names_of ds)))) [] = mret []) as ->.
  { unfold executeConcurrent. case_decide; [done|]. unfold ExecuteConcurrent. rewrite decide_True; [done|]. by left. }
  rewrite !bind_ret_l. by split_and!.
Qed.

Lemma works_read w :
  healthy w -> w_workloads w !! (ns, name) = Some wl ->
  works (fun r w' => r = (wl, None) /\ w' = w) (edgeworkload.Read name ns) w.
Proof.
  intros Hw Hs. split; [done|]. intros r w' Ha. cbn [answers] in Ha.
  rewrite (api_GetEdgeWorkload _ _ w Hw), Hs in Ha. by injection Ha as <- <-.
Qed.

Lemma api_PatchWorkload k base obj w :
  w_workloads w !! k = Some base -> workload_key obj = k -> patched_workload base obj base = obj ->
  api (PatchEdgeWorkload base obj) w =
    (set_workloads (keep_workload k obj (w_workloads w)) w, (obj, None)).
Proof. intros Hb Hk Hp. cbn [api]. unfold modify_workload. by rewrite Hk, Hb, Hp. Qed.

(** A patch of the workload. *)
Lemma works_patch obj w :
  w_workloads w !! (ns, name) = Some wl -> workload_key obj = (ns, name) ->
  patched_workload wl obj wl = obj ->
  works (fun r w' => r = (obj, None) /\ w' = set_workloads (keep_workload (ns, name) obj (w_workloads w)) w)
    (edgeworkload.Patch wl obj) w.
Proof.
  intros Hb Hk Hp. split; [done|]. intros r w' Ha. cbn [answers] in Ha.
  rewrite (api_PatchWorkload (ns, name)) in Ha by done. by injection Ha as <- <-.
Qed.

(** The selector labels of the workload. *)
Lemma works_UpdateSelectorLabels_one w :
  works (fun wl' w' => wl' = in_line wl /\ w' = w) (UpdateSelectorLabels_one wl) w.
Proof.
  apply (works_quiet (fun c => c = MapOrder) (fun wl' => wl' = in_line wl)).
  - by intros c r w' -> ->.
  - unfold UpdateSelectorLabels_one, range_map. calls_tac; repeat case_match; calls_tac.
  - intros t o [_ ->]%exec_UpdateSelectorLabels_one. by exists (in_line wl).
Qed.

Lemma works_updateLabelsFromSelector w :
  aligned wl -> works (fun r w' => r = (false, None) /\ w' = w) (updateLabelsFromSelector wl) w.
Proof.
  intros Ha. unfold updateLabelsFromSelector. eapply wp_seq; [apply works_UpdateSelectorLabels_one|].
  intros wl' w' [-> ->]. cbn beta zeta. rewrite decide_True; [done|].
  clear HC. unfold aligned in Ha. tauto.
Qed.

(** One reconciliation of a workload whose finalizer and labels are in place. *)
Lemma works_Reconcile w :
  healthy w -> unindexed name w -> devices_by_name w ->
  w_workloads w !! (ns, name) = Some wl ->
  DeletionTimestamp (EdgeWorkload_ObjectMeta wl) = None ->
  HasFinalizer (EdgeWorkload_ObjectMeta wl) YggdrasilDeviceReferenceFinalizer = true ->
  aligned wl ->
  works (fun r w' => r = (no_result, None) /\ w' = set_devices (w_devices w') w /\
      only_changed (provided name) (targets wl w) w w') (Reconcile Concurrency name ns) w.
Proof using HC Hkey Hvalid.
  intros Hw Hu Hk Hs Hdel Hf Hl. unfold Reconcile.
  eapply wp_seq; [by apply works_read|]. intros r w' [-> ->]. cbn beta iota zeta. rewrite Hdel, Hf. cbn [negb].
  eapply wp_seq; [by apply works_updateLabelsFromSelector|].
  intros r w' [-> ->]. by apply works_reconcileDevices.
Qed.

(** Its first reconciliation, and the one after. *)
Lemma works_Reconcile_first w :
  healthy w -> w_workloads w !! (ns, name) = Some wl ->
  DeletionTimestamp (EdgeWorkload_ObjectMeta wl) = None ->
  HasFinalizer (EdgeWorkload_ObjectMeta wl) YggdrasilDeviceReferenceFinalizer = false ->
  works (fun r w' => r = (requeue, None) /\ w' = with_workload (ns, name) (finalized wl) w)
    (Reconcile Concurrency name ns) w.
Proof using Hkey.
  intros Hw Hs Hdel Hf. unfold Reconcile.
  eapply wp_seq; [by apply works_read|]. intros r w' [-> ->]. cbn beta iota zeta. rewrite Hdel, Hf. cbn [negb].
  eapply wp_seq; [apply (works_patch (finalized wl)); [done|done|apply patched_finalizers]|].
  intros r w' [-> ->]. split; [done|]. unfold with_workload. by rewrite keep_live.
Qed.

Lemma works_Reconcile_second w :
  healthy w -> w_workloads w !! (ns, name) = Some wl ->
  DeletionTimestamp (EdgeWorkload_ObjectMeta wl) = None ->
  HasFinalizer (EdgeWorkload_ObjectMeta wl) YggdrasilDeviceReferenceFinalizer = true ->
  ~ aligned wl ->
  works (fun r w' => r = (no_result, None) /\ w' = with_workload (ns, name) (in_line wl) w)
    (Reconcile Concurrency name ns) w.
Proof using Hkey.
  intros Hw Hs Hdel Hf Hl. unfold Reconcile.
  eapply wp_seq; [by apply works_read|]. intros r w' [-> ->]. cbn beta iota zeta. rewrite Hdel, Hf. cbn [negb].
  eapply (wp_seq _ _ (fun r w' => r = (true, None) /\ w' = with_workload (ns, name) (in_line wl) w));
    [|by intros r w' [-> ->]].
  unfold updateLabelsFromSelector. eapply wp_seq; [apply works_UpdateSelectorLabels_one|].
  intros wl' w' [-> ->]. cbn beta zeta.
  rewrite decide_False by (clear HC; unfold aligned in Hl; tauto).
  eapply wp_seq; [apply (works_patch (in_line wl)); [done|done|apply patched_workload_labels]|].
  intros r w' [-> ->]. split; [done|]. unfold with_workload. by rewrite keep_live.
Qed.

(** The reconciliation of a workload that is being deleted. *)
Lemma works_finalizeRemoval ds m w :
  m ⊆ w_devices w -> owned_of ds = m -> NoDup (device_key <$> ds) ->
  w_workloads w !! (ns, name) = Some wl ->
  works (fun err w' => err = None /\ exists w1, w1 = set_devices (w_devices w1) w /\
      only_changed (loses name) m w w1 /\ w' = released wl w1)
    (finalizeRemoval Concurrency ds wl) w.
Proof using HC Hkey.
  intros Hm Hds Hnd Hs. unfold finalizeRemoval.
  assert (Name (EdgeWorkload_ObjectMeta wl) = name) as -> by (by injection Hkey). eapply wp_seq.
  - apply (works_executeConcurrent (loses name)); [exact Hm|done..|]. intros part.
    apply owns_removeWorkloadFromDevices.
  - intros errs w1 (-> & Hw1 & Ho). cbn [merged_error]. unfold edgeworkload.RemoveFinalizer.
    apply wp_bind, wp_bind. eapply wp_mono; [|apply works_patch; [by rewrite Hw1|done|apply patched_finalizers]].
    intros r w' [-> ->]. split; [done|]. exists w1. split_and!; [done..|].
    unfold released. by rewrite Hkey.
Qed.

Lemma works_Reconcile_removal w :
  healthy w -> unindexed name w -> devices_by_name w ->
  w_workloads w !! (ns, name) = Some wl ->
  DeletionTimestamp (EdgeWorkload_ObjectMeta wl) <> None ->
  HasFinalizer (EdgeWorkload_ObjectMeta wl) YggdrasilDeviceReferenceFinalizer = true ->
  works (fun r w' => r = (no_result, None) /\ exists w1, w1 = set_devices (w_devices w1) w /\
      only_changed (loses name) (targets wl w) w w1 /\ w' = released wl w1)
    (Reconcile Concurrency name ns) w.
Proof using HC Hkey Hvalid.
  intros Hw Hu Hk Hs Hdel Hf. unfold Reconcile.
  eapply wp_seq; [by apply works_read|]. intros r w' [-> ->]. cbn beta iota zeta.
  destruct (DeletionTimestamp (EdgeWorkload_ObjectMeta wl)) eqn:Edel; [clear Hdel|done].
  unfold reconcileDevices.
  assert (Name (EdgeWorkload_ObjectMeta wl) = name /\ Namespace (EdgeWorkload_ObjectMeta wl) = ns)
    as [-> ->] by (by injection Hkey).
  eapply wp_seq; [by apply works_getLabelledEdgeDevices|]. intros r w' [-> ->]. cbn [fatal].
  eapply wp_seq; [by apply works_getMatchingEdgeDevices|].
  intros [ds err] w' (Hfatal & Hds & Hnd & ->). cbn [fst snd] in *. rewrite Hfatal, Edel, Hf.
  assert (merge ds [] = ds) as -> by (unfold merge; cbn; apply app_nil_r).
  eapply wp_seq; [apply works_finalizeRemoval; [apply targets_subseteq|exact Hds|exact Hnd|exact Hs]|].
  intros e w' (-> & Hw'). by split.
Qed.

(** Reconciliations one after the other. *)
Definition thrice {A} (p : M A) : M (A * A * A) :=
  r1 ← p; r2 ← p; r3 ← p; mret (r1, r2, r3).

End Cluster.
Notation works := (wp (fun _ _ => True) answers).

(** A way to answer: devices in the order of the store. *)
Definition in_order `{Libs} (c : Req) (w : World) : World * Resp c :=
  match c with
  | ListEdgeDevices (MatchingSelector s) ns => (w, ((map_to_list (selected s ns w)).*2, None))
  | c => api c w
  end.

Lemma answers_in_order `{Libs} c w : answers w c (in_order c w).2 (in_order c w).1.
Proof.
  destruct c; try first [exact (surjective_pairing (api _ w))|done].
  destruct sel; [exact (surjective_pairing (api _ w))..|done].
Qed.

(** What a program does is done, and in some way it is done. *)
Lemma works_runs `{Libs} {A : Type} (Q : A -> World -> Prop) (p : M A) w :
  works Q p w ->
  (exists t o w', exec p t o /\ goes answers w t w') /\
  forall t o w', exec p t o -> goes answers w t w' -> exists a, o = Done a /\ Q a w'.
Proof.
  intros Hp. split; [|intros t o w'; by apply wp_exec with (1 := Hp)].
  destruct (run in_order p w) as [[w' t] o] eqn:E. exists t, o, w'. split.
  - exact (run_exec in_order p w w' t o E).
  - by apply (run_goes answers in_order p w w' t o (fun c w => answers_in_order c w)).
Qed.

(** The reconciliations of a new workload, until its devices have it. *)
Lemma works_rollout `{Libs} `{Formatter} Concurrency name ns wl w :
  (0 < Concurrency < 2 ^ 63)%Z -> workload_key wl = (ns, name) -> valid_selector wl ->
  healthy w -> unindexed name w -> devices_by_name w ->
  w_workloads w !! (ns, name) = Some wl ->
  DeletionTimestamp (EdgeWorkload_ObjectMeta wl) = None ->
  HasFinalizer (EdgeWorkload_ObjectMeta wl) YggdrasilDeviceReferenceFinalizer = false ->
  ~ aligned (finalized wl) ->
  works (fun r w' => r = (requeue, None, (no_result, None), (no_result, None)) /\
      w' = set_devices (w_devices w') (with_workload (ns, name) (in_line (finalized wl)) w) /\
      only_changed (provided name) (targets wl w) w w') (thrice (Reconcile Concurrency name ns)) w.
Proof.
  intros HC Hkey Hv Hw Hu Hk Hs Hdel Hf Ha. unfold thrice.
  assert (HasFinalizer (EdgeWorkload_ObjectMeta (finalized wl)) YggdrasilDeviceReferenceFinalizer = true)
    as Hf1 by (apply HasFinalizer_spec; left).
  eapply wp_seq; [by apply (works_Reconcile_first _ _ _ wl)|]. intros r1 w1 [-> ->].
  eapply wp_seq.
  { apply (works_Reconcile_second Concurrency name ns (finalized wl)); try done.
    apply with_workload_lookup. }
  intros r2 w2 [-> ->].
  assert (forall v v', with_workload (ns, name) v' (with_workload (ns, name) v w) =
    with_workload (ns, name) v' w) as ->
    by (intros; unfold with_workload, set_workloads; cbn; by rewrite insert_insert_eq).
  eapply wp_seq.
  - apply (works_Reconcile Concurrency HC name ns (in_line (finalized wl))); try done.
    + apply with_workload_lookup.
    + left. by rewrite in_line_idemp.
  - intros r3 w3 (-> & Hw3 & Ho). by split_and!.
Qed.

(** ** Properties *)

(** C10: a workload reaches every device it is meant for, be it named or
    selected by labels: three reconciliations of a workload that is new, in a
    cluster without faults that answers in any order and schedules the
    goroutines in any way, end without an error or a panic, for every
    concurrency; afterwards every device the workload is meant for lists it and
    bears its label, has kept its other workloads and labels and, when it had
    both, is unchanged; the other devices are as they were, and of the rest of
    the cluster only the finalizers and the labels of the workload have changed.
    No device bears the label [device-by-workload], by which the code looks for
    devices that have the workload and which it never sets. *)
Theorem workload_reaches_selected `{Libs} `{Formatter} Concurrency ns name wl w :
  (0 < Concurrency < 2 ^ 63)%Z -> workload_key wl = (ns, name) -> valid_selector wl ->
  healthy w -> unindexed name w -> devices_by_name w ->
  w_workloads w !! (ns, name) = Some wl ->
  DeletionTimestamp (EdgeWorkload_ObjectMeta wl) = None ->
  HasFinalizer (EdgeWorkload_ObjectMeta wl) YggdrasilDeviceReferenceFinalizer = false ->
  ~ aligned (finalized wl) ->
  let rollout := thrice (Reconcile Concurrency name ns) in
  (exists t o w', exec rollout t o /\ goes answers w t w') /\
  forall t o w', exec rollout t o -> goes answers w t w' ->
    o = Done (requeue, None, (no_result, None), (no_result, None)) /\
    w' = set_devices (w_devices w') (with_workload (ns, name) (in_line (finalized wl)) w) /\
    only_changed (provided name) (targets wl w) w w'.
Proof.
  intros HC Hkey Hv Hw Hu Hk Hs Hdel Hf Ha rollout.
  destruct (works_runs _ rollout w
    (works_rollout Concurrency name ns wl w HC Hkey Hv Hw Hu Hk Hs Hdel Hf Ha)) as [He Hall].
  split; [exact He|]. intros t o w' Hx Hg. by destruct (Hall t o w' Hx Hg) as (r & -> & -> & ?).
Qed.

(** C11: and it leaves them again: under the same conditions, one
    reconciliation of a workload that is being deleted, however the cluster
    answers and schedules, ends without an error or a panic; no device the
    workload is meant for lists it or bears its label any more, each keeps its
    other workloads and labels, the other devices are as they were; the workload
    has lost the operator's finalizer and no other, and is gone if it waited for
    nothing else. *)
Theorem workload_leaves_selected `{Libs} `{Formatter} Concurrency ns name wl w :
  (0 < Concurrency < 2 ^ 63)%Z -> workload_key wl = (ns, name) -> valid_selector wl ->
  healthy w -> unindexed name w -> devices_by_name w ->
  w_workloads w !! (ns, name) = Some wl ->
  DeletionTimestamp (EdgeWorkload_ObjectMeta wl) <> None ->
  HasFinalizer (EdgeWorkload_ObjectMeta wl) YggdrasilDeviceReferenceFinalizer = true ->
  let removal := Reconcile Concurrency name ns in
  (exists t o w', exec removal t o /\ goes answers w t w') /\
  forall t o w', exec removal t o -> goes answers w t w' ->
    o = Done (no_result, None) /\
    exists w1, w1 = set_devices (w_devices w1) w /\ only_changed (loses name) (targets wl w) w w1 /\
      w' = released wl w1 /\
      (Finalizers (EdgeWorkload_ObjectMeta wl) = Some [YggdrasilDeviceReferenceFinalizer] ->
       w_workloads w' = delete (ns, name) (w_workloads w)).
Proof.
  intros HC Hkey Hv Hw Hu Hk Hs Hdel Hf removal.
  destruct (works_runs _ removal w
    (works_Reconcile_removal Concurrency HC name ns wl Hkey Hv w Hw Hu Hk Hs Hdel Hf)) as [He Hall].
  split; [exact He|]. intros t o w' Hx Hg.
  destruct (Hall t o w' Hx Hg) as (r & -> & -> & w1 & Hw1 & Ho & ->). split; [done|].
  exists w1. split_and!; [done..|]. intros Hfin.
  unfold released. rewrite Hfin, Hkey, Hw1. unfold keep_workload.
  cbn [upd_WorkloadMeta EdgeWorkload_ObjectMeta set_Finalizers DeletionTimestamp Finalizers].
  by destruct (DeletionTimestamp (EdgeWorkload_ObjectMeta wl)).
Qed.

(** ** Examples *)

(** Selectors select by their labels. *)
Definition label_libs : Libs := {|
  selector_error _ := None;
  selector_matches s labels :=
    bool_decide (map_Forall (fun k v => labels !! k = Some v) (entries (MatchLabels s)));
  yaml_PodSpec _ := ("", None);
  yaml_ConfigMap _ := ("", None);
  yaml_AllowList _ := (models.mkMetricsAllowList None, None);
  ParsePort _ := (80%Z, None);
|}.
#[local] Existing Instance label_libs.
#[local] Existing Instance plain_format.

Definition at_site (site : string) (d : EdgeDevice) : EdgeDevice :=
  upd_Meta (fun m => set_Labels (Some (<["site" := site]> (entries (Labels m)))) m) d.
Definition device_at (n site : string) : EdgeDevice := at_site site (device_named n None None).

(** A workload for the devices of a site. *)
Definition site_workload : EdgeWorkload :=
  mkEdgeWorkload empty_TypeMeta (named "w1" "ns")
    (mkEdgeWorkloadSpec (Some (mkLabelSelector (Some {["site" := "a"]}) None)) "" ""
       (mkPod (corev1.mkPodSpec None None None "")) None None None "")
    mkEdgeWorkloadStatus.
Definition site_devices : gmap key EdgeDevice :=
  {[("ns", "d1") := device_at "d1" "a"; ("ns", "d2") := device_at "d2" "b";
    ("ns", "d3") := device_at "d3" "a"]}.
Definition site_world (wl : EdgeWorkload) (ds : gmap key EdgeDevice) : World :=
  set_workloads {[("ns", "w1") := wl]} (set_devices ds empty_world).

(** What holds of every device holds of each. *)
Lemma devices_spec (P : key -> EdgeDevice -> Prop) ds wl :
  Forall (fun kd => P kd.1 kd.2) (map_to_list ds) ->
  forall k d, w_devices (site_world wl ds) !! k = Some d -> P k d.
Proof. intros HF k d Hd. apply elem_of_map_to_list in Hd. rewrite Forall_forall in HF. exact (HF _ Hd). Qed.

Lemma workload_reaches_selected_witness :
  let rollout := thrice (Reconcile 2 "w1" "ns") in
  let w := site_world site_workload site_devices in
  targets site_workload w = {[("ns", "d1") := device_at "d1" "a"; ("ns", "d3") := device_at "d3" "a"]} /\
  (exists t o w', exec rollout t o /\ goes answers w t w') /\
  forall t o w', exec rollout t o -> goes answers w t w' ->
    only_changed (provided "w1") (targets site_workload w) w w'.
Proof.
  cbv zeta. split; [vm_compute; reflexivity|].
  destruct (workload_reaches_selected 2 "ns" "w1" site_workload (site_world site_workload site_devices))
    as [He Hall].
  - lia.
  - reflexivity.
  - intros s _. reflexivity.
  - intros c. reflexivity.
  - refine (devices_spec (fun _ d =>
      map_get (Labels (EdgeDevice_ObjectMeta d)) DeviceByWorkloadIndexKey <> Some "w1") _ _ _). vm_compute. repeat constructor; discriminate.
  - refine (devices_spec (fun k d => device_key d = k) _ _ _). vm_compute. repeat constructor.
  - vm_compute. reflexivity.
  - reflexivity.
  - vm_compute. reflexivity.
  - assert (bool_decide (aligned (finalized site_workload)) = false) as Hb by (vm_compute; reflexivity).
    exact (bool_decide_eq_false_1 _ Hb).
  - split; [exact He|]. intros t o w' Hx Hg. exact (proj2 (proj2 (Hall t o w' Hx Hg))).
Defined.

Definition leaving_workload : EdgeWorkload :=
  upd_WorkloadMeta (set_Finalizers (Some [YggdrasilDeviceReferenceFinalizer])) (going site_workload).
Definition leaving_devices : gmap key EdgeDevice :=
  {[("ns", "d1") := at_site "a" (device_named "d1" (Some {["workload/w1" := "true"]})
      (Some [mkWorkload "w1" Deploying 0 0; mkWorkload "w2" Deploying 0 0]));
    ("ns", "d2") := device_at "d2" "b"]}.

Lemma workload_leaves_selected_witness :
  let removal := Reconcile 2 "w1" "ns" in
  let w := site_world leaving_workload leaving_devices in
  (exists t o w', exec removal t o /\ goes answers w t w') /\
  forall t o w', exec removal t o -> goes answers w t w' -> w_workloads w' = ∅.
Proof.
  cbv zeta.
  destruct (workload_leaves_selected 2 "ns" "w1" leaving_workload
    (site_world leaving_workload leaving_devices)) as [He Hall].
  - lia.
  - reflexivity.
  - intros s _. reflexivity.
  - intros c. reflexivity.
  - refine (devices_spec (fun _ d =>
      map_get (Labels (EdgeDevice_ObjectMeta d)) DeviceByWorkloadIndexKey <> Some "w1") _ _ _). vm_compute. repeat constructor; discriminate.
  - refine (devices_spec (fun k d => device_key d = k) _ _ _). vm_compute. repeat constructor.
  - vm_compute. reflexivity.
  - discriminate.
  - vm_compute. reflexivity.
  - split; [exact He|]. intros t o w' Hx Hg.
    destruct (Hall t o w' Hx Hg) as (_ & w1 & _ & _ & _ & Hw). rewrite (Hw eq_refl).
    vm_compute. reflexivity.
Defined.
