(* ===== verification/EdgeDeviceLabels.v ===== *)
(** * The device label reconciler

    controllers/edgedevicelabels_controller.go: when the labels of a device
    change, looks up the workloads whose selectors name one of them and brings
    the workloads of the device in line. *)
From S2P Require Import Prelude GoData GoStrings V1alpha1 Models Env Testbed Labels Utils.
From S2P Require Import Repository Controller EdgeWorkload.
Import v1alpha1.

Definition isWorkloadMatchDevice `{Libs} (workload : EdgeWorkload) (device : EdgeDevice)
    : bool * option error :=
  if decide (EdgeWorkloadSpec_Device (EdgeWorkload_Spec workload) =
             Name (EdgeDevice_ObjectMeta device)) then (true, None)
  else
    match EdgeWorkloadSpec_DeviceSelector (EdgeWorkload_Spec workload) with
    | Some s =>
        match selector_error s with
        | Some err => (false, Some err)
        | None => (selector_matches s (entries (Labels (EdgeDevice_ObjectMeta device))), None)
        end
    | None => (false, None)
    end.

Definition createSelectorLabelsMap_one (result : gmap string string) (entry : string * string)
    : gmap string string :=
  if IsWorkloadLabel entry.1 then result else <[CreateSelectorLabel entry.1 := "true"]> result.

Definition createSelectorLabelsMap (device : EdgeDevice) : M (gmap string string) :=
  let result := {[CreateSelectorLabel DeviceNameLabel := Name (EdgeDevice_ObjectMeta device);
                  CreateSelectorLabel DoesNotExistLabel := "true"]} in
  order ← range_map (Labels (EdgeDevice_ObjectMeta device));
  mret (foldl createSelectorLabelsMap_one result order).

(** The state of the first loop of [createUpdatedDevice]: the workloads still
    to be placed, those kept, the labels, and whether the device changes. *)
Record Placing := mkPlacing {
  placing_selected : gmap string bool;
  placing_workloads : slice Workload;
  placing_labels : gmap string string;
  placing_updated : bool;
}.

Definition createUpdatedDevice_keep (p : Placing) (workload : Workload) : Placing :=
  let name := Workload_Name workload in
  if decide (placing_selected p !! name = Some true) then
    mkPlacing (delete name (placing_selected p)) (append (placing_workloads p) workload)
      (placing_labels p) (placing_updated p)
  else
    mkPlacing (placing_selected p) (placing_workloads p)
      (delete (WorkloadLabel name) (placing_labels p)) true.

Definition createUpdatedDevice_add (p : Placing) (entry : string * bool) : Placing :=
  let '(name, matched) := entry in
  if negb matched then p
  else
    mkPlacing (placing_selected p) (append (placing_workloads p) (mkWorkload name Deploying 0 0))
      (<[WorkloadLabel name := "true"]> (placing_labels p)) true.

Definition createUpdatedDevice (selectedWorkloads : gmap string bool) (device : EdgeDevice)
    : M (option EdgeDevice) :=
  let labels := map_make_if_nil (Labels (EdgeDevice_ObjectMeta device)) in
  let p := foldl createUpdatedDevice_keep (mkPlacing selectedWorkloads None labels false)
             (elems (EdgeDeviceStatus_Workloads (EdgeDevice_Status device))) in
  order ← range_map (Some (placing_selected p));
  let p := foldl createUpdatedDevice_add p order in
  mret (if placing_updated p then
          Some (upd_Status (set_Workloads (placing_workloads p))
                  (upd_Meta (set_Labels (Some (placing_labels p))) device))
        else None).

Section Reconciler.
Context `{Libs}.

(** One listed workload; the first of a name decides. *)
Definition selectWorkload (device : EdgeDevice) (selectedWorkloads : gmap string bool)
    (workload : EdgeWorkload) : M (ctl (gmap string bool) error) :=
  let name := Name (EdgeWorkload_ObjectMeta workload) in
  match selectedWorkloads !! name with
  | Some _ => mret (Next selectedWorkloads)
  | None =>
      match isWorkloadMatchDevice workload device with
      | (_, Some err) => mret (Return err)
      | (matched, None) => mret (Next (<[name := matched]> selectedWorkloads))
      end
  end.

Definition selectWorkloads (device : EdgeDevice) (selectorLabels : list (string * string))
    : M (ctl (gmap string bool) error) :=
  for_range selectorLabels ∅ (fun selectedWorkloads '(selectorLabel, labelValue) =>
    '(workloads, err) ← edgeworkload.ListByLabel selectorLabel labelValue
                          (Namespace (EdgeDevice_ObjectMeta device));
    match err with
    | Some e => mret (Return e)
    | None => for_range workloads selectedWorkloads (selectWorkload device)
    end).

(** The second patch sends what the first one has left in [updatedDevice]. *)
Definition updateWorkloads (device : EdgeDevice) : M (option error) :=
  selectorLabels ← createSelectorLabelsMap device;
  order ← range_map (Some selectorLabels);
  res ← selectWorkloads device order;
  match res with
  | Return e => mret (Some e)
  | Next selectedWorkloads =>
      updatedDevice ← createUpdatedDevice selectedWorkloads device;
      match updatedDevice with
      | None => mret None
      | Some updatedDevice =>
          '(updatedDevice, err) ← edgedevice.PatchStatus updatedDevice device;
          match err with
          | Some e => mret (Some e)
          | None =>
              '(_, err) ← edgedevice.Patch device updatedDevice;
              mret err
          end
      end
  end.

(** [conditions[len(conditions)-1].Type] says the execution is over. *)
Definition execution_over (conditions : slice PlaybookExecutionCondition) : bool :=
  match last (elems conditions) with
  | Some c =>
      bool_decide (PlaybookExecutionCondition_Type c = PlaybookExecutionSuccessfullyCompleted) ||
      bool_decide (PlaybookExecutionCondition_Type c = PlaybookExecutionCompletedWithError)
  | None => false
  end.

Definition label_done (device : EdgeDevice) (label labelValue : string) : bool :=
  IsEdgeConfigLabel label &&
  existsb (fun pe =>
    bool_decide (PlaybookExec_Name pe =
                 Name (EdgeDevice_ObjectMeta device) +:+ "-" +:+ labelValue) &&
    execution_over (PlaybookExecutionStatus_Conditions (PlaybookExec_PlaybookExecutionStatus pe)))
    (elems (EdgeDeviceStatus_PlaybookExecutions (EdgeDevice_Status device))).

(** [delete(deviceLabels, label)] works on the map of the device itself. *)
Definition updatePlaybookExecutions (device : EdgeDevice) : M (option error) :=
  let deviceLabels := Labels (EdgeDevice_ObjectMeta device) in
  order ← range_map deviceLabels;
  let '(deviceLabels, updateaEdgeConfigLabel) :=
    foldl (fun '(m, updated) '(label, labelValue) =>
      if label_done device label labelValue then (map_delete label m, true) else (m, updated))
      (deviceLabels, false) order in
  if updateaEdgeConfigLabel : bool then
    '(_, err) ← edgedevice.UpdateLabels (upd_Meta (set_Labels deviceLabels) device) deviceLabels;
    mret err
  else mret None.

Definition Reconcile (name namespace : string) : M (Result * option error) :=
  '(edgeDevice, err) ← edgedevice.Read name namespace;
  match err with
  | Some e => if IsNotFound e then finished else retry_with e
  | None =>
      match DeletionTimestamp (EdgeDevice_ObjectMeta edgeDevice) with
      | Some _ => finished
      | None =>
          err ← updateWorkloads edgeDevice;
          match err with
          | Some e => retry_with e
          | None =>
              err ← updatePlaybookExecutions edgeDevice;
              match err with Some e => retry_with e | None => finished end
          end
      end
  end.
End Reconciler.

(** ** Lemmas: the lookup *)

(** The keys the labels of a device are looked up under. *)
Definition looked_up (device : EdgeDevice) : gset string :=
  {[Name (EdgeDevice_ObjectMeta device); DoesNotExistLabel]} ∪
  filter (fun l => IsWorkloadLabel l = false) (dom (entries (Labels (EdgeDevice_ObjectMeta device)))).

(** The keys a specification is indexed under. *)
Definition indexed_under (spec : EdgeWorkloadSpec) : gset string :=
  if decide (EdgeWorkloadSpec_Device spec <> "") then {[EdgeWorkloadSpec_Device spec]}
  else
    match EdgeWorkloadSpec_DeviceSelector spec with
    | None => ∅
    | Some s =>
        dom (entries (MatchLabels s)) ∪
        list_to_set ((fun r => if decide (Requirement_Operator r = LabelSelectorOpDoesNotExist)
                               then DoesNotExistLabel else Requirement_Key r) <$>
                     elems (MatchExpressions s))
    end.

Lemma createSelectorLabelsMap_foldl l m k :
  foldl createSelectorLabelsMap_one m l !! k =
  if decide (k ∈ (fun e => CreateSelectorLabel e.1) <$> filter (fun e => IsWorkloadLabel e.1 = false) l)
  then Some "true" else m !! k.
Proof.
  revert m. induction l as [|[x v] l IH]; intros m; cbn [foldl].
  - rewrite decide_False; [done|]. apply not_elem_of_nil.
  - rewrite IH. unfold createSelectorLabelsMap_one. cbn [fst].
    rewrite filter_cons. cbn [fst]. destruct (IsWorkloadLabel x) eqn:Hw.
    + by rewrite (decide_False (P := true = false)) by done.
    + rewrite (decide_True (P := false = false)) by done. cbn [fmap list_fmap fst].
      destruct (decide (k ∈ (fun e => CreateSelectorLabel e.1) <$> filter _ l)) as [Hk|Hk].
      * rewrite decide_True; [done|by right].
      * destruct (decide (CreateSelectorLabel x = k)) as [<-|Hne].
        -- rewrite decide_True by left. apply lookup_insert_eq.
        -- rewrite decide_False by (rewrite elem_of_cons; naive_solver). by apply lookup_insert_ne.
Qed.

(** The map of lookups, whatever the order of the labels. *)
Definition selector_lookups (device : EdgeDevice) : gmap string string :=
  gset_to_gmap "true" (set_map CreateSelectorLabel
    (filter (fun l => IsWorkloadLabel l = false)
       (dom (entries (Labels (EdgeDevice_ObjectMeta device)))) : gset string)) ∪
  {[CreateSelectorLabel DeviceNameLabel := Name (EdgeDevice_ObjectMeta device);
    CreateSelectorLabel DoesNotExistLabel := "true"]}.

Lemma exec_createSelectorLabelsMap device t o :
  exec (createSelectorLabelsMap device) t o ->
  exists seed, t = [Ev MapOrder seed] /\ o = Done (selector_lookups device).
Proof.
  intros He. unfold createSelectorLabelsMap in He.
  apply exec_bind_inv in He as [[He ->]|(order & t1 & t2 & -> & H1 & He)];
    [by apply exec_range_map in He as (? & _ & ?)|].
  apply exec_range_map in H1 as (seed & -> & [= ->]). apply exec_Ret_inv in He as [-> ->].
  exists seed. split; [done|]. f_equal. apply map_eq. intros k.
  rewrite createSelectorLabelsMap_foldl. unfold selector_lookups. rewrite lookup_union.
  rewrite lookup_gset_to_gmap.
  assert (k ∈ (fun e : string * string => CreateSelectorLabel e.1) <$>
            filter (fun e => IsWorkloadLabel e.1 = false)
              (range seed (Labels (EdgeDevice_ObjectMeta device))) <->
          k ∈ (set_map CreateSelectorLabel (filter (fun l => IsWorkloadLabel l = false)
                 (dom (entries (Labels (EdgeDevice_ObjectMeta device)))) : gset string) : gset string)) as Hk.
  { rewrite list_elem_of_fmap, elem_of_map. setoid_rewrite list_elem_of_filter.
    setoid_rewrite elem_of_filter. setoid_rewrite elem_of_dom. split.
    - intros ([l v] & -> & Hw & Hin%elem_of_range). eauto.
    - intros (l & -> & Hw & v & Hv). exists (l, v). split; [done|]. split; [done|]. by apply elem_of_range. }
  destruct (decide (k ∈ (fun e : string * string => CreateSelectorLabel e.1) <$> _)) as [Hin|Hin].
  - rewrite option_guard_True by by apply Hk. by rewrite union_Some_l.
  - rewrite option_guard_False by (intros Hx; apply Hin, Hk, Hx). cbn [mbind option_bind]. by rewrite (left_id_L None (∪)).
Qed.


Lemma IndexKey_selector l v :
  CreateWorkloadIndexKey (CreateSelectorLabel l) v = if decide (l = DeviceNameLabel) then v else l.
Proof. unfold CreateWorkloadIndexKey, CreateSelectorLabel. by rewrite TrimPrefix_app. Qed.

(** Keys collide only if a label is called "devicename". *)
Definition no_devicename (l : gset string) : Prop := DeviceNameLabel ∉ l.

Definition selectable (device : EdgeDevice) : gset string :=
  filter (fun l => IsWorkloadLabel l = false) (dom (entries (Labels (EdgeDevice_ObjectMeta device)))).

Lemma lookup_selector_lookups device l :
  selector_lookups device !! CreateSelectorLabel l =
  if decide (l ∈ selectable device) then Some "true"
  else if decide (l = DeviceNameLabel) then Some (Name (EdgeDevice_ObjectMeta device))
  else if decide (l = DoesNotExistLabel) then Some "true" else None.
Proof.
  unfold selector_lookups. rewrite lookup_union, lookup_gset_to_gmap.
  fold (selectable device). destruct (decide (l ∈ selectable device)) as [Hl|Hl].
  - rewrite option_guard_True by (by apply elem_of_map_2). by rewrite union_Some_l.
  - rewrite option_guard_False.
    2:{ by intros (x & ->%(inj CreateSelectorLabel) & ?)%elem_of_map. }
    cbn [mbind option_bind]. rewrite (left_id_L None (∪)).
    destruct (decide (l = DeviceNameLabel)) as [->|Hd]; [apply lookup_insert_eq|].
    rewrite lookup_insert_ne by (by intros <-%(inj CreateSelectorLabel)).
    destruct (decide (l = DoesNotExistLabel)) as [->|Hn]; [apply lookup_singleton_eq|].
    apply lookup_singleton_ne. by intros <-%(inj CreateSelectorLabel).
Qed.

Lemma selector_lookups_label device label :
  is_Some (selector_lookups device !! label) -> exists l, label = CreateSelectorLabel l.
Proof.
  unfold selector_lookups. intros [v [Hv|[_ Hv]]%lookup_union_Some_raw].
  - apply lookup_gset_to_gmap_Some in Hv as [(l & -> & _)%elem_of_map _]. by exists l.
  - apply lookup_insert_Some in Hv as [[<- _]|[_ Hv]]; [by eexists|].
    apply lookup_singleton_Some in Hv as [<- _]. by eexists.
Qed.

Lemma elem_of_looked_up device k :
  no_devicename (dom (entries (Labels (EdgeDevice_ObjectMeta device)))) ->
  k ∈ looked_up device <->
  exists label value, selector_lookups device !! label = Some value /\
    k = CreateWorkloadIndexKey label value.
Proof.
  intros Hdn.
  assert (DeviceNameLabel ∉ selectable device) as Hdn'
    by (unfold selectable; by intros [_ ?]%elem_of_filter).
  unfold looked_up. fold (selectable device). split.
  - intros [[->%elem_of_singleton| ->%elem_of_singleton]%elem_of_union|Hk]%elem_of_union.
    + exists (CreateSelectorLabel DeviceNameLabel), (Name (EdgeDevice_ObjectMeta device)).
      rewrite lookup_selector_lookups, IndexKey_selector, decide_False, !decide_True by done. done.
    + exists (CreateSelectorLabel DoesNotExistLabel), "true".
      rewrite lookup_selector_lookups, IndexKey_selector. split; [by case_decide|done].
    + exists (CreateSelectorLabel k), "true".
      rewrite lookup_selector_lookups, IndexKey_selector, decide_True by done. split; [done|].
      rewrite decide_False; [done|]. by intros ->.
  - intros (label & value & Hl & ->).
    destruct (selector_lookups_label device label) as [l ->]; [eauto|].
    rewrite lookup_selector_lookups in Hl. rewrite IndexKey_selector.
    destruct (decide (l ∈ selectable device)) as [Hs|_].
    + rewrite decide_False by (by intros ->). apply elem_of_union. by right.
    + apply elem_of_union. left. apply elem_of_union.
      destruct (decide (l = DeviceNameLabel)) as [_|_]; [injection Hl as <-; left; by apply elem_of_singleton|].
      destruct (decide (l = DoesNotExistLabel)) as [->|_]; [|done]. right. by apply elem_of_singleton.
Qed.

(** The keys a selector mentions. *)
Definition mentioned (spec : EdgeWorkloadSpec) : gset string :=
  match EdgeWorkloadSpec_DeviceSelector spec with
  | Some s => dom (entries (MatchLabels s)) ∪
      list_to_set (Requirement_Key <$> elems (MatchExpressions s))
  | None => ∅
  end.

Definition requirement_key (r : LabelSelectorRequirement) : string :=
  if decide (Requirement_Operator r = LabelSelectorOpDoesNotExist)
  then DoesNotExistLabel else Requirement_Key r.

Lemma requirement_label_key r : requirement_label r = CreateSelectorLabel (requirement_key r).
Proof. unfold requirement_label, requirement_key. by case_decide. Qed.

Lemma lookup_selector_labels spec n v :
  selector_labels spec !! CreateSelectorLabel n = Some v <->
  if decide (EdgeWorkloadSpec_Device spec <> "") then
    n = DeviceNameLabel /\ v = EdgeWorkloadSpec_Device spec
  else n ∈ indexed_under spec /\ v = "true".
Proof.
  unfold selector_labels, indexed_under. case_decide as Hd.
  - rewrite lookup_singleton_Some. split; [by intros [->%(inj CreateSelectorLabel) ->]|by intros [-> ->]].
  - destruct (EdgeWorkloadSpec_DeviceSelector spec) as [s|]; [|by rewrite lookup_empty; set_solver].
    rewrite lookup_gset_to_gmap_Some, !elem_of_union, elem_of_map, !elem_of_list_to_set.
    rewrite !list_elem_of_fmap. setoid_rewrite requirement_label_key.
    assert (forall r, requirement_key r = if decide (Requirement_Operator r = LabelSelectorOpDoesNotExist)
              then DoesNotExistLabel else Requirement_Key r) as Hk by done.
    setoid_rewrite <-Hk. split.
    + intros [[(x & ->%(inj CreateSelectorLabel) & ?)|(r & ->%(inj CreateSelectorLabel) & ?)] <-];
        (split; [|done]); [by left|right; eauto].
    + intros [[?|(r & -> & ?)] ->]; (split; [|done]); [left; eauto|right; eauto].
Qed.

(** A workload whose labels are in line is indexed under the keys of its
    specification. *)
Lemma elem_of_indexed_under seed w k :
  no_devicename (mentioned (EdgeWorkload_Spec w)) ->
  DeletionTimestamp (EdgeWorkload_ObjectMeta w) = None ->
  k ∈ WorkloadByDeviceIndexFunc seed (in_line w) <-> k ∈ indexed_under (EdgeWorkload_Spec w).
Proof.
  intros Hdn Hdel. rewrite elem_of_WorkloadByDeviceIndexFunc.
  assert (forall n, map_get (Labels (EdgeWorkload_ObjectMeta (in_line w))) (CreateSelectorLabel n) =
            selector_labels (EdgeWorkload_Spec w) !! CreateSelectorLabel n) as Hget.
  { intros n. unfold map_get. cbn [in_line upd_WorkloadMeta EdgeWorkload_ObjectMeta set_Labels Labels].
    simpl. rewrite lookup_union. replace (other_labels _ !! _) with (None : option string);
      [by rewrite (right_id_L None (∪))|]. symmetry. apply map_lookup_filter_None. right.
    intros x _. by rewrite IsSelectorLabel_CreateSelectorLabel. }
  setoid_rewrite Hget. setoid_rewrite lookup_selector_labels. setoid_rewrite IndexKey_selector.
  assert (DeletionTimestamp (EdgeWorkload_ObjectMeta (in_line w)) = None) as Hdel' by done.
  destruct (decide (EdgeWorkloadSpec_Device (EdgeWorkload_Spec w) <> "")) as [Hd|Hd].
  - unfold indexed_under. rewrite decide_True by done. rewrite elem_of_singleton.
    split; [intros (_ & n & v & [-> ->] & ->); by rewrite decide_True|].
    intros ->. split; [done|]. eexists _, _. split; [done|]. by rewrite decide_True.
  - assert (DeviceNameLabel ∉ indexed_under (EdgeWorkload_Spec w)) as Hn.
    { intros Hin. apply Hdn. unfold mentioned. unfold indexed_under in Hin.
      rewrite decide_False in Hin by done.
      destruct (EdgeWorkloadSpec_DeviceSelector _) as [s|]; [|done].
      apply elem_of_union in Hin as [Hin|Hin]; apply elem_of_union; [by left|right].
      apply elem_of_list_to_set, list_elem_of_fmap in Hin as (r & Hr & Hin).
      apply elem_of_list_to_set, list_elem_of_fmap. exists r. split; [|done].
      by case_decide. }
    split.
    + intros (_ & n & v & [Hin ->] & ->). case_decide as E; [by rewrite E in Hin|done].
    + intros Hin. split; [done|]. exists k, "true". split; [done|].
      rewrite decide_False; [done|]. by intros ->.
Qed.

(** ** Lemmas: the updated device *)

Definition workload_names (device : EdgeDevice) : list string :=
  Workload_Name <$> elems (EdgeDeviceStatus_Workloads (EdgeDevice_Status device)).

(** The device lists exactly the workloads that match. *)
Definition in_sync (selected : gmap string bool) (device : EdgeDevice) : Prop :=
  forall n, n ∈ workload_names device <-> selected !! n = Some true.

Definition matches_name (selected : gmap string bool) (w : Workload) : bool :=
  bool_decide (selected !! Workload_Name w = Some true).

Lemma matches_name_delete selected n w :
  n <> Workload_Name w -> matches_name (delete n selected) w = matches_name selected w.
Proof. intros Hn. unfold matches_name. by rewrite lookup_delete_ne. Qed.

Lemma matches_name_spec selected w :
  matches_name selected w = true <-> selected !! Workload_Name w = Some true.
Proof. apply bool_decide_eq_true. Qed.

(** The first loop, over workloads with distinct names: those that match are
    kept and no longer to be placed, the labels of the others go. *)
Definition dropped_labels (selected : gmap string bool) (ws : list Workload) : list string :=
  (fun w => WorkloadLabel (Workload_Name w)) <$> filter (fun w => matches_name selected w = false) ws.

Lemma keep_foldl p ws :
  NoDup (Workload_Name <$> ws) ->
  let p' := foldl createUpdatedDevice_keep p ws in
  let selected := placing_selected p in
  (forall n, placing_selected p' !! n =
     if decide (n ∈ Workload_Name <$> ws /\ selected !! n = Some true) then None else selected !! n) /\
  elems (placing_workloads p') =
    elems (placing_workloads p) ++ filter (fun w => matches_name selected w = true) ws /\
  (forall k, placing_labels p' !! k =
     if decide (k ∈ dropped_labels selected ws) then None else placing_labels p !! k) /\
  placing_updated p' = placing_updated p || negb (bool_decide (dropped_labels selected ws = [])).
Proof.
  cbv zeta. induction ws as [|w ws IH] using rev_ind; intros Hnd.
  - simpl. rewrite app_nil_r, orb_false_r. by split_and!.
  - rewrite fmap_app in Hnd. apply NoDup_app in Hnd as (Hnd & Hdis & _).
    assert (Workload_Name w ∉ Workload_Name <$> ws) as Hw.
    { intros Hin. apply (Hdis _ Hin). simpl. left. }
    specialize (IH Hnd) as (Hsel & Hws & Hlab & Hupd).
    rewrite foldl_app. cbn [foldl]. set (p' := foldl createUpdatedDevice_keep p ws) in *.
    unfold createUpdatedDevice_keep.
    assert (placing_selected p' !! Workload_Name w = placing_selected p !! Workload_Name w) as Hpw.
    { rewrite Hsel, decide_False; [done|]. by intros [? _]. }
    assert (dropped_labels (placing_selected p) (ws ++ [w]) =
            dropped_labels (placing_selected p) ws ++
            (if matches_name (placing_selected p) w then [] else [WorkloadLabel (Workload_Name w)])) as Hd.
    { unfold dropped_labels. rewrite filter_app, fmap_app. f_equal. rewrite filter_cons, filter_nil.
      by destruct (matches_name (placing_selected p) w). }
    rewrite filter_app, fmap_app, Hd, Hpw.
    assert (filter (fun w => matches_name (placing_selected p) w = true) [w] =
            if matches_name (placing_selected p) w then [w] else []) as Hf.
    { rewrite filter_cons, filter_nil. by destruct (matches_name (placing_selected p) w). }
    rewrite Hf. destruct (decide (placing_selected p !! Workload_Name w = Some true)) as [Hm|Hm].
    + assert (matches_name (placing_selected p) w = true) as -> by by apply matches_name_spec.
      cbn [placing_selected placing_workloads placing_labels placing_updated].
      rewrite app_nil_r, elems_append, Hws, (assoc_L (++)). split_and!; try done.
      intros n. destruct (decide (n = Workload_Name w)) as [->|Hne].
      * rewrite lookup_delete_eq, decide_True; [done|]. split; [|done]. apply elem_of_app. right. left.
      * rewrite lookup_delete_ne, Hsel by done. apply decide_ext. rewrite elem_of_app.
        cbn [fmap list_fmap]. rewrite list_elem_of_singleton. naive_solver.
    + assert (matches_name (placing_selected p) w = false) as ->.
      { destruct (matches_name (placing_selected p) w) eqn:E; [|done]. by apply matches_name_spec in E. }
      cbn [placing_selected placing_workloads placing_labels placing_updated].
      rewrite app_nil_r. split_and!; [|done| |].
      * intros n. rewrite Hsel. apply decide_ext. rewrite elem_of_app.
        cbn [fmap list_fmap]. rewrite list_elem_of_singleton. naive_solver.
      * intros k. destruct (decide (k = WorkloadLabel (Workload_Name w))) as [->|Hne].
        -- rewrite lookup_delete_eq, decide_True; [done|]. apply elem_of_app. right. left.
        -- rewrite lookup_delete_ne, Hlab by done. apply decide_ext. rewrite elem_of_app, list_elem_of_singleton.
           naive_solver.
      * rewrite bool_decide_eq_false_2; [by rewrite orb_true_r|]. by intros [_ ?]%app_eq_nil.
Qed.

(** The second loop places what is left, in whatever order. *)
Definition to_place (order : list (string * bool)) : list string :=
  (filter (fun e => e.2 = true) order).*1.

Lemma add_foldl order : forall p,
  let p' := foldl createUpdatedDevice_add p order in
  elems (placing_workloads p') =
    elems (placing_workloads p) ++ ((fun n => mkWorkload n Deploying 0 0) <$> to_place order) /\
  (forall k, placing_labels p' !! k =
     if decide (k ∈ WorkloadLabel <$> to_place order) then Some "true" else placing_labels p !! k) /\
  placing_updated p' = placing_updated p || negb (bool_decide (to_place order = [])).
Proof.
  cbv zeta. induction order as [|[n b] order IH]; intros p.
  - simpl. rewrite app_nil_r, orb_false_r. by split_and!.
  - cbn [foldl]. destruct (IH (createUpdatedDevice_add p (n, b))) as (Hws & Hlab & Hupd).
    rewrite Hws, Hupd. unfold to_place. rewrite filter_cons. cbn [snd].
    unfold createUpdatedDevice_add in *. destruct b; cbn [negb placing_workloads placing_labels placing_updated] in *.
    + rewrite (decide_True (P := true = true)) by done. fold (to_place order).
      change (((n, true) :: filter (fun e => e.2 = true) order).*1) with (n :: to_place order).
      cbn [fmap list_fmap]. rewrite elems_append, <-(assoc_L (++)). split_and!; [done| |].
      * intros k. rewrite Hlab. destruct (decide (k ∈ WorkloadLabel <$> to_place order)) as [Hk|Hk].
        -- rewrite decide_True; [done|by right].
        -- destruct (decide (k = WorkloadLabel n)) as [->|Hne].
           ++ rewrite decide_True by left. apply lookup_insert_eq.
           ++ rewrite decide_False by (rewrite elem_of_cons; naive_solver). by apply lookup_insert_ne.
      * rewrite (bool_decide_eq_false_2 (n :: _ = [])) by done. by rewrite orb_true_r.
    + rewrite (decide_False (P := false = true)) by done. split_and!; done.
Qed.

(** The device with exactly the matching workloads: those it had, then the
    missing ones as being deployed, with a label for each of these and without
    the labels of those that went; nothing else changes. *)
Definition brought_in_line (selected : gmap string bool) (device d' : EdgeDevice) : Prop :=
  let workloads := elems (EdgeDeviceStatus_Workloads (EdgeDevice_Status device)) in
  exists fresh workloads' labels',
    d' = upd_Status (set_Workloads workloads') (upd_Meta (set_Labels (Some labels')) device) /\
    NoDup fresh /\
    (forall n, n ∈ fresh <-> selected !! n = Some true /\ n ∉ workload_names device) /\
    elems workloads' = filter (fun w => matches_name selected w = true) workloads ++
                       ((fun n => mkWorkload n Deploying 0 0) <$> fresh) /\
    forall k, labels' !! k =
      if decide (k ∈ WorkloadLabel <$> fresh) then Some "true"
      else if decide (k ∈ dropped_labels selected workloads) then None
      else map_get (Labels (EdgeDevice_ObjectMeta device)) k.

Lemma elem_of_to_place seed (m : gmap string bool) n :
  n ∈ to_place (range seed (Some m)) <-> m !! n = Some true.
Proof.
  unfold to_place. rewrite list_elem_of_fmap. setoid_rewrite list_elem_of_filter. split.
  - intros ([x b] & -> & Hb & Hin%elem_of_range). cbn in *. subst b. exact Hin.
  - intros Hn. exists (n, true). split; [done|]. split; [done|]. by apply elem_of_range.
Qed.

Lemma NoDup_to_place seed (m : gmap string bool) : NoDup (to_place (range seed (Some m))).
Proof.
  unfold to_place. eapply sublist_NoDup; [apply (NoDup_fst_range seed (Some m))|].
  apply fmap_sublist, sublist_filter.
Qed.

Lemma exec_createUpdatedDevice selected device t o :
  NoDup (workload_names device) ->
  exec (createUpdatedDevice selected device) t o ->
  exists seed, t = [Ev MapOrder seed] /\
    ((in_sync selected device /\ o = Done None) \/
     (~ in_sync selected device /\ exists d', o = Done (Some d') /\ brought_in_line selected device d')).
Proof.
  intros Hnd He. unfold createUpdatedDevice in He. cbv zeta in He.
  set (ws := elems (EdgeDeviceStatus_Workloads (EdgeDevice_Status device))) in *.
  set (p0 := mkPlacing selected None (map_make_if_nil (Labels (EdgeDevice_ObjectMeta device))) false) in *.
  destruct (keep_foldl p0 ws Hnd) as (Hsel & Hws & Hlab & Hupd).
  set (p1 := foldl createUpdatedDevice_keep p0 ws) in *. clearbody p1.
  cbn [p0 placing_selected placing_workloads placing_labels placing_updated elems default app orb] in *.
  apply exec_bind_inv in He as [[He ->]|(order & t1 & t2 & -> & H1 & He)];
    [by apply exec_range_map in He as (? & _ & ?)|].
  apply exec_range_map in H1 as (seed & -> & [= ->]). apply exec_Ret_inv in He as [-> ->].
  exists seed. split; [done|].
  destruct (add_foldl (range seed (Some (placing_selected p1))) p1) as (Hws2 & Hlab2 & Hupd2).
  set (fresh := to_place (range seed (Some (placing_selected p1)))) in *.
  set (p2 := foldl createUpdatedDevice_add p1 _) in *. clearbody p2.
  assert (forall n, n ∈ fresh <-> selected !! n = Some true /\ n ∉ workload_names device) as Hfresh.
  { intros n. unfold fresh. rewrite elem_of_to_place, Hsel. fold (workload_names device).
    case_decide; naive_solver. }
  assert (in_sync selected device <-> dropped_labels selected ws = [] /\ fresh = []) as Hsync.
  { unfold in_sync, workload_names. fold ws. unfold dropped_labels. split.
    - intros Hs. split.
      + destruct (filter (fun w => matches_name selected w = false) ws) as [|w l] eqn:E; [done|]. exfalso.
        assert (w ∈ filter (fun w => matches_name selected w = false) ws) as Hin by (rewrite E; left).
        apply list_elem_of_filter in Hin as [Hm Hin]. assert (matches_name selected w = true); [|congruence].
        apply matches_name_spec, Hs. by apply list_elem_of_fmap_2.
      + destruct fresh as [|n l]; [done|]. exfalso.
        destruct (proj1 (Hfresh n) (list_elem_of_here _ _)) as [Hn Hnot]. by apply Hnot, Hs.
    - intros [Hd Hf] n. apply fmap_nil_inv in Hd. split.
      + intros (w & -> & Hin)%list_elem_of_fmap. apply matches_name_spec.
        destruct (matches_name selected w) eqn:E; [done|]. exfalso.
        assert (w ∈ filter (fun w => matches_name selected w = false) ws) as Hin'
          by by apply list_elem_of_filter.
        rewrite Hd in Hin'. by apply not_elem_of_nil in Hin'.
      + intros Hn. destruct (decide (n ∈ Workload_Name <$> ws)) as [?|Hnot]; [done|]. exfalso.
        assert (n ∈ fresh) as Hin by by apply Hfresh. rewrite Hf in Hin. by apply not_elem_of_nil in Hin. }
  rewrite Hupd2, Hupd. destruct (decide (dropped_labels selected ws = [] /\ fresh = [])) as [[E1 E2]|Hn].
  - left. split; [by apply Hsync|]. by rewrite E1, E2.
  - right. split; [by rewrite Hsync|].
    assert (negb (bool_decide (dropped_labels selected ws = [])) || negb (bool_decide (fresh = [])) = true) as ->.
    { apply orb_true_iff. rewrite !negb_true_iff, !bool_decide_eq_false. destruct (dropped_labels selected ws); naive_solver. }
    eexists. split; [done|]. exists fresh. eexists _, _. split; [done|].
    split; [apply NoDup_to_place|]. split; [exact Hfresh|]. split; [by rewrite Hws2, Hws|].
    intros k. rewrite Hlab2. fold fresh. by rewrite Hlab.
Qed.

(** ** Lemmas: selection *)

Section Spec.
Context `{Libs}.
Implicit Types (device : EdgeDevice) (selected : gmap string bool).

Definition lookup_request device (label value : string) : Req :=
  ListEdgeWorkloads (MatchingFields WorkloadByDeviceIndexKey (CreateWorkloadIndexKey label value))
    (Namespace (EdgeDevice_ObjectMeta device)).

(** What has been read decides what is selected: a name is there exactly if a
    workload of that name was listed, with what one such workload says. *)
Definition decided device selected (listed : list EdgeWorkload) : Prop :=
  (forall n b, selected !! n = Some b -> exists w, w ∈ listed /\
     Name (EdgeWorkload_ObjectMeta w) = n /\ isWorkloadMatchDevice w device = (b, None)) /\
  (forall w, w ∈ listed -> is_Some (selected !! Name (EdgeWorkload_ObjectMeta w))).

Lemma exec_selectWorkload device selected listed ws t o :
  decided device selected listed ->
  exec (for_range ws selected (selectWorkload device)) t o ->
  t = [] /\
  match o with
  | Done (Next selected') => decided device selected' (listed ++ ws)
  | Done (Return e) => exists w b, w ∈ ws /\ isWorkloadMatchDevice w device = (b, Some e)
  | Panicked => False
  end.
Proof.
  intros Hd He.
  pose proof (for_range_rule (fun pre sel t => t = [] /\ decided device sel (listed ++ pre))
    (fun e t => t = [] /\ exists w b, w ∈ ws /\ isWorkloadMatchDevice w device = (b, Some e))
    (fun _ => False) (selectWorkload device) ws) as Hrule.
  assert (match o with
          | Done (Next s) => t = [] /\ decided device s (listed ++ ws)
          | Done (Return e) => t = [] /\ exists w b, w ∈ ws /\ isWorkloadMatchDevice w device = (b, Some e)
          | Panicked => False end) as Ho.
  { refine (Hrule _ selected t o _ He); [|by rewrite app_nil_r]. clear Hrule He.
    intros pre w post sel t1 t' o' -> [-> [H1 H2]] Hb. unfold selectWorkload in Hb.
    destruct (sel !! Name (EdgeWorkload_ObjectMeta w)) as [b|] eqn:Hs.
    { apply exec_Ret_inv in Hb as [-> ->]. split; [done|]. split.
      - intros n b' Hn. destruct (H1 n b' Hn) as (w' & Hin & ?). exists w'. split; [|done]. set_solver.
      - intros w'. rewrite (assoc_L (++)), elem_of_app, list_elem_of_singleton.
        intros [?| ->]; [by apply H2|by eexists]. }
    destruct (isWorkloadMatchDevice w device) as [b [e|]] eqn:Hm;
      apply exec_Ret_inv in Hb as [-> ->]; (split; [done|]).
    { exists w, b. split; [set_solver|done]. }
    split.
    - intros n b' [[<- <-]|[Hne Hn]]%lookup_insert_Some.
      + exists w. split; [set_solver|done].
      + destruct (H1 n b' Hn) as (w' & Hin & ?). exists w'. split; [|done]. set_solver.
    - intros w'. rewrite (assoc_L (++)), elem_of_app, list_elem_of_singleton.
      intros [?| ->]; [|by rewrite lookup_insert_eq; eexists].
      apply lookup_insert_is_Some'. right. by apply H2. }
  destruct o as [[s|e]|]; [by destruct Ho|by destruct Ho|done].
Qed.

(** Every lookup is made, and the selection is what the answers decide. *)
Definition looked_through device (order : list (string * string)) (listed : list EdgeWorkload)
    (t : list Event) : Prop :=
  exists answers : list (list EdgeWorkload), listed = concat answers /\
    t = zip_with (fun (e : string * string) ws => Ev (lookup_request device e.1 e.2) (ws, None))
          order answers /\ length answers = length order.

Lemma exec_selectWorkloads device order t o :
  exec (selectWorkloads device order) t o ->
  match o with
  | Done (Next selected) => exists listed,
      looked_through device order listed t /\ decided device selected listed
  | Done (Return e) => True
  | Panicked => False
  end.
Proof.
  intros He.
  refine (for_range_rule (fun pre sel t => exists listed, looked_through device pre listed t /\
              decided device sel listed)
            (fun e t => True) (fun _ => False) _ order _ ∅ t o _ He).
  2:{ exists []. split; [by exists []|]. split; [by intros ??; rewrite lookup_empty|].
      intros w Hw. by apply not_elem_of_nil in Hw. }
  clear He. intros pre [label value] post sel t1 t' o' _ (listed & (answers & -> & -> & Hlen) & Hd) Hb.
  apply exec_bind_inv in Hb as [[Hb ->]|([ws err] & t2 & t3 & -> & Hl & Hb)].
  { unfold edgeworkload.ListByLabel in Hb. exec_call Hb as ([? [?|]] & t2 & -> & Hb);
      by apply exec_Ret_inv in Hb as [_ ?]. }
  unfold edgeworkload.ListByLabel in Hl. exec_call Hl as ([items err'] & t4 & -> & Hl).
  destruct err' as [e|]; apply exec_Ret_inv in Hl as [-> [= -> ->]].
  { by apply exec_Ret_inv in Hb as [-> ->]. }
  apply (exec_selectWorkload _ _ _ _ _ _ Hd) in Hb as [-> Hb].
  destruct o' as [[s|e]|]; [|done|done]. eexists. split; [|exact Hb].
  exists (answers ++ [items]). split; [by rewrite concat_app; simpl; rewrite app_nil_r|].
  split; [|by rewrite !length_app, Hlen].
  by rewrite zip_with_app by done.
Qed.

(** How the workloads of a device are brought in line: the lookups, the
    decision, and then the two patches, the second of which sends the answer
    to the first. *)
Lemma exec_updateWorkloads device t o :
  NoDup (workload_names device) ->
  exec (updateWorkloads device) t o ->
  (exists e, o = Done (Some e)) \/
  exists seed1 seed2 seed3 listed selected t1 t2,
    t = Ev MapOrder seed1 :: Ev MapOrder seed2 :: t1 ++ Ev MapOrder seed3 :: t2 /\
    looked_through device (range seed2 (Some (selector_lookups device))) listed t1 /\
    decided device selected listed /\ o = Done None /\
    ((in_sync selected device /\ t2 = []) \/
     (~ in_sync selected device /\ exists d' answer r,
        brought_in_line selected device d' /\
        t2 = [Ev (PatchEdgeDeviceStatus device d') (answer, None);
              Ev (PatchEdgeDevice device answer) (r, None)])).
Proof.
  intros Hnd He. unfold updateWorkloads in He.
  apply exec_bind_inv in He as [[He ->]|(m & t1 & t2 & -> & H1 & He)];
    [by apply exec_createSelectorLabelsMap in He as (? & _ & ?)|].
  apply exec_createSelectorLabelsMap in H1 as (seed1 & -> & [= ->]).
  apply exec_bind_inv in He as [[He ->]|(order & t3 & t4 & -> & H1 & He)];
    [by apply exec_range_map in He as (? & _ & ?)|].
  apply exec_range_map in H1 as (seed2 & -> & [= ->]).
  apply exec_bind_inv in He as [[He ->]|(res & t5 & t6 & -> & H1 & He)];
    [by apply exec_selectWorkloads in He|].
  apply exec_selectWorkloads in H1. destruct res as [selected|e];
    [|apply exec_Ret_inv in He as [_ ->]; left; by eexists].
  destruct H1 as (listed & Hlt & Hdec).
  apply exec_bind_inv in He as [[He ->]|(d & t7 & t8 & -> & H1 & He)].
  { apply exec_createUpdatedDevice in He as (? & _ & [[_ ?]|(_ & ? & ? & _)]); done. }
  apply exec_createUpdatedDevice in H1 as (seed3 & -> & Hd); [|done].
  destruct Hd as [[Hs [= ->]]|(Hs & d' & [= ->] & Hb)].
  - apply exec_Ret_inv in He as [-> ->]. right.
    exists seed1, seed2, seed3, listed, selected, t5, []. split; [done|]. split; [done|].
    split; [done|]. split; [done|]. by left.
  - unfold edgedevice.PatchStatus in He. exec_call He as ([answer err] & t9 & -> & He).
    destruct err as [e|]; [apply exec_Ret_inv in He as [_ ->]; left; by eexists|].
    unfold edgedevice.Patch in He. exec_call He as ([r err] & t10 & -> & He).
    destruct err as [e|]; apply exec_Ret_inv in He as [-> ->]; [left; by eexists|]. right.
    eexists seed1, seed2, seed3, listed, selected, t5, _. split; [done|]. split; [done|].
    split; [done|]. split; [done|]. right. split; [done|]. by exists d', answer, r.
Qed.

(** The label of a finished playbook leaves the map of the device in memory
    before it is compared: nothing is ever sent. *)
Lemma exec_updatePlaybookExecutions device t o :
  exec (updatePlaybookExecutions device) t o ->
  o = Done None /\ Forall (fun e => ev_req e = MapOrder) t.
Proof.
  intros He. unfold updatePlaybookExecutions in He.
  apply exec_bind_inv in He as [[He ->]|(order & t1 & t2 & -> & H1 & He)];
    [by apply exec_range_map in He as (? & _ & ?)|].
  apply exec_range_map in H1 as (seed & -> & [= ->]).
  set (step := fun '(m, updated) '(label, labelValue) =>
      if label_done device label labelValue then (map_delete label m, true) else (m, updated)) in He.
  assert (forall l (m : gomap string) u, is_Some m -> is_Some (foldl step (m, u) l).1) as Hsome.
  { induction l as [|[k v] l IH]; intros m u Hm; [done|]. cbn [foldl]. unfold step at 2.
    destruct (label_done device k v); apply IH; [|done]. destruct Hm as [x ->]. by eexists. }
  destruct (Labels (EdgeDevice_ObjectMeta device)) as [m|] eqn:Hm.
  - destruct (Hsome (range seed (Some m)) (Some m) false ltac:(done)) as [m' Hm'].
    revert He. destruct (foldl step _ _) as [m2 u] eqn:E. intros He.
    change (m2 = Some m') in Hm'. subst m2.
    destruct u; [|by apply exec_Ret_inv in He as [-> ->]; split; [|repeat constructor]].
    apply exec_bind_inv in He as [[He ->]|([d err] & t3 & t4 & -> & H1 & He)].
    + by apply UpdateLabels_own in He as (? & _ & ?).
    + apply UpdateLabels_own in H1 as (seed' & -> & [= -> ->]); [|done].
      apply exec_Ret_inv in He as [-> ->]. split; [done|]. by repeat constructor.
  - rewrite range_nil in He. simpl in He. apply exec_Ret_inv in He as [-> ->].
    split; [done|]. by repeat constructor.
Qed.
End Spec.

(** ** Properties *)

Lemma looked_through_spec device order listed t :
  looked_through device order listed t ->
  (forall label value, (label, value) ∈ order -> exists ws,
     Ev (lookup_request device label value) (ws, None) ∈ t /\ forall w, w ∈ ws -> w ∈ listed) /\
  (forall w, w ∈ listed -> exists label value ws, (label, value) ∈ order /\
     Ev (lookup_request device label value) (ws, None) ∈ t /\ w ∈ ws) /\
  writes t = [].
Proof.
  intros (answers & -> & -> & Hlen). revert answers Hlen.
  induction order as [|[label value] order IH]; intros [|ws answers] Hlen; try done.
  - split_and!; [by intros ?? ?%not_elem_of_nil|by intros ? ?%not_elem_of_nil|done].
  - destruct (IH answers) as (IH1 & IH2 & IH3); [by injection Hlen|]. cbn [zip_with concat fst snd].
    split_and!.
    + intros l v [[= -> ->]|Hin]%elem_of_cons.
      * exists ws. split; [left|]. intros w Hw. apply elem_of_app. by left.
      * destruct (IH1 l v Hin) as (ws' & Hin' & Hs). exists ws'. split; [by right|].
        intros w Hw. apply elem_of_app. right. by apply Hs.
    + intros w [Hw|Hw]%elem_of_app.
      * exists label, value, ws. split; [left|]. split; [left|done].
      * destruct (IH2 w Hw) as (l & v & ws' & Hin & Ht & Hws). exists l, v, ws'.
        split; [by right|]. split; [by right|done].
    + rewrite writes_cons_other by (intros []). exact IH3.
Qed.

(** C27: which workloads a change of a device's labels finds: it finds one
    (whose own labels are in line) exactly when the name of the device, the
    word "doesnotexist" or a label of the device that is not a workload's is
    among the device the workload is bound to or the keys its selector
    mentions, where the keys of a "does not exist" requirement count as that
    word.  The requirements of a selector that names none of them (an empty
    selector, a "not in" on a label the device lacks) are never evaluated. *)
Theorem lookup_finds_exactly device w seed t o :
  no_devicename (dom (entries (Labels (EdgeDevice_ObjectMeta device)))) ->
  no_devicename (mentioned (EdgeWorkload_Spec w)) ->
  DeletionTimestamp (EdgeWorkload_ObjectMeta w) = None ->
  exec (createSelectorLabelsMap device) t o ->
  exists m, o = Done m /\
    ((exists label value, m !! label = Some value /\
        CreateWorkloadIndexKey label value ∈ WorkloadByDeviceIndexFunc seed (in_line w)) <->
     exists k, k ∈ looked_up device /\ k ∈ indexed_under (EdgeWorkload_Spec w)).
Proof.
  intros Hd Hm Hdel (s & _ & ->)%exec_createSelectorLabelsMap. eexists. split; [done|].
  setoid_rewrite elem_of_indexed_under; [|done..]. split.
  - intros (label & value & Hl & Hin). eexists. split; [|exact Hin].
    apply elem_of_looked_up; [done|]. eauto.
  - intros (k & Hk & Hin). apply elem_of_looked_up in Hk as (label & value & Hl & ->); [|done]. eauto.
Qed.

(** C20: a reconciliation after a change of labels, when it succeeds, has asked
    for the workloads under every lookup of the device, decides each name by a
    listed workload, and then writes nothing if the device lists exactly the
    matching workloads; otherwise it writes the device brought in line to its
    status, and then the answer to that write, not the labels it computed, to
    the device.  The labels of finished playbooks, which it means to remove,
    are never written. *)
Theorem Reconcile_follows_labels `{Libs} name ns device t :
  exec (Reconcile name ns) (Ev (GetEdgeDevice ns name) (device, None) :: t) (Done (no_result, None)) ->
  DeletionTimestamp (EdgeDevice_ObjectMeta device) = None ->
  NoDup (workload_names device) ->
  exists listed selected,
    (forall label value, selector_lookups device !! label = Some value -> exists ws,
       Ev (lookup_request device label value) (ws, None) ∈ t /\ forall w, w ∈ ws -> w ∈ listed) /\
    decided device selected listed /\
    ((in_sync selected device /\ writes t = []) \/
     (~ in_sync selected device /\ exists d' answer r,
        brought_in_line selected device d' /\
        writes t = [Ev (PatchEdgeDeviceStatus device d') (answer, None);
                    Ev (PatchEdgeDevice device answer) (r, None)])).
Proof.
  intros He Hdel Hnd. unfold Reconcile, edgedevice.Read in He.
  apply (exec_bind_call_resp (Resp := Resp) (GetEdgeDevice ns name)) in He. rewrite Hdel in He.
  apply exec_bind_inv in He as [[_ ?]|(err & t1 & t2 & -> & Hw & He)]; [done|].
  destruct err as [e|]; [by apply exec_Ret_inv in He as [_ ?]|].
  apply exec_bind_inv in He as [[_ ?]|(err & t3 & t4 & -> & Hp & He)]; [done|].
  apply exec_updatePlaybookExecutions in Hp as [[= ->] HF]. apply exec_Ret_inv in He as [-> _].
  apply exec_updateWorkloads in Hw as [(e & ?)|Hw]; [done| |done].
  destruct Hw as (seed1 & seed2 & seed3 & listed & selected & t5 & t6 & -> & Hlt & Hdec & _ & Hcase).
  apply looked_through_spec in Hlt as (Hall & _ & Hwr). exists listed, selected. split_and!.
  - intros label value Hl. destruct (Hall label value) as (ws & Hin & Hs); [by apply elem_of_range|].
    exists ws. split; [|done]. set_solver.
  - done.
  - assert (writes t3 = []) as Ht3.
    { apply writes_none. eapply Forall_impl; [exact HF|]. intros e ->. by intros []. }
    assert (writes ((Ev MapOrder seed1 :: Ev MapOrder seed2 :: t5 ++ Ev MapOrder seed3 :: t6) ++ t3 ++ []) =
            writes t6) as ->.
    { rewrite !writes_app. rewrite !writes_cons_other by (intros []).
      rewrite writes_app, Hwr, writes_cons_other by (intros []). by rewrite Ht3, !app_nil_r. }
    destruct Hcase as [[Hs ->]|(Hs & d' & answer & r & Hb & ->)]; [by left|right].
    split; [done|]. exists d', answer, r. split; [done|].
    by rewrite !writes_cons_write by exact I.
Qed.

(** ** Examples *)

Definition labelled : EdgeDevice :=
  device_named "d1" (Some {["color" := "red"; "workload/gone" := "true"]})
    (Some [mkWorkload "gone" Deploying 0 0]).
Definition red : EdgeWorkload :=
  upd_WorkloadMeta (fun _ => mkObjectMeta "red" "ns" "u" "1" None None None None None)
    (mkEdgeWorkload empty_TypeMeta (named "" "")
       (mkEdgeWorkloadSpec (Some (mkLabelSelector (Some {["color" := "red"]}) None)) "" ""
          (mkPod (corev1.mkPodSpec None None None "")) None None None "")
       mkEdgeWorkloadStatus).
Definition labels_world : World :=
  set_workloads {[("ns", "red") := in_line red]}
    (set_devices {[("ns", "d1") := labelled]} empty_world).

Lemma lookup_finds_exactly_witness :
  exists m, run_result (createSelectorLabelsMap labelled) empty_world = Done m /\
    exists label value, m !! label = Some value /\
      CreateWorkloadIndexKey label value ∈ WorkloadByDeviceIndexFunc 0 (in_line red).
Proof.
  destruct (lookup_finds_exactly labelled red 0 _ _
    ltac:(intros Hin; vm_compute in Hin; discriminate Hin)
    ltac:(intros Hin; vm_compute in Hin; discriminate Hin) ltac:(reflexivity)
    (run_result_exec (createSelectorLabelsMap labelled) empty_world)) as (m & Hm & Hiff).
  exists m. split; [exact Hm|]. apply Hiff. exists "color".
  split; refine (bool_decide_unpack _ _); vm_compute; exact I.
Defined.

Lemma Reconcile_follows_labels_witness :
  let t := tl (run_trace (@Reconcile trivial_libs "d1" "ns") labels_world) in
  workload_names labelled = ["gone"] /\
  exists d' answer r,
    (exists selected, brought_in_line selected labelled d') /\
    writes t = [Ev (PatchEdgeDeviceStatus labelled d') (answer, None);
                Ev (PatchEdgeDevice labelled answer) (r, None)].
Proof.
  cbv zeta. split; [reflexivity|].
  assert (exec (@Reconcile trivial_libs "d1" "ns")
    (Ev (GetEdgeDevice "ns" "d1") (labelled, None) ::
     tl (run_trace (@Reconcile trivial_libs "d1" "ns") labels_world))
    (Done (no_result, None))) as He
    by (apply run_starts_with; vm_compute; reflexivity).
  destruct (@Reconcile_follows_labels trivial_libs "d1" "ns" labelled _ He ltac:(reflexivity)
              ltac:(refine (bool_decide_unpack _ _); vm_compute; exact I))
    as (listed & selected & _ & _ & [[_ Hw]|(_ & d' & answer & r & Hb & Hw)]).
  - exfalso. vm_compute in Hw. discriminate Hw.
  - exists d', answer, r. split; [exists selected; exact Hb|exact Hw].
Defined.
