(* ===== verification/SignedRequest.v ===== *)
(** * The signed request reconciler

    controllers/edgedevicesignedrequest_controller.go: turns the approved
    request of a device into the device. *)
From S2P Require Import Prelude GoData GoStrings V1alpha1 Models Env Testbed Labels Utils.
From S2P Require Import Repository Backend Controller.
Import v1alpha1.

(** Of edgedevice_controller.go. *)
Definition DeviceFinalizer : string := "device-finalizer".

Definition conditions (edsr : EdgeDeviceSignedRequest) : slice EdgeDeviceSignedRequestCondition :=
  EdgeDeviceSignedRequestStatus_Conditions (EdgeDeviceSignedRequest_Status edsr).

(** [edsr.Status.Conditions[i].Status = "false"]. *)
Definition switch_off (c : EdgeDeviceSignedRequestCondition) : EdgeDeviceSignedRequestCondition :=
  mkEdgeDeviceSignedRequestCondition (EdgeDeviceSignedRequestCondition_Type c) "false"
    (EdgeDeviceSignedRequestCondition_Message c)
    (EdgeDeviceSignedRequestCondition_LastTransitionTime c).

(** Every condition becomes false, and a true one of the given type is added. *)
Definition mark (type message : string) (now : Time) (edsr : EdgeDeviceSignedRequest)
    : EdgeDeviceSignedRequest :=
  upd_Request_Status (fun s =>
    mkEdgeDeviceSignedRequestStatus
      (append (option_map (map switch_off) (EdgeDeviceSignedRequestStatus_Conditions s))
         (mkEdgeDeviceSignedRequestCondition type "true" (Some message) (Some now)))) edsr.

Definition markStatusPending (edsr : EdgeDeviceSignedRequest) : M (option error) :=
  now ← (call Now : M Time);
  '(_, err) ← edgedevicesignedrequest.PatchStatus
                (mark EdgeDeviceSignedRequestStatusPending "device is waiting for approval" now edsr)
                edsr;
  mret err.

Definition markStatusApproved (edsr : EdgeDeviceSignedRequest) : M (option error) :=
  now ← (call Now : M Time);
  '(_, err) ← edgedevicesignedrequest.PatchStatus
                (mark EdgeDeviceSignedRequestStatusApproved "device correctly approved" now edsr)
                edsr;
  mret err.

Definition IsPending (edsr : EdgeDeviceSignedRequest) : bool :=
  if decide (length (elems (conditions edsr)) = 0) then true
  else existsb (fun status =>
         bool_decide (EdgeDeviceSignedRequestCondition_Status status = "True") &&
         bool_decide (EdgeDeviceSignedRequestCondition_Type status =
                      EdgeDeviceSignedRequestStatusPending)) (elems (conditions edsr)).

(** [newEDSR.Spec.Approved = true]. *)
Definition approve (edsr : EdgeDeviceSignedRequest) : EdgeDeviceSignedRequest :=
  let s := EdgeDeviceSignedRequest_Spec edsr in
  mkEdgeDeviceSignedRequest (EdgeDeviceSignedRequest_TypeMeta edsr)
    (EdgeDeviceSignedRequest_ObjectMeta edsr)
    (mkEdgeDeviceSignedRequestSpec (EdgeDeviceSignedRequestSpec_TargetNamespace s)
       (EdgeDeviceSignedRequestSpec_TargetSet s) true (EdgeDeviceSignedRequestSpec_Features s))
    (EdgeDeviceSignedRequest_Status edsr).

(** The device of a request. *)
Definition new_device (edsr : EdgeDeviceSignedRequest) (now : Time) : EdgeDevice :=
  let s := EdgeDeviceSignedRequest_Spec edsr in
  let labels : gmap string string :=
    {[EdgeDeviceSignedRequestLabelName := EdgeDeviceSignedRequestLabelValue]} in
  let labels :=
    if decide (EdgeDeviceSignedRequestSpec_TargetSet s <> "")
    then <[EdgedeviceSetLabel := EdgeDeviceSignedRequestSpec_TargetSet s]> labels else labels in
  mkEdgeDevice empty_TypeMeta
    (mkObjectMeta (Name (EdgeDeviceSignedRequest_ObjectMeta edsr))
       (EdgeDeviceSignedRequestSpec_TargetNamespace s) "" "" None (Some labels) None None
       (Some [DeviceFinalizer]))
    (mkEdgeDeviceSpec None None (Some now) None None None None None)
    empty_EdgeDeviceStatus.

(** [if err != nil { return Requeue, err }; return Result{}, nil]. *)
Definition finish (err : option error) : M (Result * option error) :=
  match err with Some e => retry_with e | None => finished end.

Definition Reconcile (AutoApproval : bool) (name namespace : string) : M (Result * option error) :=
  '(edsr, err) ← edgedevicesignedrequest.Read name namespace;
  match err with
  | Some e => if IsNotFound e then finished else retry_with e
  | None =>
      let approved := EdgeDeviceSignedRequestSpec_Approved (EdgeDeviceSignedRequest_Spec edsr) in
      if AutoApproval && negb approved then
        '(_, err) ← edgedevicesignedrequest.Patch edsr (approve edsr);
        match err with Some e => retry_with e | None => mret (requeue, None) end
      else if negb approved then
        if IsPending edsr && bool_decide (0 < length (elems (conditions edsr))) then finished
        else err ← markStatusPending edsr; finish err
      else
        '(_, err) ← edgedevice.Read (Name (EdgeDeviceSignedRequest_ObjectMeta edsr))
                      (EdgeDeviceSignedRequestSpec_TargetNamespace (EdgeDeviceSignedRequest_Spec edsr));
        match err with
        | None => err ← markStatusApproved edsr; finish err
        | Some _ =>
            now ← (call Now : M Time);
            err ← edgedevice.Create (new_device edsr now);
            match err with
            | Some e => retry_with e
            | None => err ← markStatusApproved edsr; finish err
            end
        end
  end.

(** ** Lemmas *)

Definition finished_with (err : option error) : Result * option error :=
  match err with Some e => (requeue, Some e) | None => (no_result, None) end.

(** The request is marked, and the answer decides the result. *)
Definition marked (type message : string) (edsr : EdgeDeviceSignedRequest) (t : list Event)
    (o : outcome (Result * option error)) : Prop :=
  exists now answer err,
    t = [Ev Now now; Ev (PatchEDSRStatus edsr (mark type message now edsr)) (answer, err)] /\
    o = Done (finished_with err).

Lemma exec_finish err t o : exec (finish err) t o -> t = [] /\ o = Done (finished_with err).
Proof. intros He. by destruct err; apply exec_Ret_inv in He as [-> ->]. Qed.

Lemma exec_mark type message edsr t o :
  exec (err ← (now ← (call Now : M Time);
               '(_, err) ← edgedevicesignedrequest.PatchStatus (mark type message now edsr) edsr;
               mret err);
        finish err) t o ->
  marked type message edsr t o.
Proof.
  intros He. apply exec_bind_inv in He as [[He ->]|(err & t1 & t2 & -> & H1 & He)].
  - exec_call He as (now & t1 & -> & He). unfold edgedevicesignedrequest.PatchStatus in He.
    exec_call He as ([answer err] & t2 & -> & He). by apply exec_Ret_inv in He as [_ ?].
  - exec_call H1 as (now & t3 & -> & H1). unfold edgedevicesignedrequest.PatchStatus in H1.
    exec_call H1 as ([answer err'] & t4 & -> & H1). apply exec_Ret_inv in H1 as [-> [= ->]].
    apply exec_finish in He as [-> ->]. by exists now, answer, err'.
Qed.

(** Every branch of a reconciliation of a request that can be read. *)
Lemma exec_Reconcile_request AutoApproval name ns edsr t o :
  exec (Reconcile AutoApproval name ns) (Ev (GetEDSR ns name) (edsr, None) :: t) o ->
  let spec := EdgeDeviceSignedRequest_Spec edsr in
  let approved_marked := marked EdgeDeviceSignedRequestStatusApproved "device correctly approved" edsr in
  if EdgeDeviceSignedRequestSpec_Approved spec then
    exists d err t', t = Ev (GetEdgeDevice (EdgeDeviceSignedRequestSpec_TargetNamespace spec)
                            (Name (EdgeDeviceSignedRequest_ObjectMeta edsr))) (d, err) :: t' /\
      match err with
      | None => approved_marked t' o
      | Some _ => exists now r t2,
          t' = Ev Now now :: Ev (CreateEdgeDevice (new_device edsr now)) r :: t2 /\
          match r with
          | Some e => t2 = [] /\ o = Done (requeue, Some e)
          | None => approved_marked t2 o
          end
      end
  else if AutoApproval then
    exists answer err, t = [Ev (PatchEDSR edsr (approve edsr)) (answer, err)] /\
      o = Done (requeue, err)
  else if IsPending edsr && bool_decide (0 < length (elems (conditions edsr))) then
    t = [] /\ o = Done (no_result, None)
  else marked EdgeDeviceSignedRequestStatusPending "device is waiting for approval" edsr t o.
Proof.
  intros He. unfold Reconcile, edgedevicesignedrequest.Read in He.
  apply (exec_bind_call_resp (Resp := Resp) (GetEDSR ns name)) in He. cbv zeta in He |- *.
  destruct (EdgeDeviceSignedRequestSpec_Approved _); cbn [negb] in He.
  - rewrite andb_false_r in He. unfold edgedevice.Read in He.
    exec_call He as ([d err] & t' & -> & He). exists d, err, t'. split; [done|].
    destruct err as [e|]; [|by apply exec_mark in He].
    exec_call He as (now & t1 & -> & He). unfold edgedevice.Create in He.
    exec_call He as (r & t2 & -> & He). exists now, r, t2. split; [done|].
    destruct r as [e'|]; [by apply exec_Ret_inv in He|by apply exec_mark in He].
  - rewrite andb_true_r in He. destruct AutoApproval.
    + unfold edgedevicesignedrequest.Patch in He. exec_call He as ([answer err] & t' & -> & He).
      exists answer, err. destruct err; apply exec_Ret_inv in He as [-> ->]; done.
    + destruct (_ && _); [by apply exec_Ret_inv in He|by apply exec_mark in He].
Qed.

Lemma new_device_has_init_label edsr now : k8s.has_init_label (new_device edsr now) = true.
Proof.
  unfold k8s.has_init_label, new_device. simpl. apply bool_decide_eq_true.
  unfold map_get. simpl. case_decide; [|apply lookup_singleton_eq].
  rewrite lookup_insert_ne by done. apply lookup_singleton_eq.
Qed.

Lemma conditions_mark type message now edsr :
  elems (conditions (mark type message now edsr)) =
  map switch_off (elems (conditions edsr)) ++
  [mkEdgeDeviceSignedRequestCondition type "true" (Some message) (Some now)].
Proof.
  unfold conditions, mark, upd_Request_Status. cbn [EdgeDeviceSignedRequest_Status
    EdgeDeviceSignedRequestStatus_Conditions]. rewrite elems_append.
  by destruct (EdgeDeviceSignedRequestStatus_Conditions _).
Qed.

(** The code tests for "True" what it writes as "true". *)
Lemma mark_not_pending type message now edsr : IsPending (mark type message now edsr) = false.
Proof.
  unfold IsPending. rewrite conditions_mark, length_app, decide_False by (simpl; lia).
  apply not_true_iff_false. rewrite existsb_exists. intros (c & Hin & Hc).
  apply andb_true_iff in Hc as [Hs%bool_decide_eq_true _].
  apply in_app_iff in Hin as [(c' & <- & _)%in_map_iff|[<-|[]]]; done.
Qed.

Lemma marked_events type message edsr t o c r :
  marked type message edsr t o -> Ev c r ∈ t -> c = Now \/ exists x, c = PatchEDSRStatus edsr x.
Proof.
  intros (now & a & err & -> & _) [Hin|[Hin|Hin]%elem_of_cons]%elem_of_cons.
  - left. by apply (f_equal ev_req) in Hin.
  - right. eexists. by apply (f_equal ev_req) in Hin.
  - by apply not_elem_of_nil in Hin.
Qed.

(** ** Properties *)

(** A device comes into being only from a request that is approved and
    whose device could not be read: what is created is named after the request
    in the namespace it targets, bears the mark of a first registration (and
    its set), the operator's finalizer and nothing else, and has no status;
    and no request is approved by the operator unless approval is automatic,
    which changes nothing else in the request. *)
Theorem Reconcile_creates_approved AutoApproval name ns edsr t o :
  exec (Reconcile AutoApproval name ns) (Ev (GetEDSR ns name) (edsr, None) :: t) o ->
  (forall d r, Ev (CreateEdgeDevice d) r ∈ t ->
     EdgeDeviceSignedRequestSpec_Approved (EdgeDeviceSignedRequest_Spec edsr) = true /\
     (exists now, d = new_device edsr now) /\ k8s.has_init_label d = true /\
     exists x e, Ev (GetEdgeDevice (Namespace (EdgeDevice_ObjectMeta d))
                       (Name (EdgeDevice_ObjectMeta d))) (x, Some e) ∈ t) /\
  (forall base obj r, Ev (PatchEDSR base obj) r ∈ t ->
     AutoApproval = true /\ base = edsr /\ obj = approve edsr /\
     EdgeDeviceSignedRequestSpec_Approved (EdgeDeviceSignedRequest_Spec edsr) = false).
Proof.
  intros He%exec_Reconcile_request. cbv zeta in He.
  destruct (EdgeDeviceSignedRequestSpec_Approved _) eqn:Happ; [|destruct AutoApproval].
  - destruct He as (d & [e|] & t' & -> & He).
    + destruct He as (now & r & t2 & -> & He).
      assert (forall c r', Ev c r' ∈ t2 -> c = Now \/ exists x, c = PatchEDSRStatus edsr x) as Ht2.
      { intros c r' Hin. destruct r; [|by eapply marked_events].
        destruct He as [-> _]. by apply not_elem_of_nil in Hin. }
      split.
      * intros d' r' Hin. split; [done|].
        assert (d' = new_device edsr now) as ->.
        { rewrite !elem_of_cons in Hin. destruct Hin as [Hin|[Hin|[Hin|Hin]]];
            [by apply (f_equal ev_req) in Hin|by apply (f_equal ev_req) in Hin
            |apply (f_equal ev_req) in Hin; by injection Hin|].
          by apply Ht2 in Hin as [?|[? ?]]. }
        split; [by exists now|]. split; [apply new_device_has_init_label|].
        exists d, e. left.
      * intros base obj r' Hin. rewrite !elem_of_cons in Hin.
        destruct Hin as [Hin|[Hin|[Hin|Hin]]]; [by apply (f_equal ev_req) in Hin..|].
        by apply Ht2 in Hin as [?|[? ?]].
    + split; [intros d' r' Hin|intros base obj r' Hin]; apply elem_of_cons in Hin as [Hin|Hin];
        [by apply (f_equal ev_req) in Hin| |by apply (f_equal ev_req) in Hin|];
        by destruct (marked_events _ _ _ _ _ _ _ He Hin) as [?|[? ?]].
  - destruct He as (answer & err & -> & _). split.
    + intros d r Hin. apply list_elem_of_singleton in Hin. by apply (f_equal ev_req) in Hin.
    + intros base obj r Hin. apply list_elem_of_singleton, (f_equal ev_req) in Hin.
      by injection Hin as -> ->.
  - assert (forall c r', Ev c r' ∈ t -> c = Now \/ exists x, c = PatchEDSRStatus edsr x) as Ht.
    { intros c r' Hin. destruct (_ && _); [|by eapply marked_events].
      destruct He as [-> _]. by apply not_elem_of_nil in Hin. }
    split; [intros d' r' Hin|intros base obj r' Hin]; by apply Ht in Hin as [?|[? ?]].
Qed.

(** A request that is waiting for approval and already says so is marked as
    waiting again by every reconciliation: its conditions only grow. *)
Theorem Reconcile_marks_pending_again name ns edsr type message before t o :
  exec (Reconcile false name ns)
    (Ev (GetEDSR ns name) (mark type message before edsr, None) :: t) o ->
  EdgeDeviceSignedRequestSpec_Approved (EdgeDeviceSignedRequest_Spec edsr) = false ->
  marked EdgeDeviceSignedRequestStatusPending "device is waiting for approval"
    (mark type message before edsr) t o.
Proof.
  intros He%exec_Reconcile_request Happ. cbv zeta in He. rewrite mark_not_pending in He.
  change (EdgeDeviceSignedRequest_Spec (mark type message before edsr))
    with (EdgeDeviceSignedRequest_Spec edsr) in He. by rewrite Happ in He.
Qed.

(** ** Examples *)

Definition request (approved : bool) : EdgeDeviceSignedRequest :=
  mkEdgeDeviceSignedRequest empty_TypeMeta (named "d" "initial")
    (mkEdgeDeviceSignedRequestSpec "target" "set" approved None) (mkEdgeDeviceSignedRequestStatus None).
Definition requests_world (approved : bool) : World :=
  set_requests {[("initial", "d") := request approved]} empty_world.

Lemma Reconcile_creates_approved_witness :
  let t := tl (run_trace (Reconcile false "d" "initial") (requests_world true)) in
  let d := new_device (request true) 1000 in
  Ev (CreateEdgeDevice d) None ∈ t /\ Namespace (EdgeDevice_ObjectMeta d) = "target" /\
  k8s.has_init_label d = true.
Proof.
  cbv zeta.
  assert (exec (Reconcile false "d" "initial")
    (Ev (GetEDSR "initial" "d") (request true, None) ::
     tl (run_trace (Reconcile false "d" "initial") (requests_world true)))
    (Done (no_result, None))) as He
    by (apply run_starts_with; vm_compute; reflexivity).
  assert (Ev (CreateEdgeDevice (new_device (request true) 1000)) None ∈
    tl (run_trace (Reconcile false "d" "initial") (requests_world true))) as Hin
    by (apply (list_elem_of_lookup_2 _ 2); vm_compute; reflexivity).
  destruct (proj1 (Reconcile_creates_approved false "d" "initial" (request true) _ _ He) _ _ Hin)
    as (_ & _ & Hi & _).
  split; [exact Hin|]. split; [reflexivity|exact Hi].
Defined.
