(* ===== verification/EdgeDeviceController.v ===== *)
(** * The edge device reconciler

    controllers/edgedevice_controller.go: claims object storage for a device,
    and lets a device go together with its signed request. *)
From S2P Require Import Prelude GoData GoStrings V1alpha1 Models Env Testbed Labels Utils.
From S2P Require Import Repository Storage Controller SignedRequest.
Import v1alpha1.

Section Reconciler.
Context (InitialDeviceNamespace : string) (ObcAutoCreate : bool).

Definition removeRelatedEDSR (edgeDevice : EdgeDevice) : M (option error) :=
  '(edsr, err) ← edgedevicesignedrequest.Read (Name (EdgeDevice_ObjectMeta edgeDevice))
                   InitialDeviceNamespace;
  match err with
  | Some e => if IsNotFound e then mret None else mret (Some e)
  | None => edgedevicesignedrequest.Delete edsr
  end.

Definition removeFinalizer (edgeDevice : EdgeDevice) : M (option error) :=
  if HasFinalizer (EdgeDevice_ObjectMeta edgeDevice) DeviceFinalizer then
    '(_, err) ← edgedevice.RemoveFinalizer edgeDevice DeviceFinalizer;
    mret err
  else mret None.

(** The claim, or why there is none. *)
Definition createOrGetObc (edgeDevice : EdgeDevice) : M (ObjectBucketClaim + error) :=
  '(obc, err) ← GetClaim (Name (EdgeDevice_ObjectMeta edgeDevice))
                  (Namespace (EdgeDevice_ObjectMeta edgeDevice));
  match err with
  | None => mret (inl obc)
  | Some e =>
      if IsNotFound e then
        '(obc, err) ← CreateClaim edgeDevice;
        match err with Some e => mret (inr e) | None => mret (inl obc) end
      else mret (inr e)
  end.

Definition addObcReference (edgeDevice : EdgeDevice) (obcName : string) : M (option error) :=
  '(_, err) ← edgedevice.PatchStatus (upd_Status (set_DataOBC (Some obcName)) edgeDevice) edgeDevice;
  mret err.

(** No claim is named, or an empty one. *)
Definition lacks_claim (edgeDevice : EdgeDevice) : bool :=
  match EdgeDeviceStatus_DataOBC (EdgeDevice_Status edgeDevice) with
  | None => true
  | Some name => bool_decide (name = "")
  end.

Definition reconcileStorage (edgeDevice : EdgeDevice) : M (Result * option error) :=
  if negb ObcAutoCreate && negb (ShouldCreateOBC (EdgeDeviceSpec_Storage (EdgeDevice_Spec edgeDevice)))
  then finished
  else if lacks_claim edgeDevice then
    obc ← createOrGetObc edgeDevice;
    match obc with
    | inr e => retry_with e
    | inl obc =>
        err ← addObcReference edgeDevice (OBC_Name obc);
        match err with
        | Some e => mret (mkResult true 5000000000, Some e)
        | None => finished
        end
    end
  else finished.

Definition Reconcile (name namespace : string) : M (Result * option error) :=
  '(edgeDevice, err) ← edgedevice.Read name namespace;
  match err with
  | Some e => if IsNotFound e then finished else retry_with e
  | None =>
      match DeletionTimestamp (EdgeDevice_ObjectMeta edgeDevice) with
      | Some _ =>
          err ← removeRelatedEDSR edgeDevice;
          match err with
          | Some e => retry_with e
          | None => err ← removeFinalizer edgeDevice; mret (no_result, err)
          end
      | None => reconcileStorage edgeDevice
      end
  end.
End Reconciler.

(** ** Lemmas *)

Section Spec.
Context (InitialDeviceNamespace : string) (ObcAutoCreate : bool).
Implicit Types (d : EdgeDevice) (t : list Event).

(** The request of the device is gone: it was not there, or the API server
    accepted its deletion. *)
Definition request_gone d t : Prop :=
  (exists x e, t = [Ev (GetEDSR InitialDeviceNamespace (Name (EdgeDevice_ObjectMeta d))) (x, Some e)] /\
     IsNotFound e = true) \/
  (exists edsr, t = [Ev (GetEDSR InitialDeviceNamespace (Name (EdgeDevice_ObjectMeta d))) (edsr, None);
                     Ev (DeleteEDSR edsr) None]).

Lemma exec_removeRelatedEDSR d t o :
  exec (removeRelatedEDSR InitialDeviceNamespace d) t o ->
  exists err, o = Done err /\
    match err with
    | None => request_gone d t
    | Some _ => Forall (fun e => is_read (ev_req e) \/ exists edsr, ev_req e = DeleteEDSR edsr) t
    end.
Proof.
  intros He. unfold removeRelatedEDSR, edgedevicesignedrequest.Read in He.
  exec_call He as ([edsr err] & t' & -> & He). destruct err as [e|].
  - destruct (IsNotFound e) eqn:Hn; apply exec_Ret_inv in He as [-> ->]; eexists; (split; [done|]).
    + left. by exists edsr, e.
    + constructor; [by left|constructor].
  - unfold edgedevicesignedrequest.Delete in He. apply (exec_call_inv (Resp := Resp) (DeleteEDSR edsr)) in He as (r & -> & ->).
    exists r. split; [done|]. destruct r.
    + constructor; [by left|]. constructor; [right; eauto|constructor].
    + right. by exists edsr.
Qed.

(** The claim the device gets: an existing one of its name, or a new one. *)
Definition claimed d (obc : ObjectBucketClaim) t : Prop :=
  let request := GetOBC (Namespace (EdgeDevice_ObjectMeta d)) (Name (EdgeDevice_ObjectMeta d)) in
  t = [Ev request (obc, None)] \/
  exists x e, IsNotFound e = true /\
    t = [Ev request (x, Some e);
         Ev (CreateOBC (mkOBC (Name (EdgeDevice_ObjectMeta d)) (Namespace (EdgeDevice_ObjectMeta d))
                          (Name (EdgeDevice_ObjectMeta d)) "openshift-storage.noobaa.io")) (obc, None)].

Lemma exec_createOrGetObc d t o :
  exec (createOrGetObc d) t o ->
  exists r, o = Done r /\
    match r with
    | inl obc => claimed d obc t
    | inr e => forall base obj x, Ev (PatchEdgeDeviceStatus base obj) x ∉ t
    end.
Proof.
  intros He. unfold createOrGetObc, GetClaim in He.
  exec_call He as ([obc err] & t' & -> & He). destruct err as [e|].
  - destruct (IsNotFound e) eqn:Hn.
    + unfold CreateClaim in He. exec_call He as ([obc' err] & t2 & -> & He).
      destruct err as [e'|]; apply exec_Ret_inv in He as [-> ->]; eexists; (split; [done|]).
      * intros base obj x Hin. rewrite !elem_of_cons in Hin.
        by destruct Hin as [Hin|[Hin|Hin%elem_of_nil]]; [apply (f_equal ev_req) in Hin..|].
      * right. by exists obc, e.
    + apply exec_Ret_inv in He as [-> ->]. eexists. split; [done|].
      intros base obj x Hin. apply list_elem_of_singleton in Hin. by apply (f_equal ev_req) in Hin.
  - apply exec_Ret_inv in He as [-> ->]. eexists. split; [done|]. by left.
Qed.

Lemma exec_addObcReference d name t o :
  exec (addObcReference d name) t o ->
  exists answer err, o = Done err /\
    t = [Ev (PatchEdgeDeviceStatus d (upd_Status (set_DataOBC (Some name)) d)) (answer, err)].
Proof.
  intros He. unfold addObcReference, edgedevice.PatchStatus in He.
  exec_call He as ([answer err] & t' & -> & He). apply exec_Ret_inv in He as [-> ->].
  by exists answer, err.
Qed.

(** ** Properties *)

(** C31: a device that is going is let go, by one patch that takes the
    operator's finalizer off and keeps the others, only after its signed
    request is gone; an error with the request leaves the device as it is. *)
Theorem Reconcile_lets_device_go name ns d ts t o :
  exec (Reconcile InitialDeviceNamespace ObcAutoCreate name ns)
    (Ev (GetEdgeDevice ns name) (d, None) :: t) o ->
  DeletionTimestamp (EdgeDevice_ObjectMeta d) = Some ts ->
  (exists e, o = Done (requeue, Some e) /\ forall base obj r, Ev (PatchEdgeDevice base obj) r ∉ t) \/
  (o = Done (no_result, None) /\ exists t1 t2, t = t1 ++ t2 /\ request_gone d t1 /\
     if HasFinalizer (EdgeDevice_ObjectMeta d) DeviceFinalizer then
       exists fs r, t2 = [Ev (PatchEdgeDevice d (upd_Meta (set_Finalizers fs) d)) r] /\
         elems fs = filter (fun f => f <> DeviceFinalizer) (elems (Finalizers (EdgeDevice_ObjectMeta d)))
     else t2 = []).
Proof.
  intros He Hd. unfold Reconcile, edgedevice.Read in He.
  apply (exec_bind_call_resp (Resp := Resp) (GetEdgeDevice ns name)) in He. rewrite Hd in He.
  apply exec_bind_inv in He as [[He ->]|(err & t1 & t2 & -> & H1 & He)];
    [by apply exec_removeRelatedEDSR in He as (? & ? & _)|].
  apply exec_removeRelatedEDSR in H1 as (err' & [= <-] & H1). destruct err as [e|].
  - apply exec_Ret_inv in He as [-> ->]. left. exists e. split; [done|]. rewrite app_nil_r.
    intros base obj r Hin. rewrite Forall_forall in H1. by apply H1 in Hin as [?|[? ?]].
  - right. unfold removeFinalizer in He.
    destruct (HasFinalizer (EdgeDevice_ObjectMeta d) DeviceFinalizer).
    + apply exec_bind_inv in He as [[He ->]|(err & t3 & t4 & -> & H2 & He)].
      { unfold edgedevice.RemoveFinalizer, edgedevice.Patch in He.
        apply exec_bind_inv in He as [[He _]|([? ?] & ? & ? & _ & _ & He)];
          [|by apply exec_Ret_inv in He as [_ ?]].
        exec_call He as ([? [?|]] & ? & -> & He); by apply exec_Ret_inv in He as [_ ?]. }
      unfold edgedevice.RemoveFinalizer, edgedevice.Patch in H2.
      apply exec_bind_inv in H2 as [[_ ?]|([d' err'] & t5 & t6 & -> & H2 & H3)]; [done|].
      apply exec_Ret_inv in H3 as [-> [= ->]]. apply exec_Ret_inv in He as [-> ->].
      exec_call H2 as ([obj err2] & t7 & -> & H2).
      assert (t7 = [] /\ err' = None) as [-> ->]
        by (destruct err2; by apply exec_Ret_inv in H2 as [-> [= _ ->]]).
      split; [done|]. eexists t1, _. split; [done|]. split; [done|].
      eexists _, _. split; [done|]. apply without_finalizer_elems.
    + rewrite bind_ret_l in He. apply exec_Ret_inv in He as [-> ->]. split; [done|].
      by exists t1, [].
Qed.

(** Object storage of a live device: without automatic claims and without
    a request in its specification, or once the status names a claim, nothing
    is asked; otherwise the claim named after the device is read, created
    exactly when it is not found, and its name recorded in the status; an
    error stops before that patch, and only a refused patch is retried with a
    delay. *)
Theorem Reconcile_claims_storage name ns d t o :
  exec (Reconcile InitialDeviceNamespace ObcAutoCreate name ns)
    (Ev (GetEdgeDevice ns name) (d, None) :: t) o ->
  DeletionTimestamp (EdgeDevice_ObjectMeta d) = None ->
  if (ObcAutoCreate || ShouldCreateOBC (EdgeDeviceSpec_Storage (EdgeDevice_Spec d))) && lacks_claim d
  then
    (exists e, o = Done (requeue, Some e) /\ forall base obj x, Ev (PatchEdgeDeviceStatus base obj) x ∉ t) \/
    (exists obc t1 answer err, claimed d obc t1 /\
       t = t1 ++ [Ev (PatchEdgeDeviceStatus d (upd_Status (set_DataOBC (Some (OBC_Name obc))) d))
                     (answer, err)] /\
       o = Done (match err with
                 | Some e => (mkResult true 5000000000, Some e)
                 | None => (no_result, None)
                 end))
  else t = [] /\ o = Done (no_result, None).
Proof.
  intros He Hd. unfold Reconcile, edgedevice.Read in He.
  apply (exec_bind_call_resp (Resp := Resp) (GetEdgeDevice ns name)) in He. rewrite Hd in He.
  unfold reconcileStorage in He. rewrite <-negb_orb in He.
  destruct (ObcAutoCreate || _); cbn [negb andb] in He |- *;
    [|by apply exec_Ret_inv in He as [-> ->]].
  destruct (lacks_claim d); [|by apply exec_Ret_inv in He as [-> ->]].
  apply exec_bind_inv in He as [[He ->]|(r & t1 & t2 & -> & H1 & He)];
    [by apply exec_createOrGetObc in He as (? & ? & _)|].
  apply exec_createOrGetObc in H1 as (r' & [= <-] & H1). destruct r as [obc|e].
  - right. apply exec_bind_inv in He as [[He ->]|(err & t3 & t4 & -> & H2 & He)];
      [by apply exec_addObcReference in He as (? & ? & ? & _)|].
    apply exec_addObcReference in H2 as (answer & err' & [= <-] & ->).
    exists obc, t1, answer, err. split; [done|].
    destruct err; apply exec_Ret_inv in He as [-> ->]; by rewrite app_nil_r.
  - left. apply exec_Ret_inv in He as [-> ->]. exists e. split; [done|]. by rewrite app_nil_r.
Qed.
End Spec.

(** ** Examples *)

Definition leaving : EdgeDevice :=
  upd_Meta (fun _ => mkObjectMeta "d" "ns" "u" "1" (Some 900%Z) None None None
                       (Some ["other"; DeviceFinalizer])) empty_EdgeDevice.
Definition plain : EdgeDevice := upd_Meta (fun _ => named "d" "ns") empty_EdgeDevice.
Definition device_world (d : EdgeDevice) : World :=
  set_fault (fun c => match c with GetOBC _ _ => Some not_found | _ => None end)
    (set_requests {[("initial", "d") := request true]}
      (set_devices {[("ns", "d") := d]} empty_world)).

Lemma Reconcile_lets_device_go_witness :
  let t := tl (run_trace (Reconcile "initial" true "d" "ns") (device_world leaving)) in
  exists t1 t2, t = t1 ++ t2 /\ request_gone "initial" leaving t1 /\ length t2 = 1.
Proof.
  cbv zeta.
  assert (exec (Reconcile "initial" true "d" "ns")
    (Ev (GetEdgeDevice "ns" "d") (leaving, None) ::
     tl (run_trace (Reconcile "initial" true "d" "ns") (device_world leaving)))
    (Done (no_result, None))) as He
    by (apply run_starts_with; vm_compute; reflexivity).
  destruct (Reconcile_lets_device_go "initial" true "d" "ns" leaving 900%Z _ _ He eq_refl)
    as [(e & Hx & _)|(_ & t1 & t2 & Ht & Hg & Hf)]; [discriminate Hx|].
  exists t1, t2. split; [exact Ht|]. split; [exact Hg|].
  destruct Hf as (fs & r & -> & _). reflexivity.
Defined.

Lemma Reconcile_claims_storage_witness :
  exists obc answer err,
    Ev (PatchEdgeDeviceStatus plain (upd_Status (set_DataOBC (Some (OBC_Name obc))) plain)) (answer, err)
      ∈ tl (run_trace (Reconcile "initial" true "d" "ns") (device_world plain)).
Proof.
  assert (exec (Reconcile "initial" true "d" "ns")
    (Ev (GetEdgeDevice "ns" "d") (plain, None) ::
     tl (run_trace (Reconcile "initial" true "d" "ns") (device_world plain)))
    (Done (no_result, None))) as He
    by (apply run_starts_with; vm_compute; reflexivity).
  pose proof (Reconcile_claims_storage "initial" true "d" "ns" plain _ _ He eq_refl) as Hr.
  cbn [orb andb lacks_claim plain upd_Meta EdgeDevice_Status empty_EdgeDevice empty_EdgeDeviceStatus
       EdgeDeviceStatus_DataOBC] in Hr.
  destruct Hr as [(e & Hx & _)|(obc & t1 & answer & err & _ & -> & _)]; [discriminate Hx|].
  exists obc, answer, err. apply elem_of_app. right. left.
Defined.
