(* ===== verification/PlaybookControllers.v ===== *)
(** * The configuration and playbook reconcilers

    controllers/edgeconfig_controller.go: creates the playbook executions of a
    configuration on every device that bears its label, and records them in
    the status of the device; controllers/playbookexecution_controller.go:
    keeps the finalizer of an execution. *)
From S2P Require Import Prelude GoData GoStrings V1alpha1 Models Env Testbed Labels Utils.
From S2P Require Import Repository Controller EdgeWorkload SignedRequest.
Import v1alpha1.

Module EdgeConfigReconciler.

(** The execution of one playbook, still without its device; its name is
    replaced for each device. *)
Definition createPlaybookExecution (edgeConfig : EdgeConfig) (peEdgeConfig : Playbook)
    : PlaybookExecution :=
  let meta := EdgeConfig_ObjectMeta edgeConfig in
  let owner := mkOwnerReference (APIVersion (EdgeConfig_TypeMeta edgeConfig))
                 (Kind (EdgeConfig_TypeMeta edgeConfig)) (Name meta) (UID meta) in
  mkPlaybookExecution empty_TypeMeta
    (mkObjectMeta (Name meta) (Namespace meta) "" "" None None None (Some [owner]) None)
    (mkPlaybookExecutionSpec peEdgeConfig 0)
    (mkPlaybookExecutionStatus
       (Some [mkPlaybookExecutionCondition PlaybookExecutionDeploying "True" None None None])).

(** Panics when the configuration has no playbook section. *)
Definition createPlaybookExecutions (edgeConfig : EdgeConfig) : outcome (list PlaybookExecution) :=
  section ← deref (EdgeConfigSpec_EdgePlaybook (EdgeConfig_Spec edgeConfig));
  mret (map (createPlaybookExecution edgeConfig) (elems (EdgePlaybookSpec_Playbooks section))).

Definition hasPlaybookExecution (edgeDevice : EdgeDevice) (name : string) : bool :=
  existsb (fun pe => bool_decide (PlaybookExec_Name pe = name))
    (elems (EdgeDeviceStatus_PlaybookExecutions (EdgeDevice_Status edgeDevice))).

Definition set_name (name : string) (pe : PlaybookExecution) : PlaybookExecution :=
  upd_PlaybookMeta (fun m => mkObjectMeta name (Namespace m) (UID m) (ResourceVersion m)
    (DeletionTimestamp m) (Labels m) (Annotations m) (OwnerReferences m) (Finalizers m)) pe.

Definition execution_name (edgeDevice : EdgeDevice) (configName : string) : string :=
  Name (EdgeDevice_ObjectMeta edgeDevice) +:+ "-" +:+ configName.

(** One playbook on one device.  The status is recorded in memory before the
    execution is created; the patch is always against the device as listed. *)
Definition addPlaybookExecution (configName : string) (base : EdgeDevice)
    (state : EdgeDevice * list error) (playbookExecutionBase : PlaybookExecution)
    : M (EdgeDevice * list error) :=
  let '(edgeDevice, errs) := state in
  let playbookExecution := set_name (execution_name edgeDevice configName) playbookExecutionBase in
  let peStatus := mkPlaybookExec (Name (PlaybookExecution_ObjectMeta playbookExecution))
                    (PlaybookExecution_Status playbookExecution) in
  let edgeDevice := upd_Status (fun s =>
    set_PlaybookExecutions (append (EdgeDeviceStatus_PlaybookExecutions s) peStatus) s) edgeDevice in
  err ← playbookexecution.Create playbookExecution;
  match err with
  | Some e => mret (edgeDevice, errs ++ [e])
  | None =>
      '(edgeDevice, err2) ← edgedevice.PatchStatus edgeDevice base;
      mret (edgeDevice, errs ++ option_list err2)
  end.

Definition addPlaybookExecutions (configName : string) (playbookExecutionBases : list PlaybookExecution)
    (edgeDevice : EdgeDevice) : M (list error) :=
  if hasPlaybookExecution edgeDevice (execution_name edgeDevice configName) then mret []
  else
    '(_, errs) ← for_each playbookExecutionBases (edgeDevice, [])
                   (addPlaybookExecution configName edgeDevice);
    mret errs.

Section Reconciler.
Context `{Formatter} (Concurrency : Z).

Definition addPlaybookExecutionToDevices (edgeConfig : EdgeConfig) (edgeDevices : list EdgeDevice)
    : M (option error) :=
  playbookExecutionBases ← lift (createPlaybookExecutions edgeConfig);
  errs ← executeConcurrent Concurrency
           (until_cancelled
              (addPlaybookExecutions (Name (EdgeConfig_ObjectMeta edgeConfig)) playbookExecutionBases))
           edgeDevices;
  mret (merged_error errs).

Definition Reconcile (name namespace : string) : M (Result * option error) :=
  '(edgeConfig, err) ← edgeconfig.Read name namespace;
  match err with
  | Some e => if IsNotFound e then finished else retry_with e
  | None =>
      let meta := EdgeConfig_ObjectMeta edgeConfig in
      match DeletionTimestamp meta with
      | Some _ => finished
      | None =>
          '(edgeDevices, err) ← edgedevice.ListForEdgeConfig (Name meta) (Namespace meta);
          match err with
          | Some e => if IsNotFound e then mret (no_result, Some e) else retry_with e
          | None =>
              match edgeDevices with
              | [] => finished
              | _ =>
                  err ← addPlaybookExecutionToDevices edgeConfig edgeDevices;
                  match err with
                  | Some e => if IsAlreadyExists e then finished else retry_with e
                  | None => finished
                  end
              end
          end
      end
  end.
End Reconciler.
(** ** Lemmas *)

(** The API server never renames a device. *)
Definition keeps_names (t : list Event) : Prop :=
  forall base obj answer err, Ev (PatchEdgeDeviceStatus base obj) (answer, err) ∈ t ->
    Name (EdgeDevice_ObjectMeta answer) = Name (EdgeDevice_ObjectMeta obj).

Lemma keeps_names_sub t t' : t' ⊆ t -> keeps_names t -> keeps_names t'.
Proof. intros Hs Hk base obj answer err Hin. by apply (Hk base obj answer err), Hs. Qed.

(** The execution of a playbook has been created for the device, and a status
    that records it accepted. *)
Definition created (configName : string) (d : EdgeDevice) (base : PlaybookExecution) (t : list Event)
    : Prop :=
  let name := execution_name d configName in
  Ev (CreatePlaybookExecution (set_name name base)) None ∈ t /\
  exists obj answer, Ev (PatchEdgeDeviceStatus d obj) (answer, None) ∈ t /\
    hasPlaybookExecution obj name = true.

Lemma created_sub configName d base t t' :
  t' ⊆ t -> created configName d base t' -> created configName d base t.
Proof.
  intros Hs (Hc & obj & answer & Hp & Hh). split; [by apply Hs|].
  exists obj, answer. split; [by apply Hs|done].
Qed.

Lemma execution_name_eq d d' configName :
  Name (EdgeDevice_ObjectMeta d') = Name (EdgeDevice_ObjectMeta d) ->
  execution_name d' configName = execution_name d configName.
Proof. intros E. unfold execution_name. by rewrite E. Qed.

(** What one playbook does to a device that still has its name. *)
Lemma exec_addPlaybookExecution configName d dev errs base t o :
  exec (addPlaybookExecution configName d (dev, errs) base) t o ->
  keeps_names t -> Name (EdgeDevice_ObjectMeta dev) = Name (EdgeDevice_ObjectMeta d) ->
  exists dev' errs', o = Done (dev', errs') /\
    Name (EdgeDevice_ObjectMeta dev') = Name (EdgeDevice_ObjectMeta d) /\
    (errs' = [] -> errs = [] /\ created configName d base t).
Proof.
  intros He Hk Hn. unfold addPlaybookExecution, playbookexecution.Create in He.
  rewrite (execution_name_eq d dev) in He by done.
  exec_call He as (r & t' & -> & He). destruct r as [e|].
  - apply exec_Ret_inv in He as [-> ->]. eexists _, _. split; [done|]. split; [done|].
    by intros [_ ?]%app_nil.
  - unfold edgedevice.PatchStatus in He. exec_call He as ([answer err] & t2 & -> & He).
    apply exec_Ret_inv in He as [-> ->]. eexists _, _. split; [done|]. split.
    + rewrite <-Hn. exact (Hk _ _ _ err ltac:(right; left)).
    + intros [-> Herr]%app_nil. split; [done|]. destruct err as [e|]; [done|].
      split; [left|]. eexists _, answer. split; [right; left|].
      unfold hasPlaybookExecution. cbn [upd_Status EdgeDevice_Status set_PlaybookExecutions
        EdgeDeviceStatus_PlaybookExecutions]. rewrite elems_append, existsb_app.
      simpl. rewrite bool_decide_true by done. by rewrite orb_true_r.
Qed.

Lemma exec_addPlaybookExecution_all configName d bases t dev errs :
  exec (for_each bases (d, []) (addPlaybookExecution configName d)) t (Done (dev, errs)) ->
  keeps_names t -> errs = [] -> Forall (fun base => created configName d base t) bases.
Proof.
  intros He Hk Herr.
  pose proof (for_each_rule (fun pre '(dev, errs) t => keeps_names t ->
      Name (EdgeDevice_ObjectMeta dev) = Name (EdgeDevice_ObjectMeta d) /\
      (errs = [] -> Forall (fun base => created configName d base t) pre))
    (fun t => keeps_names t -> False) (addPlaybookExecution configName d) bases) as Hrule.
  refine (proj2 (Hrule _ (d, []) t (Done (dev, errs)) _ He Hk) Herr); [|by split].
  clear. intros pre base post [dev errs] t t' o -> HI He.
  assert (keeps_names (t ++ t') -> exists dev' errs', o = Done (dev', errs') /\
    Name (EdgeDevice_ObjectMeta dev') = Name (EdgeDevice_ObjectMeta d) /\
    (errs' = [] -> errs = [] /\ created configName d base t')) as Ho.
  { intros Hk. eapply exec_addPlaybookExecution; [exact He| |].
    - eapply keeps_names_sub; [|exact Hk]. set_solver.
    - apply HI. eapply keeps_names_sub; [|exact Hk]. set_solver. }
  destruct o as [[dev' errs']|]; [|intros Hk; by destruct (Ho Hk) as (? & ? & ? & _)].
  intros Hk. destruct (Ho Hk) as (? & ? & [= <- <-] & Hn & Hc). split; [done|].
  intros ->. destruct (Hc eq_refl) as [-> Hb].
  destruct HI as [_ HI]; [eapply keeps_names_sub; [|exact Hk]; set_solver|].
  apply Forall_app. split.
  - eapply Forall_impl; [exact (HI eq_refl)|]. intros b. apply created_sub. set_solver.
  - apply Forall_singleton. eapply created_sub; [|exact Hb]. set_solver.
Qed.

(** The device had an execution for the configuration, or has one now for
    every playbook. *)
Definition provided (configName : string) (bases : list PlaybookExecution) (d : EdgeDevice)
    (t : list Event) : Prop :=
  hasPlaybookExecution d (execution_name d configName) = true \/
  Forall (fun base => created configName d base t) bases.

Lemma exec_addPlaybookExecutions configName bases d t :
  exec (addPlaybookExecutions configName bases d) t (Done []) -> keeps_names t ->
  provided configName bases d t.
Proof.
  intros He Hk. unfold addPlaybookExecutions in He. unfold provided.
  destruct (hasPlaybookExecution _ _); [by left|right].
  apply exec_bind_inv in He as [[_ ?]|([dev errs] & t1 & t2 & -> & He & Hr)]; [done|].
  apply exec_Ret_inv in Hr as [-> [= <-]]. rewrite app_nil_r in *.
  by eapply exec_addPlaybookExecution_all.
Qed.

(** ** Properties *)

Section Spec.
Context `{Formatter} (Concurrency : Z) (HC : (0 < Concurrency < 2 ^ 63)%Z).

(** C36: a reconciliation of a configuration that ends without an error has
    provided every device that bears its label: the device already listed an
    execution named after device and configuration, or for every playbook of
    the configuration an execution of that one name was created and the status
    patched to list it.  So the executions of two playbooks share their name,
    and a configuration without a playbook section makes the operator panic as
    soon as a device bears its label. *)
Theorem Reconcile_provides_devices name ns edgeConfig devices t o :
  exec (Reconcile Concurrency name ns)
    (Ev (GetEdgeConfig ns name) (edgeConfig, None) ::
     Ev (ListEdgeDevices (MatchingLabels (ConfigLabelPrefix +:+ DeviceByConfigIndexKey)
           (Name (EdgeConfig_ObjectMeta edgeConfig))) (Namespace (EdgeConfig_ObjectMeta edgeConfig)))
        (devices, None) :: t) o ->
  DeletionTimestamp (EdgeConfig_ObjectMeta edgeConfig) = None -> devices <> [] ->
  match EdgeConfigSpec_EdgePlaybook (EdgeConfig_Spec edgeConfig) with
  | None => t = [] /\ o = Panicked
  | Some section =>
      (exists err, o = Done (requeue, Some err)) \/
      (o = Done (no_result, None) /\ (keeps_names t ->
       Forall (fun d => provided (Name (EdgeConfig_ObjectMeta edgeConfig))
                 (map (createPlaybookExecution edgeConfig) (elems (EdgePlaybookSpec_Playbooks section)))
                 d t) devices))
  end.
Proof using HC.
  intros He Hdel Hne. unfold Reconcile, edgeconfig.Read in He.
  apply (exec_bind_call_resp (Resp := Resp) (GetEdgeConfig ns name)) in He. rewrite Hdel in He.
  unfold edgedevice.ListForEdgeConfig in He.
  apply (exec_Call_resp (Resp := Resp) (ListEdgeDevices (MatchingLabels
    (ConfigLabelPrefix +:+ DeviceByConfigIndexKey) (Name (EdgeConfig_ObjectMeta edgeConfig)))
    (Namespace (EdgeConfig_ObjectMeta edgeConfig)))) in He. cbn in He.
  destruct devices as [|d0 devices]; [done|]. clear Hne. set (ds := d0 :: devices) in *.
  unfold addPlaybookExecutionToDevices, createPlaybookExecutions in He.
  destruct (EdgeConfigSpec_EdgePlaybook _) as [section|]; cbn [deref mbind outcome_mbind lift] in He.
  2:{ by apply exec_Panic_inv in He as [-> ->]. }
  set (bases := map (createPlaybookExecution edgeConfig) _) in *.
  apply exec_bind_inv in He as [[He ->]|(err & t1 & t2 & -> & H1 & He)].
  { exfalso. eapply no_panic_exec in He as [? ?]; [discriminate|].
    apply no_panic_bind; [exact I|]. intros b. apply no_panic_bind; [|by intros].
    apply no_panic_executeConcurrent; [done|]. intros part. apply no_panic_until_cancelled.
    intros d. unfold addPlaybookExecutions. no_panic_tac. unfold addPlaybookExecution.
    destruct s; no_panic_tac. }
  change (exec (errs ← executeConcurrent Concurrency (until_cancelled
            (addPlaybookExecutions (Name (EdgeConfig_ObjectMeta edgeConfig)) bases)) ds;
          mret (merged_error errs)) t1 (Done err)) in H1.
  apply exec_bind_inv in H1 as [[_ ?]|(errs & t3 & t4 & -> & H1 & H2)]; [done|].
  apply exec_Ret_inv in H2 as [-> [= ->]]. rewrite app_nil_r.
  destruct (merged_error errs) as [e|] eqn:Hm.
  - left. destruct errs; [done|]. injection Hm as <-. apply exec_Ret_inv in He as [-> ->]. by eexists.
  - right. apply merged_error_None in Hm as ->. apply exec_Ret_inv in He as [-> ->]. split; [done|].
    rewrite app_nil_r. intros Hk. apply exec_executeConcurrent in H1; [|done].
    apply (worked_on_all_done _ (fun d t => exec (addPlaybookExecutions
             (Name (EdgeConfig_ObjectMeta edgeConfig)) bases d) t (Done []))) in H1;
      [|intros part t'; apply exec_until_cancelled].
    eapply Forall_impl; [exact H1|]. intros d (t' & Hs & Hd).
    apply exec_addPlaybookExecutions in Hd; [|by eapply keeps_names_sub].
    destruct Hd as [?|HF]; [by left|right]. eapply Forall_impl; [exact HF|].
    intros b. by apply created_sub.
Qed.

(** The errors of the devices are merged into a new one: the reconciler never
    sees that an execution already exists. *)
Theorem addPlaybookExecutionToDevices_not_AlreadyExists edgeConfig ds t e :
  exec (addPlaybookExecutionToDevices Concurrency edgeConfig ds) t (Done (Some e)) ->
  IsAlreadyExists e = false.
Proof.
  clear HC. intros He. unfold addPlaybookExecutionToDevices in He.
  apply exec_bind_inv in He as [[_ ?]|(bases & t1 & t2 & -> & _ & He)]; [done|].
  apply exec_bind_inv in He as [[_ ?]|(errs & t3 & t4 & -> & _ & He)]; [done|].
  apply exec_Ret_inv in He as [_ [= He]]. destruct errs; [done|]. by injection He as ->.
Qed.
End Spec.

(** ** Examples *)

Definition config : EdgeConfig :=
  mkEdgeConfig empty_TypeMeta (named "c" "ns")
    (mkEdgeConfigSpec (Some (mkEdgePlaybookSpec "" (Some [empty_Playbook; empty_Playbook]))))
    (mkEdgeConfigStatus None).
Definition configured : EdgeDevice :=
  device_named "d" (Some {["config/device-by-config" := "c"]}) None.
Definition config_world : World :=
  set_configs {[("ns", "c") := config]} (set_devices {[("ns", "d") := configured]} empty_world).

(** The events after the two reads of the configuration and of its devices. *)
Definition config_trace : list Event :=
  tl (tl (run_trace (@Reconcile plain_format 2 "c" "ns") config_world)).

Definition name_kept (e : Event) : bool :=
  match e with
  | Ev c r =>
      match c return Resp c -> bool with
      | PatchEdgeDeviceStatus _ obj => fun a =>
          bool_decide (Name (EdgeDevice_ObjectMeta a.1) = Name (EdgeDevice_ObjectMeta obj))
      | _ => fun _ => true
      end r
  end.
Lemma keeps_names_check t : forallb name_kept t = true -> keeps_names t.
Proof.
  intros Hf base obj answer err Hin%list_elem_of_In.
  rewrite forallb_forall in Hf. apply Hf in Hin. by apply bool_decide_eq_true in Hin.
Qed.

Lemma Reconcile_provides_devices_witness :
  Forall (fun d => provided "c" (map (createPlaybookExecution config) [empty_Playbook; empty_Playbook])
            d config_trace) [configured].
Proof.
  assert (exec (@Reconcile plain_format 2 "c" "ns")
    (Ev (GetEdgeConfig "ns" "c") (config, None) ::
     Ev (ListEdgeDevices (MatchingLabels (ConfigLabelPrefix +:+ DeviceByConfigIndexKey) "c") "ns")
        ([configured], None) :: config_trace) (Done (no_result, None))) as He.
  { replace (Ev (GetEdgeConfig "ns" "c") (config, None) ::
      Ev (ListEdgeDevices (MatchingLabels (ConfigLabelPrefix +:+ DeviceByConfigIndexKey) "c") "ns")
        ([configured], None) :: config_trace)
      with (run_trace (@Reconcile plain_format 2 "c" "ns") config_world)
      by (vm_compute; reflexivity).
    apply run_result_exec_as. vm_compute. reflexivity. }
  destruct (@Reconcile_provides_devices plain_format 2 ltac:(lia) "c" "ns" config [configured]
              config_trace _ He eq_refl ltac:(discriminate)) as [(e & Hx)|(_ & Hp)];
    [discriminate Hx|].
  apply Hp, keeps_names_check. vm_compute. reflexivity.
Defined.
End EdgeConfigReconciler.

Module PlaybookExecutionReconciler.
Definition Reconcile (name namespace : string) : M (Result * option error) :=
  '(playbookExec, err) ← playbookexecution.Read name namespace;
  match err with
  | Some e => if IsNotFound e then finished else retry_with e
  | None =>
      let meta := PlaybookExecution_ObjectMeta playbookExec in
      if bool_decide (DeletionTimestamp meta = None) &&
         negb (HasFinalizer meta YggdrasilDeviceReferenceFinalizer) then
        let PlaybookExecCopy :=
          upd_PlaybookMeta (set_Finalizers (Some [YggdrasilDeviceReferenceFinalizer])) playbookExec in
        '(_, err) ← playbookexecution.Patch (Some playbookExec) PlaybookExecCopy;
        match err with Some e => retry_with e | None => mret (requeue, None) end
      else
        '(_, err) ← edgedevice.ReadForPlaybookExecution (Name meta) namespace;
        match err with
        | Some e => if IsNotFound e then finished else retry_with e
        | None => finished
        end
  end.
End PlaybookExecutionReconciler.
