(* ===== verification/Reconcilers.v ===== *)
(** * All reconcilers together

    What holds of the six reconcilers of src/controllers alike. *)
From S2P Require Import Prelude GoData GoStrings V1alpha1 Models Env Testbed Labels Utils.
From S2P Require Import Repository Storage Controller EdgeWorkload EdgeDeviceLabels SignedRequest.
From S2P Require Import EdgeDeviceController PlaybookControllers.
Import v1alpha1.

Ltac no_panic_reconciler :=
  repeat first
    [ no_panic_step
    | progress unfold finished, retry_with, finish, markStatusPending, markStatusApproved ];
  auto with no_panic.

Lemma no_panic_range_map {V} (m : gomap V) : no_panic (range_map m).
Proof. unfold range_map. no_panic_tac. Qed.
#[export] Hint Resolve no_panic_range_map : no_panic.

Lemma no_panic_updateLabels d l : no_panic (edgedevice.updateLabels d l).
Proof. unfold edgedevice.updateLabels. no_panic_reconciler. Qed.
#[export] Hint Resolve no_panic_updateLabels : no_panic.
Lemma no_panic_UpdateLabels d l : no_panic (edgedevice.UpdateLabels d l).
Proof. unfold edgedevice.UpdateLabels. no_panic_reconciler. Qed.
#[export] Hint Resolve no_panic_UpdateLabels : no_panic.
Lemma no_panic_RemoveFinalizer d f : no_panic (edgedevice.RemoveFinalizer d f).
Proof. unfold edgedevice.RemoveFinalizer. no_panic_reconciler. Qed.
#[export] Hint Resolve no_panic_RemoveFinalizer : no_panic.
Lemma no_panic_RemoveWorkloadFinalizer d f : no_panic (edgeworkload.RemoveFinalizer d f).
Proof. unfold edgeworkload.RemoveFinalizer. no_panic_reconciler. Qed.
#[export] Hint Resolve no_panic_RemoveWorkloadFinalizer : no_panic.

Lemma no_panic_SignedRequest auto name ns : no_panic (SignedRequest.Reconcile auto name ns).
Proof. unfold SignedRequest.Reconcile. no_panic_reconciler. Qed.

Lemma no_panic_EdgeDevice initial obc name ns :
  no_panic (EdgeDeviceController.Reconcile initial obc name ns).
Proof.
  unfold EdgeDeviceController.Reconcile, removeRelatedEDSR, removeFinalizer, reconcileStorage,
    createOrGetObc, addObcReference, GetClaim, CreateClaim. no_panic_reconciler.
Qed.

Section Libs.
Context `{Libs} `{Formatter} (Concurrency : Z) (HC : (0 < Concurrency < 2 ^ 63)%Z).

Lemma no_panic_EdgeDeviceLabels name ns : no_panic (EdgeDeviceLabels.Reconcile name ns).
Proof using Type*.
  unfold EdgeDeviceLabels.Reconcile, updateWorkloads, selectWorkloads, selectWorkload,
    createUpdatedDevice, createSelectorLabelsMap, updatePlaybookExecutions, edgeworkload.ListByLabel.
  no_panic_reconciler.
Qed.

Lemma no_panic_removeWorkloadFromDevice name d : no_panic (removeWorkloadFromDevice name d).
Proof. unfold removeWorkloadFromDevice. no_panic_reconciler. Qed.
#[local] Hint Resolve no_panic_removeWorkloadFromDevice : no_panic.

Lemma no_panic_UpdateSelectorLabels_one w : no_panic (UpdateSelectorLabels_one w).
Proof. unfold UpdateSelectorLabels_one. no_panic_reconciler. Qed.
#[local] Hint Resolve no_panic_UpdateSelectorLabels_one : no_panic.

Lemma no_panic_EdgeWorkload name ns : no_panic (EdgeWorkload.Reconcile Concurrency name ns).
Proof using Type*.
  assert (forall w, no_panic (reconcileDevices Concurrency w)) as Hdev.
  { intros w. unfold reconcileDevices, getLabelledEdgeDevices, edgedevice.ListForWorkload,
      getMatchingEdgeDevices, edgedevice.ListForSelector, finalizeRemoval, addWorkloadsToDevices,
      removeWorkloadFromNonMatchingDevices.
    no_panic_reconciler; apply no_panic_executeConcurrent; try done; intros part.
    - unfold removeWorkloadFromDevices. no_panic_reconciler.
    - apply no_panic_until_cancelled. intros d. apply no_panic_at_most_one.
      unfold addWorkloadToDevice. no_panic_reconciler.
    - apply no_panic_until_cancelled. intros d'. apply no_panic_at_most_one.
      unfold removeFromNonMatching. no_panic_reconciler. }
  unfold EdgeWorkload.Reconcile, updateLabelsFromSelector. no_panic_reconciler.
Qed.

Lemma no_panic_PlaybookExecution name ns : no_panic (PlaybookExecutionReconciler.Reconcile name ns).
Proof.
  unfold PlaybookExecutionReconciler.Reconcile, edgedevice.ReadForPlaybookExecution.
  no_panic_reconciler.
Qed.

(** The reconciler of configurations panics on nothing but a configuration
    without a playbook section that applies to some device. *)
Lemma EdgeConfig_panics name ns t :
  exec (EdgeConfigReconciler.Reconcile Concurrency name ns) t Panicked ->
  exists cfg t', t = (Ev (GetEdgeConfig ns name) (cfg, None) : Event) :: t' /\
    EdgeConfigSpec_EdgePlaybook (EdgeConfig_Spec cfg) = None.
Proof using Type*.
  intros He. unfold EdgeConfigReconciler.Reconcile, edgeconfig.Read in He.
  exec_call He as ([cfg err] & t1 & -> & He). destruct err as [e|].
  { by destruct (IsNotFound e); apply exec_Ret_inv in He as [_ ?]. }
  exists cfg, t1. split; [done|].
  destruct (EdgeConfigSpec_EdgePlaybook (EdgeConfig_Spec cfg)) as [section|] eqn:Es; [|done].
  eapply no_panic_exec in He as [? ?]; [discriminate|].
  unfold edgedevice.ListForEdgeConfig, EdgeConfigReconciler.addPlaybookExecutionToDevices,
    EdgeConfigReconciler.createPlaybookExecutions. rewrite Es.
  cbn [deref mbind outcome_mbind lift]. no_panic_reconciler.
  - exact I.
  - apply no_panic_executeConcurrent; [done|]. intros part. apply no_panic_until_cancelled.
    intros d. unfold EdgeConfigReconciler.addPlaybookExecutions,
      EdgeConfigReconciler.addPlaybookExecution. no_panic_reconciler.
Qed.
End Libs.

(** ** The reconcilers as one operation *)

(** The configuration of the manager (cmd/manager/main.go). *)
Record ManagerConfig := mkManagerConfig {
  MetricsAddr : string;
  ProbeAddr : string;
  EnableLeaderElection : bool;
  WebhookPort : Z;
  EnableObcAutoCreation : bool;
  LogLevel : string;
  EdgeWorkloadConcurrency : Z;
  EdgeConfigConcurrency : Z;
  MaxConcurrentReconciles : Z;
  AutoApproval : bool;
  EnableWebhooks : bool;
}.

Inductive reconciler :=
  | EdgeDeviceReconciler
  | EdgeDeviceLabelsReconciler
  | EdgeWorkloadReconciler
  | EdgeDeviceSignedRequestReconciler
  | EdgeConfigReconciler
  | PlaybookExecutionReconciler.
#[global] Instance reconciler_eq_dec : EqDecision reconciler.
Proof. solve_decision. Defined.

Definition initialDeviceNamespace : string := "default".

(** One request to the reconciler [r]; the manager starts all but the last. *)
Definition reconcile `{Libs} `{Formatter} (cfg : ManagerConfig) (r : reconciler)
    (name namespace : string) : M (Result * option error) :=
  match r with
  | EdgeDeviceReconciler =>
      EdgeDeviceController.Reconcile initialDeviceNamespace (EnableObcAutoCreation cfg) name namespace
  | EdgeDeviceLabelsReconciler => EdgeDeviceLabels.Reconcile name namespace
  | EdgeWorkloadReconciler =>
      EdgeWorkload.Reconcile (EdgeWorkloadConcurrency cfg) name namespace
  | EdgeDeviceSignedRequestReconciler =>
      SignedRequest.Reconcile (AutoApproval cfg) name namespace
  | EdgeConfigReconciler =>
      PlaybookControllers.EdgeConfigReconciler.Reconcile (EdgeConfigConcurrency cfg) name namespace
  | PlaybookExecutionReconciler =>
      PlaybookControllers.PlaybookExecutionReconciler.Reconcile name namespace
  end.

(** What each reconciler may change. *)
Definition may_write (r : reconciler) (c : Req) : Prop :=
  match r, c with
  | EdgeDeviceReconciler, (CreateOBC _ | PatchEdgeDevice _ _ | PatchEdgeDeviceStatus _ _ | DeleteEDSR _)
  | EdgeDeviceLabelsReconciler, (PatchEdgeDevice _ _ | PatchEdgeDeviceStatus _ _)
  | EdgeWorkloadReconciler,
      (PatchEdgeWorkload _ _ | PatchEdgeDevice _ _ | PatchEdgeDeviceStatus _ _)
  | EdgeDeviceSignedRequestReconciler,
      (PatchEDSR _ _ | PatchEDSRStatus _ _ | CreateEdgeDevice _)
  | EdgeConfigReconciler, (CreatePlaybookExecution _ | PatchEdgeDeviceStatus _ _)
  | PlaybookExecutionReconciler, PatchPlaybookExecution _ _ => True
  | _, _ => no_write c
  end.

Ltac calls_reconciler :=
  repeat first
    [ calls_step
    | progress unfold finished, retry_with, finish, markStatusPending, markStatusApproved, range_map ];
  try exact I; try (by intros []); try (split; [first [exact I | by intros []]|by intros]); auto.

Section MayWrite.
Context `{Libs} `{Formatter} (cfg : ManagerConfig).

Lemma may_write_EdgeDevice name ns :
  calls (may_write EdgeDeviceReconciler) (reconcile cfg EdgeDeviceReconciler name ns).
Proof.
  cbn [reconcile]. unfold EdgeDeviceController.Reconcile, edgedevice.Read, removeRelatedEDSR, removeFinalizer,
    edgedevice.RemoveFinalizer, reconcileStorage, createOrGetObc, addObcReference, GetClaim,
    CreateClaim.
  calls_reconciler.
Qed.

Lemma may_write_EdgeDeviceLabels name ns :
  calls (may_write EdgeDeviceLabelsReconciler) (reconcile cfg EdgeDeviceLabelsReconciler name ns).
Proof.
  cbn [reconcile]. unfold EdgeDeviceLabels.Reconcile, updateWorkloads, selectWorkloads, selectWorkload,
    createUpdatedDevice, createSelectorLabelsMap, updatePlaybookExecutions, edgeworkload.ListByLabel,
    edgedevice.UpdateLabels, edgedevice.updateLabels.
  calls_reconciler.
Qed.

Lemma may_write_SignedRequest name ns :
  calls (may_write EdgeDeviceSignedRequestReconciler)
    (reconcile cfg EdgeDeviceSignedRequestReconciler name ns).
Proof. cbn [reconcile]. unfold SignedRequest.Reconcile. calls_reconciler. Qed.

Lemma may_write_PlaybookExecution name ns :
  calls (may_write PlaybookExecutionReconciler) (reconcile cfg PlaybookExecutionReconciler name ns).
Proof.
  cbn [reconcile]. unfold PlaybookControllers.PlaybookExecutionReconciler.Reconcile,
    edgedevice.ReadForPlaybookExecution.
  calls_reconciler.
Qed.

Lemma may_write_EdgeConfig name ns :
  calls (may_write EdgeConfigReconciler) (reconcile cfg EdgeConfigReconciler name ns).
Proof.
  cbn [reconcile]. unfold PlaybookControllers.EdgeConfigReconciler.Reconcile,
    edgedevice.ListForEdgeConfig, EdgeConfigReconciler.addPlaybookExecutionToDevices.
  calls_reconciler; try (by destruct (EdgeConfigReconciler.createPlaybookExecutions _)).
  apply calls_executeConcurrent; [by intros []|]. intros part.
  apply calls_until_cancelled; [by intros []|]. intros d.
  unfold EdgeConfigReconciler.addPlaybookExecutions, EdgeConfigReconciler.addPlaybookExecution.
  calls_reconciler.
Qed.

Lemma may_write_removeWorkloadFromDevice name d :
  calls (may_write EdgeWorkloadReconciler) (removeWorkloadFromDevice name d).
Proof. unfold removeWorkloadFromDevice. calls_reconciler. Qed.

Lemma may_write_EdgeWorkload name ns :
  calls (may_write EdgeWorkloadReconciler) (reconcile cfg EdgeWorkloadReconciler name ns).
Proof.
  cbn [reconcile]. set (C := EdgeWorkloadConcurrency cfg).
  assert (forall w, calls (may_write EdgeWorkloadReconciler) (reconcileDevices C w)) as Hdev.
  { intros w. unfold reconcileDevices, getLabelledEdgeDevices, edgedevice.ListForWorkload,
      getMatchingEdgeDevices, edgedevice.ListForSelector, finalizeRemoval, addWorkloadsToDevices,
      removeWorkloadFromNonMatchingDevices, edgeworkload.RemoveFinalizer.
    calls_reconciler; apply calls_executeConcurrent; try (by intros []); intros part.
    - unfold removeWorkloadFromDevices. calls_reconciler. apply may_write_removeWorkloadFromDevice.
    - apply calls_until_cancelled; [by intros []|]. intros d. apply calls_at_most_one.
      unfold addWorkloadToDevice. calls_reconciler.
    - apply calls_until_cancelled; [by intros []|]. intros d'. apply calls_at_most_one.
      unfold removeFromNonMatching. calls_reconciler. apply may_write_removeWorkloadFromDevice. }
  unfold EdgeWorkload.Reconcile, updateLabelsFromSelector, UpdateSelectorLabels_one. calls_reconciler.
Qed.

(** ** The properties *)

(** A reconciler changes nothing but the kinds of objects that are its
    own: the workload controllers never touch a request, the one for requests
    creates devices and never patches one, a configuration only adds playbook
    executions, and only the device controller deletes anything. *)
Theorem reconcile_writes_own r name namespace t o :
  exec (reconcile cfg r name namespace) t o -> Forall (fun e => may_write r (ev_req e)) t.
Proof.
  apply calls_exec. destruct r;
    [apply may_write_EdgeDevice|apply may_write_EdgeDeviceLabels|apply may_write_EdgeWorkload
    |apply may_write_SignedRequest|apply may_write_EdgeConfig|apply may_write_PlaybookExecution].
Qed.

(** C22: with a concurrency the manager's integers can hold, every request to a
    reconciler ends with a result, whatever the API server answers; the only
    panic left is that of a configuration without a playbook section. *)
Theorem reconcile_returns r name namespace t o :
  (0 < EdgeWorkloadConcurrency cfg < 2 ^ 63)%Z -> (0 < EdgeConfigConcurrency cfg < 2 ^ 63)%Z ->
  exec (reconcile cfg r name namespace) t o ->
  (exists res, o = Done res) \/
  (r = EdgeConfigReconciler /\ exists ec t', t = (Ev (GetEdgeConfig namespace name) (ec, None) : Event) :: t' /\
     EdgeConfigSpec_EdgePlaybook (EdgeConfig_Spec ec) = None).
Proof.
  intros HW HE He. destruct o as [res|]; [left; by exists res|]. right.
  destruct r; cbn [reconcile] in He;
    try (eapply no_panic_exec in He as [? ?]; [discriminate|];
         first [apply no_panic_EdgeDevice|apply no_panic_EdgeDeviceLabels
               |by apply no_panic_EdgeWorkload|apply no_panic_SignedRequest
               |apply no_panic_PlaybookExecution]).
  split; [done|]. by apply (EdgeConfig_panics (EdgeConfigConcurrency cfg)) in He.
Qed.
End MayWrite.

(** ** Examples *)

Section Examples.
#[local] Existing Instance trivial_libs.
#[local] Instance trivial_formatter : Formatter := Build_Formatter (fun s => s).

Definition manager_config : ManagerConfig := 
  mkManagerConfig ":8080" ":8081" false 9443 false "info" 5 5 3 true true.
Definition leaving_run : M (Result * option error) :=
  reconcile manager_config EdgeDeviceReconciler "d" "ns".

Lemma reconcile_writes_own_witness :
  length (writes (run_trace leaving_run (device_world leaving))) = 1 /\
  Forall (fun e => may_write EdgeDeviceReconciler (ev_req e))
    (run_trace leaving_run (device_world leaving)).
Proof.
  split; [vm_compute; reflexivity|].
  apply (reconcile_writes_own manager_config EdgeDeviceReconciler "d" "ns" _
           (run_result leaving_run (device_world leaving))).
  apply run_result_exec.
Defined.

Lemma reconcile_returns_witness :
  exists res, run_result leaving_run (device_world leaving) = Done res.
Proof.
  destruct (reconcile_returns manager_config EdgeDeviceReconciler "d" "ns"
    (run_trace leaving_run (device_world leaving)) (run_result leaving_run (device_world leaving)))
    as [H|[E _]]; [vm_compute; by split|vm_compute; by split|apply run_result_exec|exact H|discriminate E].
Defined.
End Examples.
