(* ===== verification/Onboarding.v ===== *)
(** * A device joins the cluster

    Enrolment, the reconciliation of the request and registration against one
    cluster: the handlers of the HTTP server and the controller meet only in
    the objects they leave there.  The API server is that of ApiServer.v. *)
From S2P Require Import Prelude GoData GoStrings V1alpha1 Models Env Testbed Labels Utils.
From S2P Require Import ApiServer Repository Hardware Facade Backend BackendApi Controller SignedRequest.
Import v1alpha1.

(** ** Lemmas: the steps *)

Section Steps.
Context `{Unicode} `{Libs} (initial name ns : string).
Implicit Types (w : World) (d : EdgeDevice) (r : EdgeDeviceSignedRequest).

Definition target r : string :=
  EdgeDeviceSignedRequestSpec_TargetNamespace (EdgeDeviceSignedRequest_Spec r).
Definition approved r : bool := EdgeDeviceSignedRequestSpec_Approved (EdgeDeviceSignedRequest_Spec r).

Lemma signed_request_shape info r :
  k8s.signed_request initial name ns info = Done r ->
  EdgeDeviceSignedRequest_ObjectMeta r = named name initial /\ target r = ns /\ approved r = false.
Proof.
  unfold k8s.signed_request. destruct (models.EnrolmentInfo_Features info); [|done]. cbn.
  unfold mbind, outcome_mbind. destruct (MapHardware _); [|done]. intros [= <-]. done.
Qed.

Lemma runs_Enrol info r w :
  healthy w -> w_devices w !! (ns, name) = None -> w_requests w !! (initial, name) = None ->
  k8s.signed_request initial name ns info = Done r ->
  runs (k8s.Enrol initial name ns info) w
    (set_requests (<[(initial, name) := r]> (w_requests w)) w) (Done (false, None)).
Proof.
  intros Hw Hd Hr Hs. unfold k8s.Enrol, facade.GetEdgeDevice, edgedevice.Read.
  runs_read api_GetEdgeDevice Hd.
  unfold facade.GetEdgeDeviceSignedRequest, edgedevicesignedrequest.Read.
  runs_read api_GetEDSR Hr. rewrite Hs. cbn [lift]. rewrite bind_ret_l.
  destruct (signed_request_shape _ _ Hs) as (Hm & _).
  unfold facade.CreateEdgeDeviceSignedRequest, edgedevicesignedrequest.Create.
  assert (request_key r = (initial, name)) as Hk by (unfold request_key; by rewrite Hm).
  eapply runs_call; [cbn [api]; rewrite Hk; apply create_free; exact Hr|apply runs_ret].
Qed.

Lemma runs_approve r w :
  healthy w -> w_requests w !! (initial, name) = Some r -> request_key r = (initial, name) ->
  approved r = false ->
  runs (SignedRequest.Reconcile true name initial) w
    (set_requests (<[(initial, name) := patched_request r (approve r) r]> (w_requests w)) w)
    (Done (requeue, None)).
Proof.
  intros Hw Hr Hk Ha. unfold SignedRequest.Reconcile, edgedevicesignedrequest.Read.
  runs_read api_GetEDSR Hr. unfold approved in Ha. rewrite Ha. cbn [andb negb].
  unfold edgedevicesignedrequest.Patch.
  eapply runs_call; [cbn [api]; change (request_key (approve r)) with (request_key r); rewrite Hk;
    apply modify_found; exact Hr|apply runs_ret].
Qed.

Lemma runs_create auto r w :
  healthy w -> w_requests w !! (initial, name) = Some r -> request_key r = (initial, name) ->
  approved r = true -> target r = ns -> w_devices w !! (ns, name) = None ->
  exists r',
    runs (SignedRequest.Reconcile auto name initial) w
      (set_requests (<[(initial, name) := r']> (w_requests w))
        (set_devices (<[(ns, name) := new_device r (w_now w)]> (w_devices w)) w))
      (Done (no_result, None)) /\ EdgeDeviceSignedRequest_Spec r' = EdgeDeviceSignedRequest_Spec r.
Proof.
  intros Hw Hr Hk Ha Ht Hd. unfold SignedRequest.Reconcile, edgedevicesignedrequest.Read.
  assert (Name (EdgeDeviceSignedRequest_ObjectMeta r) = name) as Hn by (by injection Hk).
  eexists. split.
  - runs_read api_GetEDSR Hr. unfold approved in Ha. unfold target in Ht.
    rewrite Ha, andb_false_r, Hn, Ht. cbn [negb]. unfold edgedevice.Read.
    runs_read api_GetEdgeDevice Hd. eapply runs_call; [reflexivity|].
    unfold edgedevice.Create.
    assert (device_key (new_device r (w_now w)) = (ns, name)) as Hkd
      by (unfold device_key, key_of, new_device; cbn [EdgeDevice_ObjectMeta Namespace Name]; congruence).
    eapply runs_call; [cbn [api]; rewrite Hkd; apply create_free; exact Hd|]. cbn beta iota. unfold markStatusApproved, edgedevicesignedrequest.PatchStatus.
    eapply runs_bind.
    { eapply runs_call; [reflexivity|]. eapply runs_call; [cbn [api]; unfold mark, upd_Request_Status, request_key;
      cbn [EdgeDeviceSignedRequest_ObjectMeta]; fold (request_key r); rewrite Hk;
      apply modify_found; exact Hr|apply runs_ret]. }
    apply runs_ret.
  - reflexivity.
Qed.

Lemma runs_Register d m hw reg w :
  healthy w -> w_devices w !! (ns, name) = Some d -> device_key d = (ns, name) ->
  Labels (EdgeDevice_ObjectMeta d) = Some m ->
  MapHardware (models.RegistrationInfo_Hardware reg) = Done hw ->
  exists d',
    runs (k8s.Register name ns reg) w (set_devices (<[(ns, name) := d']> (w_devices w)) w)
      (Done None) /\
    entries (Labels (EdgeDevice_ObjectMeta d')) =
      delete EdgeDeviceSignedRequestLabelName
        (entries (MapLabels (models.RegistrationInfo_Hardware reg)) ∪ m) /\
    DeletionTimestamp (EdgeDevice_ObjectMeta d') = DeletionTimestamp (EdgeDevice_ObjectMeta d) /\
    EdgeDeviceStatus_Hardware (EdgeDevice_Status d') = hw.
Proof.
  intros Hw Hd Hk Hm Hhw.
  set (labels := Some (delete EdgeDeviceSignedRequestLabelName
        (entries (MapLabels (models.RegistrationInfo_Hardware reg)) ∪ m))).
  set (copy := upd_Meta (set_Labels labels) d).
  set (reported := upd_Status (set_Hardware hw) d).
  eexists. split.
  - unfold k8s.Register, facade.GetEdgeDevice, edgedevice.Read. runs_read api_GetEdgeDevice Hd.
    eapply runs_bind; [eapply runs_call; [reflexivity|apply runs_ret]|].
    rewrite set_all_range, Hm. cbn [lift]. rewrite bind_ret_l.
    unfold facade.PatchEdgeDevice, edgedevice.Patch.
    eapply runs_call; [cbn [api]; change (device_key _) with (device_key d); rewrite Hk;
      apply modify_found; exact Hd|]. cbn beta iota.
    unfold k8s.updateDeviceStatus, k8s.report_hardware. rewrite Hhw. cbn [mbind outcome_mbind].
    eapply runs_bind; [apply runs_ret|]. unfold facade.PatchEdgeDeviceStatus, edgedevice.PatchStatus.
    eapply runs_call.
    { cbn [api]. change (device_key _) with (device_key d). rewrite Hk. apply modify_found.
      cbn [w_devices set_devices]. apply lookup_insert_eq. }
    cbn beta iota. unfold set_devices. cbn. rewrite insert_insert_eq. apply runs_ret.
  - unfold patched_device_status, patched_device, upd_Status.
    cbn [EdgeDevice_ObjectMeta EdgeDevice_Status merge_meta Labels DeletionTimestamp].
    rewrite entries_merge_labels, merge_status_same. by split_and!.
Qed.

(** Asking for a namespace with the registration certificate. *)
Lemma runs_GetTargetNamespace r w :
  healthy w -> w_requests w !! (initial, name) = Some r -> target r = ns -> ns <> "" ->
  runs (k8s.GetTargetNamespace initial name initial false) w w
    (Done match w_devices w !! (ns, name) with
          | Some d => if k8s.has_init_label d then (ns, None) else ("", Some (ErrorString "forbidden"))
          | None => ("", Some (NotApproved not_found))
          end).
Proof.
  intros Hw Hr Ht Hns. unfold k8s.GetTargetNamespace. rewrite decide_True by done.
  unfold facade.GetEdgeDeviceSignedRequest, edgedevicesignedrequest.Read.
  eapply runs_bind.
  { runs_read api_GetEDSR Hr. unfold target in Ht. rewrite Ht, decide_True by done. apply runs_ret. }
  cbn beta iota. unfold facade.GetEdgeDevice, edgedevice.Read.
  destruct (w_devices w !! (ns, name)) as [d|] eqn:Hd; runs_read api_GetEdgeDevice Hd.
  - destruct (k8s.has_init_label d); apply runs_ret.
  - apply runs_ret.
Qed.

(** The same with a certificate of the device's own. *)
Lemma runs_GetTargetNamespace_own d w :
  healthy w -> w_devices w !! (ns, name) = Some d ->
  runs (k8s.GetTargetNamespace initial name ns true) w w (Done (ns, None)).
Proof.
  intros Hw Hd. unfold k8s.GetTargetNamespace. rewrite decide_False by (by intros []).
  rewrite bind_ret_l. cbn beta iota. unfold facade.GetEdgeDevice, edgedevice.Read.
  runs_read api_GetEdgeDevice Hd. rewrite andb_false_r. apply runs_ret.
Qed.

Lemma runs_GetRegistrationStatus d w :
  healthy w -> w_devices w !! (ns, name) = Some d ->
  DeletionTimestamp (EdgeDevice_ObjectMeta d) = None ->
  runs (k8s.GetRegistrationStatus name ns) w w (Done (Registered, None)).
Proof.
  intros Hw Hd Hdel. unfold k8s.GetRegistrationStatus, facade.GetEdgeDevice, edgedevice.Read.
  runs_read api_GetEdgeDevice Hd. rewrite Hdel. apply runs_ret.
Qed.
End Steps.

Lemma no_mark_no_init_label d :
  map_get (Labels (EdgeDevice_ObjectMeta d)) EdgeDeviceSignedRequestLabelName = None ->
  k8s.has_init_label d = false.
Proof. unfold k8s.has_init_label. intros ->. by apply bool_decide_eq_false. Qed.

Lemma enrolled_device_is_marked r now : k8s.has_init_label (new_device r now) = true.
Proof.
  unfold k8s.has_init_label, new_device. cbn [EdgeDevice_ObjectMeta Labels].
  apply bool_decide_eq_true. case_decide; [|done].
  unfold map_get. cbn [entries default from_option id]. by rewrite lookup_insert_ne.
Qed.

(** What registering a new device leads to. *)
Lemma runs_registering `{Unicode} `{Libs} initial name ns r r0 now reg hw w :
  let d := new_device r0 now in
  healthy w -> w_requests w !! (initial, name) = Some r -> target r = ns -> ns <> "" ->
  w_devices w !! (ns, name) = Some d -> device_key d = (ns, name) ->
  MapHardware (models.RegistrationInfo_Hardware reg) = Done hw ->
  exists w', runs (k8s.Register name ns reg) w w' (Done None) /\
    runs (k8s.GetRegistrationStatus name ns) w' w' (Done (Registered, None)) /\
    runs (k8s.GetTargetNamespace initial name initial false) w' w'
      (Done ("", Some (ErrorString "forbidden"))) /\
    runs (k8s.GetTargetNamespace initial name ns true) w' w' (Done (ns, None)) /\
    exists d', w_devices w' !! (ns, name) = Some d' /\
      EdgeDeviceStatus_Hardware (EdgeDevice_Status d') = hw.
Proof.
  intros d Hw Hr Ht Hns Hd Hk Hhw.
  destruct (runs_Register name ns d _ hw reg w Hw Hd Hk eq_refl Hhw) as (d' & Hreg & Hl & Hdel & Hhw').
  set (w' := set_devices _ _) in Hreg.
  assert (w_devices w' !! (ns, name) = Some d') as Hd' by apply lookup_insert_eq.
  exists w'. split_and!.
  - exact Hreg.
  - by apply (runs_GetRegistrationStatus name ns d').
  - pose proof (runs_GetTargetNamespace initial name ns r w' Hw Hr Ht Hns) as Hg.
    rewrite Hd', no_mark_no_init_label in Hg; [done|]. unfold map_get. rewrite Hl.
    apply lookup_delete_eq.
  - by apply (runs_GetTargetNamespace_own initial name ns d').
  - by exists d'.
Qed.

(** ** The property *)

(** C1: a device unknown to a cluster that approves automatically gets in: its
    enrolment leaves a request and grants nothing yet, two reconciliations of
    the request create it, the registration certificate is then accepted for
    its namespace, once: registering takes the mark of the new device away and
    records its hardware, and from then on only its own certificate is
    accepted. *)
Theorem device_joins `{Unicode} `{Libs} initial name ns info reg request hw w :
  healthy w -> w_devices w !! (ns, name) = None -> w_requests w !! (initial, name) = None ->
  ns <> "" -> k8s.signed_request initial name ns info = Done request ->
  MapHardware (models.RegistrationInfo_Hardware reg) = Done hw ->
  exists w1 w2 w3 w4,
    runs (k8s.Enrol initial name ns info) w w1 (Done (false, None)) /\
    runs (k8s.GetTargetNamespace initial name initial false) w1 w1
      (Done ("", Some (NotApproved not_found))) /\
    runs (SignedRequest.Reconcile true name initial) w1 w2 (Done (requeue, None)) /\
    runs (SignedRequest.Reconcile true name initial) w2 w3 (Done (no_result, None)) /\
    runs (k8s.GetTargetNamespace initial name initial false) w3 w3 (Done (ns, None)) /\
    runs (k8s.Register name ns reg) w3 w4 (Done None) /\
    runs (k8s.GetRegistrationStatus name ns) w4 w4 (Done (Registered, None)) /\
    runs (k8s.GetTargetNamespace initial name initial false) w4 w4
      (Done ("", Some (ErrorString "forbidden"))) /\
    runs (k8s.GetTargetNamespace initial name ns true) w4 w4 (Done (ns, None)) /\
    exists d, w_devices w4 !! (ns, name) = Some d /\
      EdgeDeviceStatus_Hardware (EdgeDevice_Status d) = hw.
Proof.
  intros Hw Hd Hr Hns Hs Hhw.
  destruct (signed_request_shape initial name ns info request Hs) as (Hmeta & Ht & Ha).
  set (w1 := set_requests (<[(initial, name) := request]> (w_requests w)) w).
  set (r2 := patched_request request (approve request) request).
  set (w2 := set_requests (<[(initial, name) := r2]> (w_requests w1)) w1).
  assert (request_key request = (initial, name)) as Hk by (unfold request_key; by rewrite Hmeta).
  assert (w_requests w1 !! (initial, name) = Some request) as Hr1 by apply lookup_insert_eq.
  assert (w_requests w2 !! (initial, name) = Some r2) as Hr2 by apply lookup_insert_eq.
  assert (EdgeDeviceSignedRequest_Spec r2 = EdgeDeviceSignedRequest_Spec (approve request)) as Hspec
    by apply merge_request_spec_same.
  assert (target r2 = ns) as Ht2 by (unfold target; by rewrite Hspec).
  assert (approved r2 = true) as Ha2 by (unfold approved; by rewrite Hspec).
  destruct (runs_create initial name ns true r2 w2 Hw Hr2 Hk Ha2 Ht2 Hd) as (r3 & Hcreate & Hspec3).
  set (d := new_device r2 (w_now w2)) in *.
  set (w3 := set_requests _ _) in Hcreate.
  assert (w_devices w3 !! (ns, name) = Some d) as Hd3 by apply lookup_insert_eq.
  assert (w_requests w3 !! (initial, name) = Some r3) as Hr3 by apply lookup_insert_eq.
  assert (target r3 = ns) as Ht3 by (unfold target; by rewrite Hspec3).
  assert (device_key d = (ns, name)) as Hkd.
  { unfold device_key, key_of, d, new_device. cbn [EdgeDevice_ObjectMeta Namespace Name].
    change ((target r2, Name (EdgeDeviceSignedRequest_ObjectMeta request)) = (ns, name)).
    by rewrite Ht2, Hmeta. }
  destruct (runs_registering initial name ns r3 r2 (w_now w2) reg hw w3 Hw Hr3 Ht3 Hns Hd3 Hkd Hhw)
    as (w4 & Hafter).
  destruct Hafter as (Hreg & Hst & Hforbidden & Hown & Hhw4).
  exists w1, w2, w3, w4. split_and!; [| | | | |assumption..].
  - by apply runs_Enrol.
  - pose proof (runs_GetTargetNamespace initial name ns request w1 Hw Hr1 Ht Hns) as Hg.
    change (w_devices w1) with (w_devices w) in Hg. by rewrite Hd in Hg.
  - by apply runs_approve.
  - exact Hcreate.
  - pose proof (runs_GetTargetNamespace initial name ns r3 w3 Hw Hr3 Ht3 Hns) as Hg.
    rewrite Hd3 in Hg. unfold d in Hg. by rewrite enrolled_device_is_marked in Hg.
Qed.

Lemma device_joins_witness :
  exists w4, run_result (k8s.GetRegistrationStatus "d2" "ns") empty_world = Done (Unregistered, None) /\
    runs (k8s.GetRegistrationStatus "d2" "ns") w4 w4 (Done (Registered, None)).
Proof.
  destruct (@device_joins ascii_tables trivial_libs "init" "d2" "ns"
    (models.mkEnrolmentInfo (Some (models.mkEnrolmentInfoFeatures (Some small_hardware) "")) (Some "ns"))
    (models.mkRegistrationInfo "csr" (Some small_hardware))
    (mkEdgeDeviceSignedRequest empty_TypeMeta (named "d2" "init")
      (mkEdgeDeviceSignedRequestSpec "ns" "" false
        (Some (mkFeatures "" (match MapHardware (Some small_hardware) with Done h => h | _ => None end))))
      (mkEdgeDeviceSignedRequestStatus None))
    (match MapHardware (Some small_hardware) with Done h => h | _ => None end) empty_world)
    as (w1 & w2 & w3 & w4 & _ & _ & _ & _ & _ & _ & Hreg & _).
  - intros c. reflexivity.
  - vm_compute. reflexivity.
  - vm_compute. reflexivity.
  - vm_compute. discriminate.
  - vm_compute. reflexivity.
  - vm_compute. reflexivity.
  - exists w4. split; [vm_compute; reflexivity|exact Hreg].
Defined.
