(* ===== verification/RemoteBackend.v ===== *)
(** * The remote backend, and the choice of a backend

    internal/edgeapi/backend/remote/backend.go: every operation is one call of
    the generated HTTP client; internal/edgeapi/backend/factory/factory.go. *)
From S2P Require Import Prelude GoData GoStrings V1alpha1 Models Env Testbed Labels Utils.
From S2P Require Import Repository BackendApi Backend Crypto MTLS Yggdrasil.
Import v1alpha1.

Module remote.
(** [getRegistrationStatus]: the payload is the status and the namespace. *)
Definition getRegistrationStatus (name namespace : string) : M ((string * string) + error) :=
  call (Remote (RemoteGetRegistrationStatus name namespace)).

Definition GetRegistrationStatus (name namespace : string) : M (string * option error) :=
  res ← getRegistrationStatus name namespace;
  match res with
  | inr err => mret ("", Some err)
  | inl payload => mret (payload.1, None)
  end.

Definition GetConfiguration (name namespace : string)
    : M (option models.DeviceConfigurationMessage * option error) :=
  res ← (call (Remote (RemoteGetDeviceConfiguration name namespace))
          : M (models.DeviceConfigurationMessage + error));
  match res with
  | inr err => mret (None, Some err)
  | inl configuration => mret (Some configuration, None)
  end.

Definition Enrol (name namespace : string) (enrolmentInfo : models.EnrolmentInfo)
    : M (bool * option error) :=
  res ← (call (Remote (RemoteEnrolDevice name namespace enrolmentInfo)) : M (bool + error));
  match res with
  | inr err => mret (false, Some err)
  | inl exists_ => mret (exists_, None)
  end.

(** Whether the certificate matches the device is not passed on. *)
Definition GetTargetNamespace (name namespace : string) (_ : bool) : M (string * option error) :=
  res ← getRegistrationStatus name namespace;
  match res with
  | inr err => mret ("", Some err)
  | inl payload => mret (payload.2, None)
  end.

Definition Register (name namespace : string) (registrationInfo : models.RegistrationInfo)
    : M (option error) :=
  call (Remote (RemoteRegisterDevice name namespace registrationInfo)).

Definition UpdateStatus (retry : option bool) (name namespace : string) (heartbeat : models.Heartbeat)
    : M (bool * option error) :=
  err ← (call (Remote (RemoteUpdateHeartBeat name namespace heartbeat)) : M (option error));
  match err with
  | Some e => mret (true, Some e)
  | None => mret (false, None)
  end.

Definition GetPlaybookExecutions (name namespace : string)
    : M (slice (option models.PlaybookExecution) * option error) :=
  res ← (call (Remote (RemoteGetPlaybookExecutions name namespace))
          : M (slice (option models.PlaybookExecution) + error));
  match res with
  | inr err => mret (None, Some err)
  | inl payload => mret (payload, None)
  end.

#[export] Instance backend : EdgeDeviceBackend := {|
  BackendApi.GetRegistrationStatus := GetRegistrationStatus;
  BackendApi.GetConfiguration := GetConfiguration;
  BackendApi.Enrol := Enrol;
  BackendApi.GetTargetNamespace := GetTargetNamespace;
  BackendApi.GetPlaybookExecutions := GetPlaybookExecutions;
  BackendApi.Register := Register;
  BackendApi.UpdateStatus := UpdateStatus;
|}.
End remote.

(** The handlers' guarantees hold of the remote backend as well. *)
#[export] Instance remote_laws : BackendLaws remote.backend.
Proof.
  constructor; cbn [BackendApi.GetRegistrationStatus BackendApi.GetConfiguration
    BackendApi.GetTargetNamespace BackendApi.GetPlaybookExecutions remote.backend]; intros.
  1-4: split; [by intros []|by intros []].
  unfold remote.GetConfiguration in *. exec_call H as (res & t' & -> & H).
  destruct res; apply exec_Ret_inv in H as [_ [= ->]]. by eexists.
Qed.

(** ** The factory *)

(** [edgeapi.Config]; a duration is a number of nanoseconds. *)
Record Config := mkConfig {
  Config_HttpsPort : Z;
  Config_Domain : string;
  Config_TLSLocalhostEnabled : bool;
  Config_MetricsAddr : string;
  Config_LogLevel : string;
  Config_ClientCertExpirationTime : Z;
  Config_Kubeconfig : string;
  Config_Backend : string;
  Config_RemoteBackendURL : string;
  Config_RemoteBackendTimeout : Z;
  Config_MqttBroker : string;
  Config_InfluxDbHost : string;
  Config_InfluxDbToken : string;
}.

Section Factory.
Context `{Unicode} `{Libs} (InitialDeviceNamespace : string).
(** [url.Parse]: the scheme, or an error. *)
Context (url_Parse : string -> string + error).

Definition createRemoteBackend (remoteBackendURL : string) : EdgeDeviceBackend + error :=
  if decide (remoteBackendURL = "") then inr (ErrorString "remote backend URL cannot be empty")
  else
    match url_Parse remoteBackendURL with
    | inr err => inr err
    | inl _ => inl remote.backend
    end.

Definition createK8sBackend : EdgeDeviceBackend := k8s.backend InitialDeviceNamespace.

Definition Create (config : Config) : EdgeDeviceBackend + error :=
  if decide (Config_Backend config = "remote") then createRemoteBackend (Config_RemoteBackendURL config)
  else if decide (Config_Backend config = "crd") then inl createK8sBackend
  else inr (ErrorString ("unsupported backend type: " +:+ Config_Backend config)).

(** Whatever the configuration, the handlers are given a backend that keeps
    the contract. *)
Lemma Create_laws config B : Create config = inl B -> BackendLaws B.
Proof.
  unfold Create, createRemoteBackend. repeat case_decide; try done.
  - destruct (url_Parse _); [|done]. intros [= <-]. apply remote_laws.
  - intros [= <-]. apply k8s_laws.
Qed.
End Factory.

(** ** Properties *)

(** With the remote backend, whether a registration succeeds and a
    certificate is handed out does not depend on who asks: the handler runs in
    the same way for any two callers whose namespace is the same, be the device
    theirs or not; and a certificate that is handed out rests only on the
    namespace the remote service names for the device and its acceptance of
    the registration. *)
Theorem remote_registration_ignores_owner `{Unicode} `{Crypto} {P} `{CAProvider P} `{Wire}
    initialNamespace (mtlsConfig : TLSConfig P) auth auth' deviceID msg t o :
  models.Message_Directive msg = "registration" ->
  getNamespace initialNamespace auth' = getNamespace initialNamespace auth ->
  exec (HandlePostDataMessage (H2 := remote.backend) initialNamespace mtlsConfig auth deviceID msg) t o ->
  exec (HandlePostDataMessage (H2 := remote.backend) initialNamespace mtlsConfig auth' deviceID msg) t o /\
  forall resp, o = Done resp -> payload resp <> NoPayload ->
    exists ns status info,
      Ev (Remote (RemoteGetRegistrationStatus deviceID (getNamespace initialNamespace auth)))
         (inl (status, ns)) ∈ t /\
      Ev (Remote (RemoteRegisterDevice deviceID ns info)) None ∈ t.
Proof.
  intros Hd Hns He.
  unfold HandlePostDataMessage in *. rewrite Hd in *.
  replace (open_directive "registration") with true in * by reflexivity.
  cbn [negb andb] in *. do 2 (rewrite decide_False in * by done). rewrite decide_True in * by done.
  split.
  - unfold PostRegistration in *. rewrite Hns. exact He.
  - intros resp -> Hp. apply exec_PostRegistration in He
      as [[_ ?]|(_ & info & ns & crt & t1 & t2 & t3 & _ & -> & Hn & _ & Hreg & _)]; [done|].
    cbn [BackendApi.GetTargetNamespace BackendApi.Register remote.backend] in Hn, Hreg.
    unfold remote.GetTargetNamespace, remote.getRegistrationStatus in Hn.
    exec_call Hn as (res & t4 & -> & Hn).
    destruct res as [[status ns']|e]; apply exec_Ret_inv in Hn as [-> [= ->]].
    unfold remote.Register in Hreg.
    apply (exec_call_inv (Resp := Resp) (Remote (RemoteRegisterDevice deviceID ns' info)))
      in Hreg as (r & -> & [= <-]).
    exists ns', status, info. split; [left|]. set_solver.
Qed.

(** ** Examples *)

Section Examples.
#[local] Existing Instance ascii_tables.
#[local] Existing Instance example_wire.

Definition remote_registration (caller : string) : M Responder :=
  HandlePostDataMessage (H2 := remote.backend) "init" example_conf
    (Some (mkRequestAuthVal caller "")) "d1" (message "registration").

Lemma remote_registration_ignores_owner_witness :
  exec (remote_registration "stranger") (run_trace (remote_registration "d1") backend_world)
    (run_result (remote_registration "d1") backend_world) /\
  exists ns status, Ev (Remote (RemoteGetRegistrationStatus "d1" "init")) (inl (status, ns))
                      ∈ run_trace (remote_registration "d1") backend_world.
Proof.
  destruct (remote_registration_ignores_owner "init" example_conf (Some (mkRequestAuthVal "d1" ""))
    (Some (mkRequestAuthVal "stranger" "")) "d1" (message "registration") _ _ eq_refl eq_refl
    (run_result_exec (remote_registration "d1") backend_world)) as [He Hp].
  split; [exact He|].
  destruct (run_result (remote_registration "d1") backend_world) as [resp|] eqn:Hr;
    [|exfalso; vm_compute in Hr; discriminate Hr].
  destruct (Hp resp eq_refl) as (ns & status & info & Hin & _).
  - assert (match run_result (remote_registration "d1") backend_world with
            | Done r => payload r <> NoPayload | Panicked => False end) as Hx
      by (vm_compute; discriminate).
    rewrite Hr in Hx. exact Hx.
  - exists ns, status. exact Hin.
Defined.
End Examples.
