(* ===== verification/HttpServer.v ===== *)
(** * The start of the HTTP server

    src/cmd/httpapi/main.go up to the moment the server answers requests, and
    the answer to a request of the server that was started: the authority it
    trusts, the backend it talks to, and what a second start changes. *)
From S2P Require Import Prelude GoData GoStrings V1alpha1 Models Env Testbed Labels Utils.
From S2P Require Import ApiServer.
From S2P Require Import GoTime Repository BackendApi Backend Crypto MTLS Yggdrasil RemoteBackend Onboarding.
Import v1alpha1.

Definition initialDeviceNamespace : string := "default".
Definition operatorNamespace : string := "flotta".

(** What the libraries the program starts with answer: the environment, the
    logger, the connection to the cluster, the description of the API. *)
Record Platform := mkPlatform {
  envconfig_Process : Config + error;
  level_UnmarshalText : string -> option error;
  logConfig_Build : option error;
  clientcmd_BuildConfigFromFlags : string -> option error;
  ctrl_GetConfig : option error;
  client_New : option error;
  cache_New : option error;
  objCache_Start : option error;  (* what the check right after the goroutine sees *)
  objCache_WaitForCacheSync : bool;
  client_NewDelegatingClient : option error;
  v1_NewForConfig : option error;
  loads_Analyzed : option error;
}.

(** A server that has been started: its configuration, the authority with
    which it signs, the certificates it trusts and its backend. *)
Record Server := mkServer {
  server_config : Config;
  server_mtls : TLSConfig CASecretProvider;
  server_roots : list string;
  server_chain : list (option Certificate);
  server_backend : EdgeDeviceBackend;
}.

(** [os.Exit(1)], or the server runs; a start may also panic. *)
Inductive startup := Exited | Running (s : Server).

(** The methods of a nil interface. *)
Definition nil_backend : EdgeDeviceBackend := {|
  GetRegistrationStatus _ _ := Panic;
  GetConfiguration _ _ := Panic;
  Enrol _ _ _ := Panic;
  GetTargetNamespace _ _ _ := Panic;
  GetPlaybookExecutions _ _ := Panic;
  Register _ _ _ := Panic;
  UpdateStatus _ _ _ _ := Panic;
|}.

Section Start.
Context (platform : Platform).

Definition logger (logLevel : string) : option error :=
  match level_UnmarshalText platform logLevel with
  | Some err => Some err
  | None => logConfig_Build platform
  end.

Definition getRestConfig (kubeconfigPath : string) : option error :=
  if decide (kubeconfigPath <> "") then clientcmd_BuildConfigFromFlags platform kubeconfigPath
  else ctrl_GetConfig platform.

Definition getClient : option error :=
  match client_New platform with
  | Some err => Some err
  | None =>
      match cache_New platform with
      | Some err => Some err
      | None =>
          match objCache_Start platform with
          | Some err => Some err
          | None =>
              if negb (objCache_WaitForCacheSync platform)
              then Some (ErrorString "cannot sync cache")
              else client_NewDelegatingClient platform
          end
      end
  end.

Context `{Unicode} `{Libs} `{Crypto} (url_Parse : string -> string + error).

(** [backend, _ := backendFactory.Create(Config)]. *)
Definition start_backend (config : Config) : EdgeDeviceBackend :=
  match Create initialDeviceNamespace url_Parse config with
  | inl backend => backend
  | inr _ => nil_backend
  end.

(** The authority the configuration asks for; the error of
    [SetClientExpiration] is logged. *)
Definition start_mtls (config : Config) : TLSConfig CASecretProvider :=
  let mtlsConfig := NewMTLSConfig operatorNamespace (Some [Config_Domain config])
                      (Config_TLSLocalhostEnabled config) in
  (SetClientExpiration mtlsConfig (to_int64 (Config_ClientCertExpirationTime config))).1.

Definition main : M startup :=
  match envconfig_Process platform with
  | inr _ => Panic
  | inl config =>
      match logger (Config_LogLevel config) with
      | Some _ => Panic
      | None =>
          match getRestConfig (Config_Kubeconfig config) with
          | Some _ => Panic
          | None =>
              match getClient with
              | Some _ => Panic
              | None =>
                  '(mtlsConfig, (tlsConfig, CACertChain, err)) ← InitCertificates (start_mtls config);
                  match err with
                  | Some _ => mret Exited
                  | None =>
                      '(mtlsConfig, err) ← CreateRegistrationClientCerts mtlsConfig;
                      match err with
                      | Some _ => mret Exited
                      | None =>
                          tlsConfig ← lift (deref tlsConfig);
                          match v1_NewForConfig platform with
                          | Some _ => Panic
                          | None =>
                              let backend := start_backend config in
                              match loads_Analyzed platform with
                              | Some _ => mret Exited
                              | None => mret (Running (mkServer config mtlsConfig
                                          (TLS_ClientCAs tlsConfig) CACertChain backend))
                              end
                          end
                      end
                  end
              end
          end
      end
  end.
End Start.

(** ** Requests to the server *)

Section Serve.
Context `{Unicode} `{Libs} `{Crypto} `{Wire}.

(** A request that comes in over a connection with the certificates [tls]. *)
Definition serve (s : Server) (tls : option (list Certificate)) (r : DeviceRequest)
    : M (Z + Responder) :=
  InnerMiddleware (H2 := server_backend s) initialDeviceNamespace (server_mtls s)
    (server_roots s) (server_chain s) tls r.

(** A request whose sender is taken to be [auth]. *)
Definition serve_as (s : Server) (auth : RequestAuthVal) (r : DeviceRequest) : M Responder :=
  handle (H2 := server_backend s) initialDeviceNamespace (server_mtls s) (Some auth) r.
End Serve.

(** ** The authority *)

(** In the exchanges [t], the secret of the authority has the content [data]
    whenever it is read or created. *)
Record ca_is (ns : string) (data : gomap string) (t : list Event) : Prop := {
  ca_read s : Ev (GetSecret ns CASecretName) (s, None) ∈ t -> corev1.Secret_Data s = data;
  ca_created s : Ev (CreateSecret s) None ∈ t ->
    corev1.Secret_ObjectMeta s = named CASecretName ns -> corev1.Secret_Data s = data;
}.

Lemma ca_is_mono ns data t t' : t' ⊆ t -> ca_is ns data t -> ca_is ns data t'.
Proof. intros Hs [Hr Hc]. split; intros s Hin; [apply Hr|apply Hc]; by apply Hs. Qed.

Section Authority.
Context `{Crypto} `{!CryptoLaws} (ns : string) (data : gomap string).

(** The group holds the certificate and the key that [data] stores. *)
Definition holds_ca (g : CertificateGroup) : Prop :=
  exists g0, NewCACertificateGroupFromSecret data = Done (Some g0, None) /\
    cert g0 = cert g /\ privKey g0 = privKey g.

(** [data] stores an authority fit to sign. *)
Definition fit : Prop :=
  exists g ca k, NewCACertificateGroupFromSecret data = Done (Some g, None) /\
    cert g = Some ca /\ privKey g = Some k /\ may_sign ca k.

(** The first thing asked for is the secret of the authority, and it is there. *)
Definition found (t : list Event) : Prop :=
  exists s, head t = Some (Ev (GetSecret ns CASecretName) (s, None)).

Lemma found_app t t' : found t -> found (t ++ t').
Proof. intros [s Hs]. exists s. by destruct t. Qed.

Lemma exec_GetCACertificate_fit config t config' g :
  CASecretProvider_namespace config = ns -> ca_is ns data t ->
  exec (secret_provider.GetCACertificate config) t (Done (config', (g, None))) ->
  found t \/ fit.
Proof using Type*.
  intros Hns Hca He.
  apply exec_GetCACertificate in He
    as (c & g0 & err & s & e & [= <- <- <-] & Hin & g' & -> & -> & Hg).
  rewrite Hns in Hin, Hg. destruct e as [e|]; [right|left; by exists s].
  destruct Hg as (_ & (ca & k & cp & kp & Hc & Hk & Hm & _) & t1 & s' & [Hmeta (g2 & Hr & Hc2 & Hk2)] & -> & _).
  rewrite (ca_created _ _ _ Hca s') in Hr; [|set_solver|done].
  exists g2, ca, k. split_and!; [done|congruence..|done].
Qed.

Lemma exec_GetCACertificate_ca config t config' g :
  CASecretProvider_namespace config = ns -> ca_is ns data t ->
  exec (secret_provider.GetCACertificate config) t (Done (config', (g, None))) ->
  exists g', g = Some g' /\ config' = set_latestCA g' config /\ holds_ca g'.
Proof using Type*.
  intros Hns Hca He.
  apply exec_GetCACertificate in He
    as (c & g0 & err & s & e & [= <- <- <-] & Hin & g' & -> & -> & Hg).
  rewrite Hns in Hin, Hg. exists g'. split_and!; [done..|]. destruct e as [e|].
  - destruct Hg as (_ & _ & t1 & s' & [Hm (g2 & Hr & Hc & Hk)] & -> & _). exists g2.
    rewrite (ca_created _ _ _ Hca s') in Hr; [done|set_solver|done].
  - destruct Hg as [Hr _]. exists g'.
    by rewrite (ca_read _ _ _ Hca _ (head_Some_elem_of _ _ Hin)) in Hr.
Qed.

(** What a provider may have become. *)
Definition has_ca (config config' : CASecretProvider) : Prop :=
  exists g, config' = set_latestCA g config /\ holds_ca g.

Lemma exec_GetServerCertificate_ca config dnsNames localhost t config' g err :
  CASecretProvider_namespace config = ns -> ca_is ns data t ->
  exec (secret_provider.GetServerCertificate config dnsNames localhost) t
    (Done (config', (g, err))) ->
  err = None -> config' = config \/ has_ca config config'.
Proof using Type*.
  intros Hns Hca He ->. unfold secret_provider.GetServerCertificate in He.
  exec_call He as ([s [e|]] & t1 & -> & He).
  2:{ destruct (ImportFromPem_total (default "" (map_get (corev1.Secret_Data s) serverCert))
        (default "" (map_get (corev1.Secret_Data s) serverSecretKey))) as (g1 & e & E).
      rewrite E in He. destruct e; apply exec_Ret_inv in He as [_ [= -> ->]]. by left. }
  destruct (negb (IsNotFound e)); [by apply exec_Ret_inv in He as [_ [=]]|].
  apply exec_bind_inv in He as [[_ ?]|([c1 [ca err]] & t2 & t3 & -> & Hc & He)]; [done|].
  destruct err as [e'|]; [by apply exec_Ret_inv in He as [_ [=]]|].
  apply exec_GetCACertificate_ca in Hc as (g1 & -> & -> & Hh);
    [|done|eapply ca_is_mono; [|exact Hca]; set_solver].
  right. exists g1. split; [|done]. cbn [lift deref] in He. rewrite bind_ret_l in He.
  apply exec_bind_inv in He as [[_ ?]|([crt err] & t4 & t5 & -> & _ & He)]; [done|].
  destruct err as [e'|]; [by apply exec_Ret_inv in He as [_ [=]]|].
  apply exec_bind_inv in He as [[_ ?]|(crt' & t6 & t7 & -> & _ & He)]; [done|].
  apply exec_bind_inv in He as [[_ ?]|(d & t8 & t9 & -> & _ & He)]; [done|].
  exec_call He as (err & t10 & -> & He).
  by destruct err; apply exec_Ret_inv in He as [_ [= -> ->]].
Qed.

Lemma exec_CreateRegistrationCertificate_ca config name t config' d :
  CASecretProvider_namespace config = ns -> ca_is ns data t ->
  exec (secret_provider.CreateRegistrationCertificate config name) t
    (Done (config', (d, None))) ->
  has_ca config config'.
Proof using Type*.
  intros Hns Hca He. unfold secret_provider.CreateRegistrationCertificate in He.
  apply exec_bind_inv in He as [[_ ?]|([c1 [ca err]] & t2 & t3 & -> & Hc & He)]; [done|].
  destruct err as [e'|]; [by apply exec_Ret_inv in He as [_ [=]]|].
  apply exec_GetCACertificate_ca in Hc as (g1 & -> & -> & Hh);
    [|done|eapply ca_is_mono; [|exact Hca]; set_solver].
  exists g1. split; [|done]. cbn [lift deref] in He. rewrite bind_ret_l in He.
  apply exec_bind_inv in He as [[_ ?]|(parent & t4 & t5 & -> & _ & He)]; [done|].
  exec_call He as (n1 & t6 & -> & He). exec_call He as (n2 & t7 & -> & He). cbv zeta in He.
  apply exec_bind_inv in He as [[_ ?]|([crt err] & t8 & t9 & -> & _ & He)]; [done|].
  destruct err as [e'|]; [by apply exec_Ret_inv in He as [_ [=]]|].
  apply exec_bind_inv in He as [[_ ?]|(crt' & t10 & t11 & -> & _ & He)]; [done|].
  destruct (CreatePem crt') as [g2 [e'|]]; [by apply exec_Ret_inv in He as [_ [=]]|].
  apply exec_bind_inv in He as [[_ ?]|(d' & t12 & t13 & -> & _ & He)]; [done|].
  by apply exec_Ret_inv in He as [_ [= -> _]].
Qed.
End Authority.

(** ** The start *)

Section Started.
Context `{Unicode} `{Libs} `{Crypto} `{!CryptoLaws}.
Context (data : gomap string).
Notation authority_of := (has_ca data).
Notation ca_kept := (ca_is operatorNamespace data).

Lemma has_ca_trans p p1 p2 : p1 = p \/ authority_of p p1 -> authority_of p1 p2 -> authority_of p p2.
Proof. intros [->|(g1 & -> & _)] (g2 & -> & Hg); exists g2; by split. Qed.

Lemma exec_InitCertificates_ca conf p t conf' tls chain :
  caProvider conf = [p] -> CASecretProvider_namespace p = operatorNamespace -> ca_kept t ->
  exec (InitCertificates conf) t (Done (conf', (tls, chain, None))) ->
  (found operatorNamespace t \/ fit data) /\
  exists g p' pem crt, holds_ca data g /\ chain = [cert g] /\ CertPEM g = Some pem /\
    tls = Some (mkTLS crt [pem]) /\ conf' = set_caProvider [p'] conf /\ authority_of p p'.
Proof using Type*.
  intros Hp Hns Hca He. unfold InitCertificates in He. rewrite Hp in He.
  rewrite decide_False in He by done. cbn [for_each] in He. unfold InitCertificates_one in He.
  apply exec_bind_inv in He as [[_ ?]|(s & t1 & t2 & -> & Hs & He)]; [done|].
  apply exec_bind_inv in Hs as [[_ ?]|(s' & t3 & t4 & -> & Hs & [-> [= ->]]%exec_Ret_inv)]; [done|].
  apply exec_bind_inv in Hs as [[_ ?]|([p1 [g err]] & t5 & t6 & -> & Hg & Hs)]; [done|].
  destruct err as [e|]; [by apply exec_Ret_inv in Hs as [_ [= ->]]; apply exec_Ret_inv in He as [_ [=]]|].
  assert (found operatorNamespace t5 \/ fit data) as Hfit
    by (eapply exec_GetCACertificate_fit; [exact Hns| |exact Hg]; eapply ca_is_mono; [|exact Hca]; set_solver).
  split; [destruct Hfit as [?|?]; [left; by do 3 apply found_app|by right]|].
  eapply exec_GetCACertificate_ca in Hg as (g1 & -> & -> & Hh);
    [|done..|eapply ca_is_mono; [|exact Hca]; set_solver].
  cbn [lift deref] in Hs. rewrite bind_ret_l in Hs.
  apply exec_bind_inv in Hs as [[_ ?]|(pem & t7 & t8 & -> & [-> Hpem]%exec_lift_inv & Hs)]; [done|].
  apply exec_Ret_inv in Hs as [-> [= ->]].
  cbn [init_providers init_errors init_caCerts init_chain init_pool set_caProvider caProvider app] in He.
  rewrite decide_False in He by done. cbn [Domains LocalhostEnabled] in He.
  apply exec_bind_inv in He as [[_ ?]|([p2 [g2 err]] & t9 & t10 & -> & Hg & He)]; [done|].
  destruct err as [e|]; [by apply exec_Ret_inv in He as [_ [=]]|].
  eapply exec_GetServerCertificate_ca in Hg; [|done..|eapply ca_is_mono; [|exact Hca]; set_solver|done].
  apply exec_bind_inv in He as [[_ ?]|(g3 & t11 & t12 & -> & _ & He)]; [done|].
  apply exec_bind_inv in He as [[_ ?]|([crt|e] & t13 & t14 & -> & _ & He)]; [done| |];
    apply exec_Ret_inv in He as [_ [= -> -> ->]].
  exists g1, p2, pem, crt. split_and!; [done|done| |done|done|].
  - destruct (CertPEM g1); [|done]. by injection Hpem as ->.
  - destruct Hg as [->|Hg]; [by exists g1|]. eapply has_ca_trans; [|exact Hg]. right. by exists g1.
Qed.

Lemma exec_CreateRegistrationClientCerts_ca conf p t conf' :
  caProvider conf = [p] -> CASecretProvider_namespace p = operatorNamespace -> ca_kept t ->
  exec (CreateRegistrationClientCerts conf) t (Done (conf', None)) ->
  exists p' random certData, authority_of p p' /\ conf' = set_caProvider [p'] conf /\
    Ev (RandString regClientSecretNameRandomLen) random ∈ t /\
    Ev (CreateSecret (corev1.mkSecret (set_Labels (Some {[regClientSecretLabelKey := "true"]})
         (named (regClientSecretNamePrefix +:+ "-" +:+ random) (TLSConfig_namespace conf)))
         certData)) None ∈ t.
Proof using Type*.
  intros Hp Hns Hca He. unfold CreateRegistrationClientCerts in He. rewrite Hp in He.
  exec_call He as (random & t1 & -> & He). cbv zeta in He.
  apply exec_bind_inv in He as [[_ ?]|([p1 [d err]] & t2 & t3 & -> & Hg & He)]; [done|].
  destruct err as [e|]; [by apply exec_Ret_inv in He as [_ [=]]|].
  eapply exec_CreateRegistrationCertificate_ca in Hg;
    [|done..|eapply ca_is_mono; [|exact Hca]; set_solver].
  exec_call He as (err & t4 & -> & He). apply exec_Ret_inv in He as [-> [= -> <-]].
  exists p1, random, d. split_and!; [done|done|left|set_solver].
Qed.

(** What a server that runs has been given. *)
Lemma exec_main platform url_Parse t s :
  ca_kept t -> exec (main platform url_Parse) t (Done (Running s)) ->
  (found operatorNamespace t \/ fit data) /\
  exists config g pem p', envconfig_Process platform = inl config /\
    server_config s = config /\
    server_mtls s = set_caProvider [p'] (start_mtls config) /\
    authority_of (NewCASecretProvider operatorNamespace) p' /\
    holds_ca data g /\ server_chain s = [cert g] /\ server_roots s = [pem] /\
    CertPEM g = Some pem /\ server_backend s = start_backend url_Parse config /\
    exists random certData, Ev (RandString regClientSecretNameRandomLen) random ∈ t /\
      Ev (CreateSecret (corev1.mkSecret (set_Labels (Some {[regClientSecretLabelKey := "true"]})
           (named (regClientSecretNamePrefix +:+ "-" +:+ random) operatorNamespace))
           certData)) None ∈ t.
Proof using Type*.
  intros Hca He. unfold main in He.
  destruct (envconfig_Process platform) as [config|]; [|by apply exec_Panic_inv in He as [_ [=]]].
  do 3 (case_match; [by apply exec_Panic_inv in He as [_ [=]]|]).
  assert (exists days, start_mtls config = mkTLSConfig [NewCASecretProvider operatorNamespace]
    (Some [Config_Domain config]) (Config_TLSLocalhostEnabled config) operatorNamespace days)
    as [days Hm] by (unfold start_mtls, SetClientExpiration; case_decide; by eexists).
  apply exec_bind_inv in He as [[_ ?]|([conf1 [[tls chain] err]] & t1 & t2 & -> & Hi & He)]; [done|].
  destruct err as [e|]; [by apply exec_Ret_inv in He as [_ [=]]|].
  eapply exec_InitCertificates_ca in Hi as (Hfit & g & p1 & pem & crt & Hg & -> & Hpem & -> & -> & Hp1);
    [|by rewrite Hm|done|eapply ca_is_mono; [|exact Hca]; set_solver].
  split; [destruct Hfit as [?|?]; [left; by apply found_app|by right]|].
  apply exec_bind_inv in He as [[_ ?]|([conf2 err] & t3 & t4 & -> & Hr & He)]; [done|].
  destruct err as [e|]; [by apply exec_Ret_inv in He as [_ [=]]|].
  assert (CASecretProvider_namespace p1 = operatorNamespace) as Hns
    by (destruct Hp1 as (? & -> & _); done).
  eapply exec_CreateRegistrationClientCerts_ca in Hr as (p2 & random & d & Hp2 & -> & Hrand & Hev);
    [|done|done|eapply ca_is_mono; [|exact Hca]; set_solver].
  cbn [lift deref] in He. rewrite bind_ret_l in He.
  case_match; [by apply exec_Panic_inv in He as [_ [=]]|].
  case_match; apply exec_Ret_inv in He as [-> [= ->]].
  assert (TLSConfig_namespace (set_caProvider [p1] (start_mtls config)) = operatorNamespace) as Hn
    by (by rewrite Hm).
  rewrite Hn in Hev.
  exists config, g, pem, p2. split_and!; [done..| |done|done|done|done|done|].
  - eapply has_ca_trans; [|exact Hp2]. by right.
  - exists random, d. split; set_solver.
Qed.
End Started.

(** ** Properties *)

Section Properties.
Context `{Unicode} `{Libs} `{Crypto} `{!CryptoLaws} `{Wire}.

Lemma fit_holds data :
  fit data -> exists ca k, may_sign ca k /\
    forall g, holds_ca data g -> cert g = Some ca /\ privKey g = Some k.
Proof.
  intros (g0 & ca & k & Hd & Hc & Hk & Hm). exists ca, k. split; [done|].
  intros g (g1 & Hd' & Hc' & Hk'). rewrite Hd in Hd'. injection Hd' as <-.
  split; congruence.
Qed.

Lemma days_of_start config :
  clientExpirationDays (start_mtls config) =
    let days := to_int64 (Config_ClientCertExpirationTime config) in
    if decide (0 < days)%Z then days else defaultDaysToExpireClientCertificate.
Proof.
  unfold start_mtls, SetClientExpiration, NewMTLSConfig. cbv zeta.
  repeat case_decide; try done; lia.
Qed.

(** C16: certificates outlive the server that signed them: as long as the secret
    of the authority keeps its content, a certificate signed by a server for a
    device carries the key of the device's request and the names of the device
    and its namespace, and it is under these that every server started from the
    same secret, before or after, handles a request made with it, whatever other
    certificates are presented.  An authority that the first server finds has to
    be fit to sign; one that it creates is.  The request has to be signed with an
    algorithm that crypto/x509 still accepts, since it is copied into the
    certificate.  The certificate is signed for the number of days configured,
    or for seven where that number does not fit an int or is zero. *)
Theorem certificates_survive_restart data platform1 platform2 url_Parse1 url_Parse2 t1 t2 s1 s2
    CSRPem commonName namespace t pem :
  ca_is operatorNamespace data (t1 ++ t2) -> (found operatorNamespace t1 -> fit data) ->
  exec (main platform1 url_Parse1) t1 (Done (Running s1)) ->
  exec (main platform2 url_Parse2) t2 (Done (Running s2)) ->
  exec (TLSConfig_SignCSR (server_mtls s1) CSRPem commonName namespace) t (Done (Some pem, None)) ->
  exists csr crt, certificate_for CSRPem commonName namespace pem csr crt /\
    (exists der seed ca k serial notBefore now, ParseCertificate der = inl crt /\ Ev Now now ∈ t /\
     CreateCertificate seed
      (secret_provider.client_template csr commonName namespace serial notBefore
         (let days := to_int64 (Config_ClientCertExpirationTime (server_config s1)) in
          now + (if decide (0 < days) then days else 7) * ns_per_day)%Z)
      ca (CSR_PublicKey csr) (Some k) = inl der) /\
    (secure_algorithm (CSR_SignatureAlgorithm csr) = true ->
     forall peers r t' o, exec (serve s2 (Some (crt :: peers)) r) t' o ->
      exists o', exec (serve_as s2 (mkRequestAuthVal (ToLower commonName) namespace) r) t' o' /\
        o = (res ← o'; Done (inr res))).
Proof using Type*.
  intros Hca Hfit Hs1 Hs2 Hs.
  eapply exec_main in Hs1 as (Hf & c1 & g1 & pem1 & p1 & _ & Hc1 & Hm1 & (g1' & -> & Hg1) & _);
    [|eapply ca_is_mono; [|exact Hca]; set_solver].
  eapply exec_main in Hs2 as (_ & c2 & g2 & pem2 & p2 & _ & _ & _ & _ & Hg2 & Hch & _);
    [|eapply ca_is_mono; [|exact Hca]; set_solver].
  assert (fit data) as (ca & k & Hm & Hkeys)%fit_holds by (destruct Hf; auto).
  apply Hkeys in Hg1 as [Hcert Hkey]. apply Hkeys in Hg2 as [Hcert2 _]. rewrite Hcert2 in Hch.
  eapply exec_TLSConfig_SignCSR_signed in Hs
    as (csr & crt & Hfor & (der & seed & serial & notBefore & now & Hp & Hnow & Ec) & Hsig);
    [|by rewrite Hm1|done|exact Hcert|exact Hkey|done].
  exists csr, crt. split; [done|]. split.
  - exists der, seed, ca, k, serial, notBefore, now. split_and!; [done..|].
    rewrite Hm1, Hc1 in *. change (clientExpirationDays (set_caProvider ?l ?c))
      with (clientExpirationDays c) in Ec. by rewrite days_of_start in Ec.
  - intros Hsec peers r t' o He. unfold serve in He.
    apply exec_InnerMiddleware_signed in He as (o' & Hh & ->); rewrite ?Hch.
    + exists o'. by rewrite (certificate_for_identity _ _ _ _ _ _ Hfor) in Hh.
    + by repeat constructor.
    + left. exists ca. split; [left|by apply Hsig].
Qed.

(** When the server runs it trusts one authority, the one in the secret,
    and signs with it; a secret with a new registration certificate has been
    created; and the backend is the configured one, or none at all when the
    configuration names no backend the program knows. *)
Theorem main_running data platform url_Parse t s :
  ca_is operatorNamespace data t -> exec (main platform url_Parse) t (Done (Running s)) ->
  exists config g pem p g', envconfig_Process platform = inl config /\ server_config s = config /\
    holds_ca data g /\ holds_ca data g' /\
    server_chain s = [cert g] /\ server_roots s = [pem] /\ CertPEM g = Some pem /\
    caProvider (server_mtls s) = [p] /\ latestCA p = Some g' /\
    (exists random certData, Ev (CreateSecret (corev1.mkSecret
       (set_Labels (Some {["reg-client-ca" := "true"]}) (named ("reg-client-ca-" +:+ random) "flotta"))
       certData)) None ∈ t) /\
    server_backend s = match Create initialDeviceNamespace url_Parse config with
                       | inl backend => backend | inr _ => nil_backend end.
Proof using Type*.
  intros Hca He. eapply exec_main in He
    as (_ & config & g & pem & p & Hcfg & Hc & Hm & (g' & -> & Hg') & Hg & Hch & Hr & Hp & Hb &
        random & d & _ & Hev); [|done].
  exists config, g, pem, (set_latestCA g' (NewCASecretProvider operatorNamespace)), g'.
  split_and!; [done..|by rewrite Hm|done| |done].
  exists random, d. exact Hev.
Qed.

(** A server whose configuration names a backend it does not know starts all
    the same, and then panics at every request of a device for its own messages
    or configuration. *)
Theorem unknown_backend_panics data platform url_Parse t s leaf peers r t' o :
  ca_is operatorNamespace data t -> fit data ->
  exec (main platform url_Parse) t (Done (Running s)) ->
  Config_Backend (server_config s) <> "remote" -> Config_Backend (server_config s) <> "crd" ->
  Exists (signed_by (server_chain s)) (leaf :: peers) ->
  IsOwnDevice (Some (request_identity leaf)) (device_of r) = true ->
  r = GetControl (device_of r) \/ r = GetData (device_of r) ->
  exec (serve s (Some (leaf :: peers)) r) t' o -> t' = [] /\ o = Panicked.
Proof using Type*.
  intros Hca Hfit Hs Hnr Hnc Hex Hown Hr He. apply fit_holds in Hfit as (ca & k & _ & Hfit).
  eapply exec_main in Hs as (_ & config & g & pem & p & Hcfg & Hc & _ & _ & Hg & Hch & _ & _ & Hb & _);
    [|done].
  apply Hfit in Hg as [Hcert _]. unfold serve in He.
  apply exec_InnerMiddleware_signed in He as (o' & Hh & ->); [|rewrite Hch, Hcert; by repeat constructor|done].
  assert (server_backend s = nil_backend) as Hnil.
  { rewrite Hb. unfold start_backend, Create. rewrite Hc in *. by rewrite !decide_False. }
  rewrite Hnil in Hh. destruct Hr as [Hr|Hr]; rewrite Hr in Hh; cbn [handle] in Hh;
    unfold HandleGetControlMessage, HandleGetDataMessage in Hh; rewrite Hown in Hh;
    by apply exec_Panic_inv in Hh as [-> ->].
Qed.
End Properties.

(** ** Examples *)

(** What an exchange says the secret of the authority holds. *)
Definition ca_content (ns : string) (e : Event) : option (gomap string) :=
  match e with
  | Ev c r =>
      match c return Resp c -> option (gomap string) with
      | GetSecret ns' name => fun r =>
          if decide (ns' = ns /\ name = CASecretName /\ r.2 = None)
          then Some (corev1.Secret_Data r.1) else None
      | CreateSecret s => fun r =>
          if decide (corev1.Secret_ObjectMeta s = named CASecretName ns /\ r = None)
          then Some (corev1.Secret_Data s) else None
      | _ => fun _ => None
      end r
  end.
Definition ca_isb (ns : string) (data : gomap string) (t : list Event) : bool :=
  forallb (fun e => match ca_content ns e with Some d => bool_decide (d = data) | None => true end) t.

Lemma ca_isb_spec ns data t : ca_isb ns data t = true -> ca_is ns data t.
Proof.
  unfold ca_isb. rewrite forallb_forall. intros Hf.
  split; intros s Hin%list_elem_of_In; specialize (Hf _ Hin); cbn [ca_content] in Hf.
  - rewrite decide_True in Hf by done. by apply bool_decide_eq_true in Hf.
  - intros Hm. rewrite decide_True in Hf by done. by apply bool_decide_eq_true in Hf.
Qed.

Definition is_fit `{Crypto} (data : gomap string) : bool :=
  match NewCACertificateGroupFromSecret data with
  | Done (Some g, None) =>
      match cert g, privKey g with
      | Some ca, Some k =>
          Cert_IsCA ca && Cert_BasicConstraintsValid ca && signing_usage (Cert_KeyUsage ca) &&
          bool_decide (Cert_PublicKey ca = Some (Public k))
      | _, _ => false
      end
  | _ => false
  end.
Lemma is_fit_spec `{Crypto} data : is_fit data = true -> fit data.
Proof.
  unfold is_fit, fit. destruct (NewCACertificateGroupFromSecret data) as [[[g|] [e|]]|]; try done.
  destruct (cert g) as [ca|] eqn:Hc; [|done]. destruct (privKey g) as [k|] eqn:Hk; [|done].
  intros [[[Hca Hbc]%andb_true_iff Hu]%andb_true_iff Hpk%bool_decide_eq_true]%andb_true_iff.
  by exists g, ca, k.
Qed.

#[local] Existing Instance ascii_tables.
#[local] Existing Instance trivial_libs.
#[local] Existing Instance example_wire.

Definition example_config (backend : string) : Config :=
  mkConfig 8043 "project-flotta.io" false ":8080" "info" 30 "" backend "" 5000000000 "" "" "".
Definition example_platform (backend : string) : Platform :=
  mkPlatform (inl (example_config backend)) (fun _ => None) None (fun _ => None) None None None None
    true None None None.
Definition any_url (s : string) : string + error := inl s.

Definition example_main (backend : string) : M startup := main (example_platform backend) any_url.

(** The first start, on an empty cluster, and one on the cluster it leaves. *)
Definition first_world : World := (run server (example_main "crd") empty_world).1.1.
Definition ca_data : gomap string :=
  match w_secrets first_world !! (operatorNamespace, CASecretName) with
  | Some s => corev1.Secret_Data s
  | None => None
  end.
Definition started_in (backend : string) (w : World) : option Server :=
  match run_result (example_main backend) w with Done (Running s) => Some s | _ => None end.

Lemma started_in_exec backend w s :
  started_in backend w = Some s ->
  exec (example_main backend) (run_trace (example_main backend) w) (Done (Running s)).
Proof.
  unfold started_in. intros Hs. apply run_result_exec_as.
  destruct (run_result _ w) as [[|s']|]; [done| |done]. by injection Hs as ->.
Qed.

(** The server started first, the one started after it, and one with a backend
    nobody knows. *)
Definition starts (backend : string) (w : World) : bool :=
  match started_in backend w with Some _ => true | None => false end.

Lemma starts_exec backend w :
  starts backend w = true -> exists s, started_in backend w = Some s.
Proof. unfold starts. destruct (started_in backend w) as [s|]; [by exists s|done]. Qed.

(** The text of the certificate a server signs. *)
Definition signed_text (name : string) (s : Server) : option string :=
  match run_result (TLSConfig_SignCSR (server_mtls s) example_csr name "ns") empty_world with
  | Done (Some pem, None) => Some pem
  | _ => None
  end.
Lemma signed_text_exec name s pem :
  signed_text name s = Some pem ->
  exec (TLSConfig_SignCSR (server_mtls s) example_csr name "ns")
    (run_trace (TLSConfig_SignCSR (server_mtls s) example_csr name "ns") empty_world)
    (Done (Some pem, None)).
Proof.
  unfold signed_text. intros Hs. apply run_result_exec_as.
  destruct (run_result _ _) as [[[p|] [e|]]|]; try done. by injection Hs as ->.
Qed.

Lemma ca_data_kept :
  ca_is operatorNamespace ca_data (run_trace (example_main "crd") empty_world ++
    run_trace (example_main "crd") first_world).
Proof. apply ca_isb_spec. vm_compute. reflexivity. Qed.
Lemma ca_data_fit : fit ca_data.
Proof. apply is_fit_spec. vm_compute. reflexivity. Qed.

(** The first start creates the authority. *)
Definition first_finds (t : list Event) : bool :=
  match head t with
  | Some (Ev c r) =>
      match c return Resp c -> bool with
      | GetSecret _ _ => fun r => bool_decide (r.2 = None)
      | _ => fun _ => false
      end r
  | None => false
  end.
Lemma first_finds_spec ns t : first_finds t = false -> ~ found ns t.
Proof.
  unfold first_finds. intros Hf [s Hs]. by rewrite Hs in Hf.
Qed.

Definition csr_algorithm (CSRPem : string) : option Z :=
  '(_, bytes) ← pem_Decode CSRPem;
  match ParseCertificateRequest bytes with inl csr => Some (CSR_SignatureAlgorithm csr) | inr _ => None end.
Lemma example_csr_secure csr block bytes :
  pem_Decode example_csr = Some (block, bytes) -> ParseCertificateRequest bytes = inl csr ->
  secure_algorithm (CSR_SignatureAlgorithm csr) = true.
Proof.
  intros Hd Hp.
  assert (match csr_algorithm example_csr with Some a => secure_algorithm a | None => true end = true)
    as Hx by (vm_compute; reflexivity).
  unfold csr_algorithm in Hx. rewrite Hd in Hx. cbn [mbind option_bind] in Hx. by rewrite Hp in Hx.
Qed.

Lemma certificates_survive_restart_witness :
  exists s1 s2 pem,
    started_in "crd" empty_world = Some s1 /\ started_in "crd" first_world = Some s2 /\
    signed_text "Device" s1 = Some pem /\
    exists csr crt, certificate_for example_csr "Device" "ns" pem csr crt /\
      forall peers r t' o, exec (serve s2 (Some (crt :: peers)) r) t' o ->
        exists o', exec (serve_as s2 (mkRequestAuthVal "device" "ns") r) t' o'.
Proof.
  destruct (starts_exec "crd" empty_world ltac:(vm_compute; reflexivity)) as [s1 H1].
  destruct (starts_exec "crd" first_world ltac:(vm_compute; reflexivity)) as [s2 H2].
  assert (match started_in "crd" empty_world with
          | Some s => match signed_text "Device" s with Some _ => true | None => false end
          | None => false end = true) as H3 by (vm_compute; reflexivity).
  assert (first_finds (run_trace (example_main "crd") empty_world) = false) as H4
    by (vm_compute; reflexivity).
  rewrite H1 in H3. destruct (signed_text "Device" s1) as [pem|] eqn:Hs; [|discriminate H3].
  exists s1, s2, pem. split; [exact H1|]. split; [exact H2|]. split; [exact Hs|].
  destruct (certificates_survive_restart ca_data (example_platform "crd") (example_platform "crd")
    any_url any_url _ _ s1 s2 example_csr "Device" "ns" _ pem ca_data_kept
    (fun Hf => False_ind _ (first_finds_spec _ _ H4 Hf))
    (started_in_exec _ _ _ H1) (started_in_exec _ _ _ H2) (signed_text_exec _ _ _ Hs))
    as (csr & crt & Hfor & _ & Hserve).
  exists csr, crt. split; [exact Hfor|]. intros peers r t' o He.
  destruct (for_request _ _ _ _ _ _ Hfor) as (block & bytes & Hd & Hp).
  destruct (Hserve (example_csr_secure csr block bytes Hd Hp) peers r t' o He) as (o' & Ho & _).
  exists o'. exact Ho.
Defined.

Lemma main_running_witness :
  exists s, started_in "crd" empty_world = Some s /\ exists g, server_chain s = [cert g].
Proof.
  assert (ca_is operatorNamespace ca_data (run_trace (example_main "crd") empty_world)) as Hca
    by (apply ca_isb_spec; vm_compute; reflexivity).
  destruct (starts_exec "crd" empty_world ltac:(vm_compute; reflexivity)) as [s Hs].
  exists s. split; [exact Hs|].
  destruct (main_running ca_data (example_platform "crd") any_url _ s Hca (started_in_exec _ _ _ Hs))
    as (config & g & _ & _ & _ & _ & _ & _ & _ & Hch & _). exists g. exact Hch.
Defined.

(** The certificate of the device d1, signed by the authority of the example. *)
Definition lost_request : DeviceRequest := GetData "d1".
Definition d1_cert (s : Server) : option Certificate :=
  pem ← signed_text "d1" s;
  '(_, der) ← pem_Decode pem;
  match ParseCertificate der with inl c => Some c | inr _ => None end.

Lemma unknown_backend_panics_witness :
  exists s leaf, started_in "etcd" first_world = Some s /\
    forall t o, exec (serve s (Some [leaf]) lost_request) t o -> t = [] /\ o = Panicked.
Proof.
  assert (ca_isb operatorNamespace ca_data (run_trace (example_main "etcd") first_world) = true)
    as Hca%ca_isb_spec by (vm_compute; reflexivity).
  pose proof ca_data_fit as Hfit.
  assert (match started_in "etcd" first_world with
          | Some s =>
              bool_decide (Config_Backend (server_config s) = "etcd") &&
              match d1_cert s, server_chain s with
              | Some c, [Some ca] =>
                  IsOwnDevice (Some (request_identity c)) "d1" &&
                  match CheckSignatureFrom c ca with None => true | Some _ => false end
              | _, _ => false
              end
          | None => false
          end = true) as Hx by (vm_compute; reflexivity).
  destruct (started_in "etcd" first_world) as [s|] eqn:Hs; [|discriminate Hx].
  apply andb_true_iff in Hx as [Hb%bool_decide_eq_true Hx].
  destruct (d1_cert s) as [leaf|]; [|discriminate Hx].
  destruct (server_chain s) as [|[ca|] [|? ?]] eqn:Hch; try discriminate Hx.
  apply andb_true_iff in Hx as [Hown Hsig].
  destruct (CheckSignatureFrom leaf ca) eqn:Hck; [discriminate Hsig|].
  exists s, leaf. split; [reflexivity|]. apply started_in_exec in Hs as He.
  intros t o. apply (unknown_backend_panics ca_data (example_platform "etcd") any_url _ s leaf []
    lost_request t o Hca Hfit He).
  - rewrite Hb. discriminate.
  - rewrite Hb. discriminate.
  - left. exists ca. rewrite Hch. split; [left|exact Hck].
  - exact Hown.
  - right. reflexivity.
Defined.

(** The server keeps a copy of the cluster and reads from it.  A copy in which
    the secret of the authority just created is not there yet makes the first
    start end: a second authority cannot be stored. *)
Definition lagging (c : Req) (w : World) : World * Resp c :=
  match c return World * Resp c with
  | GetSecret ns n => (w, (corev1.mkSecret (named "" "") None, Some not_found))
  | CreateSecret s =>
      match w_secrets w !! key_of (corev1.Secret_ObjectMeta s) with
      | Some _ => (w, Some already_exists)
      | None => server (CreateSecret s) w
      end
  | c => server c w
  end.

Theorem first_start_may_end :
  exists t w, run lagging (example_main "crd") empty_world = (w, t, Done Exited) /\
    is_Some (w_secrets w !! (operatorNamespace, CASecretName)).
Proof.
  destruct (run lagging (example_main "crd") empty_world) as [[w t] o] eqn:Hr.
  assert (match run lagging (example_main "crd") empty_world with
          | (w, _, Done Exited) =>
              bool_decide (is_Some (w_secrets w !! (operatorNamespace, CASecretName)))
          | _ => false end = true) as Hx by (vm_compute; reflexivity).
  rewrite Hr in Hx. exists t, w. destruct o as [[|s]|]; try discriminate Hx.
  split; [reflexivity|]. by apply bool_decide_eq_true in Hx.
Qed.
