(* ===== verification/Metrics.v ===== *)
(** * Device counters

    internal/common/metrics/metrics.go: a counter per device in a [sync.Map],
    registered with the process-wide registry, and
    internal/operator/informers/edgedevice.go, which adds and removes them.
    The HTTP handlers run these operations concurrently: each access to the
    map or to the registry is one step. *)
From S2P Require Import Prelude GoData GoStrings V1alpha1 Models Env.
Import v1alpha1.

(** What tells the counters of devices apart: their constant labels. *)
Definition Desc : Type := string * string.

(** The registry of the Prometheus client. *)
Class Registry (R : Type) := {
  registered : R -> gset Desc;
  no_collectors : R;
  (** [None]: the call panics. *)
  MustRegister : Desc -> R -> option R;
  Unregister : Desc -> R -> R;
}.
(** Labels have to be valid UTF-8; the names of Kubernetes are ASCII, and no
    namespace has a slash in its name. *)
Definition ascii_name (s : string) : Prop := Forall (fun b => (b < 128)%N) (bytes s).
Definition no_slash (s : string) : Prop := 47%N ∉ bytes s.
Definition device_names (d : Desc) : Prop := ascii_name d.1 /\ ascii_name d.2 /\ no_slash d.1.
#[export] Instance device_names_dec d : Decision (device_names d).
Proof. unfold device_names, ascii_name, no_slash. apply _. Defined.

(** Documented: registering a collector with valid labels panics exactly when
    an equal one is registered. *)
Class RegistryLaws R `{Registry R} : Prop := {
  registered_no_collectors : registered no_collectors = ∅;
  MustRegister_spec d r :
    device_names d ->
    match MustRegister d r with
    | Some r' => d ∉ registered r /\ registered r' = {[d]} ∪ registered r
    | None => d ∈ registered r
    end;
  Unregister_spec d r : registered (Unregister d r) = registered r ∖ {[d]};
}.

(** A counter made by [prometheus.NewCounter]; [c_id] tells two counters with
    the same labels apart. *)
Record Counter := mkCounter { c_id : nat; c_desc : Desc }.
#[global] Instance Counter_eq_dec : EqDecision Counter.
Proof. solve_decision. Defined.

Definition deviceKey (namespace name : string) : string := namespace +:+ "/" +:+ name.
Definition key_of (d : Desc) : string := deviceKey d.1 d.2.

Section Metrics.
Context {R : Type} `{Registry R}.

(** [metricsImpl], the registry, and the increments made so far. *)
Record State := mkState {
  devices : gmap string Counter;
  registry : R;
  next_id : nat;
  increments : list Counter;
}.
Definition initial : State := mkState ∅ no_collectors 0 [].

Definition set_registry (r : R) (s : State) : State :=
  mkState (devices s) r (next_id s) (increments s).

(** [LoadOrStore(key, prometheus.NewCounter(...))]. *)
Definition LoadOrStore (namespace name : string) (s : State) : Counter * bool * State :=
  let fresh := mkCounter (next_id s) (namespace, name) in
  let s := mkState (devices s) (registry s) (S (next_id s)) (increments s) in
  match devices s !! deviceKey namespace name with
  | Some c => (c, true, s)
  | None =>
      (fresh, false,
       mkState (<[deviceKey namespace name := fresh]> (devices s)) (registry s) (next_id s)
         (increments s))
  end.

(** [if !loaded { MustRegister(counter) }]. *)
Definition finish_registration (counter : Counter) (loaded : bool) (s : State) : option State :=
  if loaded then Some s
  else r ← MustRegister (c_desc counter) (registry s); Some (set_registry r s).

Definition registerDeviceCounter (namespace name : string) (s : State) : option (Counter * State) :=
  let '(counter, loaded, s) := LoadOrStore namespace name s in
  s ← finish_registration counter loaded s;
  Some (counter, s).

Definition Inc (c : Counter) (s : State) : State :=
  mkState (devices s) (registry s) (next_id s) (increments s ++ [c]).

Definition RecordEdgeDevicePresence (namespace name : string) (s : State) : option State :=
  '(counter, s) ← registerDeviceCounter namespace name s;
  Some (Inc counter s).

Definition RegisterDeviceCounter (namespace name : string) (s : State) : option State :=
  '(_, s) ← registerDeviceCounter namespace name s;
  Some s.

(** [LoadAndDelete(key)]. *)
Definition LoadAndDelete (namespace name : string) (s : State) : option Counter * State :=
  (devices s !! deviceKey namespace name,
   mkState (delete (deviceKey namespace name) (devices s)) (registry s) (next_id s) (increments s)).

Definition RemoveDeviceCounter (namespace name : string) (s : State) : State :=
  match LoadAndDelete namespace name s with
  | (Some counter, s) => set_registry (Unregister (c_desc counter) (registry s)) s
  | (None, s) => s
  end.

(** What the informer's queue hands over: an [interface{}]. A deletion that the
    watch missed comes as a [cache.DeletedFinalStateUnknown]. *)
Inductive object := IsEdgeDevice (edgeDevice : EdgeDevice) | IsOther.

Definition desc_of (edgeDevice : EdgeDevice) : Desc :=
  (Namespace (EdgeDevice_ObjectMeta edgeDevice), Name (EdgeDevice_ObjectMeta edgeDevice)).

Definition OnAdd (obj : object) (s : State) : option State :=
  match obj with
  | IsEdgeDevice edgeDevice =>
      RegisterDeviceCounter (desc_of edgeDevice).1 (desc_of edgeDevice).2 s
  | IsOther => Some s
  end.
Definition OnDelete (obj : object) (s : State) : State :=
  match obj with
  | IsEdgeDevice edgeDevice =>
      RemoveDeviceCounter (desc_of edgeDevice).1 (desc_of edgeDevice).2 s
  | IsOther => s
  end.
Definition OnUpdate (_ _ : object) (s : State) : State := s.

(** The notifications of the informer, one at a time. *)
Inductive Notification := Added (obj : object) | Updated (old new : object) | Deleted (obj : object).

Fixpoint deliver (ns : list Notification) (s : State) : option State :=
  match ns with
  | [] => Some s
  | Added obj :: ns => s ← OnAdd obj s; deliver ns s
  | Updated old new :: ns => deliver ns (OnUpdate old new s)
  | Deleted obj :: ns => deliver ns (OnDelete obj s)
  end.

(** ** Interleaved operations *)

Inductive Op :=
  | Record_ (namespace name : string)
  | Register_ (namespace name : string)
  | Remove_ (namespace name : string).
#[global] Instance Op_eq_dec : EqDecision Op.
Proof. solve_decision. Defined.

(** Where a goroutine stands in its operation. *)
Inductive Thread :=
  | Starting (op : Op)
  | Registering (counter : Counter) (loaded inc : bool)
  | Removing (counter : Counter)
  | Finished.

(** The next step of a goroutine; [None] is a panic. *)
Definition thread_step (th : Thread) (s : State) : option (Thread * State) :=
  match th with
  | Starting (Record_ ns n) =>
      let '(c, loaded, s) := LoadOrStore ns n s in Some (Registering c loaded true, s)
  | Starting (Register_ ns n) =>
      let '(c, loaded, s) := LoadOrStore ns n s in Some (Registering c loaded false, s)
  | Starting (Remove_ ns n) =>
      match LoadAndDelete ns n s with
      | (Some c, s) => Some (Removing c, s)
      | (None, s) => Some (Finished, s)
      end
  | Registering c loaded inc =>
      s ← finish_registration c loaded s;
      Some (Finished, if inc : bool then Inc c s else s)
  | Removing c => Some (Finished, set_registry (Unregister (c_desc c) (registry s)) s)
  | Finished => Some (Finished, s)
  end.

Inductive Config := Running (s : State) (threads : list Thread) | Crashed.

Inductive step : Config -> Config -> Prop :=
  | step_thread s ths i th th' s' :
      ths !! i = Some th -> thread_step th s = Some (th', s') ->
      step (Running s ths) (Running s' (<[i := th']> ths))
  | step_panic s ths i th :
      ths !! i = Some th -> thread_step th s = None ->
      step (Running s ths) Crashed.
End Metrics.
Arguments State : clear implicits.
Arguments Config : clear implicits.

(** ** Lemmas *)

Lemma split_at_first {A} (x : A) (l1 l2 r1 r2 : list A) :
  x ∉ l1 -> x ∉ l2 -> l1 ++ x :: r1 = l2 ++ x :: r2 -> l1 = l2 /\ r1 = r2.
Proof.
  revert l2. induction l1 as [|a l1 IH]; intros [|b l2] H1 H2 E; simplify_eq/=.
  - done.
  - destruct H2. left.
  - destruct H1. left.
  - apply not_elem_of_cons in H1 as [_ H1]. apply not_elem_of_cons in H2 as [_ H2].
    by destruct (IH l2 H1 H2) as [-> ->].
Qed.

(** The key of a device is its own. *)
Lemma key_of_inj d d' : device_names d -> device_names d' -> key_of d = key_of d' -> d = d'.
Proof.
  destruct d as [ns n], d' as [ns' n']. unfold key_of, deviceKey.
  intros (_ & _ & H1) (_ & _ & H2) E. cbn [fst snd] in *. apply (f_equal bytes) in E. rewrite !bytes_app in E.
  change (bytes "/") with [47%N] in E. cbn [app] in E.
  destruct (split_at_first _ _ _ _ _ H1 H2 E) as [->%bytes_inj ->%bytes_inj]. done.
Qed.

Section Lemmas.
Context {R : Type} `{RegistryLaws R}.
Implicit Types (s : State R) (c : Counter) (d : Desc).

Definition valid_op (op : Op) : Prop :=
  match op with Record_ ns n | Register_ ns n | Remove_ ns n => device_names (ns, n) end.

(** Every counter is stored under its own key. *)
Definition keyed s : Prop :=
  forall k c, devices s !! k = Some c -> k = key_of (c_desc c) /\ device_names (c_desc c).

(** The registry holds exactly the counters of the map. *)
Definition in_step s : Prop :=
  keyed s /\ forall d, d ∈ registered (registry s) <->
    exists c, devices s !! key_of d = Some c /\ c_desc c = d.

Lemma keyed_desc s ns n c :
  keyed s -> device_names (ns, n) -> devices s !! deviceKey ns n = Some c -> c_desc c = (ns, n).
Proof.
  intros Hk Hn Hc. destruct (Hk _ _ Hc) as [Hkey Hc']. symmetry. by apply key_of_inj.
Qed.

(** Storing a new counter, or finding the old one. *)
Lemma LoadOrStore_spec ns n s :
  keyed s -> device_names (ns, n) ->
  let '(c, loaded, s') := LoadOrStore ns n s in
  c_desc c = (ns, n) /\ registry s' = registry s /\ increments s' = increments s /\ keyed s' /\
  devices s' !! deviceKey ns n = Some c /\
  if loaded : bool then devices s' = devices s
  else devices s !! deviceKey ns n = None /\ devices s' = <[deviceKey ns n := c]> (devices s).
Proof using Type*.
  intros Hk Hn. unfold LoadOrStore. cbn [devices registry increments next_id].
  destruct (devices s !! deviceKey ns n) as [c|] eqn:Hc; cbn [devices registry increments].
  - split; [by eapply keyed_desc|]. by split_and!.
  - split; [done|]. split; [done|]. split; [done|]. split; [|by rewrite lookup_insert_eq].
    intros k c Hx. cbn [devices] in Hx.
    apply lookup_insert_Some in Hx as [[<- <-]|[_ Hx]]; [by split|by apply Hk].
Qed.

Lemma registerDeviceCounter_spec ns n s :
  in_step s -> device_names (ns, n) ->
  exists c s', registerDeviceCounter ns n s = Some (c, s') /\ in_step s' /\
    registered (registry s') = {[(ns, n)]} ∪ registered (registry s).
Proof using Type*.
  intros [Hk Hr] Hn. unfold registerDeviceCounter.
  pose proof (LoadOrStore_spec ns n s Hk Hn) as Hl.
  destruct (LoadOrStore ns n s) as [[c loaded] s'].
  destruct Hl as (Hc & Hreg & _ & Hk' & Hget & Hl). unfold finish_registration.
  destruct loaded.
  - assert ((ns, n) ∈ registered (registry s)) as Hin.
    { apply Hr. exists c. rewrite <-Hl. by split. }
    exists c, s'. split; [done|]. split; [|rewrite Hreg; set_solver].
    split; [done|]. intros d. by rewrite Hreg, Hl, Hr.
  - destruct Hl as [Hnone Hdev]. rewrite Hc, Hreg.
    pose proof (MustRegister_spec (ns, n) (registry s) Hn) as Hm.
    assert ((ns, n) ∉ registered (registry s)) as Hfresh.
    { intros (c' & Hc' & _)%Hr. unfold key_of in Hc'. simpl in Hc'. congruence. }
    destruct (MustRegister (ns, n) (registry s)) as [r'|]; [|done]. destruct Hm as [_ Hr'].
    eexists c, _. split; [done|]. split; [|exact Hr']. split; [exact Hk'|]. intros d.
    cbn [registry set_registry devices]. rewrite Hr', elem_of_union, elem_of_singleton, Hdev, Hr.
    split.
    + intros [->|(c' & Hd & Hc')]; [exists c; by rewrite lookup_insert_eq|].
      exists c'. rewrite lookup_insert_ne; [done|]. intros E. rewrite <-E in Hd.
      by rewrite Hnone in Hd.
    + intros (c' & [[E <-]|[_ Hd]]%lookup_insert_Some & <-); [by left|]. right. eauto.
Qed.

Lemma RemoveDeviceCounter_spec ns n s :
  in_step s -> device_names (ns, n) ->
  in_step (RemoveDeviceCounter ns n s) /\
  registered (registry (RemoveDeviceCounter ns n s)) = registered (registry s) ∖ {[(ns, n)]}.
Proof using Type*.
  intros [Hk Hr] Hn. unfold RemoveDeviceCounter, LoadAndDelete.
  destruct (devices s !! deviceKey ns n) as [c|] eqn:Hc.
  - pose proof (keyed_desc _ _ _ _ Hk Hn Hc) as Hd. rewrite Hd.
    split; [|by rewrite <-Unregister_spec]. split.
    + intros k c' Hx. cbn [set_registry devices] in Hx.
      apply lookup_delete_Some in Hx as [_ Hx]. by apply Hk.
    + intros d. cbn [registry set_registry devices]. rewrite Unregister_spec, elem_of_difference,
        elem_of_singleton, Hr. split.
      * intros [(c' & Hx & <-) Hne]. exists c'. split; [|done]. apply lookup_delete_Some.
        split; [|done]. intros E. apply Hne. destruct (Hk _ _ Hx) as [_ Hs].
        by apply (key_of_inj (c_desc c') (ns, n)).
      * intros (c' & [Hne Hx]%lookup_delete_Some & <-). split; [by exists c'|].
        intros E. apply Hne. unfold key_of. by rewrite E.
  - unfold in_step, keyed. cbn [devices registry]. rewrite delete_id by done. split; [by split|].
    assert ((ns, n) ∉ registered (registry s)); [|set_solver].
    intros (c' & Hc' & _)%Hr. unfold key_of in Hc'. simpl in Hc'. congruence.
Qed.

(** The devices that exist according to the notifications; the deletions that
    the watch missed do not count. *)
Definition noted (D : gset Desc) (n : Notification) : gset Desc :=
  match n with
  | Added (IsEdgeDevice d) => {[desc_of d]} ∪ D
  | Deleted (IsEdgeDevice d) => D ∖ {[desc_of d]}
  | _ => D
  end.
Definition proper_names (n : Notification) : Prop :=
  match n with
  | Added (IsEdgeDevice d) | Deleted (IsEdgeDevice d) => device_names (desc_of d)
  | _ => True
  end.
#[export] Instance proper_names_dec n : Decision (proper_names n).
Proof. destruct n as [[]| |[]]; cbn [proper_names]; apply _. Defined.

Lemma exec_deliver ns : forall s,
  in_step s -> Forall proper_names ns ->
  exists s', deliver ns s = Some s' /\ in_step s' /\
    registered (registry s') = foldl noted (registered (registry s)) ns.
Proof using Type*.
  induction ns as [|n ns IH]; intros s Hs HF; [by exists s|].
  apply Forall_cons in HF as [Hn HF].
  destruct n as [[d|]|old new|[d|]]; cbn [deliver OnAdd OnUpdate OnDelete foldl noted];
    try by apply IH.
  - unfold RegisterDeviceCounter.
    destruct (registerDeviceCounter_spec (desc_of d).1 (desc_of d).2 s Hs Hn)
      as (c & s' & -> & Hi & E).
    destruct (IH s' Hi HF) as (s2 & E2 & Hs2 & E3). exists s2. split_and!; [done..|].
    by rewrite E3, E.
  - destruct (RemoveDeviceCounter_spec (desc_of d).1 (desc_of d).2 s Hs Hn) as [Hi E].
    destruct (IH _ Hi HF) as (s2 & E2 & Hs2 & E3). exists s2. split_and!; [done..|].
    by rewrite E3, E.
Qed.

Lemma initial_in_step : in_step (initial : State R).
Proof using Type*.
  split; [intros k c Hc; cbn [devices initial] in Hc; by rewrite lookup_empty in Hc|]. intros d.
  cbn [initial registry devices]. rewrite registered_no_collectors. split; [done|].
  intros (c & Hc & _). by rewrite lookup_empty in Hc.
Qed.

(** ** Lemmas: interleavings without a removal *)

Definition no_removal (th : Thread) : Prop :=
  match th with
  | Starting (Remove_ _ _) | Removing _ => False
  | Starting op => valid_op op
  | _ => True
  end.

(** A counter that its goroutine has stored and not registered yet. *)
Definition pending (ths : list Thread) (i : nat) (c : Counter) : Prop :=
  exists inc, ths !! i = Some (Registering c false inc).

Definition stored s c : Prop := devices s !! key_of (c_desc c) = Some c.

Record safe s (ths : list Thread) : Prop := {
  safe_keyed : keyed s;
  safe_ops : Forall no_removal ths;
  safe_held : forall i c loaded inc, ths !! i = Some (Registering c loaded inc) -> stored s c;
  safe_inc : forall c, c ∈ increments s -> stored s c;
  safe_unregistered : forall i c, pending ths i c -> c_desc c ∉ registered (registry s);
  safe_unique : forall i j c, pending ths i c -> pending ths j c -> i = j;
  safe_registered : forall d, d ∈ registered (registry s) -> exists c, stored s c /\ c_desc c = d;
  safe_stored : forall c, stored s c ->
    c_desc c ∈ registered (registry s) \/ exists i, pending ths i c;
}.

Lemma stored_unique s c c' : stored s c -> stored s c' -> c_desc c = c_desc c' -> c = c'.
Proof. unfold stored. intros H1 H2 E. rewrite E in H1. congruence. Qed.

Lemma pending_insert ths i th' j c :
  i < length ths -> pending (<[i := th']> ths) j c <->
  (i = j /\ exists inc, th' = Registering c false inc) \/ (i <> j /\ pending ths j c).
Proof.
  intros Hi. unfold pending. destruct (decide (i = j)) as [<-|Hne].
  - rewrite list_lookup_insert_eq by done. naive_solver.
  - rewrite list_lookup_insert_ne by done. naive_solver.
Qed.

Lemma LoadOrStore_stored ns n s c loaded s' :
  keyed s -> device_names (ns, n) -> LoadOrStore ns n s = (c, loaded, s') ->
  stored s' c /\ forall c', stored s' c' <-> stored s c' \/ loaded = false /\ c' = c.
Proof using Type*.
  intros Hk Hn E. pose proof (LoadOrStore_spec ns n s Hk Hn) as Hl. rewrite E in Hl.
  destruct Hl as (Hc & _ & _ & Hk' & Hget & Hl). unfold stored.
  assert (deviceKey ns n = key_of (c_desc c)) as Hkey by (by rewrite Hc).
  split; [by rewrite <-Hkey|]. intros c'. destruct loaded.
  - rewrite Hl. naive_solver.
  - destruct Hl as [Hnone Hd]. rewrite Hd in *. split.
    + intros [[E' <-]|[_ Hx]]%lookup_insert_Some; auto.
    + intros [Hx|[_ ->]]; [|by rewrite Hkey, lookup_insert_eq].
      rewrite lookup_insert_ne; [done|]. intros E'. congruence.
Qed.

(** A goroutine that starts. *)
Lemma safe_start s ths i op ns n inc c loaded s' :
  safe s ths -> ths !! i = Some (Starting op) -> device_names (ns, n) ->
  LoadOrStore ns n s = (c, loaded, s') ->
  safe s' (<[i := Registering c loaded inc]> ths).
Proof using Type*.
  intros [Hk HF Hheld Hinc Hun Huniq Hreg Hst] Hi Hn E.
  destruct (LoadOrStore_stored _ _ _ _ _ _ Hk Hn E) as [Hnew Hstored].
  pose proof (LoadOrStore_spec ns n s Hk Hn) as Hl. rewrite E in Hl.
  destruct Hl as (Hc & Hr & Hi' & Hk' & _ & Hl).
  pose proof (lookup_lt_Some _ _ _ Hi) as Hlt.
  assert (loaded = false -> forall c', stored s c' -> c_desc c' <> c_desc c) as Hother.
  { intros -> c' Hc' Ed. unfold stored in Hc'. rewrite Ed, Hc in Hc'. destruct Hl as [Hnone _].
    unfold key_of in Hc'. simpl in Hc'. congruence. }
  constructor.
  - done.
  - by apply Forall_insert.
  - intros j c' l' inc' Hj. destruct (decide (i = j)) as [<-|Hne].
    + rewrite list_lookup_insert_eq in Hj by done. by simplify_eq.
    + rewrite list_lookup_insert_ne in Hj by done. apply Hstored. left. by eapply Hheld.
  - intros c' Hc'. rewrite Hi' in Hc'. apply Hstored. left. by apply Hinc.
  - intros j c' [[-> [inc' E']]|[_ Hp]]%pending_insert; [simplify_eq|..|done].
    + rewrite Hr. intros (c2 & Hc2 & Ed)%Hreg. by apply (Hother eq_refl c2).
    + rewrite Hr. by eapply Hun.
  - intros j k c'. rewrite !pending_insert by done.
    intros [[<- [i1 E1]]|[Hij H1]] [[<- [i2 E2]]|[Hik H2]]; simplify_eq; try done.
    + destruct H2 as [inc2 H2]. by destruct (Hother eq_refl c' (Hheld _ _ _ _ H2)).
    + destruct H1 as [inc1 H1]. by destruct (Hother eq_refl c' (Hheld _ _ _ _ H1)).
    + by eapply Huniq.
  - intros d. rewrite Hr. intros (c' & Hc' & <-)%Hreg. exists c'. split; [|done]. apply Hstored.
    by left.
  - intros c' [Hc'|[-> ->]]%Hstored.
    + rewrite Hr. destruct (Hst c' Hc') as [|[j Hj]]; [by left|]. right. exists j.
      apply pending_insert; [done|]. right. split; [|done]. intros <-. destruct Hj as [inc' Hj].
      congruence.
    + right. exists i. apply pending_insert; [done|]. left. eauto.
Qed.

(** A goroutine that registers its counter. *)
Lemma safe_finish s ths i c loaded (inc : bool) :
  safe s ths -> ths !! i = Some (Registering c loaded inc) ->
  exists s', finish_registration c loaded s = Some s' /\
    safe (if inc then Inc c s' else s') (<[i := Finished]> ths).
Proof using Type*.
  intros [Hk HF Hheld Hinc Hun Huniq Hreg Hst] Hi.
  pose proof (lookup_lt_Some _ _ _ Hi) as Hlt. pose proof (Hheld _ _ _ _ Hi) as Hc.
  assert (exists s', finish_registration c loaded s = Some s' /\ devices s' = devices s /\
    increments s' = increments s /\
    forall d, d ∈ registered (registry s') <->
      d ∈ registered (registry s) \/ loaded = false /\ d = c_desc c) as (s' & -> & Hd & Hi' & Hr).
  { unfold finish_registration. destruct loaded; [exists s; naive_solver|].
    assert (pending ths i c) as Hp by (by exists inc).
    pose proof (Hun _ _ Hp) as Hnot. destruct (Hk _ _ Hc) as [_ Hgood].
    pose proof (MustRegister_spec (c_desc c) (registry s) Hgood) as Hm.
    destruct (MustRegister (c_desc c) (registry s)) as [r'|]; [|done]. destruct Hm as [_ Hm].
    eexists. split; [done|]. split_and!; [done..|]. intros d. cbn [registry set_registry].
    rewrite Hm. set_solver. }
  assert (forall j c', pending (<[i := Finished]> ths) j c' <-> i <> j /\ pending ths j c') as Hp.
  { intros j c'. rewrite pending_insert by done. naive_solver. }
  assert (safe s' (<[i := Finished]> ths)) as [].
  { constructor.
    - intros k c'. rewrite Hd. apply Hk.
    - by apply Forall_insert.
    - intros j c' l' inc' Hj. destruct (decide (i = j)) as [<-|Hne].
      + rewrite list_lookup_insert_eq in Hj by done. by simplify_eq.
      + rewrite list_lookup_insert_ne in Hj by done. unfold stored. rewrite Hd. by eapply Hheld.
    - intros c'. rewrite Hi'. unfold stored. rewrite Hd. apply Hinc.
    - intros j c' [Hne Hj]%Hp. rewrite Hr. intros [Hx|[-> Hx]]; [by eapply Hun|].
      destruct Hj as [inc' Hj]. assert (c' = c) as ->
        by (eapply stored_unique; [by eapply Hheld|done|done]).
      apply Hne. eapply Huniq; [by eexists|by eexists].
    - intros j k c' [_ H1]%Hp [_ H2]%Hp. by eapply Huniq.
    - intros d [Hx|[_ ->]]%Hr; [by unfold stored; rewrite Hd; apply Hreg|].
      exists c. unfold stored. by rewrite Hd.
    - intros c' Hc'. unfold stored in Hc'. rewrite Hd in Hc'. rewrite Hr.
      destruct (Hst c' Hc') as [|[j Hj]]; [by left; left|].
      destruct (decide (i = j)) as [<-|Hne]; [|right; exists j; by apply Hp].
      destruct Hj as [inc' Hj]. rewrite Hi in Hj. simplify_eq. left. by right. }
  eexists. split; [done|]. destruct inc; [|by constructor].
  constructor; try done. intros c' [Hx|Hx%list_elem_of_singleton]%elem_of_app;
    [exact (safe_inc0 _ Hx)|]. subst c'.
  unfold stored. change (devices s' !! key_of (c_desc c) = Some c). by rewrite Hd.
Qed.

(** Every heartbeat counted, or still to be counted, for device [d]. *)
Definition counted d s : nat := length (filter (fun c => c_desc c = d) (increments s)).
Definition to_count d (th : Thread) : nat :=
  match th with
  | Starting (Record_ ns n) => if decide ((ns, n) = d) then 1 else 0
  | Registering c _ true => if decide (c_desc c = d) then 1 else 0
  | _ => 0
  end.
Definition heartbeats d s ths : nat := counted d s + sum_list_with (to_count d) ths.

Lemma sum_list_with_insert {A} (f : A -> nat) (l : list A) i x y :
  l !! i = Some x -> sum_list_with f (<[i := y]> l) + f x = sum_list_with f l + f y.
Proof.
  revert i. induction l as [|a l IH]; intros [|i] Hi; simplify_eq/=; [lia|].
  specialize (IH _ Hi). lia.
Qed.

Lemma heartbeats_step d s s' ths i th th' :
  ths !! i = Some th -> counted d s' + to_count d th' = counted d s + to_count d th ->
  heartbeats d s' (<[i := th']> ths) = heartbeats d s ths.
Proof.
  intros Hi E. unfold heartbeats.
  pose proof (sum_list_with_insert (to_count d) ths i th th' Hi). lia.
Qed.

Lemma counted_Inc d c s : counted d (Inc c s) = counted d s + if decide (c_desc c = d) then 1 else 0.
Proof.
  unfold counted, Inc. cbn [increments]. rewrite filter_app, length_app, filter_cons, filter_nil.
  by destruct (decide _).
Qed.

(** What interleavings without a removal preserve. *)
Definition good d n (cfg : Config R) : Prop :=
  match cfg with
  | Running s ths => safe s ths /\ heartbeats d s ths = n
  | Crashed => False
  end.

Lemma good_step d n cfg cfg' : good d n cfg -> step cfg cfg' -> good d n cfg'.
Proof using Type*.
  intros Hg Hstep.
  assert (forall s ths i th, good d n (Running s ths) -> ths !! i = Some th ->
    exists th' s', thread_step th s = Some (th', s') /\ good d n (Running s' (<[i := th']> ths)))
    as Hone.
  { clear dependent cfg cfg'. intros s ths i th [Hs Hn] Hi.
    pose proof (proj1 (Forall_lookup _ _) (safe_ops _ _ Hs) _ _ Hi) as Hop.
    destruct th as [[ns m|ns m|ns m]|c loaded inc|c|]; cbn [no_removal valid_op] in Hop; try done.
    1,2: cbn [thread_step]; pose proof (LoadOrStore_spec ns m s (safe_keyed _ _ Hs) Hop) as Hl;
      destruct (LoadOrStore ns m s) as [[c loaded] s'] eqn:E;
      destruct Hl as (Hc & _ & Hi' & _); eexists _, _; (split; [done|]);
      (split; [by eapply safe_start|]); rewrite <-Hn; eapply heartbeats_step; [exact Hi|];
      unfold counted; rewrite Hi'; cbn [to_count]; by rewrite ?Hc.
    - destruct (safe_finish _ _ _ _ _ _ Hs Hi) as (s' & Hf & Hs'). cbn [thread_step].
      rewrite Hf. eexists _, _. split; [done|]. split; [exact Hs'|]. rewrite <-Hn.
      eapply heartbeats_step; [exact Hi|].
      assert (counted d s' = counted d s) as Hsame.
      { unfold finish_registration in Hf. destruct loaded; [by simplify_eq|].
        by destruct (MustRegister _ _); simplify_eq/=. }
      destruct inc; cbn [to_count]; [rewrite counted_Inc, Hsame|rewrite Hsame]; lia.
    - eexists _, _. split; [done|]. by rewrite list_insert_id. }
  destruct Hstep as [s ths i th th' s' Hi Ht|s ths i th Hi Ht];
    destruct (Hone _ _ _ _ Hg Hi) as (th2 & s2 & Ht2 & Hg2); [by simplify_eq|congruence].
Qed.

Definition no_removal_op (op : Op) : Prop :=
  match op with Remove_ _ _ => False | _ => valid_op op end.

Lemma good_start d ops s :
  in_step s -> (forall c, c ∈ increments s -> stored s c) -> Forall no_removal_op ops ->
  good d (heartbeats d s (Starting <$> ops)) (Running s (Starting <$> ops)).
Proof.
  intros [Hk Hr] Hinc HF. split; [|done].
  assert (forall i c loaded inc, (Starting <$> ops) !! i <> Some (Registering c loaded inc)) as Hno.
  { intros i c loaded inc (op & E & _)%list_lookup_fmap_Some. done. }
  assert (forall i c, ~ pending (Starting <$> ops) i c) as Hnp by (intros i c [inc Hx]; by eapply Hno).
  constructor; try done.
  - apply Forall_fmap. eapply Forall_impl; [exact HF|]. by intros [].
  - intros i c loaded inc Hx. by destruct (Hno i c loaded inc).
  - intros i c Hx. by destruct (Hnp i c).
  - intros i j c Hx. by destruct (Hnp i c).
  - intros d' (c & Hc & <-)%Hr. by exists c.
  - intros c Hc. left. apply Hr. by exists c.
Qed.

Lemma exec_interleaved d n cfg cfg' : good d n cfg -> rtc step cfg cfg' -> good d n cfg'.
Proof using Type*. intros Hg Hr. revert Hg. induction Hr; eauto using good_step. Qed.

Lemma safe_finished s ths : safe s ths -> Forall (eq Finished) ths -> in_step s.
Proof.
  intros [Hk _ _ _ _ _ Hreg Hst] HF. split; [done|]. intros d.
  split; [intros (c & Hc & <-)%Hreg; by exists c|].
  intros (c & Hc & <-). destruct (Hst c) as [|[i [inc Hi]]]; [exact Hc|done|].
  by pose proof (proj1 (Forall_lookup _ _) HF _ _ Hi).
Qed.

Lemma to_count_finished d ths : Forall (eq Finished) ths -> sum_list_with (to_count d) ths = 0.
Proof. induction 1 as [|th ths <- HF IH]; [done|]. by cbn. Qed.

Lemma to_count_start d ops :
  sum_list_with (to_count d) (Starting <$> ops) = length (filter (eq (Record_ d.1 d.2)) ops).
Proof.
  destruct d as [ns n]. cbn [fst snd]. induction ops as [|op ops IH]; [done|].
  rewrite filter_cons, fmap_cons. cbn [sum_list_with]. rewrite IH.
  destruct op; cbn [to_count]; repeat case_decide; simplify_eq; done.
Qed.

(** ** The properties *)

(** C34: the informer's handlers never panic, whatever notifications arrive in
    whatever order (also twice, or a deletion of a device never seen), and the
    counters the registry exports are then exactly those of the devices that
    the notifications leave; a deletion reported without its object counts for
    nothing, so that counter stays. *)
Theorem informer_counts_devices ns (s : State R) :
  in_step s -> Forall proper_names ns ->
  exists s', deliver ns s = Some s' /\ in_step s' /\
    registered (registry s') = foldl noted (registered (registry s)) ns.
Proof using Type*. apply exec_deliver. Qed.

(** C18: however the heartbeats that arrive at the same time interleave, no
    handler panics in [MustRegister], and when they are through every one of
    them has counted once, on the counter that is stored and registered for its
    device. *)
Theorem heartbeats_counted (ops : list Op) (s : State R) cfg :
  in_step s -> (forall c, c ∈ increments s -> stored s c) -> Forall no_removal_op ops ->
  rtc step (Running s (Starting <$> ops)) cfg ->
  exists s' ths, cfg = Running s' ths /\
    (forall c, c ∈ increments s' -> stored s' c) /\
    (Forall (eq Finished) ths ->
      in_step s' /\
      forall d, counted d s' = counted d s +
        length (filter (eq (Record_ d.1 d.2)) ops)).
Proof using Type*.
  intros Hs Hinc HF Hr.
  assert (forall d, good d (heartbeats d s (Starting <$> ops)) cfg) as Hg.
  { intros d. eapply exec_interleaved; [by apply good_start|exact Hr]. }
  destruct cfg as [s' ths|]; [|by destruct (Hg ("", ""))].
  exists s', ths. split; [done|]. destruct (Hg ("", "")) as [Hsafe _].
  split; [apply (safe_inc _ _ Hsafe)|]. intros Hfin. split; [by eapply safe_finished|].
  intros d. destruct (Hg d) as [_ Hd]. unfold heartbeats in Hd.
  by rewrite to_count_start, (to_count_finished d ths Hfin), Nat.add_0_r in Hd.
Qed.
End Lemmas.

(** ** A registry *)

#[export] Instance set_registry_of_descs : Registry (gset Desc) := {
  registered r := r;
  no_collectors := ∅;
  MustRegister d r := if decide (d ∈ r) then None else Some ({[d]} ∪ r);
  Unregister d r := r ∖ {[d]};
}.
#[export] Instance set_registry_laws : RegistryLaws (gset Desc).
Proof.
  split; [done| |done]. intros d r _. cbn [registered MustRegister set_registry_of_descs].
  by destruct (decide _).
Qed.

Definition example_device (name : string) : EdgeDevice :=
  upd_Meta (fun _ => named name "edge") empty_EdgeDevice.

Lemma informer_counts_devices_witness :
  exists s', deliver [Added (IsEdgeDevice (example_device "one")); Added (IsEdgeDevice (example_device "one"));
    Added (IsEdgeDevice (example_device "two")); Deleted (IsEdgeDevice (example_device "one"));
    Deleted IsOther; Deleted (IsEdgeDevice (example_device "three"))] (initial : State (gset Desc)) = Some s' /\
    in_step s' /\ registered (registry s') = {[("edge", "two")]}.
Proof.
  destruct (informer_counts_devices [Added (IsEdgeDevice (example_device "one"));
    Added (IsEdgeDevice (example_device "one"));
    Added (IsEdgeDevice (example_device "two")); Deleted (IsEdgeDevice (example_device "one"));
    Deleted IsOther; Deleted (IsEdgeDevice (example_device "three"))] (initial : State (gset Desc))
    initial_in_step) as (s' & H1 & H2 & H3).
  - refine (bool_decide_unpack _ _); vm_compute; exact I.
  - exists s'. split; [exact H1|]. split; [exact H2|]. rewrite H3.
    refine (bool_decide_unpack _ _); vm_compute; exact I.
Defined.

(** A run that the list of the goroutines' turns gives. *)
Fixpoint schedule (turns : list nat) (s : State (gset Desc)) (ths : list Thread) :
  Config (gset Desc) :=
  match turns with
  | [] => Running s ths
  | i :: turns =>
      match ths !! i with
      | Some th =>
          match thread_step th s with
          | Some (th', s') => schedule turns s' (<[i := th']> ths)
          | None => Crashed
          end
      | None => Running s ths
      end
  end.

Lemma schedule_steps turns : forall s ths, rtc step (Running s ths) (schedule turns s ths).
Proof.
  induction turns as [|i turns IH]; intros s ths; cbn [schedule]; [done|].
  destruct (ths !! i) as [th|] eqn:Hi; [|done].
  destruct (thread_step th s) as [[th' s']|] eqn:Ht.
  - eapply rtc_l; [by eapply step_thread|]. apply IH.
  - eapply rtc_once. by eapply step_panic.
Qed.

(** Two heartbeats of one device: the second finds the counter before the first
    has registered it. *)
Definition two_heartbeats : list Op := [Record_ "edge" "one"; Record_ "edge" "one"].

Lemma heartbeats_counted_witness :
  exists s' ths, schedule [0; 1; 1; 0] initial (Starting <$> two_heartbeats) = Running s' ths /\
    in_step s' /\ counted ("edge", "one") s' = 2.
Proof.
  destruct (heartbeats_counted two_heartbeats (initial : State (gset Desc))
    (schedule [0; 1; 1; 0] initial (Starting <$> two_heartbeats))) as (s' & ths & E & _ & Hfin).
  - apply initial_in_step.
  - intros c Hc. cbn [initial increments] in Hc. by apply elem_of_nil in Hc.
  - repeat constructor; refine (bool_decide_unpack _ _); vm_compute; exact I.
  - apply schedule_steps.
  - exists s', ths. split; [exact E|]. destruct Hfin as [H1 H2].
    + vm_compute in E. injection E as _ <-. repeat constructor.
    + split; [exact H1|]. rewrite H2. vm_compute. reflexivity.
Defined.

(** With a removal between storing and registering a counter the same is not
    true: the first counter is registered after its removal, and the next
    heartbeat of the device panics. The operator and the HTTP server, which
    keep their counters apart, never mix the two. *)
Example removal_races_with_heartbeat :
  rtc step (Running initial (Starting <$> [Record_ "edge" "one"; Remove_ "edge" "one";
                                          Record_ "edge" "one"]))
    (Crashed : Config (gset Desc)).
Proof.
  change Crashed with (schedule [0; 1; 1; 0; 2; 2] initial
    (Starting <$> [Record_ "edge" "one"; Remove_ "edge" "one"; Record_ "edge" "one"])).
  apply schedule_steps.
Qed.
