(* ===== verification/Wireless.v ===== *)
(** * Messages of the end nodes (MQTT)

    The handler of cmd/httpapi/main.go for the topic [device/up]: a message of
    an end node (LoRa or WiFi) is recorded on the edge device it names, in the
    first namespace that has such a device, and a WiFi node's measurements are
    written to the time series store.  The decoder of encoding/json for
    [Message] is a parameter; a log line that ends the process ([log.Fatalf])
    is told apart from a return. *)
From S2P Require Import Prelude GoData GoStrings V1alpha1 Models Env Testbed.
Import v1alpha1.

(** ** Strings *)

(** [unicode.IsSpace]. *)
Definition IsSpace (r : N) : bool :=
  bool_decide (r ∈ [9; 10; 11; 12; 13; 32; 133; 160; 5760; 8232; 8233; 8239; 8287; 12288])%N
  || ((8192 <=? r) && (r <=? 8202))%N.

(** The runes of a string, each with its bytes. *)
Fixpoint runes_of (fuel : nat) (l : list N) : list (N * list N) :=
  match fuel, l with
  | S fuel, _ :: _ =>
      let '(r, w) := decode_first l in (r, take w l) :: runes_of fuel (drop w l)
  | _, _ => []
  end.

Fixpoint drop_spaces (l : list (N * list N)) : list (N * list N) :=
  match l with
  | (r, b) :: l' => if IsSpace r then drop_spaces l' else l
  | [] => []
  end.

(** [strings.TrimSpace]. *)
Definition TrimSpace (s : string) : string :=
  let runes := drop_spaces (runes_of (length (bytes s)) (bytes s)) in
  of_bytes (concat (rev (drop_spaces (rev runes))).*2).

(** [strings.ReplaceAll(s, " ", "_")]. *)
Definition ReplaceSpaces (s : string) : string :=
  of_bytes ((fun b => if (b =? 32)%N then 95%N else b) <$> bytes s).

(** ** The message *)

Record Message := mkMessage {
  FlottaDeviceID : string; EventType : string; TenantID : string; TenantName : string;
  ApplicationID : string; ApplicationName : string; DeviceProfileID : string;
  DeviceProfileName : string; DeviceName : string; DevEUI : string; DevAddr : string;
  Data : gomap measured; Confirmed : bool; Latitude : string; Longitude : string;
  Bandwidth : Z; Frequency : Z; SpreadingFactor : Z; CodeRate : string; DeviceType : string;
  MTime : string; RegionName : string; LocationSource : string; BatteryLevel : string;
  Tags : gomap measured; Measurement : string;
}.

(** [json.Unmarshal(payload, &message)]. *)
Class MessageDecoder := Unmarshal : string -> Message * option error.

(** How the handler ends, when it does not panic. *)
Inductive handled := Returned | Exited.

(** ** A slice of pointers *)

(** The first element under [eui]; a nil element before it panics. *)
Fixpoint find_node (eui : string) (l : list (option WirelessDevices)) : outcome (option nat) :=
  match l with
  | [] => mret None
  | device :: l =>
      device ← deref device;
      if decide (WirelessDeviceInfo_DevEui (WirelessDevices_WirelessDeviceInfo device) = eui)
      then mret (Some 0)
      else
        i ← find_node eui l;
        mret (S <$> i)
  end.

(** [append(s[:index], s[index+1:]...)], or nothing. *)
Definition remove_node (index : option nat) (s : slice (option WirelessDevices)) :
  slice (option WirelessDevices) :=
  match index with
  | Some i => Some (take i (elems s) ++ drop (S i) (elems s))
  | None => s
  end.

Definition status_nodes (d : EdgeDevice) : slice (option WirelessDevices) :=
  EdgeDeviceStatus_WirelessDevices (EdgeDevice_Status d).
Definition spec_nodes (d : EdgeDevice) : slice (option WirelessDevices) :=
  EdgeDeviceSpec_WirelessDevices (EdgeDevice_Spec d).
Definition with_nodes (nodes : slice (option WirelessDevices)) (d : EdgeDevice) : EdgeDevice :=
  upd_Status (set_WirelessDevices nodes) d.

(** The node's old entry goes, its new one comes last. *)
Definition replace_node (eui : string) (node : WirelessDevices) (d : EdgeDevice) :
  outcome EdgeDevice :=
  index ← find_node eui (elems (status_nodes d));
  mret (with_nodes (append (remove_node index (status_nodes d)) (Some node)) d).

(** ** LoRa *)

Definition lora_node (msg : Message) : WirelessDevices :=
  mkWirelessDevices WirelessInterfaceTypeLora
    (mkWirelessDeviceInfo (TenantID msg) (TenantName msg) (ApplicationID msg) (ApplicationName msg)
       (DeviceProfileID msg) (DeviceProfileName msg) (DeviceName msg) (DevEUI msg) (DevAddr msg)
       (mkLocation (Longitude msg) (Latitude msg) "") (mkRegion "" (Bandwidth msg))
       (mkTransmitInfo (Frequency msg) "" (SpreadingFactor msg) (CodeRate msg) false)
       (BatteryLevel msg) None false (MTime msg) None (EventType msg)).

Definition processDeviceLora (msg : Message) (edgeDevice : EdgeDevice) : M unit :=
  edgeDevice ← lift (replace_node (DevEUI msg) (lora_node msg) edgeDevice);
  _ ← (call (UpdateEdgeDeviceStatus edgeDevice) : M (EdgeDevice * option error));
  mret tt.

(** ** WiFi *)

(** The entries that are strings. *)
Definition strings_of (l : list (string * measured)) : list (string * string) :=
  omap (fun '(key, value) => match value with MeasuredString s => Some (key, s) | _ => None end) l.

Definition wifi_node (fields tags : list (string * measured)) : WirelessDevices :=
  mkWirelessDevices WirelessInterfaceTypeWiFi
    (mkWirelessDeviceInfo "" "" "" "" "" "" "" "" "" (mkLocation "" "" "") (mkRegion "" 0)
       (mkTransmitInfo 0 "" 0 "" false) ""
       (append_all None ((fun '(key, value) => mkDataArray key value) <$> strings_of fields))
       false ""
       (append_all None ((fun '(key, value) => mkTagsArray key value) <$> strings_of tags)) "").

(** [fmt.Sprintf("%v", value)]. *)
Definition printed (value : measured) : string :=
  match value with MeasuredString s => s | MeasuredNil => "<nil>" | MeasuredOther s => s end.

(** The fields and the tags of a point. *)
Definition point_fields (l : list (string * measured)) : list (string * measured) :=
  omap (fun '(key, value) =>
    match value with MeasuredNil => None | _ => Some (ReplaceSpaces key, value) end) l.
Definition point_tags (l : list (string * measured)) : list (string * string) :=
  l ≫= (fun '(key, value) =>
    match value with
    | MeasuredNil => []
    | _ => [(ReplaceSpaces key, printed value); ("Network", "WiFi")]
    end).

(** The client decodes the answer of an update into the object it was given,
    and may reuse the nodes its slices point to: what the node [connected] of
    the object [sent] holds afterwards. *)
Class NodeReuse := after_update : EdgeDevice -> EdgeDevice -> WirelessDevices -> WirelessDevices.

Definition processDeviceWiFi `{NodeReuse} (msg : Message) (edgeDevice : EdgeDevice) : M unit :=
  fields ← range_map (Data msg);
  tags ← range_map (Tags msg);
  let connectedDevice := wifi_node fields tags in
  y ← lift (find_node (DevEUI msg) (elems (spec_nodes edgeDevice)));
  let sent :=
    match y with
    | Some _ => edgeDevice
    | None => with_nodes (append (spec_nodes edgeDevice) (Some connectedDevice)) edgeDevice
    end in
  '(edgeDevice, err) ← (call (UpdateEdgeDevice sent) : M (EdgeDevice * option error));
  let connectedDevice :=
    match y with
    | Some _ => connectedDevice
    | None => after_update sent edgeDevice connectedDevice
    end in
  match err with
  | Some _ => mret tt
  | None =>
      edgeDevice ← lift (replace_node (DevEUI msg) connectedDevice edgeDevice);
      '(_, err) ← (call (UpdateEdgeDeviceStatus edgeDevice) : M (EdgeDevice * option error));
      match err with
      | Some _ => mret tt
      | None =>
          timestamp ← (call Now : M Time);
          fields ← range_map (Data msg);
          tags ← range_map (Tags msg);
          call (WritePoint timestamp (point_fields fields) (point_tags tags))
      end
  end.

(** ** The handler *)

Section Handler.
Context `{MessageDecoder} `{NodeReuse}.

Definition processDevice (message : Message) (edgeDevice : EdgeDevice) : M unit :=
  if decide (DeviceType message = "Lora") then processDeviceLora message edgeDevice
  else processDeviceWiFi message edgeDevice.

(** One namespace: the device found in it is dealt with and the search ends. *)
Definition processNamespace (message : Message) (c : bool) (ns : string) : M (ctl unit unit) :=
  (* c.Get on a nil client *)
  if c then
    '(edgeDevice, err) ← (call (GetEdgeDevice ns (FlottaDeviceID message)) :
                            M (EdgeDevice * option error));
    match err with
    | Some _ => mret (Next tt)
    | None =>
        _ ← processDevice message edgeDevice;
        mret (Return tt)
    end
  else Panic.

Definition processMqttData (payload : string) : M handled :=
  match Unmarshal (TrimSpace payload) with
  | (_, Some _) => mret Returned
  | (message, None) =>
      config_err ← (call GetRestConfig : M (option error));
      match config_err with
      (* kubernetes.NewForConfig reads through its nil argument *)
      | Some _ => Panic
      | None =>
          err ← (call NewClientset : M (option error));
          match err with
          | Some _ => mret Exited
          | None =>
              client_err ← (call NewClient : M (option error));
              '(nsList, err) ← (call ListNamespaces : M (list string * option error));
              match err with
              | Some _ => mret Exited
              | None =>
                  _ ← for_range nsList tt
                    (fun _ ns => processNamespace message (bool_decide (client_err = None)) ns);
                  mret Returned
              end
          end
      end
  end.

(** The handler of the MQTT client. *)
Definition f (topic payload : string) : M handled :=
  if decide (topic = "device/up") then processMqttData payload else mret Returned.
End Handler.

(** ** Lemmas *)

Definition node_eui (device : option WirelessDevices) : option string :=
  (fun d => WirelessDeviceInfo_DevEui (WirelessDevices_WirelessDeviceInfo d)) <$> device.

Lemma find_node_total eui l :
  Forall is_Some l -> exists i, find_node eui l = Done i.
Proof.
  induction 1 as [|p l [d ->] _ [i IH]]; [by eexists|]. cbn [find_node].
  unfold mbind, outcome_mbind, deref. destruct (decide _); [by eexists|]. rewrite IH. by eexists.
Qed.

Lemma find_node_sound eui l i :
  find_node eui l = Done i ->
  match i with
  | Some i => exists l1 d l2, l = l1 ++ d :: l2 /\ length l1 = i /\ node_eui d = Some eui /\
      Forall (fun d => is_Some d /\ node_eui d <> Some eui) l1
  | None => Forall (fun d => is_Some d /\ node_eui d <> Some eui) l
  end.
Proof.
  revert i. induction l as [|[d|] l IH]; intros i E; [|cbn [find_node] in E..].
  - injection E as <-. constructor.
  - cbn [deref] in E. unfold mbind, outcome_mbind in E. destruct (decide _) as [Hd|Hd].
    + injection E as <-. exists [], (Some d), l. cbn [node_eui fmap option_fmap option_map].
      by rewrite Hd.
    + destruct (find_node eui l) as [j|] eqn:Ef; [|done]. injection E as <-.
      specialize (IH j eq_refl).
      assert (is_Some (Some d) /\ node_eui (Some d) <> Some eui) as Hhd.
      { split; [done|]. by intros [= ?]. }
      destruct j as [j|]; cbn [fmap option_fmap option_map].
      * destruct IH as (l1 & d' & l2 & -> & <- & Hd' & HF).
        exists (Some d :: l1), d', l2. split; [done|]. split; [done|]. split; [done|].
        by constructor.
      * by constructor.
  - done.
Qed.

Lemma elems_remove_node eui s i :
  find_node eui (elems s) = Done i -> NoDup (node_eui <$> elems s) ->
  elems (remove_node i s) = filter (fun d => node_eui d <> Some eui) (elems s).
Proof.
  intros E Hnd. apply find_node_sound in E. destruct i as [i|].
  - destruct E as (l1 & d & l2 & Hl & <- & Hd & HF). cbn [remove_node elems default from_option id].
    rewrite Hl in Hnd |- *. rewrite take_app_length, drop_app_ge by lia.
    replace (S (length l1) - length l1) with 1 by lia. cbn [drop].
    rewrite fmap_app, fmap_cons in Hnd. apply NoDup_app in Hnd as (_ & _ & Hnd).
    apply NoDup_cons in Hnd as [Hnot _].
    rewrite filter_app, filter_cons_False by (intros Hn; by apply Hn).
    rewrite !filter_all; [rewrite drop_0; done| |].
    + rewrite Forall_forall. intros d2 Hd2 E2. apply Hnot. rewrite Hd, <-E2.
      by apply list_elem_of_fmap_2.
    + eapply Forall_impl; [exact HF|]. by intros ? [_ ?].
  - cbn [remove_node]. symmetry. apply filter_all. eapply Forall_impl; [exact E|].
    by intros ? [_ ?].
Qed.

Lemma replace_node_spec eui node d :
  Forall is_Some (elems (status_nodes d)) -> NoDup (node_eui <$> elems (status_nodes d)) ->
  exists s, replace_node eui node d = Done (with_nodes s d) /\
    elems s = filter (fun n => node_eui n <> Some eui) (elems (status_nodes d)) ++ [Some node].
Proof.
  intros Hsome Hnd. destruct (find_node_total eui _ Hsome) as [i Hi].
  unfold replace_node. rewrite Hi. eexists. split; [done|].
  by rewrite elems_append, (elems_remove_node eui).
Qed.

Section Properties.
Context `{MessageDecoder} `{NodeReuse}.
Implicit Types (t : list Event) (d : EdgeDevice).

Lemma exec_processDeviceLora msg d t o :
  Forall is_Some (elems (status_nodes d)) -> NoDup (node_eui <$> elems (status_nodes d)) ->
  exec (processDeviceLora msg d) t o ->
  exists s answer, t = [Ev (UpdateEdgeDeviceStatus (with_nodes s d)) answer] /\ o = Done tt /\
    elems s = filter (fun n => node_eui n <> Some (DevEUI msg)) (elems (status_nodes d)) ++
              [Some (lora_node msg)].
Proof.
  intros Hsome Hnd He. destruct (replace_node_spec (DevEUI msg) (lora_node msg) d Hsome Hnd)
    as (s & Hr & Hs).
  unfold processDeviceLora in He. rewrite Hr in He. cbn [lift] in He. rewrite bind_ret_l in He.
  exec_call He as (answer & t' & -> & He). apply exec_Ret_inv in He as [-> ->].
  by exists s, answer.
Qed.


(** The read of the device in namespace [b] failed. *)
Definition no_device_in (name b : string) (e : Event) : Prop :=
  exists d err, e = Ev (GetEdgeDevice b name) (d, Some err).

Lemma exec_processNamespace msg ns t o :
  exec (processNamespace msg true ns) t o ->
  (exists e, t = [e] /\ no_device_in (FlottaDeviceID msg) ns e /\ o = Done (Next tt)) \/
  exists d t2 o2,
    t = Ev (GetEdgeDevice ns (FlottaDeviceID msg)) (d, None) :: t2 /\
    exec (processDevice msg d) t2 o2 /\
    o = match o2 with Done _ => Done (Return tt) | Panicked => Panicked end.
Proof.
  intros He. unfold processNamespace in He. exec_call He as ([d err] & t1 & -> & He).
  destruct err as [err|].
  - left. apply exec_Ret_inv in He as [-> ->]. eexists. split; [done|]. split; [|done].
    by exists d, err.
  - right. exists d. apply exec_bind_inv in He as [[He ->]|(u & t2 & t3 & -> & He & Hr)].
    + by exists t1, Panicked.
    + apply exec_Ret_inv in Hr as [-> ->]. exists t2, (Done u). by rewrite app_nil_r.
Qed.

Lemma exec_namespaces msg nsList t o :
  exec (for_range nsList tt (fun _ ns => processNamespace msg true ns)) t o ->
  (o = Done (Next tt) /\ Forall2 (no_device_in (FlottaDeviceID msg)) nsList t) \/
  exists before ns after gets d t2 o2,
    nsList = before ++ ns :: after /\ Forall2 (no_device_in (FlottaDeviceID msg)) before gets /\
    t = gets ++ Ev (GetEdgeDevice ns (FlottaDeviceID msg)) (d, None) :: t2 /\
    exec (processDevice msg d) t2 o2 /\
    o = match o2 with Done _ => Done (Return tt) | Panicked => Panicked end.
Proof.
  revert t o. induction nsList as [|ns nsList IH]; intros t o He.
  - apply exec_Ret_inv in He as [-> ->]. by left.
  - cbn [for_range] in He. apply exec_bind_inv in He as [[He ->]|(c & t1 & t2 & -> & H1 & He)].
    + apply exec_processNamespace in He as [(e & _ & _ & [=])|(d & t2 & o2 & -> & H2 & E)].
      right. exists [], ns, nsList, [], d, t2, o2. split_and!; try done.
    + apply exec_processNamespace in H1 as [(e & -> & Hno & [= ->])|(d & t3 & o2 & -> & H2 & E)].
      * apply IH in He as [[-> HF]|(before & ns' & after & gets & d' & t3 & o2 & -> & HF & -> & H2 & ->)].
        -- left. split; [done|]. by constructor.
        -- right. exists (ns :: before), ns', after, (e :: gets), d', t3, o2.
           split_and!; try done. by constructor.
      * right. destruct o2 as [[]|]; [|done]. injection E as ->.
        apply exec_Ret_inv in He as [-> ->].
        exists [], ns, nsList, [], d, t3, (Done tt). rewrite app_nil_r. split_and!; done.
Qed.

(** ** The properties *)

(** A message of an end node is recorded on one device at most: the one it
    names, in the first namespace of the list that has it (the reads of the
    namespaces before failed, those after are not read); anything else on the
    topic or on another one changes nothing. *)
Theorem message_reaches_first_device topic payload t o :
  exec (f topic payload) t o ->
  writes t = [] \/
  exists message before ns after gets d t2 o2,
    topic = "device/up" /\ Unmarshal (TrimSpace payload) = (message, None) /\
    Forall2 (no_device_in (FlottaDeviceID message)) before gets /\
    t = [Ev GetRestConfig None; Ev NewClientset None; Ev NewClient None;
         (Ev ListNamespaces (before ++ ns :: after, None) : Event)] ++ gets ++
        (Ev (GetEdgeDevice ns (FlottaDeviceID message)) (d, None) : Event) :: t2 /\
    exec (processDevice message d) t2 o2 /\
    o = match o2 with Done _ => Done Returned | Panicked => Panicked end.
Proof using Type*.
  intros He. unfold f in He. destruct (decide _) as [->|]; [|apply exec_Ret_inv in He as [-> ->]; by left].
  unfold processMqttData in He. destruct (Unmarshal (TrimSpace payload)) as [message [e|]] eqn:Eu.
  { apply exec_Ret_inv in He as [-> ->]. by left. }
  exec_call He as (ce & t1 & -> & He).
  destruct ce; [apply exec_Panic_inv in He as [-> ->]; by left|].
  exec_call He as (se & t2 & -> & He).
  destruct se; [apply exec_Ret_inv in He as [-> ->]; by left|].
  exec_call He as (cle & t3 & -> & He). exec_call He as ([nsList le] & t4 & -> & He).
  destruct le; [apply exec_Ret_inv in He as [-> ->]; by left|].
  destruct cle as [cle|].
  { left. rewrite !writes_cons_other by (by intros []). apply writes_none.
    eapply calls_exec; [|exact He]. apply calls_bind; [|done].
    apply calls_for_range. intros _ ns. rewrite bool_decide_false by done. done. }
  rewrite bool_decide_true in He by done.
  assert (forall name l g, Forall2 (no_device_in name) l g -> writes g = []) as Hg.
  { intros name l g HF. apply writes_none.
    induction HF as [|b e l g (d & err & ->) _ IH]; constructor; [by intros []|done]. }
  apply exec_bind_inv in He as [[He ->]|(c & t5 & t6 & -> & He & Hr)];
    (apply exec_namespaces in He as [[E HF]|(before & ns & after & gets & d & t7 & o2 & -> & HF & -> & H2 & E)];
     [try done|right; exists message, before, ns, after, gets, d, t7, o2; split_and!; try done]).
  - by destruct o2.
  - left. apply exec_Ret_inv in Hr as [-> ->]. rewrite app_nil_r.
    rewrite !writes_cons_other by (by intros []). by eapply Hg.
  - apply exec_Ret_inv in Hr as [-> ->]. by rewrite app_nil_r.
  - apply exec_Ret_inv in Hr as [-> ->]. by destruct o2.
Qed.

(** C35: a LoRa message makes one status update, in which the entry under its
    DevEUI is replaced and moved to the end and every other entry is kept in
    order, so that a device never has two entries of one node; nothing else of
    the device changes. *)
Theorem lora_keeps_one_entry msg d t o :
  Forall is_Some (elems (status_nodes d)) -> NoDup (node_eui <$> elems (status_nodes d)) ->
  exec (processDeviceLora msg d) t o ->
  exists s answer, t = [Ev (UpdateEdgeDeviceStatus (with_nodes s d)) answer] /\ o = Done tt /\
    elems s = filter (fun n => node_eui n <> Some (DevEUI msg)) (elems (status_nodes d)) ++
              [Some (lora_node msg)] /\
    NoDup (node_eui <$> elems s).
Proof.
  intros Hsome Hnd He.
  destruct (exec_processDeviceLora _ _ _ _ Hsome Hnd He) as (s & answer & -> & -> & Hs).
  exists s, answer. split_and!; try done. rewrite Hs, fmap_app. apply NoDup_app. split_and!.
  - eapply sublist_NoDup; [exact Hnd|]. apply fmap_sublist, sublist_filter.
  - intros eui (n & -> & [Hn _]%list_elem_of_filter)%list_elem_of_fmap Hin.
    cbn in Hin. by apply list_elem_of_singleton in Hin.
  - apply NoDup_singleton.
Qed.

Definition wifi_point (msg : Message) (fs : list (string * measured)) (ts : list (string * string)) :
  Prop :=
  fs ≡ₚ point_fields (map_to_list (entries (Data msg))) /\
  ts ≡ₚ point_tags (map_to_list (entries (Tags msg))).

(** What the calls made for a WiFi message carry. *)
Definition wifi_call (msg : Message) d (e : Event) : Prop :=
  match ev_req e with
  | UpdateEdgeDevice sent => EdgeDevice_Spec sent = EdgeDevice_Spec d
  | WritePoint _ fs ts => wifi_point msg fs ts
  | _ => True
  end.
Definition is_point (e : Event) : Prop :=
  match ev_req e with WritePoint _ _ _ => True | _ => False end.

Ltac wifi_trace :=
  rewrite ?Forall_cons, ?Forall_nil, ?Exists_cons, ?Exists_nil; unfold wifi_call, is_point;
  cbn [ev_req]; tauto.

(** A WiFi message never adds its node to the specification of the device, and
    its measurements are written once, all of them, and only after both updates
    of the device were accepted. *)
Theorem processDeviceWiFi_spec msg d t o :
  exec (processDeviceWiFi msg d) t o ->
  Forall (wifi_call msg d) t /\
  (Exists is_point t ->
     exists sent sent' d' d'', writes t =
       [(Ev (UpdateEdgeDevice sent) (d', None) : Event);
        Ev (UpdateEdgeDeviceStatus sent') (d'', None)]).
Proof.
  intros He. unfold processDeviceWiFi in He. simpl in He.
  apply exec_Call_inv in He as (s1 & t1 & -> & He).
  apply exec_Call_inv in He as (s2 & t2 & -> & He).
  apply exec_bind_inv in He as [[He ->]|(y & t3 & t4 & -> & Hy & He)];
    [apply exec_lift_inv in He as [-> _]; split;
     wifi_trace|].
  apply exec_lift_inv in Hy as [-> _]. rewrite app_nil_l.
  apply exec_Call_inv in He as ([d1 err] & t5 & -> & He).
  set (sent := match y with Some _ => d | None => _ end) in *.
  assert (EdgeDevice_Spec sent = EdgeDevice_Spec d) as Hsent by (unfold sent; by destruct y).
  destruct err.
  { apply exec_Ret_inv in He as [-> ->]. wifi_trace. }
  apply exec_bind_inv in He as [[He ->]|(sent' & t6 & t7 & -> & Hr & He)];
    [apply exec_lift_inv in He as [-> _]; split;
     wifi_trace|].
  apply exec_lift_inv in Hr as [-> _]. rewrite app_nil_l.
  apply exec_Call_inv in He as ([d2 err] & t8 & -> & He). destruct err.
  { apply exec_Ret_inv in He as [-> ->]. wifi_trace. }
  apply exec_Call_inv in He as (time & t9 & -> & He).
  apply exec_Call_inv in He as (s3 & t10 & -> & He).
  apply exec_Call_inv in He as (s4 & t11 & -> & He).
  apply exec_Call_inv in He as ([] & t12 & -> & He). apply exec_Ret_inv in He as [-> ->]. split.
  - rewrite ?Forall_cons, Forall_nil. cbn. unfold wifi_point, point_fields, point_tags.
    rewrite !range_Permutation. by split_and!.
  - intros _. exists sent, sent', d1, d2. reflexivity.
Qed.
End Properties.

(** ** Examples *)

Section Examples.
Definition lora_message : Message :=
  mkMessage "gateway" "up" "" "" "" "" "" "" "" "eui-1" "" None false "" "" 125 868 7 "" "Lora" "12:00"
    "" "" "" None "".
#[local] Instance example_decoder : MessageDecoder :=
  fun s => (lora_message, if decide (s = "{}") then None else Some (ErrorString "invalid")).
#[local] Instance example_reuse : NodeReuse := fun _ _ node => node.

Definition node_of (eui : string) : option WirelessDevices :=
  Some (lora_node (mkMessage "" "" "" "" "" "" "" "" "" eui "" None false "" "" 0 0 0 "" "" "" "" ""
                     "" None "")).
Definition gateway : EdgeDevice :=
  with_nodes (Some [node_of "eui-1"; node_of "eui-2"])
    (upd_Meta (fun _ => named "gateway" "b") empty_EdgeDevice).
Definition gateway_world : World := set_devices {[("b", "gateway") := gateway]} empty_world.

(** The space around the payload does not matter. *)
Example spaces_trimmed : TrimSpace (" {} " +:+ newline) = "{}".
Proof. vm_compute. reflexivity. Qed.

Lemma message_reaches_first_device_witness :
  let t := run_trace (f "device/up" " {} ") gateway_world in
  let o := run_result (f "device/up" " {} ") gateway_world in
  o = Done Returned /\ length (writes t) = 1 /\
  (writes t = [] \/
  exists message before ns after gets d t2 o2,
    "device/up" = "device/up" /\ Unmarshal (TrimSpace " {} ") = (message, None) /\
    Forall2 (no_device_in (FlottaDeviceID message)) before gets /\
    t = [Ev GetRestConfig None; Ev NewClientset None; Ev NewClient None;
         (Ev ListNamespaces (before ++ ns :: after, None) : Event)] ++ gets ++
        (Ev (GetEdgeDevice ns (FlottaDeviceID message)) (d, None) : Event) :: t2 /\
    exec (processDevice message d) t2 o2 /\
    o = match o2 with Done _ => Done Returned | Panicked => Panicked end).
Proof.
  split; [vm_compute; reflexivity|]. split; [vm_compute; reflexivity|].
  apply (message_reaches_first_device "device/up" " {} "). apply run_result_exec.
Defined.

Lemma lora_keeps_one_entry_witness :
  let t := run_trace (processDeviceLora lora_message gateway) gateway_world in
  exists s answer, t = [Ev (UpdateEdgeDeviceStatus (with_nodes s gateway)) answer] /\
    elems s = [node_of "eui-2"; Some (lora_node lora_message)].
Proof.
  destruct (lora_keeps_one_entry lora_message gateway
    (run_trace (processDeviceLora lora_message gateway) gateway_world) (Done tt))
    as (s & answer & Ht & _ & Hs & _).
  - repeat constructor; by eexists.
  - refine (bool_decide_unpack _ _). vm_compute. exact I.
  - apply run_result_exec_as. vm_compute. reflexivity.
  - exists s, answer. split; [exact Ht|]. rewrite Hs. vm_compute. reflexivity.
Defined.
End Examples.
