(* ===== verification/Webhooks.v ===== *)
(** * Admission webhooks

    api/v1alpha1/edgeworkload_webhook.go and edgedevice_webhook.go: which
    workloads and devices the API server accepts.  A refusal is an error; the
    receiver is not changed. *)
From S2P Require Import Prelude GoData GoStrings V1alpha1 Models Env Testbed ConfigSources.
Import v1alpha1 corev1.

Definition containersMsg (container : Container) (field : string) : string :=
  "containers[" +:+ Container_Name container +:+ "]." +:+ field.
Definition envMsg (container : Container) (envVar : EnvVar) (field : string) : string :=
  "containers[" +:+ Container_Name container +:+ "].env[" +:+ EnvVar_Name envVar +:+
  "].ValueFrom." +:+ field.

Definition path_if (b : bool) (path : string) : list string := if b then [path] else [].
Definition isSome {A} (p : option A) : bool := bool_decide (is_Some p).

(** The part of a variable that is not supported. *)
Definition env_path (container : Container) (envVar : EnvVar) : list string :=
  match EnvVar_ValueFrom envVar with
  | Some from =>
      if isSome (FieldRef from) then [envMsg container envVar "fieldRef"]
      else if isSome (ResourceFieldRef from) then [envMsg container envVar "resourceFieldRef"]
      else []
  | None => []
  end.

Definition container_paths (container : Container) : list string :=
  path_if (isSome (Lifecycle container)) (containersMsg container "lifecycle") ++
  path_if (isSome (LivenessProbe container)) (containersMsg container "livenessProbe") ++
  path_if (isSome (ReadinessProbe container)) (containersMsg container "readinessProbe") ++
  path_if (isSome (StartupProbe container)) (containersMsg container "startupProbe") ++
  path_if (negb (length (elems (VolumeDevices container)) =? 0)%nat)
    (containersMsg container "volumeDevices") ++
  path_if (negb (len (Resources_Limits container) =? 0)%nat)
    (containersMsg container "resources.limits") ++
  path_if (negb (len (Resources_Requests container) =? 0)%nat)
    (containersMsg container "resources.requests") ++
  (elems (Container_Env container) ≫= env_path container).

Definition reused_name (name : string) : error :=
  ErrorString ("name collisions for containers within the same pod spec are not supported." +:+
               newline +:+ "container name: '" +:+ name +:+ "' has been reused").
Definition reserved_port : error :=
  ErrorString "HostPort 9100 is reserved for internal use on the device and cannot be set for user workloads".

(** The loop over the containers: the paths collected, or the error returned
    from inside it. *)
Fixpoint validate_containers (containers : list Container) (containersNames : gset string)
    (notValidPaths : list string) : list string + error :=
  match containers with
  | [] => inl notValidPaths
  | container :: containers =>
      let notValidPaths := notValidPaths ++ container_paths container in
      if decide (Container_Name container ∈ containersNames)
      then inr (reused_name (Container_Name container))
      else if existsb (fun port => HostPort port =? 9100)%Z (elems (Container_Ports container))
      then inr reserved_port
      else validate_containers containers ({[Container_Name container]} ∪ containersNames)
             notValidPaths
  end.

Definition volume_path (volume : Volume) : list string :=
  path_if (negb (isSome (Volume_HostPath volume))) ("volumes[" +:+ Volume_Name volume +:+ "]").

Definition validate (r : EdgeWorkload) : option error :=
  let podSpec := Pod_Spec (EdgeWorkloadSpec_Pod (EdgeWorkload_Spec r)) in
  match validate_containers (allContainers podSpec) ∅ [] with
  | inr err => Some err
  | inl notValidPaths =>
      let notValidPaths := notValidPaths ++ (elems (Volumes podSpec) ≫= volume_path) in
      if decide (notValidPaths = []) then None
      else Some (ErrorString ("the following paths in podSpec are not supported and should be removed: "
                              +:+ Join notValidPaths ","))
  end.

(** [ValidateCreate], [ValidateUpdate] and [ValidateDelete] of a workload. *)
Definition ValidateCreate (r : EdgeWorkload) : option error := validate r.
Definition ValidateUpdate (r old : EdgeWorkload) : option error := validate r.
Definition ValidateDelete (r : EdgeWorkload) : option error := None.

Module EdgeDevice.
Definition validateCreateOrUpdate (d : EdgeDevice) : option error :=
  match EdgeDeviceSpec_Storage (EdgeDevice_Spec d) with
  | Some storage =>
      match Storage_S3 storage with
      | Some s3 =>
          if S3Storage_CreateOBC s3 &&
             (negb (bool_decide (S3Storage_SecretName s3 = "")) ||
              negb (bool_decide (S3Storage_ConfigMapName s3 = "")))
          then Some (ErrorString
            ("spec.storage.s3.createOBC=true is invalid when spec.storage.s3.secretName or " +:+
             "spec.storage.s3.configMapName values are set." +:+ newline +:+
             "Either set spec.storage.s3.createOBC=false or remove the values from " +:+
             "spec.storage.s3.secretName and spec.storage.s3.configMapName"))
          else None
      | None => None
      end
  | None => None
  end.
Definition ValidateCreate (d : EdgeDevice) : option error := validateCreateOrUpdate d.
Definition ValidateUpdate (d old : EdgeDevice) : option error := validateCreateOrUpdate d.
Definition ValidateDelete (d : EdgeDevice) : option error := None.
End EdgeDevice.

(** ** What is accepted, declaratively *)

Definition supported_env (v : EnvVar) : Prop :=
  forall from, EnvVar_ValueFrom v = Some from -> FieldRef from = None /\ ResourceFieldRef from = None.

Definition supported_container (c : Container) : Prop :=
  Lifecycle c = None /\ LivenessProbe c = None /\ ReadinessProbe c = None /\
  StartupProbe c = None /\ elems (VolumeDevices c) = [] /\
  entries (Resources_Limits c) = ∅ /\ entries (Resources_Requests c) = ∅ /\
  Forall supported_env (elems (Container_Env c)).

Definition free_ports (c : Container) : Prop :=
  Forall (fun port => HostPort port <> 9100%Z) (elems (Container_Ports c)).

(** The workload a device can run. *)
Definition acceptable (r : EdgeWorkload) : Prop :=
  let podSpec := Pod_Spec (EdgeWorkloadSpec_Pod (EdgeWorkload_Spec r)) in
  NoDup (Container_Name <$> allContainers podSpec) /\
  Forall free_ports (allContainers podSpec) /\
  Forall supported_container (allContainers podSpec) /\
  Forall (fun v => is_Some (Volume_HostPath v)) (elems (Volumes podSpec)).

(** ** Lemmas *)

Lemma path_if_nil b path : path_if b path = [] <-> b = false.
Proof. by destruct b. Qed.

Lemma isSome_false {A} (p : option A) : isSome p = false <-> p = None.
Proof. unfold isSome. rewrite bool_decide_eq_false. destruct p; naive_solver. Qed.

Lemma bind_nil {A B} (f : A -> list B) l : l ≫= f = [] <-> Forall (fun x => f x = []) l.
Proof.
  induction l as [|x l IH]; [done|]. rewrite bind_cons, Forall_cons, <-IH. apply app_nil.
Qed.

Lemma env_path_nil c v : env_path c v = [] <-> supported_env v.
Proof.
  unfold env_path, supported_env. destruct (EnvVar_ValueFrom v) as [from|]; [|naive_solver].
  destruct (isSome (FieldRef from)) eqn:E1.
  - split; [done|]. intros Hs. destruct (Hs from eq_refl) as [Hf _].
    apply isSome_false in Hf. congruence.
  - apply isSome_false in E1. destruct (isSome (ResourceFieldRef from)) eqn:E2.
    + split; [done|]. intros Hs. destruct (Hs from eq_refl) as [_ Hf].
      apply isSome_false in Hf. congruence.
    + apply isSome_false in E2. naive_solver.
Qed.

Lemma len_zero {V} (m : gomap V) : negb (len m =? 0)%nat = false <-> entries m = ∅.
Proof. unfold len. rewrite negb_false_iff, Nat.eqb_eq. apply map_size_empty_iff. Qed.

Lemma container_paths_nil c : container_paths c = [] <-> supported_container c.
Proof.
  unfold container_paths, supported_container.
  rewrite !app_nil, !path_if_nil, !isSome_false, bind_nil, !len_zero, negb_false_iff, Nat.eqb_eq,
    length_zero_iff_nil.
  by setoid_rewrite env_path_nil.
Qed.

Lemma existsb_port l :
  existsb (fun port => HostPort port =? 9100)%Z l = false <->
  Forall (fun port => HostPort port <> 9100%Z) l.
Proof.
  induction l as [|p l IH]; [done|]. cbn [existsb]. rewrite orb_false_iff, IH, Forall_cons.
  by rewrite Z.eqb_neq.
Qed.

Lemma validate_containers_inl cs : forall names paths paths',
  validate_containers cs names paths = inl paths' <->
  NoDup (Container_Name <$> cs) /\ Forall (fun c => Container_Name c ∉ names) cs /\
  Forall free_ports cs /\ paths' = paths ++ (cs ≫= container_paths).
Proof.
  induction cs as [|c cs IH]; intros names paths paths'; cbn [validate_containers].
  - rewrite app_nil_r. split; [intros [= ->]; split_and!; by try constructor|].
    by intros (_ & _ & _ & ->).
  - rewrite fmap_cons, NoDup_cons, !Forall_cons, bind_cons.
    destruct (decide (Container_Name c ∈ names)) as [Hin|Hin]; [naive_solver|].
    destruct (existsb _ _) eqn:Ep.
    + split; [done|]. intros (_ & _ & [Hf _] & _). apply existsb_port in Hf. congruence.
    + apply existsb_port in Ep. rewrite IH, <-(assoc_L (++)), !Forall_forall. unfold free_ports.
      setoid_rewrite not_elem_of_union. setoid_rewrite not_elem_of_singleton.
      rewrite list_elem_of_fmap. naive_solver.
Qed.

Lemma validate_None r : validate r = None <-> acceptable r.
Proof.
  unfold validate, acceptable.
  set (podSpec := Pod_Spec _). 
  destruct (validate_containers (allContainers podSpec) ∅ []) as [paths|e] eqn:E.
  - apply validate_containers_inl in E as (Hnd & _ & Hports & ->). cbn [app].
    assert (forall v, volume_path v = [] <-> is_Some (Volume_HostPath v)) as Hv.
    { intros v. unfold volume_path, isSome. rewrite path_if_nil, negb_false_iff.
      apply bool_decide_eq_true. }
    destruct (decide _) as [Hn|Hn]; rewrite app_nil, !bind_nil in Hn;
      setoid_rewrite container_paths_nil in Hn; setoid_rewrite Hv in Hn; naive_solver.
  - split; [done|]. intros (Hnd & Hports & _).
    assert (validate_containers (allContainers podSpec) ∅ [] =
            inl ([] ++ (allContainers podSpec ≫= container_paths))) as E2.
    { apply validate_containers_inl. split_and!; try done. apply Forall_forall. set_solver. }
    congruence.
Qed.

(** ** The properties *)

(** C21: the webhook accepts exactly the workloads whose containers (the init
    ones included) have different names, no reserved host port, no probe,
    lifecycle hook, device, resource requirement or reference to a field of the
    pod, and whose volumes are all host paths. *)
Theorem validate_exact r : validate r = None <-> acceptable r.
Proof. apply validate_None. Qed.

(** What the webhook accepts can still break the HTTP server: a workload
    with a container that sets a variable to a plain value passes, and
    collecting its config maps for a device panics, whatever the cluster
    answers. *)
Theorem accepted_workload_panics `{Libs} r :
  acceptable r -> has_plain_env (pod_of r) ->
  ValidateCreate r = None /\
  forall namespace t o, exec (Fetch r namespace) t o -> o = Panicked /\ t = [].
Proof.
  intros Ha Hp. split; [by apply validate_None|]. intros namespace t o.
  by apply Fetch_panics_on_plain_env.
Qed.

(** The rule for the storage of a device. *)
Theorem validateCreateOrUpdate_exact d :
  EdgeDevice.validateCreateOrUpdate d = None <->
  forall storage s3, EdgeDeviceSpec_Storage (EdgeDevice_Spec d) = Some storage ->
    Storage_S3 storage = Some s3 -> S3Storage_CreateOBC s3 = true ->
    S3Storage_SecretName s3 = "" /\ S3Storage_ConfigMapName s3 = "".
Proof.
  unfold EdgeDevice.validateCreateOrUpdate.
  destruct (EdgeDeviceSpec_Storage _) as [storage|]; [|done].
  destruct (Storage_S3 storage) as [s3|] eqn:Es; [|split; [|done]; intros _ st s3 [= <-]; congruence].
  destruct (S3Storage_CreateOBC s3) eqn:Ec; cbn [andb];
    [|split; [|done]; intros _ st s3' [= <-]; congruence].
  destruct (decide (S3Storage_SecretName s3 = "" /\ S3Storage_ConfigMapName s3 = "")) as [[E1 E2]|Hn].
  - rewrite E1, E2. split; [|done]. intros _ st s3' [= <-]. rewrite Es. by intros [= <-].
  - rewrite <-negb_andb, <-bool_decide_and, bool_decide_false by done. split; [done|].
    intros Hs. destruct Hn. by eapply Hs.
Qed.

(** ** Examples *)

Definition plain_workload : EdgeWorkload := workload_with plain_pod.

Lemma accepted_workload_panics_witness :
  acceptable plain_workload /\ ValidateCreate plain_workload = None /\
  run_result (@Fetch trivial_libs plain_workload "ns") config_world = Panicked.
Proof.
  assert (acceptable plain_workload) as Ha.
  { apply validate_None. vm_compute. reflexivity. }
  destruct (@accepted_workload_panics trivial_libs plain_workload Ha) as [H1 H2].
  - do 2 eexists. split; [left|]. split; [left|]. reflexivity.
  - split; [exact Ha|]. split; [exact H1|].
    exact (proj1 (H2 "ns" _ _ (run_result_exec _ config_world))).
Defined.

(** A probe of one container and the reserved port of another: the error that
    is returned is that of the port. *)
Example reserved_port_first :
  let c name port probe := mkContainer name (Some [mkContainerPort port 80]) None None None None None
                             None probe None None "" in
  validate (workload_with (mkPodSpec None None (Some [c "a" 80%Z (Some "probe"); c "b" 9100%Z None]) ""))
  = Some reserved_port.
Proof. vm_compute. reflexivity. Qed.
