(* ===== verification/Watchers.v ===== *)
(** * The watch on the configuration of the operator

    internal/operator/watchers/configmap_watcher.go: the operator restarts when
    the value of a field of its config map changes. *)
From S2P Require Import Prelude GoData GoStrings V1alpha1 Models Env.
Import v1alpha1.

(** [watch.EventType]. *)
Inductive EventType := Added | Modified | Deleted | OtherType.

(** [event.Object] is the config map, or something else (the status of a failed
    watch). *)
Record WatchEvent := mkWatchEvent {
  WatchEvent_Type : EventType; WatchEvent_Object : option corev1.ConfigMap }.

(** The value the event gives to the field, when it is one the code looks at. *)
Definition updatedValue (dataField : string) (event : WatchEvent) : option string :=
  match WatchEvent_Type event with
  | Added | Modified =>
      updatedMap ← WatchEvent_Object event;
      map_get (corev1.ConfigMap_Data updatedMap) dataField
  | _ => None
  end.

(** The events up to the closing of the channel; [true] when [exitFunc] has
    been called, which ends the process. *)
Fixpoint checkConfigMapChanges (events : list WatchEvent) (dataField dataValue : string) : bool :=
  match events with
  | [] => false
  | event :: events =>
      match updatedValue dataField event with
      | Some v =>
          if decide (v <> dataValue) then true
          else checkConfigMapChanges events dataField dataValue
      | None => checkConfigMapChanges events dataField dataValue
      end
  end.

(** [WatchForChanges]: [new_watcher] is the error of [NewRetryWatcher], a
    library; [events] is what the watch brings.  [true] when the process ends. *)
Definition WatchForChanges (new_watcher : option error) (events : list WatchEvent)
    (dataField dataValue : string) : bool :=
  match new_watcher with
  | Some _ => true
  | None => checkConfigMapChanges events dataField dataValue
  end.

(** The operator restarts exactly when some event changes the field; that the
    field or the whole config map is removed goes unnoticed. *)
Theorem checkConfigMapChanges_restarts events dataField dataValue :
  checkConfigMapChanges events dataField dataValue = true <->
  exists event v, event ∈ events /\ updatedValue dataField event = Some v /\ v <> dataValue.
Proof.
  induction events as [|event events IH]; cbn [checkConfigMapChanges].
  - split; [done|]. by intros (? & ? & ?%elem_of_nil & _).
  - setoid_rewrite elem_of_cons.
    destruct (updatedValue dataField event) as [v|] eqn:E; [destruct (decide (v <> dataValue))|];
      try (rewrite IH); naive_solver.
Qed.

Lemma removal_unnoticed dataField object :
  updatedValue dataField (mkWatchEvent Deleted object) = None.
Proof. done. Qed.
