(* ===== verification/Manager.v ===== *)
(** * The start of the manager

    src/cmd/manager/main.go: what the manager checks before it starts, what it
    sets up, in which order, and which reconcilers, webhooks and watches are
    then at work. *)
From S2P Require Import Prelude GoData GoStrings V1alpha1 Models Env Testbed Labels Utils.
From S2P Require Import Controller Reconcilers Wireless Watchers.
Import v1alpha1.

Definition defaultOperatorNamespace : string := "flotta".
Definition defaultConfigMapName : string := "flotta-manager-config".
Definition logLevelLabel : string := "LOG_LEVEL".

(** The calls of libraries that may fail. *)
Inductive library_call :=
  | UnmarshalText (level : string)
  | GetConfig
  | NewManager (metricsAddr probeAddr : string) (port : Z) (leaderElection : bool)
  | IndexField (kind key : string)
  | SetupWithManager (r : reconciler) (maxConcurrentReconciles : Z)
  | SetupWebhookWithManager (kind : string)
  | AddHealthzCheck (name : string)
  | AddReadyzCheck (name : string)
  | GetInformer (kind : string)
  | NewForConfig
  | ManagerStart.
#[global] Instance library_call_eq_dec : EqDecision library_call.
Proof. solve_decision. Defined.

(** [os.Stat]. *)
Inductive file_status := FileExists | FileMissing | FileUnreadable.

Record Platform := mkPlatform {
  envconfig_Process : ManagerConfig + error;
  os_Stat : string -> file_status;
  os_ReadFile : string -> string + error;
  library : library_call -> option error;
}.

(** A manager: the namespace and the configuration it is started with, and what
    the calls of its start have left on it.  That is the level it logs at, the
    addresses, port and election it was made with, the indexes of its cache,
    its controllers with the number of reconciliations each may run at a time,
    its webhooks and checks, the kinds whose changes are counted by the
    handler of Metrics.v, and the config map, field and value it watches. *)
Record Manager := mkManager {
  manager_namespace : string;
  manager_configuration : ManagerConfig;
  manager_level : option string;
  manager_options : option (string * string * Z * bool);
  manager_indexes : list (string * string);
  manager_controllers : list (reconciler * Z);
  manager_webhooks : list string;
  manager_healthz : list string;
  manager_readyz : list string;
  manager_handlers : list string;
  manager_watch : option (string * string * string * string);
}.

Definition new_manager (ns : string) (config : ManagerConfig) : Manager :=
  mkManager ns config None None [] [] [] [] [] [] None.

(** What a call that succeeds leaves on the manager. *)
Definition succeeds (c : library_call) (m : Manager) : Manager :=
  let '(mkManager ns config level options indexes controllers webhooks healthz readyz handlers w) := m in
  match c with
  | UnmarshalText l =>
      mkManager ns config (Some l) options indexes controllers webhooks healthz readyz handlers w
  | NewManager metricsAddr probeAddr port election =>
      mkManager ns config level (Some (metricsAddr, probeAddr, port, election)) indexes controllers
        webhooks healthz readyz handlers w
  | IndexField kind key =>
      mkManager ns config level options (indexes ++ [(kind, key)]) controllers webhooks healthz readyz
        handlers w
  | SetupWithManager r n =>
      mkManager ns config level options indexes (controllers ++ [(r, n)]) webhooks healthz readyz
        handlers w
  | SetupWebhookWithManager kind =>
      mkManager ns config level options indexes controllers (webhooks ++ [kind]) healthz readyz
        handlers w
  | AddHealthzCheck name =>
      mkManager ns config level options indexes controllers webhooks (healthz ++ [name]) readyz
        handlers w
  | AddReadyzCheck name =>
      mkManager ns config level options indexes controllers webhooks healthz (readyz ++ [name])
        handlers w
  | GetConfig | GetInformer _ | NewForConfig | ManagerStart => m
  end.

(** [informer.AddEventHandler], which cannot fail, on the informer of a kind. *)
Definition AddEventHandler (kind : string) (m : Manager) : Manager :=
  let '(mkManager ns config level options indexes controllers webhooks healthz readyz handlers w) := m in
  mkManager ns config level options indexes controllers webhooks healthz readyz (handlers ++ [kind]) w.

(** [go watchers.WatchForChanges]. *)
Definition start_watch (w : option (string * string * string * string)) (m : Manager) : Manager :=
  let '(mkManager ns config level options indexes controllers webhooks healthz readyz handlers _) := m in
  mkManager ns config level options indexes controllers webhooks healthz readyz handlers w.

Section Start.
Context (platform : Platform).

Definition isInCluster : bool :=
  match os_Stat platform "/var/run/secrets/kubernetes.io/serviceaccount" with
  | FileMissing => false
  | FileExists | FileUnreadable => true
  end.

Definition getOperatorNamespace : string + error :=
  if negb isInCluster then inl defaultOperatorNamespace
  else
    match os_ReadFile platform "/var/run/secrets/kubernetes.io/serviceaccount/namespace" with
    | inr err => inr err
    | inl nsBytes => inl (TrimSpace nsBytes)
    end.

(** The calls one after the other on the manager; the process exits when one
    fails: [None] is [os.Exit(1)]. *)
Fixpoint all_or_exit (cs : list library_call) (m : Manager) : option Manager :=
  match cs with
  | [] => Some m
  | c :: cs =>
      match library platform c with
      | Some _ => None
      | None => all_or_exit cs (succeeds c m)
      end
  end.

Definition addIndexersToCache : list library_call :=
  [IndexField "EdgeDevice" DeviceByWorkloadIndexKey; IndexField "EdgeWorkload" WorkloadByDeviceIndexKey].

(** The controllers, in the order they are set up. *)
Definition controllers : list reconciler :=
  [EdgeDeviceSignedRequestReconciler; EdgeDeviceReconciler; EdgeDeviceLabelsReconciler;
   EdgeWorkloadReconciler; EdgeConfigReconciler].

(** The library calls up to the informer, in order. *)
Definition set_up (config : ManagerConfig) : list library_call :=
  [UnmarshalText (LogLevel config); GetConfig;
   NewManager (MetricsAddr config) (ProbeAddr config) (WebhookPort config)
     (EnableLeaderElection config)]
  ++ addIndexersToCache
  ++ map (fun r => SetupWithManager r (to_int64 (MaxConcurrentReconciles config))) controllers
  ++ (if EnableWebhooks config then [SetupWebhookWithManager "EdgeWorkload"] else [])
  ++ [AddHealthzCheck "healthz"; AddReadyzCheck "readyz"; GetInformer "EdgeDevice"].

(** The watch of the operator's config map, inside a cluster. *)
Definition watch (operatorNamespace : string) : M (option (option (string * string * string * string))) :=
  if isInCluster then
    match library platform NewForConfig with
    | Some _ => mret None
    | None =>
        '(currentConfigMap, err) ← (call (GetConfigMap operatorNamespace defaultConfigMapName) : M _);
        match err with
        | Some _ => mret None
        | None => mret (Some (Some (operatorNamespace, defaultConfigMapName, logLevelLabel,
                    default "" (map_get (corev1.ConfigMap_Data currentConfigMap) logLevelLabel))))
        end
    end
  else mret (Some None).

(** [init] and [main], up to the moment the manager runs; [None] when the
    process has exited. *)
Definition main : M (option Manager) :=
  match getOperatorNamespace with
  | inr _ => mret None
  | inl operatorNamespace =>
      match envconfig_Process platform with
      | inr _ => mret None
      | inl config =>
          if decide (EdgeWorkloadConcurrency config = 0)%Z then mret None
          else
            match all_or_exit (set_up config) (new_manager operatorNamespace config) with
            | None => mret None
            | Some mgr =>
                let mgr := AddEventHandler "EdgeDevice" mgr in
                watched ← watch operatorNamespace;
                match watched with
                | None => mret None
                | Some w => mret (all_or_exit [ManagerStart] (start_watch w mgr))
                end
            end
      end
  end.
End Start.

(** ** The namespace *)

(** The manager runs in a cluster unless there is no service account. *)
Definition in_cluster (platform : Platform) : Prop :=
  os_Stat platform "/var/run/secrets/kubernetes.io/serviceaccount" <> FileMissing.

(** [t] is the text [s] without the white space at its ends: the runes of [s]
    are white ones, those of [t], which neither start nor end with a white
    one, and white ones. *)
Definition trimmed (s t : string) : Prop :=
  exists before kept after,
    runes_of (length (bytes s)) (bytes s) = before ++ kept ++ after /\
    s = of_bytes (concat (before ++ kept ++ after).*2) /\ t = of_bytes (concat kept.*2) /\
    Forall (fun r => IsSpace r.1 = true) (before ++ after) /\
    (forall r, head kept = Some r \/ last kept = Some r -> IsSpace r.1 = false).

(** The namespace the manager runs in. *)
Definition runs_in (platform : Platform) (ns : string) : Prop :=
  (~ in_cluster platform /\ ns = "flotta") \/
  (in_cluster platform /\ exists file,
    os_ReadFile platform "/var/run/secrets/kubernetes.io/serviceaccount/namespace" = inl file /\
    trimmed file ns).

Lemma decode_first_width l : (1 <= (decode_first l).2)%nat.
Proof. unfold decode_first. repeat case_match; cbn [snd]; lia. Qed.

Lemma runes_of_bytes fuel l : length l <= fuel -> concat (runes_of fuel l).*2 = l.
Proof.
  revert l. induction fuel as [|fuel IH]; intros [|b l] Hl; try done; [cbn in Hl; lia|].
  cbn [runes_of]. pose proof (decode_first_width (b :: l)) as Hw.
  destruct (decode_first (b :: l)) as [r w]. cbn [snd] in Hw. rewrite fmap_cons. cbn [concat snd].
  rewrite IH; [apply take_drop|]. rewrite length_drop. cbn [length] in *. lia.
Qed.

Lemma drop_spaces_split l :
  exists before, l = before ++ drop_spaces l /\ Forall (fun r => IsSpace r.1 = true) before /\
    (forall r, head (drop_spaces l) = Some r -> IsSpace r.1 = false).
Proof.
  induction l as [|[r b] l (before & Hl & Hs & Hh)]; [by exists []|]. cbn [drop_spaces].
  destruct (IsSpace r) eqn:E.
  - exists ((r, b) :: before). split; [by rewrite Hl at 1|]. split; [by constructor|done].
  - exists []. split_and!; [done..|]. intros ? [= <-]. exact E.
Qed.

Lemma TrimSpace_trimmed s : trimmed s (TrimSpace s).
Proof.
  unfold TrimSpace, trimmed. set (runes := runes_of _ _).
  destruct (drop_spaces_split runes) as (before & Hb & Hbs & Hbh).
  destruct (drop_spaces_split (rev (drop_spaces runes))) as (after & Ha & Has & Hah).
  set (middle := drop_spaces runes) in *. set (kept := rev (drop_spaces (rev middle))).
  assert (middle = kept ++ rev after) as Hk.
  { rewrite <-(rev_involutive middle), Ha at 1. by rewrite rev_app_distr. }
  exists before, kept, (rev after). rewrite <-Hk, <-Hb. split_and!; [done| |done| |].
  - unfold runes. by rewrite runes_of_bytes, of_bytes_bytes.
  - apply Forall_app. split; [done|]. by apply Forall_rev.
  - intros r [Hr|Hr].
    + apply Hbh. rewrite Hk. by destruct kept; [|injection Hr as <-].
    + apply Hah. unfold kept in Hr. rewrite rev_alt in Hr. change (last (reverse (drop_spaces (rev middle))) = Some r) in Hr. by rewrite last_reverse in Hr.
Qed.

Lemma isInCluster_spec platform : isInCluster platform = true <-> in_cluster platform.
Proof. unfold isInCluster, in_cluster. by destruct (os_Stat _ _). Qed.

Lemma getOperatorNamespace_spec platform :
  match getOperatorNamespace platform with
  | inl ns => runs_in platform ns
  | inr err => in_cluster platform /\
      os_ReadFile platform "/var/run/secrets/kubernetes.io/serviceaccount/namespace" = inr err
  end.
Proof.
  unfold getOperatorNamespace, runs_in. pose proof (isInCluster_spec platform) as Hc.
  destruct (isInCluster platform); cbn [negb].
  - destruct (os_ReadFile _ _) as [file|err]; [|by split; [apply Hc|]].
    right. split; [by apply Hc|]. exists file. split; [done|apply TrimSpace_trimmed].
  - left. split; [|done]. by intros ?%Hc.
Qed.

(** ** The calls *)

(** The calls of libraries the manager cannot do without. *)
Inductive needs (platform : Platform) (config : ManagerConfig) : library_call -> Prop :=
  | needs_level : needs platform config (UnmarshalText (LogLevel config))
  | needs_rest_config : needs platform config GetConfig
  | needs_manager :
      needs platform config (NewManager (MetricsAddr config) (ProbeAddr config) (WebhookPort config)
        (EnableLeaderElection config))
  | needs_device_index : needs platform config (IndexField "EdgeDevice" DeviceByWorkloadIndexKey)
  | needs_workload_index : needs platform config (IndexField "EdgeWorkload" WorkloadByDeviceIndexKey)
  | needs_controller r :
      r <> PlaybookExecutionReconciler ->
      needs platform config (SetupWithManager r (to_int64 (MaxConcurrentReconciles config)))
  | needs_webhook :
      EnableWebhooks config = true -> needs platform config (SetupWebhookWithManager "EdgeWorkload")
  | needs_health_check : needs platform config (AddHealthzCheck "healthz")
  | needs_ready_check : needs platform config (AddReadyzCheck "readyz")
  | needs_informer : needs platform config (GetInformer "EdgeDevice")
  | needs_client : in_cluster platform -> needs platform config NewForConfig
  | needs_start : needs platform config ManagerStart.

(** What the manager is once it runs. *)
Record at_work (config : ManagerConfig) (m : Manager) : Prop := {
  work_level : manager_level m = Some (LogLevel config);
  work_options : manager_options m =
    Some (MetricsAddr config, ProbeAddr config, WebhookPort config, EnableLeaderElection config);
  work_indexes : forall kind key, (kind, key) ∈ manager_indexes m <->
    (kind = "EdgeDevice" /\ key = DeviceByWorkloadIndexKey) \/
    (kind = "EdgeWorkload" /\ key = WorkloadByDeviceIndexKey);
  work_controllers : forall r n, (r, n) ∈ manager_controllers m <->
    r <> PlaybookExecutionReconciler /\ n = to_int64 (MaxConcurrentReconciles config);
  work_once : NoDup (manager_controllers m).*1;
  work_webhooks : forall kind, kind ∈ manager_webhooks m <->
    kind = "EdgeWorkload" /\ EnableWebhooks config = true;
  work_healthz : manager_healthz m = ["healthz"];
  work_readyz : manager_readyz m = ["readyz"];
  work_handlers : manager_handlers m = ["EdgeDevice"];
}.

Lemma all_or_exit_spec platform cs m :
  match all_or_exit platform cs m with
  | Some m' => Forall (fun c => library platform c = None) cs /\
      m' = foldl (fun m c => succeeds c m) m cs
  | None => Exists (fun c => is_Some (library platform c)) cs
  end.
Proof.
  revert m. induction cs as [|c cs IH]; intros m; cbn [all_or_exit foldl]; [by split|].
  destruct (library platform c) as [e|] eqn:E; [left; by exists e|].
  specialize (IH (succeeds c m)). destruct (all_or_exit platform cs _) as [m'|]; [|by right].
  destruct IH as [Hcs ->]. split; [by constructor|done].
Qed.

(** The calls before the clientset are those needed. *)
Lemma set_up_needs platform config c :
  c ∈ set_up config ++ [ManagerStart] <-> needs platform config c /\ c <> NewForConfig.
Proof.
  split.
  - unfold set_up, addIndexersToCache, controllers. rewrite !elem_of_app.
    destruct (EnableWebhooks config) eqn:Ew; cbn [map]; intros Hc; repeat setoid_rewrite elem_of_cons in Hc;
      setoid_rewrite elem_of_nil in Hc; naive_solver (constructor; done).
  - intros [Hn Hc]. unfold set_up, addIndexersToCache, controllers.
    destruct Hn as [| | | | |r Hr|Hw| | | |Hin|]; try done; try (rewrite Hw); try (destruct r; [..|done]);
      set_solver.
Qed.

Lemma set_up_at_work config ns w :
  let m := foldl (fun m c => succeeds c m) (new_manager ns config) (set_up config) in
  let m' := start_watch w (AddEventHandler "EdgeDevice" m) in
  manager_namespace m' = ns /\ manager_configuration m' = config /\ manager_watch m' = w /\
  at_work config m'.
Proof.
  unfold set_up. destruct (EnableWebhooks config) eqn:Ew; (split_and!; [done..|]);
    (constructor; [done|done|..]); try done; cbn.
  all: try (intros kind key; set_solver).
  all: try (intros r n; rewrite !elem_of_cons, elem_of_nil; destruct r; naive_solver).
  all: try (apply (bool_decide_unpack _); vm_compute; exact I).
  all: intros kind; rewrite Ew; set_solver.
Qed.

(** The config map of the operator cannot be read. *)
Definition watch_fails (platform : Platform) (ns : string) (t : list Event) : Prop :=
  in_cluster platform /\ exists cm e, Ev (GetConfigMap ns "flotta-manager-config") (cm, Some e) ∈ t.

(** What is watched: nothing outside a cluster. *)
Definition watches (platform : Platform) (ns : string) (t : list Event)
    (w : option (string * string * string * string)) : Prop :=
  match w with
  | None => ~ in_cluster platform
  | Some w => in_cluster platform /\
      exists cm, Ev (GetConfigMap ns "flotta-manager-config") (cm, None) ∈ t /\
        w = (ns, "flotta-manager-config", "LOG_LEVEL",
             default "" (map_get (corev1.ConfigMap_Data cm) "LOG_LEVEL"))
  end.

Lemma exec_watch platform ns t o :
  exec (watch platform ns) t o ->
  (o = Done None /\
    (watch_fails platform ns t \/ (in_cluster platform /\ is_Some (library platform NewForConfig)))) \/
  exists w, o = Done (Some w) /\ watches platform ns t w /\
    (in_cluster platform -> library platform NewForConfig = None).
Proof.
  intros He. unfold watch in He. pose proof (isInCluster_spec platform) as Hc.
  destruct (isInCluster platform).
  2:{ apply exec_Ret_inv in He as [-> ->]. right. exists None. split; [done|].
      assert (~ in_cluster platform) as Hn by (by intros ?%Hc). by split. }
  assert (in_cluster platform) as Hin by (by apply Hc).
  destruct (library platform NewForConfig) as [e|] eqn:En.
  { apply exec_Ret_inv in He as [-> ->]. left. split; [done|]. right. split; [done|by exists e]. }
  exec_call He as ([cm [e|]] & t1 & -> & He); apply exec_Ret_inv in He as [-> ->].
  - left. split; [done|]. left. split; [done|]. exists cm, e. left.
  - right. eexists (Some _). split; [done|]. split; [|done]. split; [done|].
    exists cm. split; [left|done].
Qed.

(** ** Properties *)

(** C23: the manager runs only when everything it needs is there: the namespace
    it runs in, which is "flotta" outside a cluster and in one what the file
    of the service account says, without the white space around it; a
    configuration whose concurrency for workloads is not zero; every library
    call it needs, with that of the webhook only when the configuration asks
    for it; and, inside a cluster, its config map.  It then has the two
    indexes of its cache, exactly the five controllers of requests, devices,
    labels, workloads and configurations, each once, never that of playbook
    executions; it checks the admission of workloads exactly when the
    configuration asks for it, answers both probes and counts the devices; and
    in a cluster, and only there, it watches the level it read from the config
    map.  In all other cases the process exits, for one of these reasons, and
    it never panics. *)
Theorem main_spec platform t o :
  exec (main platform) t o ->
  exists res, o = Done res /\
  match res with
  | Some m =>
      let config := manager_configuration m in
      envconfig_Process platform = inl config /\
      runs_in platform (manager_namespace m) /\
      EdgeWorkloadConcurrency config <> 0%Z /\
      (forall c, needs platform config c -> library platform c = None) /\
      at_work config m /\
      watches platform (manager_namespace m) t (manager_watch m)
  | None =>
      (in_cluster platform /\ exists e,
        os_ReadFile platform "/var/run/secrets/kubernetes.io/serviceaccount/namespace" = inr e) \/
      (exists e, envconfig_Process platform = inr e) \/
      exists config, envconfig_Process platform = inl config /\
        (EdgeWorkloadConcurrency config = 0%Z \/
         (exists c, needs platform config c /\ is_Some (library platform c)) \/
         exists ns, runs_in platform ns /\ watch_fails platform ns t)
  end.
Proof.
  intros He. unfold main in He. pose proof (getOperatorNamespace_spec platform) as Hns.
  destruct (getOperatorNamespace platform) as [ns|e].
  2:{ apply exec_Ret_inv in He as [-> ->]. exists None. split; [done|left].
      destruct Hns as [? ?]. by split; [|exists e]. }
  destruct (envconfig_Process platform) as [config|e] eqn:Ec.
  2:{ apply exec_Ret_inv in He as [-> ->]. exists None. split; [done|right; left; by exists e]. }
  assert (forall c, c ∈ set_up config ++ [ManagerStart] -> is_Some (library platform c) ->
    exists c, needs platform config c /\ is_Some (library platform c)) as Hneeded
    by (intros c [Hc _]%(set_up_needs platform) Hs; by exists c).
  case_decide as Hz; [apply exec_Ret_inv in He as [-> ->]; exists None; eauto 10|].
  pose proof (all_or_exit_spec platform (set_up config) (new_manager ns config)) as Hset.
  destruct (all_or_exit platform (set_up config) _) as [mgr|].
  2:{ apply exec_Ret_inv in He as [-> ->]. exists None. split; [done|]. right; right.
      exists config. split; [done|]. right; left.
      apply Exists_exists in Hset as (c & Hc & ?). apply (Hneeded c); [set_solver|done]. }
  destruct Hset as [Hset ->]. rewrite Forall_forall in Hset. cbv zeta in He.
  apply exec_bind_inv in He as [[Hw ->]|(w & t1 & t2 & -> & Hw & He)];
    [by apply exec_watch in Hw as [[? _]|(? & ? & _)]|].
  apply exec_watch in Hw as [[[= ->] Hf]|(w' & [= ->] & Hw & Hclient)].
  { apply exec_Ret_inv in He as [-> ->]. rewrite app_nil_r. exists None. split; [done|].
    right; right. exists config. split; [done|right]. destruct Hf as [Hf|[Hin Hf]]; [eauto|].
    left. exists NewForConfig. by split; [constructor|]. }
  apply exec_Ret_inv in He as [-> ->]. rewrite app_nil_r. cbn [all_or_exit].
  destruct (library platform ManagerStart) as [e|] eqn:Es.
  { exists None. split; [done|]. right; right. exists config. split; [done|]. right; left.
    exists ManagerStart. split; [constructor|by exists e]. }
  set (m := succeeds ManagerStart _). exists (Some m). split; [done|]. cbn zeta beta iota.
  assert (m = start_watch w' (AddEventHandler "EdgeDevice"
    (foldl (fun m c => succeeds c m) (new_manager ns config) (set_up config)))) as ->
    by (unfold m, succeeds; by destruct (start_watch _ _)).
  destruct (set_up_at_work config ns w') as (-> & -> & -> & Hwork). split_and!; try done.
  intros c Hc. destruct (decide (c = NewForConfig)) as [->|Hne].
  - apply Hclient. by inversion Hc.
  - assert (c ∈ set_up config ++ [ManagerStart]) as [Hin| ->%list_elem_of_singleton]%elem_of_app
      by (by apply (set_up_needs platform)); [by apply Hset|done].
Qed.

(** In a cluster the manager restarts exactly when its config map is changed to a
    log level other than the one it was started with. *)
Theorem restarts_on_log_level platform t m ns name field value events :
  exec (main platform) t (Done (Some m)) -> manager_watch m = Some (ns, name, field, value) ->
  exists cm, Ev (GetConfigMap ns name) (cm, None) ∈ t /\
  (WatchForChanges None events field value = true <->
   exists event level, event ∈ events /\ updatedValue "LOG_LEVEL" event = Some level /\
     level <> default "" (map_get (corev1.ConfigMap_Data cm) "LOG_LEVEL")).
Proof.
  intros He Hm. unfold main in He.
  destruct (getOperatorNamespace platform) as [ns'|]; [|by apply exec_Ret_inv in He as [_ [=]]].
  destruct (envconfig_Process platform) as [config|]; [|by apply exec_Ret_inv in He as [_ [=]]].
  case_decide; [by apply exec_Ret_inv in He as [_ [=]]|].
  destruct (all_or_exit _ _ _) as [mgr|]; [|by apply exec_Ret_inv in He as [_ [=]]].
  apply exec_bind_inv in He as [[_ ?]|(w & t1 & t2 & -> & Hw & He)]; [done|].
  apply exec_watch in Hw as [[[= ->] _]|(w' & [= ->] & Hw)]; [by apply exec_Ret_inv in He as [_ [=]]|].
  cbn [all_or_exit] in He. destruct (library platform ManagerStart); [by apply exec_Ret_inv in He as [_ [=]]|].
  apply exec_Ret_inv in He as [-> He]. injection He as ->.
  assert (w' = Some (ns, name, field, value)) as -> by (by destruct mgr).
  destruct Hw as [(_ & cm & Hin & [= -> -> -> ->]) _].
  exists cm. split; [set_solver|]. apply checkConfigMapChanges_restarts.
Qed.

(** ** Examples *)

Definition example_platform (config : ManagerConfig) : Platform :=
  mkPlatform (inl config) (fun _ => FileMissing) (fun _ => inl "") (fun _ => None).
Definition no_workers : ManagerConfig :=
  mkManagerConfig ":8080" ":8081" false 9443 false "info" 0 5 3 true true.
Definition no_webhooks : ManagerConfig :=
  mkManagerConfig ":8080" ":8081" false 9443 false "info" 5 5 3 true false.
(** A cluster; its webhooks cannot be set up. *)
Definition example_cluster (config : ManagerConfig) : Platform :=
  mkPlatform (inl config) (fun _ => FileExists) (fun _ => inl (" operators" +:+ newline))
    (fun c => match c with SetupWebhookWithManager _ => Some (ErrorString "no certificate") | _ => None end).

Example namespace_in_cluster : getOperatorNamespace (example_cluster manager_config) = inl "operators".
Proof. vm_compute. reflexivity. Qed.
Example webhook_needed : run_result (main (example_cluster manager_config)) empty_world = Done None.
Proof. vm_compute. reflexivity. Qed.

Lemma main_spec_witness :
  (exists m, run_result (main (example_platform manager_config)) empty_world = Done (Some m) /\
    "EdgeWorkload" ∈ manager_webhooks m /\
    forall r, r ∈ (manager_controllers m).*1 <-> r <> PlaybookExecutionReconciler) /\
  (exists m, run_result (main (example_platform no_webhooks)) empty_world = Done (Some m) /\
    manager_webhooks m = []) /\
  run_result (main (example_platform no_workers)) empty_world = Done None.
Proof.
  split; [|split; [eexists; split; reflexivity|reflexivity]]. eexists. split; [reflexivity|].
  destruct (main_spec (example_platform manager_config) _ _ (run_result_exec _ empty_world))
    as (res & Hr & Hspec).
  destruct res as [m|]; [|discriminate Hr]. injection Hr as <-.
  destruct Hspec as (_ & _ & _ & _ & Hwork & _). split.
  - apply (proj2 (work_webhooks _ _ Hwork "EdgeWorkload")). split; reflexivity.
  - intros r. rewrite list_elem_of_fmap. split.
    + intros ([r' n] & -> & Hin). exact (proj1 (proj1 (work_controllers _ _ Hwork r' n) Hin)).
    + intros Hr. exists (r, 3%Z). split; [reflexivity|].
      apply (proj2 (work_controllers _ _ Hwork r 3%Z)). split; [exact Hr|reflexivity].
Defined.
