(* ===== verification/Cluster.v ===== *)
(** * The whole operator on one cluster

    The manager (src/cmd/manager) and the HTTP server (src/cmd/httpapi) run at
    the same time against one API server.  [step] is one exchange of one of the
    running activities, the start of an activity, or a change somebody outside
    the operator makes; between two calls of an activity anything may happen.

    The API server keeps devices and signed requests; it applies patches as
    JSON merge patches, refuses an update or a patch that names a version other
    than the current one, may fail at any call, before or after the change, and
    answers the cached reads of the manager with any earlier state.  What it
    answers to a call on any other kind of object is arbitrary. *)
From stdpp Require Import pretty.
From S2P Require Import Prelude GoData GoStrings V1alpha1 Models Env Testbed Labels Utils.
From S2P Require Import ApiServer.
From S2P Require Import Repository Hardware Facade BackendApi Backend Crypto MTLS Yggdrasil.
From S2P Require Import Controller SignedRequest Reconcilers Wireless Onboarding.
From S2P Require Import RemoteBackend HttpServer Manager.
Import v1alpha1.

(** ** The objects *)

Record Objects := mkObjects {
  o_devices : gmap key EdgeDevice;
  o_requests : gmap key EdgeDeviceSignedRequest;
}.

Definition set_o_devices (m : gmap key EdgeDevice) (o : Objects) : Objects :=
  mkObjects m (o_requests o).
Definition set_o_requests (m : gmap key EdgeDeviceSignedRequest) (o : Objects) : Objects :=
  mkObjects (o_devices o) m.

Definition device_rv (d : EdgeDevice) : string := ResourceVersion (EdgeDevice_ObjectMeta d).
Definition device_uid (d : EdgeDevice) : string := UID (EdgeDevice_ObjectMeta d).

Definition set_version (rv : string) (m : ObjectMeta) : ObjectMeta :=
  mkObjectMeta (Name m) (Namespace m) (UID m) rv (DeletionTimestamp m) (Labels m) (Annotations m)
    (OwnerReferences m) (Finalizers m).
Definition set_identity (uid rv : string) (m : ObjectMeta) : ObjectMeta :=
  mkObjectMeta (Name m) (Namespace m) uid rv None (Labels m) (Annotations m)
    (OwnerReferences m) (Finalizers m).
Definition upd_RequestMeta (f : ObjectMeta -> ObjectMeta) (r : EdgeDeviceSignedRequest) :
  EdgeDeviceSignedRequest :=
  mkEdgeDeviceSignedRequest (EdgeDeviceSignedRequest_TypeMeta r)
    (f (EdgeDeviceSignedRequest_ObjectMeta r)) (EdgeDeviceSignedRequest_Spec r)
    (EdgeDeviceSignedRequest_Status r).

(** A version, or an identity, no device of the past has had. *)
Definition fresh_rv (h : list Objects) (rv : string) : Prop :=
  rv <> "" /\ forall o k d, o ∈ h -> o_devices o !! k = Some d -> device_rv d <> rv.
Definition fresh_uid (h : list Objects) (uid : string) : Prop :=
  forall o k d, o ∈ h -> o_devices o !! k = Some d -> device_uid d <> uid.

(** ** The API server *)

(** The patch between [base] and [obj] names a version if they differ in it. *)
Definition version_accepted (base obj cur : EdgeDevice) : Prop :=
  device_rv base = device_rv obj \/ device_rv obj = "" \/ device_rv obj = device_rv cur.

(** [Update] replaces all but the status and what the server owns. *)
Definition updated_device (obj cur : EdgeDevice) : EdgeDevice :=
  let m := EdgeDevice_ObjectMeta obj in
  let m' := EdgeDevice_ObjectMeta cur in
  mkEdgeDevice (EdgeDevice_TypeMeta cur)
    (mkObjectMeta (Name m') (Namespace m') (UID m') (ResourceVersion m') (DeletionTimestamp m')
       (Labels m) (Annotations m) (OwnerReferences m) (Finalizers m))
    (EdgeDevice_Spec obj) (EdgeDevice_Status cur).
Definition updated_device_status (obj cur : EdgeDevice) : EdgeDevice :=
  upd_Status (fun _ => EdgeDevice_Status obj) cur.

(** What is stored for [v] in the place of [cur]: a change gets a version. *)
Definition stored (h : list Objects) (cur v d : EdgeDevice) : Prop :=
  v = cur /\ d = cur \/ exists rv, fresh_rv h rv /\ d = upd_Meta (set_version rv) v.

(** The device [obj] is written: refused, or carried out.  A client may be told
    of an error although the change was made; its object is then left as it
    was, else it becomes the one stored. *)
Definition writes_device (h : list Objects) (obj : EdgeDevice) (accepts : EdgeDevice -> Prop)
    (change : EdgeDevice -> EdgeDevice) (o : Objects) (r : EdgeDevice * option error) (o' : Objects)
    : Prop :=
  let k := device_key obj in
  o' = o /\ r.1 = obj /\ is_Some r.2 \/
  exists cur d, o_devices o !! k = Some cur /\ accepts cur /\ stored h cur (change cur) d /\
    o' = set_o_devices (<[k := d]> (o_devices o)) o /\ (r = (d, None) \/ r.1 = obj /\ is_Some r.2).

Definition writes_request (k : key) (change : EdgeDeviceSignedRequest -> EdgeDeviceSignedRequest)
    (o : Objects) (r : EdgeDeviceSignedRequest * option error) (o' : Objects) : Prop :=
  o' = o /\ is_Some r.2 \/
  exists cur rv, o_requests o !! k = Some cur /\
    let q := upd_RequestMeta (set_version rv) (change cur) in
    o' = set_o_requests (<[k := q]> (o_requests o)) o /\ (r = (q, None) \/ is_Some r.2).

(** A read answers with an object of one of the states [h], from the cache of
    the client; when it fails it leaves the empty object it was given. *)
Definition reads {V} (zero : V) (h : list Objects) (m : Objects -> gmap key V) (k : key)
    (r : V * option error) : Prop :=
  r.1 = zero /\ is_Some r.2 \/ exists o, o ∈ h /\ m o !! k = Some r.1.

(** [serves h o c o' r]: with the past [h], whose last state is [o], the server
    may answer [r] to [c] and be left with [o']. *)
Definition serves (h : list Objects) (o : Objects) (c : Req) (o' : Objects) : Resp c -> Prop :=
  match c return Resp c -> Prop with
  | GetEdgeDevice ns n => fun r => o' = o /\ reads empty_EdgeDevice h o_devices (ns, n) r
  | GetEDSR ns n => fun r => o' = o /\ reads empty_EdgeDeviceSignedRequest h o_requests (ns, n) r
  | ListEdgeDevices _ _ => fun r =>
      o' = o /\ (is_Some r.2 \/ Forall (fun d => exists o1, o1 ∈ h /\ o_devices o1 !! device_key d = Some d) r.1)
  | CreateEdgeDevice d => fun r =>
      o' = o /\ is_Some r \/
      o_devices o !! device_key d = None /\ (device_key d).2 <> "" /\ exists uid rv, fresh_uid h uid /\ fresh_rv h rv /\
        o' = set_o_devices (<[device_key d := upd_Meta (set_identity uid rv) d]> (o_devices o)) o
  | PatchEdgeDevice base obj => fun r =>
      writes_device h obj (version_accepted base obj) (patched_device base obj) o r o'
  | PatchEdgeDeviceStatus base obj => fun r =>
      writes_device h obj (version_accepted base obj) (patched_device_status base obj)
        o r o'
  | UpdateEdgeDevice obj => fun r =>
      writes_device h obj (fun cur => device_rv obj = device_rv cur)
        (updated_device obj) o r o'
  | UpdateEdgeDeviceStatus obj => fun r =>
      writes_device h obj (fun cur => device_rv obj = device_rv cur)
        (updated_device_status obj) o r o'
  | CreateEDSR q => fun r =>
      o' = o /\ is_Some r \/
      o_requests o !! request_key q = None /\ (request_key q).2 <> "" /\ exists uid rv,
        o' = set_o_requests (<[request_key q := upd_RequestMeta (set_identity uid rv) q]>
               (o_requests o)) o
  | PatchEDSR base obj => fun r =>
      writes_request (request_key obj) (patched_request base obj) o r o'
  | PatchEDSRStatus base obj => fun r =>
      writes_request (request_key obj) (patched_request_status base obj) o r o'
  | DeleteEDSR q => fun r =>
      o' = o /\ is_Some r \/ o' = set_o_requests (delete (request_key q) (o_requests o)) o
  | _ => fun _ => o' = o
  end.

(** How the devices may change from [o] to [o'], after [h]: a device that has
    changed has a version of its own; if it was there before it is not marked
    as never registered unless it was. *)
Definition devices_evolve (h : list Objects) (o o' : Objects) : Prop :=
  forall k d', o_devices o' !! k = Some d' ->
    o_devices o !! k = Some d' \/
    device_key d' = k /\ k.2 <> "" /\ fresh_rv h (device_rv d') /\
    (fresh_uid h (device_uid d') \/
     exists d, o_devices o !! k = Some d /\ device_uid d = device_uid d' /\
       (k8s.has_init_label d' = true -> k8s.has_init_label d = true)).

Definition requests_kept_by_name (o : Objects) : Prop :=
  forall k r, o_requests o !! k = Some r -> request_key r = k /\ k.2 <> "".

(** What users, other controllers and the garbage collector may do: create and
    delete devices and requests, approve requests, change them in any way but
    one; the one thing the operator relies on is that nobody marks a device
    that exists as never registered. *)
Definition outside (h : list Objects) (o o' : Objects) : Prop :=
  devices_evolve h o o' /\ requests_kept_by_name o'.

(** ** The activities of the operator *)

Section System.
Context `{Unicode} `{Libs} `{Formatter} `{Crypto} `{Wire} `{MessageDecoder} `{NodeReuse}.

(** What the two programs read from their configuration when they start, and
    what the HTTP server holds of its authority. *)
Record Deployment := mkDeployment {
  d_manager : ManagerConfig;
  d_initialNamespace : string;
  d_tls : TLSConfig CASecretProvider;
  d_roots : list string;
  d_chain : list (option Certificate);
}.

(** A request to a reconciler, a request of a device over HTTP, a message on
    the MQTT topic. *)
Inductive activity :=
  | Reconciling (r : reconciler) (name namespace : string)
  | Serving (peers : option (list Certificate)) (r : DeviceRequest)
  | Receiving (topic payload : string).

Inductive answer :=
  | Reconciled (res : Result * option error)
  | Served (res : Z + Responder)
  | Received (res : handled).

Section Activities.
Context (D : Deployment).

Definition code_of (a : activity) : M answer :=
  match a with
  | Reconciling r name namespace => Reconciled <$> reconcile (d_manager D) r name namespace
  | Serving peers r =>
      Served <$> InnerMiddleware (H2 := k8s.backend (d_initialNamespace D)) (d_initialNamespace D)
                   (d_tls D) (d_roots D) (d_chain D) peers r
  | Receiving topic payload => Received <$> Wireless.f topic payload
  end.

End Activities.

(** The deployment of a manager and a server that have been started. *)
Definition deployed (m : Manager) (s : Server) : Deployment :=
  mkDeployment (manager_configuration m) HttpServer.initialDeviceNamespace (server_mtls s)
    (server_roots s) (server_chain s).

(** What a started server does with a request is what the activity does. *)
Lemma deployed_serves m s peers r :
  server_backend s = createK8sBackend HttpServer.initialDeviceNamespace ->
  code_of (deployed m s) (Serving peers r) = Served <$> serve s peers r.
Proof. intros Hb. unfold serve. by rewrite Hb. Qed.

Section Steps.
Context (D : Deployment).

(** ** The system *)

(** An activity under way: since when it runs, what it has exchanged, and what
    is left of it. *)
Record thread := mkThread {
  t_activity : activity;
  t_start : nat;
  t_trace : list Event;
  t_rest : M answer;
}.

(** The states the server has been in, in order, the last one being now. *)
Record state := mkState {
  s_past : list Objects;
  s_now : Objects;
  s_threads : list thread;
}.
Definition history (s : state) : list Objects := s_past s ++ [s_now s].

Definition becomes (s : state) (o : Objects) (threads : list thread) : state :=
  mkState (history s) o threads.

Inductive actor := Outside | Operator.

Inductive step (s : state) : actor -> state -> Prop :=
  | step_outside o' :
      outside (history s) (s_now s) o' -> step s Outside (becomes s o' (s_threads s))
  | step_start a :
      step s Operator (mkState (s_past s) (s_now s)
                         (s_threads s ++ [mkThread a (length (s_past s)) [] (code_of D a)]))
  | step_call i th c k r o' :
      s_threads s !! i = Some th -> t_rest th = Call c k ->
      serves (history s) (s_now s) c o' r ->
      step s Operator (becomes s o'
        (<[i := mkThread (t_activity th) (t_start th) (t_trace th ++ [Ev c r]) (k r)]>
           (s_threads s))).

(** Every object is kept under its own name, which is not empty; every device
    has a version. *)
Definition well_kept (o : Objects) : Prop :=
  (forall k d, o_devices o !! k = Some d -> device_key d = k /\ k.2 <> "" /\ device_rv d <> "") /\
  requests_kept_by_name o.

(** The operator starts on a cluster as it finds it. *)
Definition initial (s : state) : Prop :=
  s_past s = [] /\ s_threads s = [] /\ well_kept (s_now s).
Definition reachable (s : state) : Prop :=
  exists s0, initial s0 /\ rtc (fun s s' => exists a, step s a s') s0 s.

(** ** Playing a schedule *)

(** A server that answers from the state it is in, refuses what it must, and
    counts versions up; where the model leaves an answer open it is that of
    Testbed.v with the other objects in the world [others]. *)
Context (others : World).

Definition is_fresh_rv (h : list Objects) (rv : string) : bool :=
  negb (bool_decide (rv = "")) &&
  forallb (fun o => bool_decide (map_Forall (fun _ d => device_rv d <> rv) (o_devices o))) h.
Definition is_fresh_uid (h : list Objects) (uid : string) : bool :=
  forallb (fun o => bool_decide (map_Forall (fun _ d => device_uid d <> uid) (o_devices o))) h.
Definition next_rv (h : list Objects) : string := "v" +:+ pretty (length h).

Definition conflict : error := StatusError (OtherReason "Conflict") "the object has been modified".

Definition play_write (h : list Objects) (obj : EdgeDevice) (accepts : EdgeDevice -> bool)
    (change : EdgeDevice -> EdgeDevice) (o : Objects) : Objects * (EdgeDevice * option error) :=
  match o_devices o !! device_key obj with
  | Some cur =>
      if accepts cur && is_fresh_rv h (next_rv h) then
        let d := upd_Meta (set_version (next_rv h)) (change cur) in
        (set_o_devices (<[device_key obj := d]> (o_devices o)) o, (d, None))
      else (o, (obj, Some conflict))
  | None => (o, (obj, Some not_found))
  end.

Definition accepted (base obj cur : EdgeDevice) : bool :=
  bool_decide (device_rv base = device_rv obj) || bool_decide (device_rv obj = "")
  || bool_decide (device_rv obj = device_rv cur).

Definition play_call (h : list Objects) (cache : Objects) (c : Req) (o : Objects)
    : Objects * Resp c :=
  match c return Objects * Resp c with
  | GetEdgeDevice ns n => (o, get None (o_devices cache) (ns, n) empty_EdgeDevice)
  | GetEDSR ns n => (o, get None (o_requests cache) (ns, n) empty_EdgeDeviceSignedRequest)
  | ListEdgeDevices _ _ => (o, ([], None))
  | CreateEdgeDevice d =>
      match o_devices o !! device_key d with
      | Some _ => (o, Some already_exists)
      | None =>
          if negb (bool_decide ((device_key d).2 = "")) && is_fresh_uid h (next_rv h)
             && is_fresh_rv h (next_rv h) then
            (set_o_devices (<[device_key d := upd_Meta (set_identity (next_rv h) (next_rv h)) d]>
               (o_devices o)) o, None)
          else (o, Some conflict)
      end
  | PatchEdgeDevice base obj =>
      play_write h obj (accepted base obj) (patched_device base obj) o
  | PatchEdgeDeviceStatus base obj =>
      play_write h obj (accepted base obj) (patched_device_status base obj) o
  | UpdateEdgeDevice obj =>
      play_write h obj (fun cur => bool_decide (device_rv obj = device_rv cur))
        (updated_device obj) o
  | UpdateEdgeDeviceStatus obj =>
      play_write h obj (fun cur => bool_decide (device_rv obj = device_rv cur))
        (updated_device_status obj) o
  | CreateEDSR q => (o, Some conflict)
  | PatchEDSR _ q | PatchEDSRStatus _ q => (o, (q, Some conflict))
  | DeleteEDSR q => (o, Some conflict)
  | c => (o, (server c others).2)
  end.

(** What happens next: an activity starts, or the thread [i] makes a call, with
    a cache that is up to date, or still in the state [n]. *)
Inductive move := Start (a : activity) | Go (i : nat) | Lag (i n : nat).

Definition play_thread (i : nat) (cache : Objects) (s : state) : option state :=
  th ← s_threads s !! i;
  match t_rest th with
  | Call c k =>
      let '(o', r) := play_call (history s) cache c (s_now s) in
      Some (becomes s o'
        (<[i := mkThread (t_activity th) (t_start th) (t_trace th ++ [Ev c r]) (k r)]>
           (s_threads s)))
  | _ => None
  end.

Definition play_one (m : move) (s : state) : option state :=
  match m with
  | Start a =>
      Some (mkState (s_past s) (s_now s)
              (s_threads s ++ [mkThread a (length (s_past s)) [] (code_of D a)]))
  | Go i => play_thread i (s_now s) s
  | Lag i n => cache ← history s !! n; play_thread i cache s
  end.

Fixpoint play (ms : list move) (s : state) : option state :=
  match ms with
  | [] => Some s
  | m :: ms => s' ← play_one m s; play ms s'
  end.
End Steps.
End System.

(** ** A schedule that plays is one the system can follow *)

Lemma is_fresh_rv_spec h rv : is_fresh_rv h rv = true -> fresh_rv h rv.
Proof.
  unfold is_fresh_rv. intros [Hn Hf]%andb_true_iff. split.
  - by apply negb_true_iff, bool_decide_eq_false in Hn.
  - intros o k d Ho Hd. rewrite forallb_forall in Hf. apply list_elem_of_In in Ho.
    specialize (Hf o Ho). apply bool_decide_eq_true in Hf. exact (Hf k d Hd).
Qed.
Lemma is_fresh_uid_spec h uid : is_fresh_uid h uid = true -> fresh_uid h uid.
Proof.
  unfold is_fresh_uid. intros Hf o k d Ho Hd. rewrite forallb_forall in Hf.
  apply list_elem_of_In in Ho. specialize (Hf o Ho). apply bool_decide_eq_true in Hf.
  exact (Hf k d Hd).
Qed.

Lemma play_write_writes h obj accepts (P : EdgeDevice -> Prop) change o :
  (forall cur, accepts cur = true -> P cur) ->
  let '(o', r) := play_write h obj accepts change o in writes_device h obj P change o r o'.
Proof.
  intros HP. unfold play_write. destruct (o_devices o !! device_key obj) as [cur|] eqn:Hc; [|by left; eauto].
  destruct (accepts cur && is_fresh_rv h (next_rv h)) eqn:E; [|by left; eauto].
  apply andb_true_iff in E as [Ha Hf]. right. eexists cur, _. split; [done|].
  split; [by apply HP|]. split; [|split; [done|by left]].
  right. eexists. split; [by apply is_fresh_rv_spec|done].
Qed.

Lemma accepted_spec base obj cur : accepted base obj cur = true -> version_accepted base obj cur.
Proof.
  unfold accepted, version_accepted. intros [[E|E]%orb_true_iff|E]%orb_true_iff;
    apply bool_decide_eq_true in E; auto.
Qed.

Lemma play_call_serves others h cache c o :
  cache ∈ h -> let '(o', r) := play_call others h cache c o in serves h o c o' r.
Proof.
  intros Ho.
  assert (forall {V} (m : Objects -> gmap key V) k zero, reads zero h m k (get None (m cache) k zero))
    as Hget.
  { intros V m k zero. unfold reads, get. destruct (m cache !! k) as [v|] eqn:E; [right|left; eauto].
    by exists cache. }
  destruct c; cbn [play_call serves]; try done; try (split; [done|by apply Hget]).
  - split; [done|]. right. constructor.
  - destruct (o_devices o !! device_key d) as [cur|] eqn:Hc; [by left; eauto|].
    destruct (_ && is_fresh_rv h (next_rv h)) eqn:E; [|by left; eauto].
    apply andb_true_iff in E as [[Hn Hu]%andb_true_iff Hv]. right. split; [done|].
    apply negb_true_iff, bool_decide_eq_false in Hn. split; [done|]. eexists _, _.
    split; [by apply is_fresh_uid_spec|]. split; [by apply is_fresh_rv_spec|done].
  - by left; eauto.
  - apply play_write_writes. apply accepted_spec.
  - apply play_write_writes. apply accepted_spec.
  - by left; eauto.
  - by left; eauto.
  - apply play_write_writes. intros cur. apply bool_decide_eq_true.
  - apply play_write_writes. intros cur. apply bool_decide_eq_true.
  - by left; eauto.
Qed.

Section Play.
Context `{Unicode} `{Libs} `{Formatter} `{Crypto} `{Wire} `{MessageDecoder} `{NodeReuse}.
Context (D : Deployment) (others : World).

Lemma play_thread_step i cache s s' :
  cache ∈ history s -> play_thread others i cache s = Some s' -> step D s Operator s'.
Proof.
  intros Hc. unfold play_thread. destruct (s_threads s !! i) as [th|] eqn:Ei; [|done]. cbn.
  destruct (t_rest th) as [| |c k] eqn:Er; [done..|].
  pose proof (play_call_serves others (history s) cache c (s_now s) Hc) as Hsv.
  destruct (play_call others (history s) cache c (s_now s)) as [o' r]. intros [= <-].
  by eapply step_call.
Qed.

Lemma play_one_step m s s' : play_one D others m s = Some s' -> step D s Operator s'.
Proof.
  destruct m as [a|i|i n]; cbn [play_one]; [intros [= <-]; constructor| |].
  - apply play_thread_step. unfold history. set_solver.
  - destruct (history s !! n) as [cache|] eqn:E; [|done]. apply play_thread_step.
    by eapply list_elem_of_lookup_2.
Qed.

Lemma play_steps ms s s' :
  play D others ms s = Some s' -> rtc (fun s s' => exists a, step D s a s') s s'.
Proof.
  revert s. induction ms as [|m ms IH]; intros s Hp; cbn [play] in Hp; [by injection Hp as ->|].
  destruct (play_one D others m s) as [s1|] eqn:E; [|done].
  eapply rtc_l; [exists Operator; by eapply play_one_step|]. by apply IH.
Qed.

Lemma play_app ms1 ms2 s s1 :
  play D others ms1 s = Some s1 -> play D others (ms1 ++ ms2) s = play D others ms2 s1.
Proof.
  revert s. induction ms1 as [|m ms1 IH]; intros s; cbn [play app]; [by intros [= ->]|].
  destruct (play_one D others m s) as [s2|]; [apply IH|done].
Qed.

Lemma play_reachable ms s s' : initial s -> play D others ms s = Some s' -> reachable D s'.
Proof. intros Hi Hp. exists s. split; [done|]. by eapply play_steps. Qed.
End Play.
