(* ===== verification/ClusterRules.v ===== *)
(** * What the activities of the operator may ask of the API server

    The rule every activity keeps, whatever it is answered: the mark of a
    device that has never registered is not put on a device; a device is made
    of an approved request the activity has read; nothing but automatic
    approval approves a request.  Calls that keep the rule whatever has gone
    before are [quiet_call]s; the two activities whose calls depend on what
    they have read are treated by [follows]. *)
From S2P Require Import Prelude GoData GoStrings V1alpha1 Models Env Testbed Labels Utils.
From S2P Require Import ApiServer.
From S2P Require Import Repository Storage Hardware Facade Heartbeat BackendApi Backend Crypto MTLS.
From S2P Require Import Assembler Yggdrasil Controller EdgeWorkload EdgeDeviceLabels SignedRequest.
From S2P Require Import EdgeDeviceController PlaybookControllers Reconcilers Wireless Onboarding Cluster.
Import v1alpha1.

(** ** The rule *)

Definition mark_of (d : EdgeDevice) : option string :=
  map_get (Labels (EdgeDevice_ObjectMeta d)) EdgeDeviceSignedRequestLabelName.

(** The difference between [base] and [obj] does not put the mark on. *)
Definition keeps_mark (base obj : EdgeDevice) : Prop :=
  mark_of obj = mark_of base \/ mark_of obj = None.

(** The devices an exchange shows. *)
Definition seen (e : Event) : list EdgeDevice :=
  let '(Ev c r) := e in
  match c return Resp c -> list EdgeDevice with
  | GetEdgeDevice _ _ | PatchEdgeDevice _ _ | PatchEdgeDeviceStatus _ _
  | UpdateEdgeDevice _ | UpdateEdgeDeviceStatus _ =>
      fun r => match r with (d, None) => [d] | _ => [] end
  | ListEdgeDevices _ _ => fun r => match r with (ds, None) => ds | _ => [] end
  | _ => fun _ => []
  end r.

(** The key of the device [d] in an answer to a call. *)
Definition asked (c : Req) (d : EdgeDevice) : option key :=
  match c with
  | GetEdgeDevice ns n => Some (ns, n)
  | ListEdgeDevices _ _ => Some (device_key d)
  | PatchEdgeDevice _ obj | PatchEdgeDeviceStatus _ obj | UpdateEdgeDevice obj
  | UpdateEdgeDeviceStatus obj => Some (device_key obj)
  | _ => None
  end.

(** The server has shown [d] as the device [k]. *)
Definition shown (h : list Event) (k : key) (d : EdgeDevice) : Prop :=
  exists e, e ∈ h /\ asked (ev_req e) d = Some k /\ d ∈ seen e.

Definition requests_kept (AutoApproval : bool) (base obj : EdgeDeviceSignedRequest) : Prop :=
  EdgeDeviceSignedRequest_Spec obj = EdgeDeviceSignedRequest_Spec base \/ AutoApproval = true.

Definition quiet_call (AutoApproval : bool) (c : Req) : Prop :=
  match c with
  | CreateEdgeDevice _ | UpdateEdgeDevice _ => False
  | PatchEdgeDevice base obj => keeps_mark base obj
  | PatchEDSR base obj => requests_kept AutoApproval base obj
  | CreateEDSR r => approved r = false
  | _ => True
  end.

(** A patch may also send a device just as the server has shown it, or an
    update one with the metadata it was shown with: the server then compares
    versions. *)
Definition rule (AutoApproval : bool) (h : list Event) (c : Req) : Prop :=
  match c with
  | CreateEdgeDevice d =>
      exists ns n r now, Ev (GetEDSR ns n) (r, None) ∈ h /\ approved r = true /\ d = new_device r now
  | UpdateEdgeDevice obj => exists k d, shown h k d /\ EdgeDevice_ObjectMeta obj = EdgeDevice_ObjectMeta d
  | PatchEdgeDevice base obj => keeps_mark base obj \/ exists k, shown h k base /\ shown h (device_key base) obj
  | c => quiet_call AutoApproval c
  end.

Lemma rule_quiet auto h c : quiet_call auto c -> rule auto h c.
Proof. destruct c; simpl; try done. by left. Qed.

Lemma follows_quiet {A} auto h (p : M A) : calls (quiet_call auto) p -> follows (rule auto) h p.
Proof. apply follows_calls. apply rule_quiet. Qed.

Lemma quiet_no_write auto c : no_write c -> quiet_call auto c.
Proof. intros Hn. destruct c; try exact I; by destruct Hn. Qed.

Lemma shown_app h t k d : shown h k d -> shown (h ++ t) k d.
Proof. intros (e & ? & ?). exists e. set_solver. Qed.
Lemma shown_last h c k (r : Resp c) d :
  asked c d = Some k -> d ∈ seen (Ev c r) -> shown (h ++ [Ev c r]) k d.
Proof. intros Ha Hs. exists (Ev c r). set_solver. Qed.

(** ** Labels that are not the mark *)

Lemma WorkloadLabel_not_mark n : WorkloadLabel n <> EdgeDeviceSignedRequestLabelName.
Proof. intros E. discriminate E. Qed.

Lemma MapLabels_no_mark `{Unicode} hw : entries (MapLabels hw) !! EdgeDeviceSignedRequestLabelName = None.
Proof.
  assert (forall l v (m : gmap string string), l <> EdgeDeviceSignedRequestLabelName ->
    m !! EdgeDeviceSignedRequestLabelName = None ->
    put_label l v m !! EdgeDeviceSignedRequestLabelName = None) as Hput.
  { intros l v m Hl Hm. unfold put_label.
    destruct (NormalizeLabel v) as [v' [e|]]; [done|]. by rewrite lookup_insert_ne. }
  destruct hw as [h|]; [|done]. cbn [MapLabels entries default from_option id].
  repeat first [apply Hput; [done|] | progress (case_match; subst)]; done.
Qed.

Lemma keeps_mark_same base obj :
  Labels (EdgeDevice_ObjectMeta obj) = Labels (EdgeDevice_ObjectMeta base) -> keeps_mark base obj.
Proof. unfold keeps_mark, mark_of. intros ->. by left. Qed.

Lemma keeps_mark_merged labels base :
  entries labels !! EdgeDeviceSignedRequestLabelName = None ->
  keeps_mark base (upd_Meta (set_Labels (Some (entries labels ∪ labels_of base))) base).
Proof.
  intros Hl. left. unfold mark_of, map_get, labels_of. cbn [entries default from_option id
    upd_Meta EdgeDevice_ObjectMeta set_Labels Labels]. by rewrite lookup_union_r.
Qed.

(** ** The quiet activities *)

Ltac quiet_tac :=
  repeat first
    [ calls_step
    | apply calls_lift
    | progress unfold finished, retry_with, finish, range_map ];
  try exact I; try by split.

Section Quiet.
Context (auto : bool).

Lemma quiet_UpdateLabels d labels :
  entries labels !! EdgeDeviceSignedRequestLabelName = None ->
  calls (quiet_call auto) (edgedevice.UpdateLabels d labels).
Proof.
  intros Hl. eapply calls_weaken; [|apply UpdateLabels_calls]. intros [] Hc; try done.
  rewrite Hc. by apply keeps_mark_merged.
Qed.

Lemma quiet_UpdateLabels_own d m :
  Labels (EdgeDevice_ObjectMeta d) = Some m ->
  calls (quiet_call auto) (edgedevice.UpdateLabels d (Some m)).
Proof.
  intros Hm. apply (exec_calls (fun c => (server c empty_world).2)). intros t o He.
  apply (UpdateLabels_own _ _ _ _ Hm) in He as (seed & -> & _). by constructor.
Qed.

Lemma quiet_removeWorkloadFromDevice name d :
  calls (quiet_call auto) (removeWorkloadFromDevice name d).
Proof.
  unfold removeWorkloadFromDevice. apply calls_bind; [by split|]. intros [d' [e|]]; [done|]. cbv zeta.
  destruct (Labels (EdgeDevice_ObjectMeta d')) as [labels|] eqn:El; [|done].
  apply calls_bind; [|by intros [? ?]]. split; [|done]. left. unfold mark_of, map_get.
  cbn [upd_Meta EdgeDevice_ObjectMeta set_Labels Labels entries default from_option id].
  rewrite El, lookup_delete_ne; [done|apply WorkloadLabel_not_mark].
Qed.

Lemma quiet_addWorkloadToDevice name d : calls (quiet_call auto) (addWorkloadToDevice name d).
Proof.
  unfold addWorkloadToDevice. apply calls_bind.
  { destruct (hasWorkload d name); [done|]. by split. }
  intros [d' [e|]]; [done|]. destruct (hasLabelForWorkload d' name); [done|].
  apply calls_bind; [|by intros [? ?]]. split; [|done]. left. unfold mark_of, map_get.
  cbn [upd_Meta EdgeDevice_ObjectMeta set_Labels Labels entries default from_option id].
  rewrite lookup_insert_ne; [|apply WorkloadLabel_not_mark].
  by destruct (Labels (EdgeDevice_ObjectMeta d')).
Qed.

Context `{Unicode} `{Libs} `{Formatter}.

Lemma quiet_EdgeDevice initial obc name ns :
  calls (quiet_call auto) (EdgeDeviceController.Reconcile initial obc name ns).
Proof.
  unfold EdgeDeviceController.Reconcile, edgedevice.Read, removeRelatedEDSR, removeFinalizer,
    edgedevice.RemoveFinalizer, reconcileStorage, createOrGetObc, addObcReference, GetClaim,
    CreateClaim.
  quiet_tac.
  all: split; [by apply keeps_mark_same|done].
Qed.

Lemma quiet_EdgeWorkload C name ns : calls (quiet_call auto) (EdgeWorkload.Reconcile C name ns).
Proof.
  assert (forall w, calls (quiet_call auto) (reconcileDevices C w)) as Hdev.
  { intros w. unfold reconcileDevices, getLabelledEdgeDevices, edgedevice.ListForWorkload,
      getMatchingEdgeDevices, edgedevice.ListForSelector, finalizeRemoval, addWorkloadsToDevices,
      removeWorkloadFromNonMatchingDevices, edgeworkload.RemoveFinalizer.
    quiet_tac; apply calls_executeConcurrent; try exact I; intros part.
    - unfold removeWorkloadFromDevices. quiet_tac. apply quiet_removeWorkloadFromDevice.
    - apply calls_until_cancelled; [exact I|]. intros d. apply calls_at_most_one.
      apply quiet_addWorkloadToDevice.
    - apply calls_until_cancelled; [exact I|]. intros d'. apply calls_at_most_one.
      unfold removeFromNonMatching. quiet_tac. apply quiet_removeWorkloadFromDevice. }
  unfold EdgeWorkload.Reconcile, updateLabelsFromSelector, UpdateSelectorLabels_one. quiet_tac;
    apply Hdev.
Qed.

(** The two reconcilers that patch neither devices nor requests. *)
Lemma quiet_may_write r {A} (p : M A) :
  r = EdgeConfigReconciler \/ r = PlaybookExecutionReconciler ->
  calls (may_write r) p -> calls (quiet_call auto) p.
Proof.
  intros Hr. apply calls_weaken. intros c Hc.
  destruct Hr as [-> | ->]; destruct c; try exact I; by destruct Hc.
Qed.
End Quiet.

(** ** The label reconciler *)

Section LabelReconciler.
Context (auto : bool) `{Libs}.

Lemma quiet_selectWorkloads d order : calls (quiet_call auto) (selectWorkloads d order).
Proof. unfold selectWorkloads, edgeworkload.ListByLabel, selectWorkload. quiet_tac. Qed.

Lemma quiet_createUpdatedDevice selected d :
  calls (quiet_call auto) (createUpdatedDevice selected d).
Proof. unfold createUpdatedDevice. quiet_tac. Qed.

Lemma quiet_updatePlaybookExecutions d : calls (quiet_call auto) (updatePlaybookExecutions d).
Proof.
  unfold updatePlaybookExecutions. apply calls_bind; [by split|]. intros order.
  destruct (foldl _ _ _) as [labels updated]. destruct updated; [|done].
  apply calls_bind; [|by intros [? ?]]. destruct labels as [m|]; [by apply quiet_UpdateLabels_own|].
  by apply quiet_UpdateLabels.
Qed.

Lemma createUpdatedDevice_key selected d t u :
  exec (createUpdatedDevice selected d) t (Done (Some u)) -> device_key u = device_key d.
Proof.
  intros He. unfold createUpdatedDevice in He.
  apply exec_bind_inv in He as [[_ ?]|(order & t1 & t2 & -> & _ & He)]; [done|].
  apply exec_Ret_inv in He as [_ [= Hu]]. by case_match; simplify_eq.
Qed.

(** The second patch sends what the first was answered. *)
Lemma rule_updateWorkloads h k d :
  shown h k d -> follows (rule auto) h (updateWorkloads d).
Proof.
  intros Hd. unfold updateWorkloads.
  apply follows_bind; [apply follows_quiet; unfold createSelectorLabelsMap; quiet_tac|].
  intros t1 labels _. apply follows_bind; [by apply follows_quiet; split|]. intros t2 order _.
  apply follows_bind; [apply follows_quiet, quiet_selectWorkloads|].
  intros t3 [selected|e] _; [|done].
  apply follows_bind; [apply follows_quiet, quiet_createUpdatedDevice|].
  intros t4 [u|] He; [|done]. unfold edgedevice.PatchStatus, edgedevice.Patch.
  split; [exact I|]. intros [u' [e|]]; [done|]. split; [|by intros [? ?]]. right. exists k.
  apply createUpdatedDevice_key in He. split; [by repeat apply shown_app|].
  apply shown_last; [|left]. cbn [asked]. by rewrite He.
Qed.

Lemma rule_EdgeDeviceLabels name ns : follows (rule auto) [] (EdgeDeviceLabels.Reconcile name ns).
Proof.
  unfold EdgeDeviceLabels.Reconcile, edgedevice.Read.
  apply follows_bind; [by split|]. intros t [d [e|]] He.
  { apply follows_quiet. quiet_tac. }
  apply exec_Call_inv in He as (r & t' & -> & [-> [= <-]]%exec_Ret_inv). destruct (DeletionTimestamp _); [done|].
  assert (shown ([] ++ [Ev (GetEdgeDevice ns name) (d, None)]) (ns, name) d) as Hd
    by (by apply shown_last; [|left]).
  apply follows_bind; [by eapply rule_updateWorkloads|]. intros t [e|] _; [done|].
  apply follows_bind; [apply follows_quiet, quiet_updatePlaybookExecutions|].
  by intros t' [e|] _.
Qed.
End LabelReconciler.

(** ** The reconciler of requests *)

Lemma rule_SignedRequest auto name ns :
  follows (rule auto) [] (SignedRequest.Reconcile auto name ns).
Proof.
  unfold SignedRequest.Reconcile, edgedevicesignedrequest.Read.
  assert (forall e, calls (quiet_call auto) (retry_with e)) as Hretry by done.
  assert (forall err, calls (quiet_call auto) (finish err)) as Hfinish by (intros [?|]; done).
  assert (forall r, calls (quiet_call auto) (markStatusPending r ≫= finish)) as Hpending
    by (intros r; unfold markStatusPending; quiet_tac).
  assert (forall r, calls (quiet_call auto) (markStatusApproved r ≫= finish)) as Happroved
    by (intros r; unfold markStatusApproved; quiet_tac).
  apply follows_bind; [by split|]. intros t [r [e|]] He.
  { apply follows_quiet. quiet_tac. }
  apply exec_Call_inv in He as (r' & t' & -> & [-> [= <-]]%exec_Ret_inv). fold (approved r).
  destruct (approved r) eqn:Ha; [|apply follows_quiet].
  - rewrite andb_false_r. cbn [negb]. unfold edgedevice.Read, edgedevice.Create.
    apply follows_bind; [by split|]. intros t [d [e|]] _; [|apply follows_quiet, Happroved].
    split; [exact I|]. intros now. apply follows_bind.
    + split; [|done]. exists ns, name, r, now. split_and!; [|done..]. set_solver.
    + intros t' [e'|] _; apply follows_quiet; [apply Hretry|apply Happroved].
  - destruct auto eqn:Eauto; cbn [andb negb].
    + apply calls_bind; [split; [by right|done]|]. intros [r2 [e|]]; [apply Hretry|done].
    + destruct (_ && _); [done|apply Hpending].
Qed.

(** Every reconciler keeps the rule. *)
Lemma rule_reconcile `{Unicode} `{Libs} `{Formatter} cfg r name ns :
  follows (rule (AutoApproval cfg)) [] (reconcile cfg r name ns).
Proof.
  destruct r; cbn [reconcile].
  - apply follows_quiet, quiet_EdgeDevice.
  - apply rule_EdgeDeviceLabels.
  - apply follows_quiet, quiet_EdgeWorkload.
  - apply rule_SignedRequest.
  - apply follows_quiet. apply (quiet_may_write _ EdgeConfigReconciler); [by left|].
    apply may_write_EdgeConfig.
  - apply follows_quiet. apply (quiet_may_write _ PlaybookExecutionReconciler); [by right|].
    apply (may_write_PlaybookExecution cfg).
Qed.

(** ** The requests of devices *)

Section Handlers.
Context (auto : bool) `{Unicode}.

Lemma quiet_updateStatus_one ns copies d hpe :
  calls (quiet_call auto) (updateStatus_one ns copies d hpe).
Proof.
  unfold updateStatus_one, facade.GetPlaybookExecution, playbookexecution.Read,
    facade.PatchPlaybookExecution, playbookexecution.Patch, facade.UpdateEdgeDeviceLabels.
  apply calls_bind; [apply calls_lift|]. intros s. apply calls_bind; [by split|]. intros [pe err].
  apply calls_bind; [by split|]. intros now. apply calls_bind; [by split|]. intros [pe' [e|]]; [done|].
  case_decide; [|done]. apply calls_bind; [|by intros [? ?]].
  destruct (Labels (EdgeDevice_ObjectMeta d)) as [m|]; [by apply quiet_UpdateLabels_own|].
  by apply quiet_UpdateLabels.
Qed.

Lemma quiet_updateStatus d hb : calls (quiet_call auto) (updateStatus d hb).
Proof.
  assert (forall c, quiet c -> quiet_call auto c) as Hq
    by (intros c Hc; destruct c; try exact I; by destruct Hc).
  unfold updateStatus. apply calls_bind; [eapply calls_weaken; [exact Hq|apply playbookCopies_quiet]|].
  intros copies. apply calls_bind; [destruct (models.Heartbeat_Hardware hb); [apply calls_lift|done]|].
  intros hw. apply calls_bind;
    [eapply calls_weaken; [exact Hq|apply updateDeploymentStatuses_quiet]|]. intros ds.
  apply calls_bind;
    [eapply calls_weaken; [exact Hq|apply updatePlaybookExecutionStatuses_quiet]|]. intros ps.
  cbv zeta. case_decide; [by split|]. apply calls_bind; [|done].
  apply calls_for_each. intros. apply quiet_updateStatus_one.
Qed.

Lemma quiet_Process retry name ns hb : calls (quiet_call auto) (Process retry name ns hb).
Proof.
  unfold Process, facade.GetEdgeDevice, edgedevice.Read. apply calls_bind; [by split|].
  intros [d [e|]]; [by case_match|].
  apply calls_bind; [destruct (default false retry); [done|unfold processEvents; quiet_tac]|]. intros _.
  apply calls_bind; [apply quiet_updateStatus|]. intros [d' [e|]]; [done|].
  apply calls_bind; [|by intros [? [?|]]]. apply quiet_UpdateLabels, MapLabels_no_mark.
Qed.
End Handlers.

Section HTTP.
Context (auto : bool) `{Unicode} `{Libs} `{Crypto} `{Wire}.
Context (initialNamespace : string) (mtlsConfig : TLSConfig CASecretProvider).
Let B : EdgeDeviceBackend := k8s.backend initialNamespace.
#[local] Existing Instance B.
Let B_laws : BackendLaws B := k8s_laws initialNamespace.
#[local] Existing Instance B_laws.

Lemma quiet_updateDeviceStatus d f : calls (quiet_call auto) (k8s.updateDeviceStatus d f).
Proof.
  unfold k8s.updateDeviceStatus, k8s.updateDeviceStatus_one, facade.GetEdgeDevice, edgedevice.Read,
    facade.PatchEdgeDeviceStatus, edgedevice.PatchStatus.
  quiet_tac.
Qed.

Lemma quiet_Register name ns info : calls (quiet_call auto) (k8s.Register name ns info).
Proof.
  unfold k8s.Register, facade.GetEdgeDevice, edgedevice.Read, facade.PatchEdgeDevice, edgedevice.Patch.
  apply calls_bind; [by split|]. intros [d err]. apply calls_bind; [by split|]. intros labels.
  apply calls_bind; [apply calls_lift|]. intros m. cbv zeta. apply calls_bind.
  - split; [|done]. right. unfold mark_of, map_get.
    cbn [upd_Meta EdgeDevice_ObjectMeta set_Labels Labels].
    destruct m as [m|]; [|done]. apply lookup_delete_eq.
  - intros [d' [e|]]; [done|]. apply quiet_updateDeviceStatus.
Qed.

Lemma quiet_Enrol name ns info : calls (quiet_call auto) (k8s.Enrol initialNamespace name ns info).
Proof.
  unfold k8s.Enrol, facade.GetEdgeDevice, edgedevice.Read, facade.GetEdgeDeviceSignedRequest,
    edgedevicesignedrequest.Read, facade.CreateEdgeDeviceSignedRequest, edgedevicesignedrequest.Create.
  apply calls_bind; [by split|]. intros [d [e|]]; [|done]. apply calls_bind; [by split|].
  intros [q [e'|]]; [|quiet_tac].
  destruct (k8s.signed_request initialNamespace name ns info) as [r|] eqn:Es; [|done].
  apply signed_request_shape in Es as (_ & _ & Ha). cbn [lift].
  rewrite bind_ret_l.
  apply calls_bind; [by split|done].
Qed.

Lemma quiet_SignCSR csr name ns : calls (quiet_call auto) (TLSConfig_SignCSR mtlsConfig csr name ns).
Proof.
  unfold TLSConfig_SignCSR. destruct (caProvider mtlsConfig) as [|p ps]; [done|].
  apply calls_bind; [by split|]. intros now. cbn [SignCSR CASecretProvider_CAProvider].
  unfold secret_provider.SignCSR. quiet_tac.
Qed.

Lemma quiet_PostHeartbeat auth id msg :
  calls (quiet_call auto) (PostHeartbeat initialNamespace auth id msg).
Proof.
  unfold PostHeartbeat, metric. destruct (decode_Heartbeat _) as [hb|e]; [|done].
  apply calls_bind; [apply calls_lift|]. intros _. apply calls_bind.
  2:{ intros [e|]; [by case_match|]. by split. }
  unfold RetryingProcess. generalize (None : option error) at 1. generalize false, 1%Z.
  generalize 4 as fuel. intros fuel. induction fuel as [|fuel IH]; intros retry i err; [done|].
  cbn [retrying]. apply calls_bind; [apply quiet_Process|]. intros [retry' [e|]]; [|done].
  destruct (negb retry'); [done|]. apply calls_bind; [by split|]. intros _. apply IH.
Qed.

Lemma quiet_PostRegistration auth id msg :
  calls (quiet_call auto) (PostRegistration initialNamespace mtlsConfig auth id msg).
Proof.
  unfold PostRegistration, metric. destruct (decode_RegistrationInfo _) as [info|e]; [|done].
  apply calls_bind.
  { eapply calls_weaken; [apply quiet_no_write|]. apply GetTargetNamespace_no_write. }
  intros [ns [e|]]; [quiet_tac|]. apply calls_bind; [apply quiet_SignCSR|].
  intros [cert [e|]]; [done|]. cbv zeta. apply calls_bind; [apply quiet_Register|].
  intros [e|]; quiet_tac.
Qed.

Lemma quiet_handle auth r : calls (quiet_call auto) (handle initialNamespace mtlsConfig auth r).
Proof.
  assert (query r -> calls (quiet_call auto) (handle initialNamespace mtlsConfig auth r)) as Hquery.
  { intros Hq. eapply calls_weaken; [apply quiet_no_write|]. by apply handle_query_calls. }
  destruct r as [id|id|id|id msg]; [by apply Hquery..|].
  destruct (decide (models.Message_Directive msg = "heartbeat")) as [Eh|Hh].
  { cbn [handle]. unfold HandlePostDataMessage. rewrite Eh. cbn [negb andb].
    case_match; [unfold metric; quiet_tac|]. rewrite decide_True by done. apply quiet_PostHeartbeat. }
  destruct (open_directive (models.Message_Directive msg)) eqn:Eo; [|by apply Hquery].
  cbn [handle]. unfold HandlePostDataMessage. rewrite Eo. cbn [negb andb].
  rewrite (decide_False _ _ Hh). apply bool_decide_eq_true in Eo. case_decide as Hen.
  - unfold PostEnrolment. destruct (decode_EnrolmentInfo _) as [info|e]; [|done].
    apply calls_bind; [apply quiet_Enrol|]. by intros [b [e|]].
  - rewrite decide_True by (by destruct Eo). apply quiet_PostRegistration.
Qed.

Lemma quiet_InnerMiddleware roots chain peers r :
  calls (quiet_call auto) (InnerMiddleware initialNamespace mtlsConfig roots chain peers r).
Proof.
  unfold InnerMiddleware. destruct peers as [peers|]; [|done]. apply calls_bind.
  { unfold VerifyRequest, VerifyRequest_one. quiet_tac. }
  intros [auth [[] err]]; [|by split]. apply calls_bind; [apply quiet_handle|done].
Qed.
End HTTP.

(** ** The messages of the end nodes *)

Section Messages.
Context (auto : bool) `{MessageDecoder} `{NodeReuse}.

Lemma quiet_processDeviceLora msg d : calls (quiet_call auto) (processDeviceLora msg d).
Proof. unfold processDeviceLora. quiet_tac. Qed.

(** A WiFi node's device is sent back with the metadata it was read with. *)
Lemma rule_processDeviceWiFi h k msg d :
  shown h k d -> follows (rule auto) h (processDeviceWiFi msg d).
Proof.
  intros Hd. unfold processDeviceWiFi.
  apply follows_bind; [by apply follows_quiet; split|]. intros t1 fields _.
  apply follows_bind; [by apply follows_quiet; split|]. intros t2 tags _. cbv zeta.
  apply follows_bind; [apply follows_quiet, calls_lift|]. intros t3 y _.
  apply follows_bind.
  - split; [|done]. exists k, d. split; [by repeat apply shown_app|]. by destruct y.
  - intros t4 [d' [e|]] _; [done|]. apply follows_quiet. quiet_tac.
Qed.

Lemma rule_receiving topic payload : follows (rule auto) [] (Wireless.f topic payload).
Proof.
  unfold f, processMqttData. case_decide; [|done]. destruct (Unmarshal _) as [msg [e|]]; [done|].
  apply follows_bind; [by split|]. intros t1 [e|] _; [done|].
  apply follows_bind; [by split|]. intros t2 [e|] _; [done|].
  apply follows_bind; [by split|]. intros t3 client_err _.
  apply follows_bind; [by split|]. intros t4 [nsList [e|]] _; [done|].
  apply follows_bind; [|done]. apply follows_for_range. intros h [] ns.
  unfold processNamespace. case_bool_decide; [|done].
  apply follows_bind; [by split|]. intros t5 [d [e|]] He; [done|].
  apply exec_Call_inv in He as (r & t' & -> & [-> [= <-]]%exec_Ret_inv).
  apply follows_bind; [|done]. unfold processDevice. case_decide.
  - apply follows_quiet, quiet_processDeviceLora.
  - apply rule_processDeviceWiFi with (ns, FlottaDeviceID msg). by apply shown_last; [|left].
Qed.
End Messages.

(** Every activity keeps the rule. *)
Lemma rule_code `{Unicode} `{Libs} `{Formatter} `{Crypto} `{Wire} `{MessageDecoder} `{NodeReuse}
    (D : Deployment) a :
  follows (rule (AutoApproval (d_manager D))) [] (code_of D a).
Proof.
  destruct a as [r name ns|peers r|topic payload]; cbn [code_of]; apply follows_fmap.
  - apply rule_reconcile.
  - apply follows_quiet, quiet_InnerMiddleware.
  - apply rule_receiving.
Qed.
