(* ===== verification/ClusterSafety.v ===== *)
(** * Invariants of the whole operator

    What holds in every state the manager, the HTTP server and the rest of the
    cluster can bring about together: registration is final, devices come from
    approved requests.  The invariants are proved by induction over the steps
    of Cluster.v; of the activities they use nothing but the rule of
    ClusterRules.v. *)
From S2P Require Import Prelude GoData GoStrings V1alpha1 Models Env Testbed Labels Utils.
From S2P Require Import ApiServer.
From S2P Require Import Repository Hardware Facade BackendApi Backend Crypto MTLS Yggdrasil.
From S2P Require Import Controller SignedRequest Reconcilers Wireless Onboarding Cluster ClusterRules.
Import v1alpha1.

(** ** What patches do to the mark *)

Notation marked d := (k8s.has_init_label d = true).

Lemma marked_mark d : marked d <-> mark_of d = Some EdgeDeviceSignedRequestLabelValue.
Proof. unfold k8s.has_init_label, mark_of. apply bool_decide_eq_true. Qed.

Lemma merge_map_lookup base obj cur k :
  merge_map base obj cur !! k = if decide (base !! k = obj !! k) then cur !! k else obj !! k.
Proof.
  apply option_eq. intros x. unfold merge_map.
  rewrite lookup_union_Some_raw, !map_lookup_filter_Some, map_lookup_filter_None.
  case_decide as E; [rewrite E|]; naive_solver.
Qed.

Lemma mark_patched base obj cur :
  mark_of (patched_device base obj cur) =
    if decide (mark_of base = mark_of obj) then mark_of cur else mark_of obj.
Proof.
  unfold mark_of, map_get. cbn [patched_device EdgeDevice_ObjectMeta merge_meta Labels].
  unfold merge_labels. destruct (decide (Labels _ = Labels _)) as [E|E].
  - by rewrite E, decide_True.
  - cbn [entries default from_option id]. apply merge_map_lookup.
Qed.

(** ** The steps of the server *)

Lemma device_key_version rv d : device_key (upd_Meta (set_version rv) d) = device_key d.
Proof. done. Qed.
Lemma marked_version rv d : marked (upd_Meta (set_version rv) d) <-> marked d.
Proof. done. Qed.

(** A write that keeps the name and the identity and does not mark. *)
Lemma writes_device_evolve h obj k accepts change o r o' :
  device_key obj = k ->
  (forall cur, o_devices o !! k = Some cur -> accepts cur ->
    device_key (change cur) = k /\ k.2 <> "" /\ device_uid (change cur) = device_uid cur /\
    (marked (change cur) -> marked cur)) ->
  writes_device h obj accepts change o r o' ->
  devices_evolve h o o' /\ o_requests o' = o_requests o /\
  (forall d, r = (d, None) -> o_devices o' !! k = Some d).
Proof.
  intros <- Hc [(-> & _ & [e He])|(cur & d & Hcur & Ha & Hst & -> & Hr)].
  { split; [by left|]. split; [done|]. intros d ->. done. }
  destruct (Hc cur Hcur Ha) as (Hk & Hn & Hu & Hm). split; [|split; [done|]].
  - intros k' d' Hd'. cbn [set_o_devices o_devices] in Hd'.
    apply lookup_insert_Some in Hd' as [[<- <-]|[_ ?]]; [|by left].
    destruct Hst as [[_ ->]|(rv & Hrv & ->)]; [by left|right].
    split; [by rewrite device_key_version|]. split; [done|]. split; [done|]. right. by exists cur.
  - intros d' ->. destruct Hr as [[= <-]|[_ [? ?]]]; [|done]. apply lookup_insert_eq.
Qed.

Lemma devices_evolve_refl h o : devices_evolve h o o.
Proof. by left. Qed.

Lemma devices_evolve_same h o o' : o_devices o' = o_devices o -> devices_evolve h o o'.
Proof. intros E k d' Hd'. left. by rewrite <-E. Qed.

Lemma writes_request_kept k change o r o' :
  (forall cur, request_key (change cur) = request_key cur) -> requests_kept_by_name o ->
  writes_request k change o r o' ->
  o_devices o' = o_devices o /\ requests_kept_by_name o'.
Proof.
  intros Hc Hk [[-> _]|(cur & rv & Hcur & -> & _)]; [done|]. split; [done|].
  intros k' q Hq. cbn [set_o_requests o_requests] in Hq.
  apply lookup_insert_Some in Hq as [[<- <-]|[_ ?]]; [|by apply Hk].
  change (request_key (change cur) = k /\ k.2 <> ""). rewrite Hc. by apply Hk.
Qed.

(** ** The invariant *)

Section Safety.
Context `{Unicode} `{Libs} `{Formatter} `{Crypto} `{Wire} `{MessageDecoder} `{NodeReuse}.
Context (D : Deployment).
Notation auto := (AutoApproval (d_manager D)).

Definition in_history (h : list Objects) (k : key) (d : EdgeDevice) : Prop :=
  exists o, o ∈ h /\ o_devices o !! k = Some d.

(** The server's past: every object under its name, a version says what the
    device was, and the mark of a device does not come back. *)
Record past_ok (h : list Objects) : Prop := {
  past_kept o : o ∈ h -> well_kept o;
  past_versions k d1 d2 :
    in_history h k d1 -> in_history h k d2 -> device_rv d1 = device_rv d2 -> d1 = d2;
  past_marks i j o1 o2 k d1 d2 :
    i <= j -> h !! i = Some o1 -> h !! j = Some o2 ->
    o_devices o1 !! k = Some d1 -> o_devices o2 !! k = Some d2 ->
    device_uid d1 = device_uid d2 -> marked d2 -> marked d1;
}.

Lemma in_history_snoc h o k d :
  in_history (h ++ [o]) k d <-> in_history h k d \/ o_devices o !! k = Some d.
Proof.
  unfold in_history. setoid_rewrite elem_of_app. setoid_rewrite list_elem_of_singleton. naive_solver.
Qed.

(** What changed has a version nothing before had. *)
Lemma evolved_version h o o' k d d' :
  devices_evolve h o o' -> o ∈ h -> o_devices o' !! k = Some d' -> in_history h k d ->
  device_rv d = device_rv d' -> in_history h k d'.
Proof.
  intros He Ho Hd' (o1 & Ho1 & Hd) Hrv. destruct (He k d' Hd') as [?|(_ & _ & [_ Hf] & _)];
    [by exists o|]. by destruct (Hf o1 k d Ho1 Hd).
Qed.

(** And what is marked was marked before, if it was there. *)
Lemma evolved_mark h o o' k d d' :
  devices_evolve h o o' -> o_devices o' !! k = Some d' -> in_history h k d ->
  device_uid d = device_uid d' -> marked d' ->
  exists d0, o_devices o !! k = Some d0 /\ device_uid d0 = device_uid d' /\ marked d0.
Proof.
  intros He Hd' (o1 & Ho1 & Hd) Hu Hm.
  destruct (He k d' Hd') as [?|(_ & _ & _ & [Hf|(d0 & ? & ? & ?)])]; [by exists d'| |].
  - by destruct (Hf o1 k d Ho1 Hd).
  - exists d0. auto.
Qed.

Lemma past_ok_snoc h o o' :
  past_ok h -> last h = Some o -> devices_evolve h o o' -> requests_kept_by_name o' ->
  past_ok (h ++ [o']).
Proof.
  intros [Hk Hv Hm] Hl He Hq. assert (o ∈ h) as Ho by exact (last_Some_elem_of _ _ Hl). split.
  - intros o1 [Ho1| ->%list_elem_of_singleton]%elem_of_app; [by apply Hk|]. split; [|done].
    intros k d Hd. destruct (He k d Hd) as [?|(? & ? & [? _] & _)]; [by apply (Hk o)|done].
  - intros k d1 d2 [Ha|Ha]%in_history_snoc [Hb|Hb]%in_history_snoc Hrv; [by apply (Hv k)| | |].
    + apply (Hv k); [done| |done]. by eapply evolved_version.
    + apply (Hv k); [|done..]. by eapply evolved_version.
    + congruence.
  - intros i j o1 o2 k d1 d2 Hij Ha Hb Hd1 Hd2 Hu Hmk.
    apply lookup_app_Some in Hb as [Hb|[Hj Hb]].
    { assert (i < length h) as Hi by (apply lookup_lt_Some in Hb; lia).
      rewrite lookup_app_l in Ha by done. by eapply (Hm i j). }
    apply list_lookup_singleton_Some in Hb as [Hj' <-].
    apply lookup_app_Some in Ha as [Ha|[_ [_ <-]%list_lookup_singleton_Some]]; [|congruence].
    destruct (evolved_mark h o o' k d1 d2 He Hd2) as (d0 & Hd0 & Hu0 & Hm0); [|done..|].
    { exists o1. split; [by apply list_elem_of_lookup_2 in Ha|done]. }
    eapply (Hm i (pred (length h))); [|done| |done|exact Hd0|congruence|done].
    + apply lookup_lt_Some in Ha. lia.
    + by rewrite last_lookup in Hl.
Qed.

(** What an activity has been shown, it has been shown by the server. *)
Definition shown_ok (h : list Objects) (tr : list Event) : Prop :=
  forall k d, shown tr k d -> in_history h k d.

Lemma past_key h k d : past_ok h -> in_history h k d -> device_key d = k /\ k.2 <> "" /\ device_rv d <> "".
Proof. intros [Hk _ _] (o & Ho & Hd). by apply (Hk o Ho). Qed.

(** A patch of a device that keeps the rule does not mark. *)
Lemma patch_does_not_mark h o tr base obj cur :
  past_ok h -> o ∈ h -> shown_ok h tr -> rule auto tr (PatchEdgeDevice base obj) ->
  o_devices o !! device_key obj = Some cur -> version_accepted base obj cur ->
  marked (patched_device base obj cur) -> marked cur.
Proof.
  intros Hp Ho Hs Hr Hcur Hv. rewrite !marked_mark, mark_patched.
  case_decide as E; [done|].
  destruct Hr as [[Hm|Hm]|(k & Hb%Hs & Hobj%Hs)]; [congruence| |].
  { by rewrite Hm. }
  destruct (past_key _ _ _ Hp Hobj) as (Hko & _ & Hne). destruct (past_key _ _ _ Hp Hb) as [Hkb _].
  rewrite Hko in Hcur. assert (in_history h (device_key base) cur) as Hc by (by exists o).
  rewrite <-Hkb in Hb. destruct Hv as [Hv|[Hv|Hv]]; [|done|].
  - destruct E. f_equal. exact (past_versions _ Hp _ _ _ Hb Hobj Hv).
  - by rewrite (past_versions _ Hp _ _ _ Hobj Hc Hv).
Qed.

(** Nor does an update. *)
Lemma update_does_not_mark h o tr obj cur :
  past_ok h -> o ∈ h -> shown_ok h tr -> rule auto tr (UpdateEdgeDevice obj) ->
  o_devices o !! device_key obj = Some cur -> device_rv obj = device_rv cur ->
  marked (updated_device obj cur) -> marked cur.
Proof.
  intros Hp Ho Hs (k & d & Hd%Hs & Hm) Hcur Hv.
  destruct (past_key _ _ _ Hp Hd) as [Hk _].
  assert (device_key obj = k) as Hko by (unfold device_key in *; by rewrite Hm).
  rewrite Hko in Hcur.
  assert (d = cur) as ->.
  { apply (past_versions _ Hp k); [done|by exists o|]. unfold device_rv in *. by rewrite <-Hm. }
  rewrite !marked_mark. unfold mark_of. cbn [updated_device EdgeDevice_ObjectMeta Labels].
  by rewrite Hm.
Qed.

(** What a call does to the objects, and what it shows. *)
Definition call_ok (h : list Objects) (o o' : Objects) (c : Req) (r : Resp c) : Prop :=
  devices_evolve h o o' /\ requests_kept_by_name o' /\
  forall k d, asked c d = Some k -> d ∈ seen (Ev c r) -> in_history (h ++ [o']) k d.

Lemma call_ok_other h o o' c r :
  requests_kept_by_name o' -> o_devices o' = o_devices o -> (forall d, asked c d = None) -> call_ok h o o' c r.
Proof.
  intros ? E Ha. split_and!; [by apply devices_evolve_same|done|]. intros k d. by rewrite Ha.
Qed.

Lemma call_ok_write h o o' c r obj accepts change (r' : EdgeDevice * option error) :
  well_kept o -> (forall d, asked c d = Some (device_key obj)) ->
  (forall cur, o_devices o !! device_key obj = Some cur -> accepts cur ->
    device_key (change cur) = device_key cur /\ device_uid (change cur) = device_uid cur /\
    (marked (change cur) -> marked cur)) ->
  writes_device h obj accepts change o r' o' ->
  (forall d, d ∈ seen (Ev c r) -> r' = (d, None)) -> call_ok h o o' c r.
Proof.
  intros [Hkd Hkr] Hk Hc Hw Hseen.
  assert (forall cur, o_devices o !! device_key obj = Some cur -> accepts cur ->
    device_key (change cur) = device_key obj /\ (device_key obj).2 <> "" /\
    device_uid (change cur) = device_uid cur /\ (marked (change cur) -> marked cur)) as Hc'.
  { intros cur Hcur Ha. destruct (Hc cur Hcur Ha) as (-> & ? & ?).
    by destruct (Hkd _ _ Hcur) as (-> & ? & _). }
  destruct (writes_device_evolve _ _ _ _ _ _ _ _ eq_refl Hc' Hw) as (He & Hq & Hd).
  split; [done|]. split; [intros k' q; rewrite Hq; apply Hkr|].
  intros k' d Hk' Hin. rewrite Hk in Hk'. injection Hk' as <-. apply in_history_snoc. right.
  by apply Hd, Hseen.
Qed.

Lemma call_ok_create_device h o o' d r :
  well_kept o -> serves h o (CreateEdgeDevice d) o' r -> call_ok h o o' (CreateEdgeDevice d) r.
Proof.
  intros [_ Hkr] [[-> _]|(Hnone & Hne & uid & rv & Hu & Hrv & ->)]; [by apply call_ok_other|].
  split_and!; [|exact Hkr|done]. intros k d' Hd'. cbn [set_o_devices o_devices] in Hd'.
  apply lookup_insert_Some in Hd' as [[<- <-]|[_ ?]]; [right|by left].
  split; [done|]. split; [done|]. split; [done|by left].
Qed.

Lemma call_ok_create_request h o o' q r :
  well_kept o -> serves h o (CreateEDSR q) o' r -> call_ok h o o' (CreateEDSR q) r.
Proof.
  intros [_ Hkr] [[-> _]|(Hnone & Hne & uid & rv & ->)]; [by apply call_ok_other|].
  apply call_ok_other; [|done..]. intros k q' Hq. cbn [set_o_requests o_requests] in Hq.
  apply lookup_insert_Some in Hq as [[<- <-]|[_ ?]]; [done|by apply Hkr].
Qed.

Lemma call_ok_delete_request h o o' q r :
  well_kept o -> serves h o (DeleteEDSR q) o' r -> call_ok h o o' (DeleteEDSR q) r.
Proof.
  intros [_ Hkr] [[-> _]| ->]; apply call_ok_other; try done.
  intros k q' Hq. cbn [set_o_requests o_requests] in Hq.
  apply lookup_delete_Some in Hq as [_ ?]. by apply Hkr.
Qed.

Ltac seen_answer r := intros ?; destruct r as [? [?|]]; set_solver.

Lemma serves_ok h o tr c o' r :
  past_ok h -> last h = Some o -> shown_ok h tr ->
  rule auto tr c -> serves h o c o' r -> call_ok h o o' c r.
Proof.
  intros Hp Hl Hs Hr Hsv. pose proof (last_Some_elem_of _ _ Hl) as Ho.
  pose proof (past_kept _ Hp o Ho) as Hk. pose proof (proj2 Hk) as Hkr.
  destruct c; cbn [serves] in Hsv; try (subst o'; by apply call_ok_other).
  - destruct Hsv as [-> Hrd]. split_and!; [apply devices_evolve_refl|exact Hkr|].
    intros k d [= <-] Hin. destruct r as [d1 [e|]]; cbn [seen] in Hin; [by apply elem_of_nil in Hin|].
    apply list_elem_of_singleton in Hin as ->.
    destruct Hrd as [[_ [? ?]]|(o1 & Ho1 & Hd)]; [done|].
    apply in_history_snoc. left. by exists o1.
  - destruct Hsv as [-> _]. by apply call_ok_other.
  - destruct Hsv as [-> Hrd]. split_and!; [apply devices_evolve_refl|exact Hkr|].
    intros k d [= <-] Hin. destruct r as [ds [e|]]; cbn [seen] in Hin; [by apply elem_of_nil in Hin|].
    destruct Hrd as [[? ?]|Hrd]; [done|]. apply in_history_snoc. left.
    exact (proj1 (Forall_forall _ _) Hrd d Hin).
  - by apply call_ok_create_device.
  - by apply call_ok_create_request.
  - eapply call_ok_write; [done|done| |exact Hsv|seen_answer r]. intros cur Hcur Hv.
    split; [done|]. split; [done|]. by eapply patch_does_not_mark.
  - eapply call_ok_write; [done|done| |exact Hsv|seen_answer r]. by intros cur _ _.
  - apply writes_request_kept in Hsv as [? ?]; [by apply call_ok_other|done|done].
  - apply writes_request_kept in Hsv as [? ?]; [by apply call_ok_other|done|done].
  - eapply call_ok_write; [done|done| |exact Hsv|seen_answer r]. intros cur Hcur Hv.
    split; [done|]. split; [done|]. by eapply update_does_not_mark.
  - eapply call_ok_write; [done|done| |exact Hsv|seen_answer r]. by intros cur _ _.
  - by apply call_ok_delete_request.
Qed.

(** An activity under way: what is left of it keeps the rule and completes an
    execution of its code; what it was shown is in the past. *)
Record thread_ok (h : list Objects) (th : thread) : Prop := {
  thread_rule : follows (rule auto) (t_trace th) (t_rest th);
  thread_exec t o : exec (t_rest th) t o -> exec (code_of D (t_activity th)) (t_trace th ++ t) o;
  thread_shown : shown_ok h (t_trace th);
  thread_requests ns n q : Ev (GetEDSR ns n) (q, None) ∈ t_trace th ->
    exists o, o ∈ h /\ o_requests o !! (ns, n) = Some q;
  thread_refused base obj d e : Ev (PatchEdgeDeviceStatus base obj) (d, Some e) ∈ t_trace th -> d = obj;
}.

Lemma thread_ok_snoc h o th : thread_ok h th -> thread_ok (h ++ [o]) th.
Proof.
  intros [Hr He Hs Hq Href]. split; [done|done| | |done].
  - intros k d Hd. apply in_history_snoc. left. by apply Hs.
  - intros ns n q Hin. destruct (Hq ns n q Hin) as (o1 & ? & ?). exists o1. set_solver.
Qed.

Lemma thread_ok_start h a n : thread_ok h (mkThread a n [] (code_of D a)).
Proof.
  split; cbn [t_trace t_rest t_activity t_start].
  - apply rule_code.
  - done.
  - intros k d (e & He & _). by apply elem_of_nil in He.
  - intros ns n' q Hin. by apply elem_of_nil in Hin.
  - intros base obj d e Hin. by apply elem_of_nil in Hin.
Qed.

Record system_ok (s : state) : Prop := {
  system_past : past_ok (history s);
  system_threads : Forall (thread_ok (history s)) (s_threads s);
}.

Lemma last_history s : last (history s) = Some (s_now s).
Proof. apply last_snoc. Qed.

Lemma step_call_ok s i th c k r o' :
  system_ok s -> s_threads s !! i = Some th -> t_rest th = Call c k ->
  serves (history s) (s_now s) c o' r ->
  past_ok (history s ++ [o']) /\
  thread_ok (history s ++ [o'])
    (mkThread (t_activity th) (t_start th) (t_trace th ++ [Ev c r]) (k r)).
Proof.
  intros [Hp Hts] Hi Hc Hsv.
  set (served e := serves (history s) (s_now s) (ev_req e) o' (ev_resp e)). pose proof (Forall_lookup_1 _ _ _ _ Hts Hi) as Hth.
  destruct Hth as [Hr He Hs Hq Href]. rewrite Hc in Hr, He. destruct Hr as [Hrc Hrk].
  destruct (serves_ok _ _ _ _ _ _ Hp (last_history s) Hs Hrc Hsv)
    as (Hev & Hkr & Hshow).
  split; [by eapply past_ok_snoc; [|apply last_history| |]|].
  split; cbn [t_trace t_rest t_activity t_start].
  - apply Hrk.
  - intros t o Hx. rewrite <-(assoc_L (++)). apply He. by constructor.
  - intros k' d (e & [He'| ->%list_elem_of_singleton]%elem_of_app & Ha & Hin); [|by apply Hshow].
    apply in_history_snoc. left. apply Hs. by exists e.
  - intros ns n q [Hin|Hin%list_elem_of_singleton]%elem_of_app.
    { destruct (Hq ns n q Hin) as (o1 & ? & ?). exists o1. set_solver. }
    change (served (Ev c r)) in Hsv. rewrite <-Hin in Hsv.
    destruct Hsv as [_ [[_ [? ?]]|(o1 & Ho1 & ?)]]; [done|].
    exists o1. split; [|done]. apply elem_of_app. by left.
  - intros base obj d e [Hin|Hin%list_elem_of_singleton]%elem_of_app; [by eapply Href|].
    change (served (Ev c r)) in Hsv. rewrite <-Hin in Hsv.
    by destruct Hsv as [(_ & ? & _)|(cur & d' & _ & _ & _ & _ & [?|[? _]])].
Qed.
Lemma history_becomes s o threads : history (becomes s o threads) = history s ++ [o].
Proof. done. Qed.

Lemma system_ok_step s a s' : system_ok s -> step D s a s' -> system_ok s'.
Proof.
  intros [Hp Hts] Hst. destruct Hst as [o' [He Hk]|a|i th c k r o' Hi Hc Hsv].
  - split; rewrite history_becomes; [by eapply past_ok_snoc; [|apply last_history| |]|].
    eapply Forall_impl; [exact Hts|]. intros th. apply thread_ok_snoc.
  - split; [done|]. apply Forall_app. split; [done|]. apply Forall_singleton.
    apply thread_ok_start.
  - destruct (step_call_ok s i th c k r o') as [Hp' Hth']; [by split|done..|].
    split; rewrite history_becomes; [done|]. apply Forall_insert; [|done].
    eapply Forall_impl; [exact Hts|]. intros th'. apply thread_ok_snoc.
Qed.

Lemma system_ok_initial s : initial s -> system_ok s.
Proof.
  intros (Hp & Hts & Hk). split; [|by rewrite Hts]. unfold history. rewrite Hp. cbn [app].
  assert (forall k d, in_history [s_now s] k d -> o_devices (s_now s) !! k = Some d) as Hin
    by (by intros k d (o & ->%list_elem_of_singleton & ?)).
  split.
  - by intros o ->%list_elem_of_singleton.
  - intros k d1 d2 Ha%Hin Hb%Hin _. congruence.
  - intros i j o1 o2 k d1 d2 _ [_ <-]%list_lookup_singleton_Some
      [_ <-]%list_lookup_singleton_Some. congruence.
Qed.

Lemma system_ok_reachable s : reachable D s -> system_ok s.
Proof.
  intros (s0 & Hs0 & Hsteps). apply system_ok_initial in Hs0.
  induction Hsteps as [|s1 s2 s3 [a Hst] _ IH]; [done|]. by eapply IH, system_ok_step.
Qed.

(** ** Where devices and approvals come from *)

Lemma serves_creates h o tr c o' r (k : key) d :
  rule auto tr c -> serves h o c o' r ->
  o_devices o !! k = None -> o_devices o' !! k = Some d ->
  marked d /\ exists ns n q, Ev (GetEDSR ns n) (q, None) ∈ tr /\ approved q = true /\
    k = (target q, Name (EdgeDeviceSignedRequest_ObjectMeta q)).
Proof.
  intros Hr Hsv Hn Hd.
  assert (o_devices o' <> o_devices o) as Hne by congruence.
  assert (forall k' accepts change r', ~ writes_device h k' accepts change o r' o') as Hw.
  { intros k' accepts change r' [[-> _]|(cur & d' & Hcur & _ & _ & -> & _)]; [congruence|].
    cbn [set_o_devices o_devices] in Hd. apply lookup_insert_Some in Hd as [[<- _]|[_ ?]]; congruence. }
  assert (forall k' change r', ~ writes_request k' change o r' o') as Hq.
  { intros k' change r' [[-> _]|(cur & rv & _ & -> & _)]; by destruct Hne. }
  destruct c; cbn [serves] in Hsv;
    try (subst o'; congruence); try (destruct Hsv as [-> _]; congruence);
    try (by apply Hw in Hsv); try (by apply Hq in Hsv).
  - destruct Hsv as [[-> _]|(_ & _ & uid & rv & _ & _ & ->)]; [congruence|].
    cbn [set_o_devices o_devices] in Hd. apply lookup_insert_Some in Hd as [[<- <-]|[_ ?]]; [|congruence].
    destruct Hr as (ns & n & q & now & Hin & Ha & ->). split.
    + exact (new_device_has_init_label q now).
    + by exists ns, n, q.
  - destruct Hsv as [[-> _]|(_ & _ & uid & rv & ->)]; by destruct Hne.
  - destruct Hsv as [[-> _]| ->]; by destruct Hne.
Qed.

(** Without automatic approval. *)
Lemma serves_approves h o tr c o' r k q :
  auto = false -> rule auto tr c -> serves h o c o' r ->
  o_requests o' !! k = Some q -> approved q = true ->
  exists q0, o_requests o !! k = Some q0 /\ approved q0 = true.
Proof.
  intros Hauto Hr Hsv Hq Ha.
  assert (o_requests o' = o_requests o -> exists q0, o_requests o !! k = Some q0 /\ approved q0 = true)
    as Hsame by (intros E; rewrite E in Hq; by exists q).
  assert (forall k' accepts change r', writes_device h k' accepts change o r' o' ->
    o_requests o' = o_requests o) as Hw.
  { by intros k' accepts change r' [[-> _]|(cur & d' & _ & _ & _ & -> & _)]. }
  assert (forall k' change r', (forall cur, approved (change cur) = true -> approved cur = true) ->
    writes_request k' change o r' o' ->
    exists q0, o_requests o !! k = Some q0 /\ approved q0 = true) as Hp.
  { intros k' change r' Hc [[-> _]|(cur & rv & Hcur & -> & _)]; [by apply Hsame|].
    cbn [set_o_requests o_requests] in Hq. apply lookup_insert_Some in Hq as [[<- <-]|[_ Hq]]; [|by exists q]. exists cur. auto. }
  destruct c; cbn [serves] in Hsv;
    try (subst o'; by apply Hsame); try (destruct Hsv as [-> _]; by apply Hsame);
    try (apply Hw in Hsv; by apply Hsame).
  - destruct Hsv as [[-> _]|(_ & _ & uid & rv & _ & _ & ->)]; by apply Hsame.
  - destruct Hsv as [[-> _]|(_ & _ & uid & rv & ->)]; [by apply Hsame|].
    cbn [set_o_requests o_requests] in Hq. apply lookup_insert_Some in Hq as [[<- <-]|[_ Hq]]; [|by exists q].
    change (approved r0 = true) in Ha. cbn in Hr. congruence.
  - apply Hp in Hsv; [done|]. intros cur. unfold approved. cbn [patched_request
      EdgeDeviceSignedRequest_Spec merge_request_spec EdgeDeviceSignedRequestSpec_Approved].
    destruct Hr as [->|Hr]; [unfold merge_field; by rewrite decide_True|].
    unfold merge_field. case_decide; congruence.
  - apply Hp in Hsv; [done|]. by intros cur.
  - destruct Hsv as [[-> _]| ->]; [by apply Hsame|].
    cbn [set_o_requests o_requests] in Hq. apply lookup_delete_Some in Hq as [_ Hq]. by exists q.
Qed.

(** ** The properties *)

(** C2: registration is final: once a device is not marked as never registered, no
    reconciler, no request of any device, no message and no race between them
    marks it again; only another device under its name is marked. *)
Theorem registration_is_final s i j o1 o2 k d1 d2 :
  reachable D s -> history s !! i = Some o1 -> history s !! j = Some o2 -> i <= j ->
  o_devices o1 !! k = Some d1 -> o_devices o2 !! k = Some d2 -> device_uid d1 = device_uid d2 ->
  k8s.has_init_label d1 = false -> k8s.has_init_label d2 = false.
Proof.
  intros [Hp _]%system_ok_reachable Hi Hj Hij Hd1 Hd2 Hu Hm.
  destruct (k8s.has_init_label d2) eqn:E; [|done]. rewrite <-Hm. symmetry.
  by eapply (past_marks _ Hp i j).
Qed.
(** C3: devices come from approved requests: whatever runs at the same time, a step
    of the operator that adds a device adds one that is marked as never
    registered, under the name and in the namespace of a request that somebody
    approved before; and without automatic approval no step of the operator
    approves a request. *)
Theorem devices_are_approved s s' :
  reachable D s -> step D s Operator s' ->
  (forall (k : key) d, o_devices (s_now s) !! k = None -> o_devices (s_now s') !! k = Some d ->
    k8s.has_init_label d = true /\
    exists o q, o ∈ history s /\ o_requests o !! request_key q = Some q /\ approved q = true /\
      k = (target q, Name (EdgeDeviceSignedRequest_ObjectMeta q))) /\
  (auto = false -> forall k q, o_requests (s_now s') !! k = Some q -> approved q = true ->
    exists q0, o_requests (s_now s) !! k = Some q0 /\ approved q0 = true).
Proof.
  intros [Hp Hts]%system_ok_reachable Hst. inversion Hst as [| |i th c k r o' Hi Hc Hsv]; subst s'.
  { split; [intros k d; cbn [s_now]; congruence|]. intros _ k q Hq Ha. by exists q. }
  destruct (Forall_lookup_1 _ _ _ _ Hts Hi) as [Hr _ _ Hq _]. rewrite Hc in Hr.
  destruct Hr as [Hr _]. split.
  - intros k' d Hn Hd.
    destruct (serves_creates _ _ _ _ _ _ _ _ Hr Hsv Hn Hd) as (Hm & ns & n & q & Hin & Ha & ->).
    split; [done|]. destruct (Hq _ _ _ Hin) as (o & Ho & Hoq).
    exists o, q. split_and!; [done| |done..].
    destruct (past_kept _ Hp o Ho) as [_ Hk]. by rewrite (proj1 (Hk _ _ Hoq)).
  - intros Hauto k' q. by eapply serves_approves.
Qed.

(** A registration of the device [id] that does not present the device's own
    certificate, and has been answered with a certificate. *)
Definition certified (id : string) (th : thread) : Prop :=
  exists leaf peers msg resp,
    t_activity th = Serving (Some (leaf :: peers)) (PostData id msg) /\
    models.Message_Directive msg = "registration" /\
    foreign (Some (request_identity leaf)) id /\
    t_rest th = Ret (Served (inr resp)) /\ payload resp <> NoPayload.

(** A certificate for a device that does not present its own is given on the
    evidence of a moment before the device first registered: the device was
    there, and up to that moment it had never been without the mark. *)
Theorem registered_on_evidence s th id :
  reachable D s -> th ∈ s_threads s -> certified id th ->
  exists i o ns d, history s !! i = Some o /\
    o_devices o !! (ns, id) = Some d /\
    forall j o' d', j <= i -> history s !! j = Some o' -> o_devices o' !! (ns, id) = Some d' ->
      device_uid d' = device_uid d -> k8s.has_init_label d' = true.
Proof.
  intros [Hp Hts]%system_ok_reachable Hin (leaf & peers & msg & resp & Ha & Hd & Hf & Hrest & Hpay).
  rewrite Forall_forall in Hts. destruct (Hts th Hin) as [_ He Hs _ _].
  rewrite Hrest, Ha in He. specialize (He [] (Done (Served (inr resp))) ltac:(constructor)).
  rewrite app_nil_r in He. cbn [code_of] in He. apply exec_fmap_inv in He as [[_ ?]|(a & He & [= <-])];
    [done|].
  apply exec_InnerMiddleware_answered in He as (leaf' & peers' & [= <- <-] & He).
  cbn [handle] in He.
  apply exec_k8s_registration in He
    as (info & ns & crt & t1 & t2 & t3 & _ & Ht & (t0 & d & -> & _ & Hok) & _); [|done|done].
  rewrite <-own_certificate_of_spec, (IsOwnDevice_foreign _ _ Hf) in Hok.
  destruct Hok as [Hm%has_init_label_spec|?]; [|done].
  assert (Ev (GetEdgeDevice ns id) (d, None) ∈ t_trace th) as Hget by (rewrite Ht; set_solver).
  destruct (Hs (ns, id) d) as (o & [i Ho]%list_elem_of_lookup & Hod).
  { exists (Ev (GetEdgeDevice ns id) (d, None)). split_and!; [done|done|left]. }
  exists i, o, ns, d. split_and!; [done..|]. intros j o' d' Hj Ho' Hd' Hu.
  by eapply (past_marks _ Hp j i).
Qed.
End Safety.

(** ** Runs *)

#[local] Existing Instance ascii_tables.
#[local] Existing Instance trivial_libs.
#[local] Existing Instance trivial_formatter.
#[local] Existing Instance example_wire.
#[local] Instance no_messages : MessageDecoder :=
  fun _ => (mkMessage "" "" "" "" "" "" "" "" "" "" "" None false "" "" 0 0 0 "" "" "" "" "" "" None "", None).
#[local] Instance nothing_reused : NodeReuse := fun _ _ d => d.

Definition example_deployment : Deployment :=
  mkDeployment manager_config "init" example_conf [] [Some example_ca].

(** A cluster with a request somebody has approved, and nothing else. *)
Definition approved_request : EdgeDeviceSignedRequest :=
  mkEdgeDeviceSignedRequest empty_TypeMeta (named "d1" "init")
    (mkEdgeDeviceSignedRequestSpec "ns" "" true None) (mkEdgeDeviceSignedRequestStatus None).
Definition example_start : state :=
  mkState [] (mkObjects ∅ {[("init", "d1") := approved_request]}) [].

Definition registering : activity :=
  Serving (Some [register_cert]) (PostData "d1" (message "registration")).

(** The device is created; one registration, and two at the same time. *)
Definition creating : list move :=
  Start (Reconciling EdgeDeviceSignedRequestReconciler "d1" "init") :: replicate 3 (Go 0).
Definition created : list move := creating ++ [Go 0].
Definition one_registers : list move := created ++ Start registering :: replicate 11 (Go 1).
Definition two_register : list move :=
  created ++ [Start registering; Start registering; Go 1; Go 1; Go 2; Go 2]
    ++ replicate 9 (Go 1) ++ replicate 9 (Go 2).

Definition after (ms : list move) : state := default example_start (play example_deployment empty_world ms example_start).

Lemma example_initial : initial example_start.
Proof.
  split; [done|]. split; [done|]. split; [by intros k d|].
  intros k r Hr. cbn in Hr.
  apply lookup_singleton_Some in Hr as [<- <-]. by split.
Qed.

Definition plays (ms : list move) : bool :=
  match play example_deployment empty_world ms example_start with Some _ => true | None => false end.

Lemma after_reachable ms : plays ms = true -> reachable example_deployment (after ms).
Proof.
  unfold plays, after. destruct (play _ _ ms _) as [s|] eqn:Hs; [intros _|done].
  apply (play_reachable _ empty_world ms example_start); [apply example_initial|exact Hs].
Qed.

(** An answered registration with the shared certificate. *)
Lemma certified_registering start tr resp :
  payload resp <> NoPayload ->
  certified "d1" (mkThread registering start tr (Ret (Served (inr resp)))).
Proof.
  intros Hp. exists register_cert, [], (message "registration"), resp.
  split_and!; [done|done| |done|done]. right. intros val [= <-]. vm_compute. discriminate.
Qed.

(** Two registrations with the shared certificate at the same time both
    succeed: each reads the device before either has removed the mark. *)
Theorem registration_races :
  exists s i j th1 th2, reachable example_deployment s /\ i <> j /\
    s_threads s !! i = Some th1 /\ s_threads s !! j = Some th2 /\
    certified "d1" th1 /\ certified "d1" th2.
Proof.
  exists (after two_register), 1, 2. do 2 eexists. split_and!.
  - apply after_reachable. vm_compute. reflexivity.
  - done.
  - vm_compute. reflexivity.
  - vm_compute. reflexivity.
  - apply certified_registering. discriminate.
  - apply certified_registering. discriminate.
Qed.

(** The first registration has ended before the second one starts, whose cache
    is still in the state the device was created in. *)
Definition registering_again : list move := [Start registering; Go 2; Lag 2 4] ++ replicate 9 (Go 2).
Definition registers_again : list move := one_registers ++ registering_again.

Lemma after_steps ms1 ms2 :
  plays ms1 = true -> plays (ms1 ++ ms2) = true ->
  rtc (fun s s' => exists a, step example_deployment s a s') (after ms1) (after (ms1 ++ ms2)).
Proof.
  unfold plays, after. destruct (play _ _ ms1 _) as [s1|] eqn:E1; [intros _|done].
  rewrite (play_app _ _ _ _ _ _ E1). destruct (play _ _ ms2 s1) as [s2|] eqn:E2; [intros _|done].
  by eapply play_steps.
Qed.

(** Registering does not make the shared certificate useless at once: a
    registration that starts after the device has registered may be answered
    with a certificate again, because the device is read from a cache. *)
Theorem registration_accepted_again :
  exists s1 s2 i j th1 th2,
    reachable example_deployment s1 /\
    rtc (fun s s' => exists a, step example_deployment s a s') s1 s2 /\
    s_threads s1 !! i = Some th1 /\ certified "d1" th1 /\
    s_threads s2 !! j = Some th2 /\ certified "d1" th2 /\ length (s_past s1) <= t_start th2.
Proof.
  exists (after one_registers), (after registers_again), 1, 2. do 2 eexists. split_and!.
  - apply after_reachable. vm_compute. reflexivity.
  - apply (after_steps one_registers registering_again); vm_compute; reflexivity.
  - vm_compute. reflexivity.
  - apply certified_registering. discriminate.
  - vm_compute. reflexivity.
  - apply certified_registering. discriminate.
  - vm_compute. lia.
Qed.

Lemma registered_on_evidence_witness :
  exists th, th ∈ s_threads (after one_registers) /\ certified "d1" th /\
    exists i o ns d, history (after one_registers) !! i = Some o /\ o_devices o !! (ns, "d1") = Some d.
Proof.
  assert (reachable example_deployment (after one_registers)) as Hr
    by (apply after_reachable; vm_compute; reflexivity).
  eexists. assert (s_threads (after one_registers) !! 1 = Some _) as Hth by (vm_compute; reflexivity).
  apply list_elem_of_lookup_2 in Hth. split; [exact Hth|].
  match type of Hth with ?th ∈ _ => assert (certified "d1" th) as Hc
    by (apply certified_registering; discriminate) end.
  split; [exact Hc|].
  destruct (registered_on_evidence example_deployment _ _ "d1" Hr Hth Hc) as (i & o & ns & d & Ho & Hd & _).
  exists i, o, ns, d. split; [exact Ho|exact Hd].
Defined.

Lemma registration_is_final_witness :
  exists o1 o2 d1 d2,
    history (after one_registers) !! 14 = Some o1 /\ history (after one_registers) !! 15 = Some o2 /\
    o_devices o1 !! ("ns", "d1") = Some d1 /\ o_devices o2 !! ("ns", "d1") = Some d2 /\
    k8s.has_init_label d1 = false /\ k8s.has_init_label d2 = false.
Proof.
  assert (reachable example_deployment (after one_registers)) as Hr
    by (apply after_reachable; vm_compute; reflexivity).
  do 4 eexists.
  assert (history (after one_registers) !! 14 = Some _) as H1 by (vm_compute; reflexivity).
  assert (history (after one_registers) !! 15 = Some _) as H2 by (vm_compute; reflexivity).
  split; [exact H1|]. split; [exact H2|].
  split; [vm_compute; reflexivity|]. split; [vm_compute; reflexivity|].
  split; [vm_compute; reflexivity|].
  refine (registration_is_final example_deployment _ 14 15 _ _ ("ns", "d1") _ _ Hr H1 H2 _ _ _ _ _);
    [lia|vm_compute; reflexivity..].
Defined.

Lemma devices_are_approved_witness :
  o_devices (s_now (after creating)) !! ("ns", "d1") = None /\
  exists d, o_devices (s_now (after created)) !! ("ns", "d1") = Some d /\ k8s.has_init_label d = true /\
    exists o q, o ∈ history (after creating) /\ o_requests o !! request_key q = Some q /\
      approved q = true.
Proof.
  assert (reachable example_deployment (after creating)) as Hr
    by (apply after_reachable; vm_compute; reflexivity).
  assert (step example_deployment (after creating) Operator (after created)) as Hst.
  { apply (play_one_step example_deployment empty_world (Go 0)). vm_compute. reflexivity. }
  assert (o_devices (s_now (after creating)) !! ("ns", "d1") = None) as Hn by (vm_compute; reflexivity).
  split; [exact Hn|]. eexists.
  assert (o_devices (s_now (after created)) !! ("ns", "d1") = Some _) as Hd by (vm_compute; reflexivity).
  split; [exact Hd|].
  destruct (proj1 (devices_are_approved example_deployment _ _ Hr Hst) ("ns", "d1") _ Hn Hd)
    as (Hm & o & q & Ho & Hq & Ha & _).
  split; [exact Hm|]. exists o, q. split; [exact Ho|]. split; [exact Hq|exact Ha].
Defined.
