(* ===== verification/ClusterIsolation.v ===== *)
(** * What a request of a device may change

    The requests of a device change the resources of that device and nothing
    else, whatever runs at the same time: every handler is shown to write only
    under the name in the request as long as the API server answers with the
    objects it was asked for, and every answer in the system is of that kind. *)
From S2P Require Import Prelude GoData GoStrings V1alpha1 Models Env Testbed Labels Utils.
From S2P Require Import ApiServer.
From S2P Require Import Repository Hardware Facade Heartbeat BackendApi Backend Assembler Crypto MTLS.
From S2P Require Import Yggdrasil Controller SignedRequest Reconcilers Wireless Onboarding Cluster.
From S2P Require Import ClusterRules ClusterSafety.
Import v1alpha1.

(** ** The rule of a request *)

(** The answer is about the object asked for, or an object without a name. *)
Definition honest (c : Req) : Resp c -> Prop :=
  match c return Resp c -> Prop with
  | GetEdgeDevice ns n => fun r => device_key r.1 = (ns, n) \/ (device_key r.1).2 = ""
  | PatchEdgeDevice _ obj | PatchEdgeDeviceStatus _ obj => fun r => device_key r.1 = device_key obj
  | _ => fun _ => True
  end.

(** The device has the name [id], or none: the server has no such object. *)
Definition mine (id : string) (d : EdgeDevice) : Prop :=
  (device_key d).2 = id \/ (device_key d).2 = "".

(** The calls that change nothing but the device and the request [id]. *)
Definition named (id : string) (c : Req) : Prop :=
  match c with
  | CreateEdgeDevice _ | UpdateEdgeDevice _ | UpdateEdgeDeviceStatus _
  | PatchEDSR _ _ | PatchEDSRStatus _ _ | DeleteEDSR _ => False
  | PatchEdgeDevice _ obj | PatchEdgeDeviceStatus _ obj => mine id obj
  | CreateEDSR q => (request_key q).2 = id
  | _ => True
  end.

Notation asks id := (safe honest (named id)).
Notation anything := (fun _ => True).

Lemma named_no_write id c : no_write c -> named id c.
Proof. intros Hn. destruct c; try exact I; by destruct Hn. Qed.

Lemma asks_calls {A} id (Q : A -> Prop) (p : M A) :
  calls (named id) p -> (forall a, Q a) -> asks id Q p.
Proof. intros Hp HQ. eapply safe_weaken; [|by apply safe_calls]. auto. Qed.

(** ** Reading and labelling a device *)

Section Device.
Context (id : string).

Lemma asks_Read ns name :
  name = id \/ name = "" ->
  asks id (fun r => mine id r.1) (edgedevice.Read name ns).
Proof.
  intros Hn. split; [exact I|]. intros [d err] [Hr|Hr]; [|by right].
  apply (f_equal snd) in Hr. destruct Hn; [left|right]; by etrans.
Qed.

Lemma asks_PatchStatus d base :
  mine id d -> asks id (fun r => mine id r.1) (edgedevice.PatchStatus d base).
Proof.
  intros Hd. split; [exact Hd|]. intros [d' err] Hr. change (device_key d' = device_key d) in Hr.
  change (mine id d'). unfold mine. by rewrite Hr.
Qed.

Lemma asks_updateLabels d labels :
  mine id d -> asks id (fun r => mine id r.1) (edgedevice.updateLabels d labels).
Proof.
  intros Hd. unfold edgedevice.updateLabels, edgedevice.Patch.
  eapply (safe_bind _ _ (fun _ => True)); [by split|]. intros seed _.
  case_decide; [exact Hd|]. eapply (safe_bind _ _ (fun _ => True)); [by split|].
  by intros [d' [e|]] _.
Qed.

Lemma asks_UpdateLabels d labels :
  mine id d -> asks id (fun r => mine id r.1) (edgedevice.UpdateLabels d labels).
Proof.
  intros Hd. unfold edgedevice.UpdateLabels.
  eapply safe_bind; [by apply asks_updateLabels|]. intros [d1 [e|]] Hd1; [|exact Hd1].
  eapply (safe_bind _ _ (fun _ => True)); [|by intros [?|?]].
  eapply safe_weaken; [|apply (safe_for_range _ _ (fun _ => True) (fun _ => True))]; [done|done|].
  intros u i _. destruct u. split; [exact I|]. intros r _.
  eapply safe_bind; [apply asks_Read; exact Hd1|]. intros [d2 [e2|]] Hd2; [done|].
  eapply safe_bind; [by apply asks_updateLabels|]. by intros [d3 [e3|]] _.
Qed.
End Device.

(** ** The handlers *)

Section Heartbeats.
Context (id : string) `{Unicode}.

Lemma asks_updateStatus_one ns copies d hpe :
  mine id d -> asks id (mine id) (updateStatus_one ns copies d hpe).
Proof.
  intros Hd. unfold updateStatus_one, facade.GetPlaybookExecution, playbookexecution.Read,
    facade.PatchPlaybookExecution, playbookexecution.Patch, facade.UpdateEdgeDeviceLabels.
  eapply (safe_bind _ _ anything); [apply safe_calls, calls_lift|]. intros s _.
  eapply (safe_bind _ _ anything); [by split|]. intros [pe err] _.
  eapply (safe_bind _ _ anything); [by split|]. intros now _.
  eapply (safe_bind _ _ anything); [by split|]. intros [pe' [e|]] _; [exact Hd|].
  case_decide; [|exact Hd]. eapply safe_bind; [by apply asks_UpdateLabels|].
  by intros [d' err'] Hd'.
Qed.

Lemma asks_updateStatus d hb : mine id d -> asks id (fun r => mine id r.1) (updateStatus d hb).
Proof.
  intros Hd.
  assert (forall c, quiet c -> named id c) as Hq
    by (intros c Hc; destruct c; try exact I; by destruct Hc).
  assert (forall {A} (p : M A), calls quiet p -> asks id anything p) as Hquiet
    by (intros A p Hp; apply safe_calls; by eapply calls_weaken).
  unfold updateStatus. eapply (safe_bind _ _ anything); [apply Hquiet, playbookCopies_quiet|].
  intros copies _. eapply (safe_bind _ _ anything);
    [destruct (models.Heartbeat_Hardware hb); [apply safe_calls, calls_lift|done]|].
  intros hw _. eapply (safe_bind _ _ anything); [apply Hquiet, updateDeploymentStatuses_quiet|].
  intros ds _. eapply (safe_bind _ _ anything); [apply Hquiet, updatePlaybookExecutionStatuses_quiet|].
  intros ps _. cbv zeta. case_decide.
  - by apply asks_PatchStatus.
  - eapply (safe_bind _ _ (mine id)); [|by intros d' Hd']. apply safe_for_each; [exact Hd|].
    intros d' hpe. apply asks_updateStatus_one.
Qed.

Lemma asks_Process retry ns hb : asks id anything (Process retry id ns hb).
Proof.
  unfold Process, facade.GetEdgeDevice. eapply safe_bind; [apply asks_Read; by left|].
  intros [d [e|]] Hd; [by case_match|].
  eapply (safe_bind _ _ anything).
  { destruct (default false retry); [done|]. apply safe_calls. unfold processEvents.
    apply calls_for_each. intros _ [e|]; [|done]; by split. }
  intros _ _. eapply safe_bind; [by apply asks_updateStatus|]. intros [d' [e|]] Hd'; [done|].
  unfold updateLabels, facade.UpdateEdgeDeviceLabels.
  eapply safe_bind; [by apply asks_UpdateLabels|]. by intros [d2 [e|]] _.
Qed.
End Heartbeats.

Section Requests.
Context (id : string) `{Unicode} `{Libs} `{Crypto} `{Wire}.
Context (initialNamespace : string) (mtlsConfig : TLSConfig CASecretProvider).
Let B : EdgeDeviceBackend := k8s.backend initialNamespace.
#[local] Existing Instance B.
Let B_laws : BackendLaws B := k8s_laws initialNamespace.
#[local] Existing Instance B_laws.

Lemma asks_updateDeviceStatus d f :
  mine id d -> (forall d d', f d = Done d' -> device_key d' = device_key d) ->
  asks id anything (k8s.updateDeviceStatus d f).
Proof.
  intros Hd Hf. unfold k8s.updateDeviceStatus, facade.PatchEdgeDeviceStatus.
  assert (forall d d', mine id d -> f d = Done d' -> mine id d') as Hmine
    by (intros d1 d1' ? E; unfold mine; by rewrite (Hf _ _ E)).
  destruct (f d) as [d1|] eqn:E1; cbn [lift]; [|done]. rewrite bind_ret_l.
  eapply safe_bind; [apply asks_PatchStatus; by eapply Hmine|]. intros [d2 [e|]] Hd2; [|done].
  eapply (safe_bind _ _ anything); [|by intros [?|?]].
  eapply safe_weaken; [|apply (safe_for_range _ _ anything anything)]; [done|done|].
  intros u i _. unfold k8s.updateDeviceStatus_one, facade.GetEdgeDevice, facade.PatchEdgeDeviceStatus.
  eapply (safe_bind _ _ anything); [by split|]. intros _ _.
  eapply safe_bind; [apply asks_Read; exact Hd2|]. intros [d3 [e3|]] Hd3; [done|]. cbv zeta.
  destruct (f d3) as [d4|] eqn:E4; cbn [lift]; [|done]. rewrite bind_ret_l.
  eapply safe_bind; [apply asks_PatchStatus; by eapply Hmine|]. by intros [d5 [e5|]] _.
Qed.

Lemma asks_Register ns info : asks id anything (k8s.Register id ns info).
Proof.
  unfold k8s.Register, facade.GetEdgeDevice, facade.PatchEdgeDevice.
  eapply safe_bind; [apply asks_Read; by left|]. intros [d err] Hd.
  eapply (safe_bind _ _ anything); [by split|]. intros labels _.
  eapply (safe_bind _ _ anything); [apply safe_calls, calls_lift|]. intros m _. cbv zeta.
  eapply (safe_bind _ _ anything); [by split|]. intros [d' [e|]] _; [done|].
  apply asks_updateDeviceStatus; [exact Hd|]. intros d1 d1'. unfold k8s.report_hardware.
  destruct (MapHardware _); [|done]. by intros [= <-].
Qed.

Lemma asks_Enrol ns info : asks id anything (k8s.Enrol initialNamespace id ns info).
Proof.
  apply safe_calls. unfold k8s.Enrol, facade.GetEdgeDevice, edgedevice.Read,
    facade.GetEdgeDeviceSignedRequest, edgedevicesignedrequest.Read,
    facade.CreateEdgeDeviceSignedRequest, edgedevicesignedrequest.Create.
  apply calls_bind; [by split|]. intros [d [e|]]; [|done]. apply calls_bind; [by split|].
  intros [q [e'|]].
  - destruct (k8s.signed_request initialNamespace id ns info) as [r|] eqn:Es; cbn [lift]; [|done].
    rewrite bind_ret_l. apply signed_request_shape in Es as (Hm & _).
    apply calls_bind; [|done]. split; [|done]. cbn [named]. unfold request_key. by rewrite Hm.
  - case_decide; [|done]. apply calls_bind; [by split|]. by intros [? [?|]].
Qed.

Lemma asks_SignCSR csr ns : asks id anything (TLSConfig_SignCSR mtlsConfig csr id ns).
Proof.
  apply safe_calls. unfold TLSConfig_SignCSR. destruct (caProvider mtlsConfig) as [|p ps]; [done|].
  apply calls_bind; [by split|]. intros now. cbn [SignCSR CASecretProvider_CAProvider].
  unfold secret_provider.SignCSR. repeat first [calls_step | apply calls_lift]; exact I.
Qed.

Lemma asks_PostHeartbeat auth msg : asks id anything (PostHeartbeat initialNamespace auth id msg).
Proof.
  unfold PostHeartbeat, metric. destruct (decode_Heartbeat _) as [hb|e]; [|done].
  eapply (safe_bind _ _ anything); [apply safe_calls, calls_lift|]. intros _ _.
  eapply (safe_bind _ _ anything); [|intros [e|] _; [by case_match|by split]].
  unfold RetryingProcess. generalize (None : option error) at 1. generalize false, 1%Z.
  generalize 4 as fuel. intros fuel. induction fuel as [|fuel IH]; intros retry i err; [done|].
  cbn [retrying]. eapply (safe_bind _ _ anything); [apply asks_Process|]. intros [retry' [e|]] _; [|done].
  destruct (negb retry'); [done|]. eapply (safe_bind _ _ anything); [by split|].
  intros _ _. apply IH.
Qed.

Lemma asks_PostRegistration auth msg :
  asks id anything (PostRegistration initialNamespace mtlsConfig auth id msg).
Proof.
  unfold PostRegistration, metric. destruct (decode_RegistrationInfo _) as [info|e]; [|done].
  eapply (safe_bind _ _ anything).
  { apply safe_calls. eapply calls_weaken; [apply named_no_write|]. apply GetTargetNamespace_no_write. }
  intros [ns [e|]] _.
  { apply safe_calls. repeat calls_step; exact I. }
  eapply (safe_bind _ _ anything); [apply asks_SignCSR|]. intros [cert [e|]] _; [done|]. cbv zeta.
  eapply (safe_bind _ _ anything); [apply asks_Register|]. intros [e|] _; by split.
Qed.

Lemma asks_handle auth r : device_of r = id -> asks id anything (handle initialNamespace mtlsConfig auth r).
Proof.
  intros Hid.
  assert (query r -> asks id anything (handle initialNamespace mtlsConfig auth r)) as Hquery.
  { intros Hq. apply safe_calls. eapply calls_weaken; [apply named_no_write|].
    exact (handle_query_calls B initialNamespace mtlsConfig auth r Hq). }
  destruct r as [id'|id'|id'|id' msg]; [by apply Hquery..|]. cbn in Hid. subst id'.
  destruct (decide (models.Message_Directive msg = "heartbeat")) as [Eh|Hh].
  { cbn [handle]. unfold HandlePostDataMessage. rewrite Eh. cbn [negb andb].
    case_match; [by split|]. rewrite decide_True by done. apply asks_PostHeartbeat. }
  destruct (open_directive (models.Message_Directive msg)) eqn:Eo; [|by apply Hquery].
  cbn [handle]. unfold HandlePostDataMessage. rewrite Eo. cbn [negb andb].
  rewrite (decide_False _ _ Hh). apply bool_decide_eq_true in Eo. case_decide as Hen.
  - unfold PostEnrolment. destruct (decode_EnrolmentInfo _) as [info|e]; [|done].
    eapply (safe_bind _ _ anything); [apply asks_Enrol|]. by intros [b [e|]] _.
  - rewrite decide_True by (by destruct Eo). apply asks_PostRegistration.
Qed.

Lemma asks_InnerMiddleware roots chain peers r :
  device_of r = id ->
  asks id anything (InnerMiddleware initialNamespace mtlsConfig roots chain peers r).
Proof.
  intros Hid. unfold InnerMiddleware. destruct peers as [peers|]; [|done].
  eapply (safe_bind _ _ anything).
  { apply safe_calls. unfold VerifyRequest, VerifyRequest_one.
    repeat first [calls_step | apply calls_lift]; exact I. }
  intros [auth [[] err]] _; [|by split].
  eapply (safe_bind _ _ anything); [by apply asks_handle|done].
Qed.
End Requests.

(** ** In the system *)

Section Isolation.
Context `{Unicode} `{Libs} `{Formatter} `{Crypto} `{Wire} `{MessageDecoder} `{NodeReuse}.
Context (D : Deployment).

(** The server answers with what it was asked for. *)
Lemma writes_honest h obj accepts change o o' (r : EdgeDevice * option error) :
  past_ok (h ++ [o']) -> writes_device h obj accepts change o r o' ->
  device_key r.1 = device_key obj.
Proof.
  intros Hp [(_ & -> & _)|(cur & d & _ & _ & _ & -> & [-> | [-> _]])]; [done| |done].
  eapply past_key; [exact Hp|]. apply in_history_snoc. right. apply lookup_insert_eq.
Qed.

Lemma serves_honest s c o' r :
  past_ok (history s ++ [o']) -> serves (history s) (s_now s) c o' r -> honest c r.
Proof.
  intros Hp Hsv. destruct c; try exact I; cbn [serves honest] in *; [|by eapply writes_honest..].
  destruct Hsv as [-> [[-> _]|(o & Ho & Hd)]]; [by right|left].
  eapply past_key; [exact Hp|]. apply in_history_snoc. left. by exists o.
Qed.

Definition thread_isolated (th : thread) : Prop :=
  match t_activity th with
  | Serving _ r => asks (device_of r) anything (t_rest th)
  | _ => True
  end.

Lemma isolated_step s a s' :
  system_ok D s -> Forall thread_isolated (s_threads s) -> step D s a s' ->
  Forall thread_isolated (s_threads s').
Proof.
  intros Hok Hi Hst. destruct Hst as [o' _|a|i th c k r o' Hth Hc Hsv]; [done| |].
  - apply Forall_app. split; [done|]. apply Forall_singleton.
    destruct a as [|peers r|]; try exact I. unfold thread_isolated. cbn [t_activity t_rest code_of].
    apply safe_fmap. by apply asks_InnerMiddleware.
  - destruct (step_call_ok D s i th c k r o' Hok Hth Hc Hsv) as [Hp _].
    apply serves_honest in Hsv; [|done]. apply Forall_insert; [done|].
    pose proof (Forall_lookup_1 _ _ _ _ Hi Hth) as Ht. unfold thread_isolated in *.
    cbn [t_activity t_rest]. destruct (t_activity th); try exact I. rewrite Hc in Ht.
    by apply Ht.
Qed.

Lemma isolated_reachable s : reachable D s -> Forall thread_isolated (s_threads s).
Proof.
  intros (s0 & Hs0 & Hsteps). pose proof (system_ok_initial D s0 Hs0) as Hok.
  assert (Forall thread_isolated (s_threads s0)) as Hi by (destruct Hs0 as (_ & -> & _); constructor).
  clear Hs0. induction Hsteps as [|s1 s2 s3 [a Hst] _ IH]; [done|].
  apply IH; [by eapply system_ok_step|by eapply isolated_step].
Qed.

(** The devices and the requests of the cluster other than [id]'s. *)
Definition others_same (id : string) (o o' : Objects) : Prop :=
  forall k : key, k.2 <> id ->
    o_devices o' !! k = o_devices o !! k /\ o_requests o' !! k = o_requests o !! k.

Lemma named_others id h o c o' r :
  well_kept o -> named id c -> serves h o c o' r -> others_same id o o'.
Proof.
  intros [Hk _] Hn Hsv.
  assert (forall obj accepts change r', mine id obj -> writes_device h obj accepts change o r' o' ->
    others_same id o o') as Hwrite.
  { intros obj accepts change r' Hm [(-> & _)|(cur & d & Hcur & _ & _ & -> & _)]; [done|].
    intros k Hne. split; [|done]. apply lookup_insert_ne. intros <-.
    destruct Hm as [?|Hm]; [done|]. by destruct (Hk _ _ Hcur) as (_ & ? & _). }
  destruct c; cbn [serves named] in *; try (by subst o'); try (by destruct Hsv as [-> _]);
    try done; try (by eapply Hwrite).
  destruct Hsv as [[-> _]|(_ & _ & uid & rv & ->)]; [done|].
  intros k Hne. split; [done|]. apply lookup_insert_ne. intros <-. done.
Qed.

(** C4: a request of a device over HTTP changes no device and no signed request but
    those of the name it gives: whatever its certificate and its directive,
    whatever else runs, each of its calls leaves all others as they were. *)
Theorem requests_are_isolated s i th peers r c k answer o' :
  reachable D s -> s_threads s !! i = Some th -> t_activity th = Serving peers r ->
  t_rest th = Call c k -> serves (history s) (s_now s) c o' answer ->
  others_same (device_of r) (s_now s) o'.
Proof.
  intros Hr Hth Ha Hc Hsv. pose proof (isolated_reachable _ Hr) as Hi.
  apply (Forall_lookup_1 _ _ _ _ Hi) in Hth. unfold thread_isolated in Hth.
  rewrite Ha, Hc in Hth. destruct Hth as [Hn _]. eapply named_others; [|exact Hn|exact Hsv].
  destruct (system_ok_reachable D s Hr) as [Hp _]. apply (past_kept _ Hp).
  unfold history. set_solver.
Qed.
End Isolation.

#[local] Existing Instance ascii_tables.
#[local] Existing Instance trivial_libs.
#[local] Existing Instance trivial_formatter.
#[local] Existing Instance example_wire.
#[local] Existing Instance no_messages.
#[local] Existing Instance nothing_reused.

(** The registration of the device, up to its first write. *)
Definition about_to_write : state := after (created ++ Start registering :: replicate 8 (Go 1)).

Definition writes_next (th : thread) : bool :=
  match t_rest th with Call c _ => bool_decide (is_write c) | _ => false end.

Lemma requests_are_isolated_witness :
  exists th c k, s_threads about_to_write !! 1 = Some th /\ t_rest th = Call c k /\ is_write c /\
    forall answer o', serves (history about_to_write) (s_now about_to_write)
      c o' answer -> others_same "d1" (s_now about_to_write) o'.
Proof.
  assert (reachable example_deployment about_to_write) as Hr
    by (apply after_reachable; vm_compute; reflexivity).
  assert (t_activity <$> s_threads about_to_write !! 1 = Some registering) as Ha
    by (vm_compute; reflexivity).
  assert (writes_next <$> s_threads about_to_write !! 1 = Some true) as Hw
    by (vm_compute; reflexivity).
  destruct (s_threads about_to_write !! 1) as [th|] eqn:Hth; [|discriminate Ha].
  injection Ha as Ha. injection Hw as Hw. unfold writes_next in Hw.
  destruct (t_rest th) as [| |c k] eqn:Hc; [discriminate Hw..|].
  exists th, c, k. split; [reflexivity|]. split; [exact Hc|].
  split; [exact (proj1 (bool_decide_eq_true _) Hw)|]. intros answer o' Hsv.
  exact (requests_are_isolated example_deployment about_to_write 1 th _ _ c k answer o' Hr Hth
           Ha Hc Hsv).
Defined.
