(* ===== verification/ClusterAssignments.v ===== *)
(** * What a device gets assigned

    Nothing but the two reconcilers that place workloads ever makes a device
    list a workload it did not list before, and each of them only one it has
    read and found to select that device.  As in ClusterRules.v this is a rule
    every activity keeps, and then a property of the steps of the system. *)
From S2P Require Import Prelude GoData GoStrings V1alpha1 Models Env Testbed Labels Utils.
From S2P Require Import ApiServer.
From S2P Require Import Repository Storage Hardware Facade Heartbeat BackendApi Backend Crypto MTLS.
From S2P Require Import Assembler Yggdrasil Controller EdgeWorkload EdgeDeviceLabels SignedRequest.
From S2P Require Import EdgeDeviceController PlaybookControllers Reconcilers Wireless Onboarding.
From S2P Require Import Cluster ClusterRules ClusterSafety ClusterIsolation.
Import v1alpha1.

(** ** The rule *)

(** The specification of [ew] selects [d]: by its name, or the server has
    listed it for the selector. *)
Definition selected_by (h : list Event) (ew : EdgeWorkload) (d : EdgeDevice) : Prop :=
  let spec := EdgeWorkload_Spec ew in
  let ns := Namespace (EdgeWorkload_ObjectMeta ew) in
  if decide (EdgeWorkloadSpec_Device spec <> "") then
    Ev (GetEdgeDevice ns (EdgeWorkloadSpec_Device spec)) (d, None) ∈ h
  else exists selector items, EdgeWorkloadSpec_DeviceSelector spec = Some selector /\
    Ev (ListEdgeDevices (MatchingSelector selector) ns) (items, None) ∈ h /\ d ∈ items.

Section Rule.
Context `{Libs} `{MessageDecoder} `{NodeReuse}.

(** Why the activity [a], after the exchanges [h], may make the device [d] list
    the workload [w]: it reconciles that workload, which is not being deleted
    and selects the device; or it reconciles the labels of the device, and the
    workload has been listed and matches them. *)
Definition reason (a : activity) (h : list Event) (d : EdgeDevice) (w : string) : Prop :=
  match a with
  | Reconciling EdgeWorkloadReconciler name ns =>
      exists ew, Ev (GetEdgeWorkload ns name) (ew, None) ∈ h /\ Name (EdgeWorkload_ObjectMeta ew) = w /\
        DeletionTimestamp (EdgeWorkload_ObjectMeta ew) = None /\ selected_by h ew d
  | Reconciling EdgeDeviceLabelsReconciler name ns =>
      Ev (GetEdgeDevice ns name) (d, None) ∈ h /\ exists sel ns' items ew,
        Ev (ListEdgeWorkloads sel ns') (items, None) ∈ h /\ ew ∈ items /\
        Name (EdgeWorkload_ObjectMeta ew) = w /\ isWorkloadMatchDevice ew d = (true, None)
  | _ => False
  end.

(** The device lists no more than one the server has shown; an object is left
    as it was by a patch that failed. *)
Inductive grounded (h : list Event) : EdgeDevice -> Prop :=
  | grounded_shown k d : shown h k d -> grounded h d
  | grounded_refused base obj d (e : error) :
      (Ev (PatchEdgeDeviceStatus base obj) (d, Some e) : Event) ∈ h -> grounded h obj -> grounded h d
  | grounded_less d obj : grounded h d -> device_key obj = device_key d ->
      workload_names obj ⊆ workload_names d -> grounded h obj.

(** The device that is sent lists no more than one that was shown, or more for a
    reason. *)
Definition accounts (a : activity) (h : list Event) (obj : EdgeDevice) : Prop :=
  exists d, grounded h d /\ device_key obj = device_key d /\
    forall w, w ∈ workload_names obj -> w ∈ workload_names d \/ reason a h d w.

Definition keeps_workloads (base obj : EdgeDevice) : Prop :=
  EdgeDeviceStatus_Workloads (EdgeDevice_Status obj) =
    EdgeDeviceStatus_Workloads (EdgeDevice_Status base).

(** Calls that assign nothing whatever has gone before. *)
Definition assigns_nothing (c : Req) : Prop :=
  match c with
  | PatchEdgeDeviceStatus base obj => keeps_workloads base obj
  | UpdateEdgeDeviceStatus _ => False
  | CreateEdgeDevice d => workload_names d = []
  | _ => True
  end.

Definition assigning (a : activity) (h : list Event) (c : Req) : Prop :=
  assigns_nothing c \/
  match c with
  | PatchEdgeDeviceStatus _ obj | UpdateEdgeDeviceStatus obj => accounts a h obj
  | _ => False
  end.

Lemma shown_mono h h' k d : h ⊆ h' -> shown h k d -> shown h' k d.
Proof. intros Hs (e & ? & ?). exists e. set_solver. Qed.

Lemma grounded_mono h h' d : h ⊆ h' -> grounded h d -> grounded h' d.
Proof.
  intros Hs Hg. induction Hg as [k d Hd|base obj d e He _ IH|d obj _ IH Hk Hw].
  - eapply grounded_shown, shown_mono, Hd. done.
  - eapply grounded_refused; [apply Hs, He|done].
  - by eapply grounded_less.
Qed.

Lemma selected_by_mono h h' ew d : h ⊆ h' -> selected_by h ew d -> selected_by h' ew d.
Proof.
  intros Hs. unfold selected_by. case_decide; [set_solver|].
  intros (s & items & ? & ? & ?). exists s, items. set_solver.
Qed.

Lemma reason_mono a h h' d w : h ⊆ h' -> reason a h d w -> reason a h' d w.
Proof.
  intros Hs. destruct a as [r name ns| |]; try done. destruct r; try done; cbn [reason].
  - intros (? & sel & ns' & items & ew & ? & ?). split; [set_solver|].
    exists sel, ns', items, ew. set_solver.
  - intros (ew & ? & ? & ? & ?). exists ew.
    split_and!; [set_solver|done..|by eapply selected_by_mono].
Qed.

Lemma assigning_mono a h h' c : h ⊆ h' -> assigning a h c -> assigning a h' c.
Proof.
  intros Hs [?|Hc]; [by left|right].
  assert (forall obj, accounts a h obj -> accounts a h' obj) as Ha.
  { intros obj (d & ? & ? & Hw). exists d. split; [by eapply grounded_mono|]. split; [done|].
    intros w [?|?]%Hw; [by left|right; by eapply reason_mono]. }
  destruct c; try done; by apply Ha.
Qed.

Lemma follows_nothing {A} a h (p : M A) : calls assigns_nothing p -> follows (assigning a) h p.
Proof. apply follows_calls. intros ? ? ?. by left. Qed.

(** A device that lists no more than one that was shown. *)
Lemma accounts_grounded a h obj : grounded h obj -> accounts a h obj.
Proof. intros Hg. exists obj. auto. Qed.

Lemma accounts_shown a h k d obj :
  shown h k d -> device_key obj = device_key d -> workload_names obj ⊆ workload_names d ->
  accounts a h obj.
Proof. intros Hs Hk Hw. apply accounts_grounded. eapply grounded_less; [by eapply grounded_shown|done..]. Qed.

Lemma shown_event c (r : Resp c) h k d :
  Ev c r ∈ h -> asked c d = Some k -> d ∈ seen (Ev c r) -> shown h k d.
Proof. intros He Ha Hs. by exists (Ev c r). Qed.

End Rule.

Ltac nothing_tac :=
  repeat first
    [ calls_step
    | apply calls_lift
    | progress unfold finished, retry_with, finish, range_map ];
  try exact I; try by split.

Lemma nothing_UpdateLabels d labels : calls assigns_nothing (edgedevice.UpdateLabels d labels).
Proof. eapply calls_weaken; [|apply UpdateLabels_calls]. by intros []. Qed.

Lemma nothing_updatePlaybookExecutions d : calls assigns_nothing (updatePlaybookExecutions d).
Proof.
  unfold updatePlaybookExecutions. apply calls_bind; [by split|]. intros order.
  destruct (foldl _ _ _) as [labels updated]. destruct updated; [|done].
  apply calls_bind; [apply nothing_UpdateLabels|by intros [? ?]].
Qed.

(** ** The reconciler of workloads *)

Section Workloads.
Context `{Libs} `{MessageDecoder} `{NodeReuse} `{Formatter}.

Lemma assigning_remove a h k d name :
  shown h k d -> calls (assigning a h) (removeWorkloadFromDevice name d).
Proof.
  intros Hd. unfold removeWorkloadFromDevice. apply calls_bind.
  - split; [|done]. right. apply (accounts_shown _ _ k d); [done..|].
    intros w. unfold workload_names.
    cbn [upd_Status set_Workloads EdgeDevice_Status EdgeDeviceStatus_Workloads].
    rewrite without_workload_elems. intros (x & -> & [_ Hx]%list_elem_of_filter)%list_elem_of_fmap.
    by apply list_elem_of_fmap_2.
  - intros [d' [e|]]; [done|]. cbv zeta. case_match; [|done].
    apply calls_bind; [|by intros [? ?]]. split; [by left|done].
Qed.

Lemma assigning_add a h k d name :
  shown h k d -> reason a h d name -> calls (assigning a h) (addWorkloadToDevice name d).
Proof.
  intros Hd Hr. unfold addWorkloadToDevice. apply calls_bind.
  - destruct (hasWorkload d name); [done|]. split; [|done]. right. exists d.
    split; [by eapply grounded_shown|]. split; [done|]. intros w. unfold workload_names.
    cbn [upd_Status set_Workloads EdgeDevice_Status EdgeDeviceStatus_Workloads].
    rewrite elems_append, fmap_app. intros [?| ->%list_elem_of_singleton]%elem_of_app; [by left|by right].
  - intros [d' [e|]]; [done|]. destruct (hasLabelForWorkload d' name); [done|].
    apply calls_bind; [|by intros [? ?]]. split; [by left|done].
Qed.

Lemma matching_selected w ds t d :
  matching_devices w ds t -> d ∈ ds -> selected_by t w d /\ exists k, shown t k d.
Proof.
  unfold matching_devices, selected_by. case_decide as Hn.
  - intros (d' & [e|] & Ha & He); cbn [answered] in Ha; [destruct Ha as [_ ->]; by intros ?%elem_of_nil|].
    subst ds. intros ->%list_elem_of_singleton. split; [done|]. eexists. eapply shown_event; [done|done|left].
  - destruct (EdgeWorkloadSpec_DeviceSelector _) as [s|]; [|by intros -> ?%elem_of_nil].
    destruct (selector_error s); [by intros [_ ->] ?%elem_of_nil|].
    intros (items & [e|] & Ha & He); cbn [answered] in Ha; [destruct Ha as [_ ->]; by intros ?%elem_of_nil|].
    subst ds. intros Hd.
    split; [by exists s, items|]. eexists. by eapply shown_event.
Qed.

Lemma labelled_shown w ds t d : labelled_devices w ds t -> d ∈ ds -> exists k, shown t k d.
Proof.
  intros (items & [e|] & Ha & He); cbn [answered] in Ha; [destruct Ha as [_ ->]; by intros ?%elem_of_nil|].
  subst ds. intros Hd. eexists. by eapply shown_event.
Qed.

Lemma shown_app_r h t k d : shown t k d -> shown (h ++ t) k d.
Proof. apply shown_mono. set_solver. Qed.

Context (C : Z).

Lemma assigning_removes a h name ds :
  (forall d, d ∈ ds -> exists k, shown h k d) ->
  calls (assigning a h) (removeWorkloadFromDevices ds name).
Proof.
  intros Hds. unfold removeWorkloadFromDevices. apply calls_for_each_in. intros errs d Hd.
  destruct (Hds d Hd) as [k Hk]. apply calls_bind; [by eapply assigning_remove|done].
Qed.

Lemma follows_finalizeRemoval a h ds w :
  (forall d, d ∈ ds -> exists k, shown h k d) ->
  follows (assigning a) h (finalizeRemoval C ds w).
Proof.
  intros Hds. unfold finalizeRemoval, edgeworkload.RemoveFinalizer. apply follows_bind.
  - apply follows_kept; [by apply assigning_mono|].
    apply calls_executeConcurrent_in; [by left|]. intros part Hp. apply assigning_removes. auto.
  - intros t errs _. apply follows_nothing. nothing_tac.
Qed.

Lemma follows_adds a h name ds :
  (forall d, d ∈ ds -> (exists k, shown h k d) /\ reason a h d name) ->
  follows (assigning a) h (addWorkloadsToDevices C name ds).
Proof.
  intros Hds. unfold addWorkloadsToDevices. apply follows_bind; [|done].
  apply follows_kept; [by apply assigning_mono|].
  apply calls_executeConcurrent_in; [by left|]. intros part Hp.
  apply calls_until_cancelled_in; [by left|]. intros d Hd%Hp%Hds. destruct Hd as [[k Hk] Hr].
  apply calls_at_most_one. by eapply assigning_add.
Qed.

Lemma follows_removes a h name matching ds :
  (forall d, d ∈ ds -> exists k, shown h k d) ->
  follows (assigning a) h (removeWorkloadFromNonMatchingDevices C name matching ds).
Proof.
  intros Hds. unfold removeWorkloadFromNonMatchingDevices. apply follows_bind; [|done].
  apply follows_kept; [by apply assigning_mono|].
  apply calls_executeConcurrent_in; [by left|]. intros part Hp.
  apply calls_until_cancelled_in; [by left|]. intros d Hd%Hp%Hds. destruct Hd as [k Hk].
  apply calls_at_most_one. unfold removeFromNonMatching. case_decide; [done|].
  by eapply assigning_remove.
Qed.

Lemma follows_reconcileDevices name ns h w :
  Ev (GetEdgeWorkload ns name) (w, None) ∈ h ->
  follows (assigning (Reconciling EdgeWorkloadReconciler name ns)) h (reconcileDevices C w).
Proof.
  intros Hw. unfold reconcileDevices.
  apply follows_bind.
  { apply follows_nothing. unfold getLabelledEdgeDevices, edgedevice.ListForWorkload. nothing_tac. }
  intros t1 [labelled err1] He1. apply exec_getLabelledEdgeDevices in He1 as (? & ? & [= <- <-] & Hl).
  destruct (fatal err1) as [e|] eqn:Hf1; [done|]. specialize (Hl eq_refl). apply follows_bind.
  { apply follows_nothing. unfold getMatchingEdgeDevices, edgedevice.Read, edgedevice.ListForSelector.
    nothing_tac. }
  intros t2 [matching err2] He2. apply exec_getMatchingEdgeDevices in He2 as (? & ? & [= <- <-] & Hm).
  destruct (fatal err2) as [e|] eqn:Hf2; [done|]. specialize (Hm eq_refl).
  set (h' := (h ++ t1) ++ t2).
  assert (forall d, d ∈ matching -> (exists k, shown h' k d) /\ selected_by h' w d) as Hms.
  { intros d Hd. destruct (matching_selected _ _ _ _ Hm Hd) as [Hs [k Hk]]. split.
    - exists k. by apply shown_app_r.
    - eapply selected_by_mono; [|exact Hs]. unfold h'. set_solver. }
  assert (forall d, d ∈ labelled -> exists k, shown h' k d) as Hls.
  { intros d Hd. destruct (labelled_shown _ _ _ _ Hl Hd) as [k Hk]. exists k.
    by apply shown_app, shown_app_r. }
  destruct (DeletionTimestamp _) as [ts|] eqn:Hdel.
  - destruct (HasFinalizer _ _); [|done]. apply follows_bind; [|by intros ? [?|] _].
    apply follows_finalizeRemoval. intros d [Hd|[Hd _]]%elem_of_merge; [by apply Hms|by apply Hls].
  - apply follows_bind.
    { apply follows_adds. intros d Hd. destruct (Hms d Hd) as [Hk Hs]. split; [done|].
      exists w. split_and!; [unfold h'; set_solver|done..]. }
    intros t3 [e|] _; [done|]. apply follows_bind; [|by intros ? [?|] _].
    apply follows_removes. intros d [k Hk]%Hls. exists k. by apply shown_app.
Qed.

Lemma follows_EdgeWorkload name ns :
  follows (assigning (Reconciling EdgeWorkloadReconciler name ns)) [] (EdgeWorkload.Reconcile C name ns).
Proof.
  unfold EdgeWorkload.Reconcile, edgeworkload.Read, edgeworkload.Patch.
  apply follows_bind; [split; [by left|done]|]. intros t [w [e|]] He; [by case_match|].
  apply exec_Call_inv in He as (r & t' & -> & [-> [= <-]]%exec_Ret_inv).
  set (h := [] ++ _). assert (Ev (GetEdgeWorkload ns name) (w, None) ∈ h) as Hw by left.
  clearbody h. cbv zeta. case_match; [by apply follows_reconcileDevices|].
  destruct (negb _).
  - apply follows_nothing. nothing_tac.
  - apply follows_bind.
    { apply follows_nothing. unfold updateLabelsFromSelector, UpdateSelectorLabels_one. nothing_tac. }
    intros t [[] [e|]] _; [done..|]. apply follows_reconcileDevices. set_solver.
Qed.
End Workloads.

(** ** The reconciler of labels *)

Section DeviceLabels.
Context `{Libs} `{MessageDecoder} `{NodeReuse}.

(** What is placed so far was there, or has been selected. *)
Definition placed_from (d : EdgeDevice) (selected : gmap string bool) (p : Placing) : Prop :=
  (forall w, w ∈ Workload_Name <$> elems (placing_workloads p) ->
    w ∈ workload_names d \/ selected !! w = Some true) /\
  forall w, placing_selected p !! w = Some true -> selected !! w = Some true.

Lemma placed_keep d selected l p :
  l ⊆ elems (EdgeDeviceStatus_Workloads (EdgeDevice_Status d)) ->
  placed_from d selected p -> placed_from d selected (foldl createUpdatedDevice_keep p l).
Proof.
  revert p. induction l as [|w l IH]; intros p Hl [Hw Hs]; cbn [foldl]; [done|].
  apply IH; [set_solver|]. unfold createUpdatedDevice_keep. case_decide; [|done].
  split; cbn [placing_workloads placing_selected].
  - intros n. rewrite elems_append, fmap_app.
    intros [?| ->%list_elem_of_singleton]%elem_of_app; [by apply Hw|left].
    apply list_elem_of_fmap_2. set_solver.
  - intros n [_ ?]%lookup_delete_Some. by apply Hs.
Qed.

Lemma placed_add d selected order p :
  (forall w, (w, true) ∈ order -> selected !! w = Some true) ->
  placed_from d selected p -> placed_from d selected (foldl createUpdatedDevice_add p order).
Proof.
  revert p. induction order as [|[w b] order IH]; intros p Ho [Hw Hs]; cbn [foldl]; [done|].
  apply IH; [intros; apply Ho; by right|]. destruct b; [|done].
  split; [|done]. cbn [createUpdatedDevice_add negb placing_workloads]. intros n.
  rewrite elems_append, fmap_app.
  intros [?| ->%list_elem_of_singleton]%elem_of_app; [by apply Hw|right]. apply Ho. left.
Qed.

Lemma createUpdatedDevice_placed selected d t u :
  exec (createUpdatedDevice selected d) t (Done (Some u)) ->
  forall w, w ∈ workload_names u -> w ∈ workload_names d \/ selected !! w = Some true.
Proof.
  intros He. unfold createUpdatedDevice in He.
  set (p0 := mkPlacing selected None _ false) in He.
  set (p1 := foldl createUpdatedDevice_keep p0 _) in He.
  assert (placed_from d selected p1) as Hp1.
  { apply placed_keep; [done|]. split; [by intros w ?%elem_of_nil|done]. }
  apply exec_bind_inv in He as [[_ ?]|(order & t1 & t2 & -> & Ho & He)]; [done|].
  apply exec_range_map in Ho as (seed & _ & [= ->]). apply exec_Ret_inv in He as [_ [= Hu]].
  case_match; [|done]. injection Hu as ->.
  apply (placed_add _ _ (range seed (Some (placing_selected p1)))) in Hp1 as [Hp _]; [exact Hp|].
  intros w Hw%elem_of_range. by apply (proj2 Hp1).
Qed.

Lemma follows_updateWorkloads name ns h d :
  Ev (GetEdgeDevice ns name) (d, None) ∈ h ->
  follows (assigning (Reconciling EdgeDeviceLabelsReconciler name ns)) h (updateWorkloads d).
Proof.
  intros Hd. unfold updateWorkloads.
  apply follows_bind; [apply follows_nothing; unfold createSelectorLabelsMap; nothing_tac|].
  intros t1 labels _. apply follows_bind; [by apply follows_nothing; split|]. intros t2 order _.
  apply follows_bind.
  { apply follows_nothing. unfold selectWorkloads, edgeworkload.ListByLabel, selectWorkload. nothing_tac. }
  intros t3 res He3. apply exec_selectWorkloads in He3. destruct res as [selected|e]; [|done].
  destruct He3 as (listed & (answers & -> & -> & Hlen) & Hdec & _).
  apply follows_bind; [apply follows_nothing; unfold createUpdatedDevice; nothing_tac|].
  intros t4 [u|] He4; [|done]. unfold edgedevice.PatchStatus, edgedevice.Patch.
  split; [|intros [u' [e|]]; [done|]; split; [by left|by intros [? ?]]].
  right. exists d. set (h' := _ ++ t4).
  assert (h ⊆ h') as Hin by (unfold h'; set_solver). split; [|split].
  - eapply grounded_shown, shown_event; [apply Hin, Hd|done|left].
  - by eapply createUpdatedDevice_key.
  - intros w Hw. apply (createUpdatedDevice_placed _ _ _ _ He4) in Hw as [?|Hw]; [by left|right].
    split; [by apply Hin|]. destruct (Hdec _ _ Hw) as (ew & Hew & Hn & Hm).
    apply list_elem_of_In, in_concat in Hew as (ws & Hws & Hew).
    apply list_elem_of_In in Hws, Hew. apply list_elem_of_lookup in Hws as [i Hws].
    destruct (lookup_lt_is_Some_2 order i) as [[label value] Hord].
    { rewrite <-Hlen. by eapply lookup_lt_Some. }
    eexists _, _, ws, ew. split_and!; [|done..]. unfold h'. rewrite !elem_of_app. left. right.
    apply (list_elem_of_lookup_2 _ i). rewrite lookup_zip_with, Hord. cbn [mbind option_bind].
    rewrite Hws. reflexivity.
Qed.

Lemma follows_EdgeDeviceLabels name ns :
  follows (assigning (Reconciling EdgeDeviceLabelsReconciler name ns)) []
    (EdgeDeviceLabels.Reconcile name ns).
Proof.
  unfold EdgeDeviceLabels.Reconcile, edgedevice.Read.
  apply follows_bind; [split; [by left|done]|]. intros t [d [e|]] He; [by case_match|].
  apply exec_Call_inv in He as (r & t' & -> & [-> [= <-]]%exec_Ret_inv).
  destruct (DeletionTimestamp _); [done|].
  apply follows_bind; [apply follows_updateWorkloads; left|]. intros t [e|] _; [done|].
  apply follows_nothing. apply calls_bind; [apply nothing_updatePlaybookExecutions|]. by intros [?|].
Qed.
End DeviceLabels.

(** ** The other reconcilers *)

Section Others.
Context `{Libs} `{MessageDecoder} `{NodeReuse} `{Formatter}.

Lemma grounded_answer (h : list Event) base obj d err :
  grounded h obj -> grounded (h ++ [Ev (PatchEdgeDeviceStatus base obj) (d, err)]) d.
Proof.
  intros Hg. destruct err as [e|].
  - eapply (grounded_refused _ base obj d e); [set_solver|]. eapply grounded_mono; [|done]. set_solver.
  - eapply grounded_shown, (shown_event (PatchEdgeDeviceStatus base obj) (d, None));
      [set_solver|done|left].
Qed.

Lemma follows_addPlaybookExecution a h name base dev errs pe :
  grounded h dev ->
  follows (assigning a) h (EdgeConfigReconciler.addPlaybookExecution name base (dev, errs) pe) /\
  forall t s, exec (EdgeConfigReconciler.addPlaybookExecution name base (dev, errs) pe) t (Done s) -> grounded (h ++ t) s.1.
Proof.
  intros Hg. unfold EdgeConfigReconciler.addPlaybookExecution, playbookexecution.Create, edgedevice.PatchStatus.
  set (sent := upd_Status _ dev).
  assert (grounded h sent) as Hsent by by apply (grounded_less h dev).
  split.
  - apply follows_bind; [split; [by left|done]|]. intros t [e|] _; [done|].
    apply follows_bind; [|by intros ? [? ?] _]. split; [|done]. right. apply accounts_grounded.
    eapply grounded_mono; [|exact Hsent]. set_solver.
  - intros t s He. exec_call He as ([e|] & t1 & -> & He).
    { apply exec_Ret_inv in He as [-> [= ->]]. eapply grounded_mono; [|exact Hsent]. set_solver. }
    exec_call He as ([d err] & t2 & -> & He). apply exec_Ret_inv in He as [-> [= ->]]. cbn [fst].
    rewrite cons_middle, (assoc_L (++)). apply grounded_answer.
    eapply grounded_mono; [|exact Hsent]. set_solver.
Qed.

Lemma follows_addPlaybookExecutions a h name pes d :
  grounded h d -> follows (assigning a) h (EdgeConfigReconciler.addPlaybookExecutions name pes d).
Proof.
  intros Hd. unfold EdgeConfigReconciler.addPlaybookExecutions. destruct (EdgeConfigReconciler.hasPlaybookExecution _ _); [done|].
  apply follows_bind; [|by intros ? [? ?] _].
  apply (follows_for_each _ (fun h s => grounded h s.1)); [done|].
  intros h' [dev errs] pe _ Hg. by apply follows_addPlaybookExecution.
Qed.

Lemma follows_EdgeConfig a C name ns :
  follows (assigning a) [] (EdgeConfigReconciler.Reconcile C name ns).
Proof.
  unfold EdgeConfigReconciler.Reconcile, edgeconfig.Read, edgedevice.ListForEdgeConfig.
  apply follows_bind; [split; [by left|done]|]. intros t [c [e|]] _; [by case_match|].
  cbv zeta. case_match; [done|].
  apply follows_bind; [apply follows_nothing; nothing_tac|].
  intros t2 [ds [e|]] He; [by case_match|].
  assert (forall d, d ∈ ds -> grounded (([] ++ t) ++ t2) d) as Hds.
  { intros d Hd. exec_call He as ([items [e|]] & t3 & -> & He); apply exec_Ret_inv in He as [-> [= ->]].
    eapply grounded_shown, (shown_event (ListEdgeDevices _ _) (items, None));
      [|reflexivity|exact Hd]. apply elem_of_app. right. left. }
  destruct ds as [|d ds]; [done|]. apply follows_bind.
  - unfold EdgeConfigReconciler.addPlaybookExecutionToDevices.
    apply follows_bind; [apply follows_nothing, calls_lift|]. intros t4 pes _.
    apply follows_bind; [|done].
    apply follows_executeConcurrent_in; [by apply assigning_mono|by left|]. intros part Hp.
    apply follows_until_cancelled_in; [by apply assigning_mono|by left|]. intros d' Hd%Hp%Hds.
    apply follows_addPlaybookExecutions. eapply grounded_mono; [|exact Hd]. set_solver.
  - intros t5 [e|] _; [by case_match|done].
Qed.

Lemma nothing_EdgeDevice initial obc name ns :
  calls assigns_nothing (EdgeDeviceController.Reconcile initial obc name ns).
Proof.
  unfold EdgeDeviceController.Reconcile, edgedevice.Read, removeRelatedEDSR, removeFinalizer,
    edgedevice.RemoveFinalizer, reconcileStorage, createOrGetObc, addObcReference, GetClaim,
    CreateClaim.
  nothing_tac.
Qed.

Lemma nothing_SignedRequest auto name ns : calls assigns_nothing (SignedRequest.Reconcile auto name ns).
Proof.
  unfold SignedRequest.Reconcile, edgedevicesignedrequest.Read, edgedevice.Read, edgedevice.Create,
    markStatusPending, markStatusApproved.
  nothing_tac.
Qed.

Lemma nothing_PlaybookExecution name ns :
  calls assigns_nothing (PlaybookExecutionReconciler.Reconcile name ns).
Proof.
  unfold PlaybookExecutionReconciler.Reconcile, edgedevice.ReadForPlaybookExecution.
  nothing_tac.
Qed.

Lemma follows_reconcile cfg r name ns :
  follows (assigning (Reconciling r name ns)) [] (reconcile cfg r name ns).
Proof.
  destruct r; cbn [reconcile].
  - apply follows_nothing, nothing_EdgeDevice.
  - apply follows_EdgeDeviceLabels.
  - apply follows_EdgeWorkload.
  - apply follows_nothing, nothing_SignedRequest.
  - apply follows_EdgeConfig.
  - apply follows_nothing, nothing_PlaybookExecution.
Qed.
End Others.

(** ** The messages of the end nodes *)

Section Messages.
Context `{Libs} `{MessageDecoder} `{NodeReuse}.

Lemma replace_node_kept eui node d d' :
  replace_node eui node d = Done d' ->
  device_key d' = device_key d /\ workload_names d' = workload_names d.
Proof. unfold replace_node. destruct (find_node eui _); [|done]. by intros [= <-]. Qed.

Lemma assigning_replaced a h k d eui node d' :
  shown h k d -> replace_node eui node d = Done d' -> assigning a h (UpdateEdgeDeviceStatus d').
Proof.
  intros Hs [Hk Hw]%replace_node_kept. right. apply (accounts_shown _ _ k d); [done..|]. by rewrite Hw.
Qed.

Lemma follows_processDeviceLora a h k msg d :
  shown h k d -> follows (assigning a) h (processDeviceLora msg d).
Proof.
  intros Hd. unfold processDeviceLora.
  destruct (replace_node (DevEUI msg) (lora_node msg) d) as [d'|] eqn:E; cbn [lift]; [|done].
  rewrite bind_ret_l. split; [by eapply assigning_replaced|done].
Qed.

Lemma follows_processDeviceWiFi a h msg d :
  follows (assigning a) h (processDeviceWiFi msg d).
Proof.
  unfold processDeviceWiFi.
  apply follows_bind; [by apply follows_nothing; split|]. intros t1 fields _.
  apply follows_bind; [by apply follows_nothing; split|]. intros t2 tags _. cbv zeta.
  apply follows_bind; [apply follows_nothing, calls_lift|]. intros t3 y _.
  split; [by left|]. intros [d' [e|]]; [done|]. set (h' := _ ++ [_]).
  apply follows_bind; [apply follows_nothing, calls_lift|]. intros t4 d2 [-> E]%exec_lift_inv.
  split.
  - eapply assigning_replaced; [|exact E]. unfold h'.
    eapply (shown_event (UpdateEdgeDevice _) (d', None)); [|reflexivity|left].
    apply elem_of_app. left. apply elem_of_app. right. left.
  - intros [d3 [e|]]; [done|]. apply follows_nothing. nothing_tac.
Qed.

Lemma follows_receiving topic payload :
  follows (assigning (Receiving topic payload)) [] (Wireless.f topic payload).
Proof.
  unfold f, processMqttData. case_decide; [|done]. destruct (Unmarshal _) as [msg [e|]]; [done|].
  do 2 (apply follows_bind; [split; [by left|done]|]; intros ? [?|] _; [done|]).
  apply follows_bind; [split; [by left|done]|]. intros t3 client_err _.
  apply follows_bind; [split; [by left|done]|]. intros t4 [nsList [e|]] _; [done|].
  apply follows_bind; [|done]. apply follows_for_range. intros h [] ns.
  unfold processNamespace. case_bool_decide; [|done].
  apply follows_bind; [split; [by left|done]|]. intros t5 [d [e|]] He; [done|].
  apply exec_Call_inv in He as (r & t' & -> & [-> [= <-]]%exec_Ret_inv).
  apply follows_bind; [|done]. unfold processDevice. case_decide.
  - apply follows_processDeviceLora with (ns, FlottaDeviceID msg). by apply shown_last; [|left].
  - apply follows_processDeviceWiFi.
Qed.
End Messages.

(** ** The requests of devices *)

Section Requests.
Context `{Libs} `{MessageDecoder} `{NodeReuse} `{Unicode} `{Crypto} `{Wire}.
Context (a : activity).

Lemma nothing_updateStatus_one ns copies d hpe :
  calls assigns_nothing (updateStatus_one ns copies d hpe).
Proof.
  unfold updateStatus_one, facade.GetPlaybookExecution, playbookexecution.Read,
    facade.PatchPlaybookExecution, playbookexecution.Patch, facade.UpdateEdgeDeviceLabels.
  apply calls_bind; [apply calls_lift|]. intros s. apply calls_bind; [by split|]. intros [pe err].
  apply calls_bind; [by split|]. intros now. apply calls_bind; [by split|]. intros [pe' [e|]]; [done|].
  case_decide; [|done]. apply calls_bind; [apply nothing_UpdateLabels|by intros [? ?]].
Qed.

Lemma follows_updateStatus h k d hb :
  shown h k d -> follows (assigning a) h (updateStatus d hb).
Proof.
  intros Hd.
  assert (forall {A} h (p : M A), calls quiet p -> follows (assigning a) h p) as Hquiet.
  { intros A h' p Hp. apply follows_nothing. eapply calls_weaken; [|exact Hp].
    intros c Hc. destruct c; try exact I; by destruct Hc. }
  unfold updateStatus. apply follows_bind; [apply Hquiet, playbookCopies_quiet|]. intros t1 copies _.
  apply follows_bind; [destruct (models.Heartbeat_Hardware hb); [apply follows_nothing, calls_lift|done]|].
  intros t2 hw _. apply follows_bind; [apply Hquiet, updateDeploymentStatuses_quiet|].
  intros t3 ds He. apply exec_updateDeploymentStatuses in He as (_ & Hn & _).
  apply follows_bind; [apply Hquiet, updatePlaybookExecutionStatuses_quiet|]. intros t4 ps _.
  cbv zeta. case_decide.
  - split; [|done]. right. apply (accounts_shown _ _ k d).
    + eapply shown_mono; [|exact Hd]. set_solver.
    + done.
    + intros w. apply Hn.
  - apply follows_bind; [|done]. apply follows_nothing, calls_for_each. intros.
    apply nothing_updateStatus_one.
Qed.

Lemma follows_Process retry name ns hb h : follows (assigning a) h (Process retry name ns hb).
Proof.
  unfold Process, facade.GetEdgeDevice, edgedevice.Read.
  apply follows_bind; [split; [by left|done]|]. intros t [d [e|]] He; [by case_match|].
  apply exec_Call_inv in He as (r & t' & -> & [-> [= <-]]%exec_Ret_inv).
  apply follows_bind.
  { destruct (default false retry); [done|]. apply follows_nothing. unfold processEvents. nothing_tac. }
  intros t2 _ _. apply follows_bind.
  { apply follows_updateStatus with (ns, name). apply shown_app. by apply shown_last; [|left]. }
  intros t3 [d' [e|]] _; [done|]. unfold updateLabels, facade.UpdateEdgeDeviceLabels.
  apply follows_bind; [apply follows_nothing, nothing_UpdateLabels|]. by intros ? [? [?|]] _.
Qed.

Context (initialNamespace : string) (mtlsConfig : TLSConfig CASecretProvider).
Let B : EdgeDeviceBackend := k8s.backend initialNamespace.
#[local] Existing Instance B.
Let B_laws : BackendLaws B := k8s_laws initialNamespace.
#[local] Existing Instance B_laws.

Lemma nothing_updateDeviceStatus d f :
  (forall d d', f d = Done d' -> keeps_workloads d d') ->
  calls assigns_nothing (k8s.updateDeviceStatus d f).
Proof.
  intros Hf. unfold k8s.updateDeviceStatus, k8s.updateDeviceStatus_one, facade.GetEdgeDevice,
    edgedevice.Read, facade.PatchEdgeDeviceStatus, edgedevice.PatchStatus.
  destruct (f d) as [d1|] eqn:E1; cbn [lift]; [|done]. rewrite bind_ret_l.
  apply calls_bind; [split; [by apply Hf|done]|]. intros [d2 [e|]]; [|done].
  apply calls_bind; [|by intros [?|?]]. apply calls_for_range. intros u i.
  apply calls_bind; [by split|]. intros _. apply calls_bind; [by split|]. intros [d3 [e3|]]; [done|].
  cbv zeta. destruct (f d3) as [d4|] eqn:E4; cbn [lift]; [|done]. rewrite bind_ret_l.
  apply calls_bind; [split; [by apply Hf|done]|]. by intros [d5 [e5|]].
Qed.

Lemma nothing_Register name ns info : calls assigns_nothing (k8s.Register name ns info).
Proof.
  unfold k8s.Register, facade.GetEdgeDevice, edgedevice.Read, facade.PatchEdgeDevice, edgedevice.Patch.
  apply calls_bind; [by split|]. intros [d err]. apply calls_bind; [by split|]. intros labels.
  apply calls_bind; [apply calls_lift|]. intros m. cbv zeta. apply calls_bind; [by split|].
  intros [d' [e|]]; [done|]. apply nothing_updateDeviceStatus. intros d1 d2. unfold k8s.report_hardware.
  destruct (MapHardware _); [|done]. by intros [= <-].
Qed.

Lemma nothing_no_write c : no_write c -> assigns_nothing c.
Proof. intros Hn. destruct c; try exact I; by destruct Hn. Qed.

Lemma follows_PostHeartbeat auth id msg :
  follows (assigning a) [] (PostHeartbeat initialNamespace auth id msg).
Proof.
  unfold PostHeartbeat, metric. destruct (decode_Heartbeat _) as [hb|e]; [|done].
  apply follows_bind; [apply follows_nothing, calls_lift|]. intros t1 _ _. apply follows_bind.
  2:{ intros t2 [e|] _; [by case_match|]. split; [by left|done]. }
  unfold RetryingProcess. generalize ([] ++ t1 : list Event). generalize (None : option error) at 1.
  generalize false, 1%Z. generalize 4 as fuel. intros fuel.
  induction fuel as [|fuel IH]; intros retry i err h; [done|].
  cbn [retrying]. apply follows_bind; [apply follows_Process|]. intros t2 [retry' [e|]] _; [|done].
  destruct (negb retry'); [done|]. apply follows_bind; [split; [by left|done]|]. intros t3 _ _. apply IH.
Qed.

Lemma nothing_PostRegistration auth id msg :
  calls assigns_nothing (PostRegistration initialNamespace mtlsConfig auth id msg).
Proof.
  unfold PostRegistration, metric. destruct (decode_RegistrationInfo _) as [info|e]; [|done].
  apply calls_bind.
  { eapply calls_weaken; [apply nothing_no_write|]. apply GetTargetNamespace_no_write. }
  intros [ns [e|]]; [nothing_tac|]. apply calls_bind.
  { unfold TLSConfig_SignCSR. destruct (caProvider mtlsConfig) as [|p ps]; [done|].
    apply calls_bind; [by split|]. intros now. cbn [SignCSR CASecretProvider_CAProvider].
    unfold secret_provider.SignCSR. nothing_tac. }
  intros [cert [e|]]; [done|]. cbv zeta. apply calls_bind; [apply nothing_Register|].
  intros [e|]; nothing_tac.
Qed.

Lemma nothing_Enrol name ns info : calls assigns_nothing (k8s.Enrol initialNamespace name ns info).
Proof.
  unfold k8s.Enrol, facade.GetEdgeDevice, edgedevice.Read, facade.GetEdgeDeviceSignedRequest,
    edgedevicesignedrequest.Read, facade.CreateEdgeDeviceSignedRequest, edgedevicesignedrequest.Create.
  nothing_tac.
Qed.

Lemma follows_handle auth r :
  follows (assigning a) [] (handle initialNamespace mtlsConfig auth r).
Proof.
  assert (query r -> follows (assigning a) [] (handle initialNamespace mtlsConfig auth r)) as Hquery.
  { intros Hq. apply follows_nothing. eapply calls_weaken; [apply nothing_no_write|].
    by apply handle_query_calls. }
  destruct r as [id|id|id|id msg]; [by apply Hquery..|].
  destruct (decide (models.Message_Directive msg = "heartbeat")) as [Eh|Hh].
  { cbn [handle]. unfold HandlePostDataMessage. rewrite Eh. cbn [negb andb].
    case_match; [apply follows_nothing; unfold metric; nothing_tac|].
    rewrite decide_True by done. apply follows_PostHeartbeat. }
  destruct (open_directive (models.Message_Directive msg)) eqn:Eo; [|by apply Hquery].
  cbn [handle]. unfold HandlePostDataMessage. rewrite Eo. cbn [negb andb].
  rewrite (decide_False _ _ Hh). apply bool_decide_eq_true in Eo. apply follows_nothing.
  case_decide as Hen.
  - unfold PostEnrolment. destruct (decode_EnrolmentInfo _) as [info|e]; [|done].
    apply calls_bind; [apply nothing_Enrol|]. by intros [b [e|]].
  - rewrite decide_True by (by destruct Eo). apply nothing_PostRegistration.
Qed.

Lemma follows_InnerMiddleware roots chain peers r :
  follows (assigning a) [] (InnerMiddleware initialNamespace mtlsConfig roots chain peers r).
Proof.
  unfold InnerMiddleware. destruct peers as [peers|]; [|done]. apply follows_bind.
  { apply follows_nothing. unfold VerifyRequest, VerifyRequest_one. nothing_tac. }
  intros t [auth [[] err]] _; [|by split; [left|]].
  apply follows_bind; [|done]. eapply follows_mono; [by apply assigning_mono| |apply follows_handle]. set_solver.
Qed.
End Requests.

(** ** In the system *)

Section Assignments.
Context `{Unicode} `{Libs} `{Formatter} `{Crypto} `{Wire} `{MessageDecoder} `{NodeReuse}.
Context (D : Deployment).

Lemma assigning_code a : follows (assigning a) [] (code_of D a).
Proof.
  destruct a as [r name ns|peers r|topic payload]; cbn [code_of]; apply follows_fmap.
  - apply follows_reconcile.
  - apply follows_InnerMiddleware.
  - apply follows_receiving.
Qed.

Definition thread_assigns (th : thread) : Prop :=
  follows (assigning (t_activity th)) (t_trace th) (t_rest th).

Lemma assigns_reachable s : reachable D s -> Forall thread_assigns (s_threads s).
Proof.
  intros (s0 & (_ & Hs0 & _) & Hsteps).
  assert (Forall thread_assigns (s_threads s0)) as Hi by (rewrite Hs0; constructor).
  clear Hs0. induction Hsteps as [|s1 s2 s3 [a Hst] _ IH]; [done|]. apply IH.
  destruct Hst as [o' _|a'|i th c k r o' Hth Hc Hsv]; [done| |].
  - apply Forall_app. split; [done|]. apply Forall_singleton. apply assigning_code.
  - apply Forall_insert; [done|]. pose proof (Forall_lookup_1 _ _ _ _ Hi Hth) as Ht.
    unfold thread_assigns in *. rewrite Hc in Ht. by apply Ht.
Qed.

(** What a grounded device lists, one of the past listed. *)
Lemma grounded_past h th d :
  past_ok h -> thread_ok D h th -> grounded (t_trace th) d ->
  exists d0, in_history h (device_key d) d0 /\ workload_names d ⊆ workload_names d0.
Proof.
  intros Hp [_ _ Hs _ Href] Hg. induction Hg as [k d Hd%Hs|base obj d e He _ IH|d obj _ IH Hk Hw].
  - exists d. destruct (past_key _ _ _ Hp Hd) as [-> _]. done.
  - by rewrite (Href _ _ _ _ He).
  - destruct IH as (d0 & ? & Hd0). exists d0. rewrite Hk. split; [done|]. by etrans.
Qed.

(** A device there is a reason for is one of the past. *)
Lemma reason_past h th d w :
  past_ok h -> thread_ok D h th -> reason (t_activity th) (t_trace th) d w ->
  in_history h (device_key d) d.
Proof.
  intros Hp [_ _ Hs _ _] Hr.
  assert (exists k, shown (t_trace th) k d) as [k Hk%Hs].
  2:{ by destruct (past_key _ _ _ Hp Hk) as [-> _]. }
  destruct (t_activity th) as [r name ns| |]; try done. destruct r; try done; cbn [reason] in Hr.
  - destruct Hr as [Hd _]. eexists. eapply shown_event; [exact Hd|reflexivity|left].
  - destruct Hr as (ew & _ & _ & _ & Hsel). unfold selected_by in Hsel. case_decide.
    + eexists. eapply shown_event; [exact Hsel|reflexivity|left].
    + destruct Hsel as (s & items & _ & He & Hd). eexists.
      eapply (shown_event (ListEdgeDevices _ _) (items, None)); [exact He|reflexivity|exact Hd].
Qed.

(** A write of a device leaves it with what it had, and with what [Q] allows. *)
Lemma writes_workloads (Q : Prop) h obj accepts change o (r : EdgeDevice * option error) o' k d w :
  writes_device h obj accepts change o r o' ->
  (forall cur, w ∈ workload_names (change cur) -> w ∈ workload_names cur \/ Q) ->
  o_devices o' !! k = Some d -> w ∈ workload_names d ->
  (exists d0, o_devices o !! k = Some d0 /\ w ∈ workload_names d0) \/ k = device_key obj /\ Q.
Proof.
  intros [(-> & _)|(cur & d1 & Hcur & _ & Hst & -> & _)] Hc Hd Hw; [left; by exists d|].
  cbn [set_o_devices o_devices] in Hd.
  apply lookup_insert_Some in Hd as [[<- ->]|[_ Hd]]; [|left; by exists d].
  assert (w ∈ workload_names cur \/ Q) as [?|?]; [|left; by exists cur|by right].
  destruct Hst as [[_ ->]|(rv & _ & ->)]; [by left|by apply Hc].
Qed.

Lemma patched_status_workloads base obj cur w :
  w ∈ workload_names (patched_device_status base obj cur) ->
  w ∈ workload_names cur \/ ~ keeps_workloads base obj /\ w ∈ workload_names obj.
Proof.
  unfold workload_names, patched_device_status, keeps_workloads, upd_Status.
  cbn [EdgeDevice_Status merge_status EdgeDeviceStatus_Workloads]. unfold merge_field.
  case_decide as E; [by left|]. right. split; [by intros ?|done].
Qed.

(** What a call adds to a device it has sent under the name of that device. *)
Lemma serves_assigns a h o tr c o' r k d w :
  assigning a tr c -> serves h o c o' r -> o_devices o' !! k = Some d -> w ∈ workload_names d ->
  (exists d0, o_devices o !! k = Some d0 /\ w ∈ workload_names d0) \/
  exists obj, accounts a tr obj /\ k = device_key obj /\ w ∈ workload_names obj.
Proof.
  intros Ha Hsv Hd Hw.
  assert (o_devices o' = o_devices o -> exists d0, o_devices o !! k = Some d0 /\ w ∈ workload_names d0)
    as Hsame by (intros E; rewrite E in Hd; by exists d).
  assert (forall k' change r', writes_request k' change o r' o' -> o_devices o' = o_devices o) as Hq
    by (by intros k' change r' [[-> _]|(cur & rv & _ & -> & _)]).
  destruct c; cbn [serves] in Hsv;
    try (left; subst o'; by apply Hsame); try (destruct Hsv as [-> _]; left; by apply Hsame);
    try (apply Hq in Hsv; left; by apply Hsame).
  - destruct Hsv as [[-> _]|(_ & _ & uid & rv & _ & _ & ->)]; [left; by apply Hsame|].
    cbn [set_o_devices o_devices] in Hd. apply lookup_insert_Some in Hd as [[_ <-]|[_ Hd]].
    + destruct Ha as [Ha|[]]. change (w ∈ workload_names d0) in Hw. cbn [assigns_nothing] in Ha.
      rewrite Ha in Hw. by apply elem_of_nil in Hw.
    + left. by exists d.
  - destruct Hsv as [[-> _]|(_ & _ & uid & rv & ->)]; left; by apply Hsame.
  - apply (writes_workloads False _ _ _ _ _ _ _ k d w) in Hsv as [?|[_ []]]; [by left|by left|done..].
  - apply (writes_workloads (accounts a tr obj /\ w ∈ workload_names obj) _ _ _ _ _ _ _ k d w) in Hsv
      as [?|(? & ? & ?)]; [by left|right; by exists obj| |done..].
    intros cur [?|[Hk ?]]%patched_status_workloads; [by left|right]. by destruct Ha.
  - apply (writes_workloads False _ _ _ _ _ _ _ k d w) in Hsv as [?|[_ []]]; [by left|by left|done..].
  - destruct Ha as [[]|Ha].
    apply (writes_workloads (w ∈ workload_names obj) _ _ _ _ _ _ _ k d w) in Hsv
      as [?|(? & ?)]; [by left|right; by exists obj| |done..]. by right.
  - destruct Hsv as [[-> _]| ->]; left; by apply Hsame.
Qed.

(** C5: nothing assigns a workload without a reason: whatever runs at the same time, a
    call of the operator that makes a device list a workload it has never
    listed before is made by the reconciler of that workload, which has read
    the workload, found it not being deleted and to select the device, or by
    the reconciler of the device's labels, which has been listed the workload
    and found it to match the labels; no request of a device, no message and no
    other reconciler does so. *)
Theorem workloads_are_assigned_for_a_reason s i th c cont answer o' (k : key) d w :
  reachable D s -> s_threads s !! i = Some th -> t_rest th = Call c cont ->
  serves (history s) (s_now s) c o' answer ->
  o_devices o' !! k = Some d -> w ∈ workload_names d ->
  (exists o d0, o ∈ history s /\ o_devices o !! k = Some d0 /\ w ∈ workload_names d0) \/
  exists o d0, o ∈ history s /\ o_devices o !! k = Some d0 /\
    reason (t_activity th) (t_trace th) d0 w.
Proof.
  intros Hr Hth Hc Hsv Hd Hw. pose proof (assigns_reachable s Hr) as Ha.
  apply (Forall_lookup_1 _ _ _ _ Ha) in Hth as Hta. unfold thread_assigns in Hta.
  rewrite Hc in Hta. destruct Hta as [Hta _].
  destruct (system_ok_reachable D s Hr) as [Hp Hts].
  pose proof (Forall_lookup_1 _ _ _ _ Hts Hth) as Hok.
  destruct (serves_assigns _ _ _ _ _ _ _ k d w Hta Hsv Hd Hw)
    as [(d0 & Hd0 & ?)|(obj & (d1 & Hg & Hk & Hacc) & -> & Hobj)].
  { left. exists (s_now s), d0. split; [unfold history; set_solver|done]. }
  destruct (Hacc w Hobj) as [Hold|Hre].
  - left. destruct (grounded_past _ _ _ Hp Hok Hg) as (d0 & (o & ? & ?) & Hs).
    exists o, d0. rewrite Hk. split_and!; [done..|]. by apply Hs.
  - right. destruct (reason_past _ _ _ _ Hp Hok Hre) as (o & ? & ?).
    exists o, d1. rewrite Hk. done.
Qed.
End Assignments.

(** ** Runs *)

#[local] Existing Instance ascii_tables.
#[local] Existing Instance trivial_libs.
#[local] Existing Instance trivial_formatter.
#[local] Existing Instance no_messages.
#[local] Existing Instance nothing_reused.


(** A device that lists a workload, and reports that it runs. *)
#[local] Instance running_wire : Wire := {|
  decode_Heartbeat _ := inl (models.mkHeartbeat None None None "up" None "1"
    (Some [Some (models.mkWorkloadStatus 0 "v" "Running")]));
  decode_EnrolmentInfo := @decode_EnrolmentInfo example_wire;
  decode_RegistrationInfo := @decode_RegistrationInfo example_wire;
  encode_PlaybookExecutions := @encode_PlaybookExecutions example_wire;
|}.
Definition device_cert : Certificate :=
  let template := mkCertificate "" 0 (mkName "d1" None (Some ["ns"]) "n") 0 10 false false 1 None
                    None None None (Some (ECDSAPublicKey 1)) "" 0 0 in
  set_Raw (text (template, ECDSAPublicKey 0)) template.
Definition placed_start : state :=
  mkState [] (mkObjects {[("ns", "d1") :=
    device_named "d1" (Some ∅) (Some [mkWorkload "v" Deploying 0 0])]} ∅) [].
Definition placed_others : World := set_workloads {[("ns", "w1") := w1]} empty_world.

Definition placing : activity := Reconciling EdgeWorkloadReconciler "w1" "ns".
Definition beating : activity := Serving (Some [device_cert]) (PostData "d1" (message "heartbeat")).
Definition placed_after (ms : list move) : state :=
  default placed_start (play example_deployment placed_others ms placed_start).

Lemma placed_initial : initial placed_start.
Proof.
  split; [done|]. split; [done|]. split; [|by intros k r].
  intros k d Hd. cbn in Hd. apply lookup_singleton_Some in Hd as [<- <-]. by split_and!.
Qed.

Definition placed_plays (ms : list move) : bool :=
  match play example_deployment placed_others ms placed_start with Some _ => true | None => false end.

Lemma placed_reachable ms : placed_plays ms = true -> reachable example_deployment (placed_after ms).
Proof.
  unfold placed_plays, placed_after. destruct (play _ _ ms _) as [s|] eqn:Hs; [intros _|done].
  apply (play_reachable _ placed_others ms placed_start); [apply placed_initial|exact Hs].
Qed.

Lemma placed_steps ms1 ms2 :
  placed_plays ms1 = true -> placed_plays (ms1 ++ ms2) = true ->
  rtc (fun s s' => exists a, step example_deployment s a s')
    (placed_after ms1) (placed_after (ms1 ++ ms2)).
Proof.
  unfold placed_plays, placed_after. destruct (play _ _ ms1 _) as [s1|] eqn:E1; [intros _|done].
  rewrite (play_app _ _ _ _ _ _ E1). destruct (play _ _ ms2 s1) as [s2|] eqn:E2; [intros _|done].
  by eapply play_steps.
Qed.

Definition lists (k : key) (w : string) (o : Objects) : bool :=
  match o_devices o !! k with Some d => bool_decide (w ∈ workload_names d) | None => false end.

Lemma lists_spec k w o :
  lists k w o = true <-> exists d, o_devices o !! k = Some d /\ w ∈ workload_names d.
Proof.
  unfold lists. destruct (o_devices o !! k) as [d|]; [rewrite bool_decide_eq_true|]; naive_solver.
Qed.

(** The reconciliation up to its first write of the device, and to its end. *)
Definition about_to_place : list move := Start placing :: replicate 5 (Go 0).
(** The heartbeat has read the device before the reconciliation starts. *)
Definition placed_meanwhile : list move :=
  Start placing :: Start beating :: replicate 4 (Go 1) ++ replicate 7 (Go 0).
Definition beaten : list move := replicate 3 (Go 1).

(** After the next call of the thread [i] the device lists the workload. *)
Definition next_lists (s : state) (i : nat) (k : key) (w : string) : bool :=
  match s_threads s !! i with
  | Some th =>
      match t_rest th with
      | Call c _ => lists k w (play_call placed_others (history s) (s_now s) c (s_now s)).1
      | _ => false
      end
  | None => false
  end.

Lemma workloads_are_assigned_for_a_reason_witness :
  exists th o d0, s_threads (placed_after about_to_place) !! 0 = Some th /\
    o ∈ history (placed_after about_to_place) /\ o_devices o !! ("ns", "d1") = Some d0 /\
    reason (t_activity th) (t_trace th) d0 "w1".
Proof.
  set (s := placed_after about_to_place).
  assert (reachable example_deployment s) as Hr by (apply placed_reachable; vm_compute; reflexivity).
  assert (next_lists s 0 ("ns", "d1") "w1" = true) as Hl by (vm_compute; reflexivity).
  assert (forallb (fun o => negb (lists ("ns", "d1") "w1" o)) (history s) = true) as Hn
    by (vm_compute; reflexivity).
  clearbody s. unfold next_lists in Hl.
  destruct (s_threads s !! 0) as [th|] eqn:Hth; [|discriminate Hl].
  destruct (t_rest th) as [| |c k] eqn:Hc; [discriminate Hl..|].
  pose proof (play_call_serves placed_others (history s) (s_now s) c (s_now s)) as Hsv.
  destruct (play_call placed_others (history s) (s_now s) c (s_now s)) as [o' answer].
  cbn [fst] in Hl.
  apply lists_spec in Hl as (d & Hd & Hw).
  assert (s_now s ∈ history s) as Hnow by (apply elem_of_app; right; left).
  destruct (workloads_are_assigned_for_a_reason example_deployment s 0 th c k answer o' ("ns", "d1") d
    "w1" Hr Hth Hc (Hsv Hnow) Hd Hw) as [(o & d0 & Ho & Hd0 & Hold)|(o & d0 & Ho & Hd0 & Hre)].
  - exfalso. rewrite forallb_forall in Hn. apply list_elem_of_In in Ho. specialize (Hn o Ho).
    rewrite (proj2 (lists_spec _ _ o)) in Hn by (by exists d0). discriminate Hn.
  - exists th, o, d0. split; [reflexivity|]. split; [exact Ho|]. split; [exact Hd0|exact Hre].
Defined.

Definition bears (k : key) (label : string) (o : Objects) : bool :=
  match o_devices o !! k with
  | Some d => bool_decide (is_Some (map_get (Labels (EdgeDevice_ObjectMeta d)) label))
  | None => false
  end.
Definition reconciled_well (th : thread) : bool :=
  match t_rest th with Ret (Reconciled (res, None)) => negb (Requeue res) | _ => false end.
Definition answered_ok (th : thread) : bool :=
  match t_rest th with Ret (Served (inr r)) => bool_decide (code r = StatusOK) | _ => false end.

(** An assignment may be lost to a heartbeat: the reconciler has made the device
    list the workload and has reported success, then a heartbeat that had read
    the device before writes the status, and the workload is gone from it while
    its label stays; nobody has been told of an error. *)
Theorem assignment_is_lost_to_a_heartbeat :
  exists s1 s2, reachable example_deployment s1 /\
    rtc (fun s s' => exists a, step example_deployment s a s') s1 s2 /\
    lists ("ns", "d1") "w1" (s_now s1) = true /\
    lists ("ns", "d1") "w1" (s_now s2) = false /\
    bears ("ns", "d1") (WorkloadLabel "w1") (s_now s2) = true /\
    reconciled_well <$> s_threads s1 !! 0 = Some true /\
    answered_ok <$> s_threads s2 !! 1 = Some true.
Proof.
  exists (placed_after placed_meanwhile), (placed_after (placed_meanwhile ++ beaten)).
  split_and!; [apply placed_reachable; vm_compute; reflexivity
              |apply placed_steps; vm_compute; reflexivity|vm_compute; reflexivity..].
Qed.
