(* ===== verification/ClusterAnswers.v ===== *)
(** * What a device is told

    The configuration a device is sent, whatever runs at the same time, is that
    of the device whose name and namespace are in the certificate of the
    request: it describes workloads this device was assigned and holds secrets
    these workloads refer to, and nothing else. *)
From S2P Require Import Prelude GoData GoStrings V1alpha1 Models Env Testbed Labels Utils.
From S2P Require Import ApiServer ConfigSources.
From S2P Require Import Repository Hardware Facade BackendApi Backend Assembler Crypto MTLS Yggdrasil.
From S2P Require Import Controller EdgeWorkload EdgeDeviceLabels SignedRequest Reconcilers Wireless.
From S2P Require Import Onboarding Cluster ClusterRules ClusterSafety ClusterIsolation ClusterAssignments.
Import v1alpha1.

(** ** What a configuration is made of *)

(** A workload [ew] that the device [d] lists and the server has shown. *)
Definition workload_of (d : EdgeDevice) (t : list Event) (ew : EdgeWorkload) : Prop :=
  exists n, n ∈ workload_names d /\
    Ev (GetEdgeWorkload (Namespace (EdgeDevice_ObjectMeta d)) n) (ew, None) ∈ t /\
    DeletionTimestamp (EdgeWorkload_ObjectMeta ew) = None.

(** Each workload of the message describes one of the device's, each secret is
    one that such a workload refers to. *)
Definition made_of `{Libs} (d : EdgeDevice) (t : list Event)
    (dc : models.DeviceConfigurationMessage) : Prop :=
  let ns := Namespace (EdgeDevice_ObjectMeta d) in
  (forall w, Some w ∈ elems (models.DeviceConfigurationMessage_Workloads dc) ->
    exists ew, workload_of d t ew /\ models.Workload_Name w = Name (EdgeWorkload_ObjectMeta ew) /\
      yaml_PodSpec (pod_of ew) = (models.Workload_Specification w, None)) /\
  forall m, Some m ∈ elems (models.DeviceConfigurationMessage_Secrets dc) ->
    exists ew name secret seed, workload_of d t ew /\ name ∈ (secret_refs [ew]).*1 /\
      Ev (GetSecret ns name) (secret, None) ∈ t /\ m = secret_message seed secret.

Lemma workload_of_mono d t t' ew : t ⊆ t' -> workload_of d t ew -> workload_of d t' ew.
Proof. intros Hs (n & ? & ? & ?). exists n. set_solver. Qed.

Lemma made_of_mono `{Libs} d t t' dc : t ⊆ t' -> made_of d t dc -> made_of d t' dc.
Proof.
  intros Hs [Hw Hm]. split.
  - intros w (ew & ? & ?)%Hw. exists ew. split; [by eapply workload_of_mono|done].
  - intros m (ew & name & secret & seed & ? & ? & ? & ?)%Hm. exists ew, name, secret, seed.
    split_and!; [by eapply workload_of_mono|done|by apply Hs|done].
Qed.

Lemma collected_from {X Y Z} (Got : X -> option Y -> list Event -> Prop) (emit : X -> Y -> Z)
    order acc t z :
  collected Got emit order acc t -> z ∈ acc ->
  exists x y t', x ∈ order /\ t' ⊆ t /\ Got x (Some y) t' /\ z = emit x y.
Proof.
  intros (l & <- & -> & HF) ([x y] & Hin & Hz)%list_elem_of_omap.
  destruct y as [y|]; [|done]. injection Hz as <-. rewrite Forall_forall in HF.
  destruct (HF _ Hin) as (t' & ? & ?). exists x, y, t'. split_and!; [|done..].
  apply list_elem_of_fmap. by exists (x, Some y).
Qed.

Lemma asked_in name l q : Utils.asked name l = Some q -> name ∈ l.*1.
Proof.
  induction l as [|[n q'] l IH]; [done|]. cbn [Utils.asked]. case_decide as Hn; [subst; left|].
  intros ?. right. by apply IH.
Qed.

Lemma elem_of_secret_refs name ews :
  name ∈ (secret_refs ews).*1 -> exists ew, ew ∈ ews /\ name ∈ (secret_refs [ew]).*1.
Proof.
  intros ([n q] & -> & Hin)%list_elem_of_fmap. unfold secret_refs in Hin.
  apply list_elem_of_In, in_concat in Hin as (l & Hl & Hin).
  apply list_elem_of_In, list_elem_of_fmap in Hl as (ew & -> & Hew). exists ew. split; [done|].
  apply list_elem_of_fmap. exists (n, q). split; [done|]. unfold secret_refs. cbn [fmap list_fmap concat].
  rewrite app_nil_r. by apply list_elem_of_In.
Qed.

Lemma exec_configuration_made_of `{Libs} d t dc err :
  exec (GetDeviceConfiguration d) t (Done (Some dc, err)) -> made_of d t dc.
Proof.
  intros He. apply exec_GetDeviceConfiguration in He as (_ & _ & _ & He). unfold made_of.
  destruct (DeletionTimestamp _).
  { destruct He as [-> ->]. split; [intros w|intros m]; by intros ?%elem_of_nil. }
  destruct He as (ews & ws & ss & t1 & t2 & t3 & t4 & -> & Hr & -> & Hs & -> & Ha).
  assert (forall ew, ew ∈ ews -> workload_of d (t1 ++ t2 ++ t3 ++ t4) ew) as Hew.
  { intros ew Hin. destruct (collected_from _ _ _ _ _ _ Hr Hin) as (w & ew' & t' & Hw & Ht & [Hg Hd] & ->).
    exists (Workload_Name w). split; [by apply list_elem_of_fmap_2|]. split; [set_solver|done]. }
  split.
  - intros w (w' & [= <-] & Hw)%list_elem_of_fmap.
    destruct (collected_from _ _ _ _ _ _ Hs Hw) as (ew & w' & t' & Hin & _ & Hd & ->).
    exists ew. split; [by apply Hew|]. by destruct Hd as (? & _ & ? & _).
  - intros m (m' & [= <-] & Hm)%list_elem_of_fmap.
    destruct Ha as (l & -> & _ & Hask & HF). apply list_elem_of_omap in Hm as ([[name q] m'] & Hin & [= ->]).
    rewrite Forall_forall in HF. destruct (HF _ Hin) as (t' & Ht & secret & seed & Hg & _ & ->).
    assert (Utils.asked name (secret_refs ews) = Some q) as Hq.
    { apply Hask, list_elem_of_fmap. by exists (name, q, Some (secret_message seed secret)). }
    apply asked_in, elem_of_secret_refs in Hq as (ew & Hewin & Hn).
    exists ew, name, secret, seed. split_and!; [by apply Hew|done|set_solver|done].
Qed.

(** ** What the handler answers *)

Section Answers.
Context `{Unicode} `{Libs} `{Formatter} `{Crypto} `{Wire} `{MessageDecoder} `{NodeReuse}.

(** The configuration in an answer. *)
Definition configuration_in (resp : Responder) : option models.DeviceConfigurationMessage :=
  match payload resp with
  | MessagePayload m =>
      match models.Message_Content m with models.AnyDeviceConfiguration dc => Some dc | _ => None end
  | _ => None
  end.

Lemma exec_GetData_configuration initialNamespace auth id t resp dc :
  exec (HandleGetDataMessage (H2 := k8s.backend initialNamespace) initialNamespace auth id) t (Done resp) ->
  configuration_in resp = Some dc ->
  exists d t', IsOwnDevice auth id = true /\
    t = Ev (GetEdgeDevice (getNamespace initialNamespace auth) id) (d, None) :: t' /\
    models.DeviceConfigurationMessage_DeviceID dc = Name (EdgeDevice_ObjectMeta d) /\
    models.DeviceConfigurationMessage_Version dc = device_rv d /\ made_of d t dc.
Proof.
  intros He Hdc. unfold HandleGetDataMessage in He. destruct (IsOwnDevice auth id) eqn:Ho; cbn [negb] in He.
  2:{ apply metric_bind in He as (t' & _ & He). apply exec_Ret_inv in He as [_ [= ->]]. done. }
  apply exec_bind_inv in He as [[_ ?]|([c err] & t1 & t2 & -> & Hg & He)]; [done|].
  destruct err as [e|].
  { destruct (IsNotFound e); apply exec_Ret_inv in He as [_ [= ->]]; done. }
  exec_call He as (uuid & t3 & -> & He). exec_call He as (now & t4 & -> & He).
  destruct c as [c|]; [|by apply exec_Panic_inv in He as [_ ?]].
  cbn [deref lift] in He. rewrite bind_ret_l in He. apply exec_Ret_inv in He as [-> [= ->]].
  injection Hdc as ->. cbn [GetConfiguration k8s.backend] in Hg.
  unfold k8s.GetConfiguration, facade.GetEdgeDevice, edgedevice.Read in Hg.
  exec_call Hg as ([d err] & t5 & -> & Hg).
  destruct err as [e|]; [by apply exec_Ret_inv in Hg as [_ ?]|].
  exists d. eexists. split; [done|]. split; [done|].
  pose proof (exec_GetDeviceConfiguration _ _ _ _ Hg) as (_ & -> & -> & _).
  split; [done|]. split; [done|]. eapply made_of_mono; [|by eapply exec_configuration_made_of]. set_solver.
Qed.

(** ** In the system *)

Context (D : Deployment).
Notation initialNamespace := (d_initialNamespace D).

(** C6: a configuration reaches only its device: whatever runs at the same time, the
    configuration in the answer to a request is that of a past state of the
    device that the first certificate of the request names, in the namespace it
    names; each workload in it describes one this device lists, each secret is
    one that such a workload refers to in that namespace. *)
Theorem configurations_are_the_devices_own s th peers id resp dc :
  reachable D s -> th ∈ s_threads s -> t_activity th = Serving peers (GetData id) ->
  t_rest th = Ret (Served (inr resp)) -> configuration_in resp = Some dc ->
  exists leaf rest o d, peers = Some (leaf :: rest) /\
    IsOwnDevice (Some (request_identity leaf)) id = true /\ o ∈ history s /\
    o_devices o !! (getNamespace initialNamespace (Some (request_identity leaf)), id) = Some d /\
    models.DeviceConfigurationMessage_DeviceID dc = id /\
    models.DeviceConfigurationMessage_Version dc = device_rv d /\ made_of d (t_trace th) dc.
Proof.
  intros [Hp Hts]%system_ok_reachable Hin Ha Hrest Hdc.
  rewrite Forall_forall in Hts. destruct (Hts th Hin) as [_ He Hs _ _].
  rewrite Hrest, Ha in He. specialize (He [] (Done (Served (inr resp))) ltac:(constructor)).
  rewrite app_nil_r in He. cbn [code_of] in He.
  apply exec_fmap_inv in He as [[_ ?]|(a & He & [= <-])]; [done|].
  apply exec_InnerMiddleware_answered in He as (leaf & rest & -> & Hh).
  cbn [handle] in Hh.
  destruct (exec_GetData_configuration _ _ _ _ _ _ Hh Hdc) as (d & t' & Ho & Ht & -> & -> & Hm).
  set (ns := getNamespace _ _) in *.
  assert (in_history (history s) (ns, id) d) as Hd.
  { apply Hs. rewrite Ht. apply (shown_event (GetEdgeDevice ns id) (d, None)); [left|done|left]. }
  destruct (past_key _ _ _ Hp Hd) as [Hk _]. destruct Hd as (o & ? & ?).
  exists leaf, rest, o, d. split_and!; try done. by injection Hk.
Qed.
End Answers.

(** ** A run *)

#[local] Existing Instance ascii_tables.
#[local] Existing Instance trivial_libs.
#[local] Existing Instance trivial_formatter.
#[local] Existing Instance no_messages.
#[local] Existing Instance nothing_reused.
#[local] Existing Instance running_wire.

(** The workload is placed, then the device asks for its configuration. *)
Definition asking : activity := Serving (Some [device_cert]) (GetData "d1").
Definition configured : list move :=
  Start placing :: replicate 7 (Go 0) ++ Start asking :: replicate 9 (Go 1).

Definition configuration_of (th : thread) : option models.DeviceConfigurationMessage :=
  match t_rest th with Ret (Served (inr resp)) => configuration_in resp | _ => None end.

Lemma configurations_are_the_devices_own_witness :
  exists th dc o d, th ∈ s_threads (placed_after configured) /\ configuration_of th = Some dc /\
    length (elems (models.DeviceConfigurationMessage_Workloads dc)) = 1 /\
    o ∈ history (placed_after configured) /\ o_devices o !! ("ns", "d1") = Some d /\
    made_of d (t_trace th) dc.
Proof.
  set (s := placed_after configured).
  assert (reachable example_deployment s) as Hr by (apply placed_reachable; vm_compute; reflexivity).
  assert (t_activity <$> s_threads s !! 1 = Some asking) as Ha by (vm_compute; reflexivity).
  assert ((fun dc => length (elems (models.DeviceConfigurationMessage_Workloads dc))) <$>
            (s_threads s !! 1 ≫= configuration_of) = Some 1) as Hn by (vm_compute; reflexivity).
  clearbody s. destruct (s_threads s !! 1) as [th|] eqn:Hth; [|discriminate Ha].
  injection Ha as Ha. cbn [mbind option_bind] in Hn.
  destruct (configuration_of th) as [dc|] eqn:Hdc; [|discriminate Hn]. injection Hn as Hn.
  apply list_elem_of_lookup_2 in Hth. pose proof Hdc as Hc. unfold configuration_of in Hc.
  destruct (t_rest th) as [a| |] eqn:Hrest; [|discriminate Hc..].
  destruct a as [|[|resp]|]; try discriminate Hc.
  destruct (configurations_are_the_devices_own example_deployment s th _ "d1" resp dc Hr Hth Ha Hrest Hc)
    as (leaf & rest & o & d & Hp & _ & Ho & Hd & _ & _ & Hm).
  injection Hp as <- <-.
  exists th, dc, o, d. split; [exact Hth|]. split; [exact Hdc|]. split; [exact Hn|].
  split; [exact Ho|]. split; [exact Hd|exact Hm].
Defined.
